(** * Cardiac reaction-diffusion engine: a shallow embedding

    The C++ sources embedded here are [src/FitzHughNagumo.cpp] (the
    simplified excitable model with its text persistence) and
    [src/CardiacElectrophysiology.cpp] (the masked diffusion operator and
    the two detailed ionic models), together with the terrain grid [DTM]
    and the demonstration driver that calls the simplified model.

    Conventions.
    - [double] is IEEE binary64: Rocq's primitive [float]; every arithmetic
      expression keeps the association and operand order of the source.
    - [int] is [Z]. All integer arithmetic in the embedded code is on loop
      counters and grid sizes bounded by the sizes of live vectors, so no
      wrap-around can occur and none is written out.
    - [std::vector<std::vector<T>>] is [list (list T)]; [operator[]] out of
      range is undefined behaviour, rendered as [None].
    - A member function that mutates [*this] takes the object and returns the
      new object inside [option]; [None] means that the call does not
      complete normally (undefined behaviour, or a standard-library
      exception leaving the function). *)

From Stdlib Require Import ZArith Floats String Ascii Lia.
From stdpp Require Import base option list.

Set Warnings "-inexact-float".
Local Open Scope Z_scope.

(** ** Vectors indexed by [int] *)

Definition grid (A : Type) : Type := list (list A).

(** [v[i]] as an rvalue. *)
Definition idx {A} (v : list A) (i : Z) : option A :=
  if i <? 0 then None else v !! Z.to_nat i.

(** [v[i] = a]. *)
Definition upd {A} (v : list A) (i : Z) (a : A) : option (list A) :=
  if (0 <=? i) && (i <? Z.of_nat (length v)) then Some (<[Z.to_nat i := a]> v)
  else None.

(** [g[y][x]] as an rvalue. *)
Definition get {A} (g : grid A) (y x : Z) : option A :=
  row ← idx g y; idx row x.

(** [g[y][x] = a]. *)
Definition set {A} (g : grid A) (y x : Z) (a : A) : option (grid A) :=
  row ← idx g y; row' ← upd row x a; upd g y row'.

(** [std::vector<std::vector<T>>(h, std::vector<T>(w, a))]; also the result
    of [resize] on freshly constructed vectors. *)
Definition filled {A} (h w : Z) (a : A) : grid A :=
  replicate (Z.to_nat h) (replicate (Z.to_nat w) a).

(** [std::vector<std::vector<T>> g(h, std::vector<T>(w, a))] as a local:
    a negative [int] converts to a [size_t] above [max_size()] and the
    vector constructor throws. *)
Definition fresh {A} (h w : Z) (a : A) : option (grid A) :=
  if (h <? 0) || (w <? 0) then None else Some (filled h w a).

(** Every cell of the [h] by [w] rectangle can be indexed. *)
Definition covers {A} (g : grid A) (h w : Z) : Prop :=
  ∀ y x, 0 <= y < h → 0 <= x < w → is_Some (get g y x).

(** [covers], as a test. *)
Definition coversb {A} (g : grid A) (h w : Z) : bool :=
  forallb (λ y, forallb (λ x, bool_decide (is_Some (get g y x))) (seqZ 0 w))
    (seqZ 0 h).

(** ** Loops *)

(** [for (int i = lo; i < hi; ++i)] visits [range lo hi]. *)
Definition range (lo hi : Z) : list Z := seqZ lo (hi - lo).

Fixpoint for_loop {I S} (l : list I) (body : I → S → option S) (s : S)
  : option S :=
  match l with
  | [] => Some s
  | i :: l' => s' ← body i s; for_loop l' body s'
  end.

(** The doubly nested loop over rows [y0 <= y < y1], columns [x0 <= x < x1]. *)
Definition for_cells {S} (y0 y1 x0 x1 : Z) (body : Z → Z → S → option S)
  : S → option S :=
  for_loop (range y0 y1) (λ y, for_loop (range x0 x1) (λ x, body y x)).

(** The cells the nested loop visits, in row-major order. *)
Definition cells (y0 y1 x0 x1 : Z) : list (Z * Z) :=
  y ← range y0 y1; (λ x, (y, x)) <$> range x0 x1.

(** The five-point sum both diffusion operators compute at [(x, y)]:
    [g[y-1][x] + g[y+1][x] + g[y][x-1] + g[y][x+1] - 4.0 * g[y][x]]. *)
Definition stencil (g : grid float) (y x : Z) : option float :=
  n ← get g (y - 1) x;
  s ← get g (y + 1) x;
  w ← get g y (x - 1);
  e ← get g y (x + 1);
  c ← get g y x;
  Some (n + s + w + e - 4.0 * c)%float.

(** Neither an infinity nor a not-a-number. *)
Definition finite (x : float) : bool :=
  match Prim2SF x with
  | S754_zero _ | S754_finite _ _ _ => true
  | S754_infinity _ | S754_nan => false
  end.

(** ** Formatted text input and output

    The part of [<fstream>] that [saveState] and [loadState] use, on the
    characters of the file. The stream classes belong to the C++ standard
    library, not to the repository: [operator<<] and [operator>>] are
    modelled here in the classic locale with default format flags, the
    extraction of numbers as libstdc++ performs it. *)

Module IOStream.

Definition text : Type := list ascii.

Definition code (c : ascii) : Z := Z.of_N (N_of_ascii c).

(** [std::isspace] in the classic locale. *)
Definition isspace (c : ascii) : bool :=
  (code c =? 32) || ((9 <=? code c) && (code c <=? 13)).

Definition isdigit (c : ascii) : bool := (48 <=? code c) && (code c <=? 57).

Definition digit_val (c : ascii) : Z := code c - 48.

Definition digit_char (d : Z) : ascii := ascii_of_N (Z.to_N (48 + d)).

Definition is_char (c d : ascii) : bool := code c =? code d.

(** The value of a run of decimal digits, most significant first. *)
Definition digits_value (ds : text) : Z :=
  fold_left (λ acc c, 10 * acc + digit_val c) ds 0.

(** *** Output *)

Fixpoint digits_from (fuel : nat) (n : Z) (acc : text) : text :=
  match fuel with
  | O => acc
  | S fuel' =>
      let acc' := digit_char (n mod 10) :: acc in
      if n <? 10 then acc' else digits_from fuel' (n / 10) acc'
  end.

(** The decimal digits of [n >= 0], without leading zeros. *)
Definition digits (n : Z) : text := digits_from (S (Z.to_nat (Z.log2 n))) n [].

(** [os << n] for an [int]. *)
Definition insert_int (n : Z) : text :=
  if n <? 0 then "-"%char :: digits (- n) else digits n.

(** [n / d] rounded to the nearest integer, ties to even. *)
Definition div_nearest_even (n d : Z) : Z :=
  let q := n / d in
  let r := n mod d in
  match 2 * r ?= d with
  | Lt => q
  | Gt => q + 1
  | Eq => if Z.even q then q else q + 1
  end.

(** The exact value of a positive finite double [m * 2^e] as a fraction. *)
Definition fraction_of (m : positive) (e : Z) : Z * Z :=
  if 0 <=? e then (Z.pos m * 2 ^ e, 1) else (Z.pos m, 2 ^ (- e)).

(** [n / d < 10^k] *)
Definition below_pow10 (n d k : Z) : bool :=
  if 0 <=? k then n <? d * 10 ^ k else n * 10 ^ (- k) <? d.

(** The decimal exponent of [n / d]: the [k] with
    [10^k <= n / d < 10^(k+1)], searched upwards from [k]. *)
Fixpoint decimal_exponent (fuel : nat) (n d k : Z) : Z :=
  match fuel with
  | O => k
  | S fuel' =>
      if below_pow10 n d (k + 1) then k else decimal_exponent fuel' n d (k + 1)
  end.

(** [n / d] as six significant decimal digits and a decimal exponent:
    [(D, X)] stands for [D * 10^(X - 5)] with [100000 <= D <= 999999]. *)
Definition six_digits (n d : Z) : Z * Z :=
  let X := decimal_exponent 700 n d (-330) in
  let D := if 0 <=? X - 5 then div_nearest_even n (d * 10 ^ (X - 5))
           else div_nearest_even (n * 10 ^ (5 - X)) d in
  if D =? 1000000 then (100000, X + 1) else (D, X).

(** The six digit characters of [D]. *)
Definition six_chars (D : Z) : text :=
  (λ k, digit_char ((D / 10 ^ k) mod 10)) <$> [5; 4; 3; 2; 1; 0].

Fixpoint strip_zeros_rev (r : text) : text :=
  match r with
  | c :: r' => if is_char c "0" then strip_zeros_rev r' else r
  | [] => []
  end.

(** Removes the trailing zeros of a fractional part. *)
Definition strip_zeros (f : text) : text := rev (strip_zeros_rev (rev f)).

Definition with_point (i f : text) : text :=
  match strip_zeros f with
  | [] => i
  | f' => i ++ "."%char :: f'
  end.

(** The exponent part of the scientific style: a sign and at least two
    digits. *)
Definition exponent_chars (X : Z) : text :=
  let ds := digits (Z.abs X) in
  "e"%char :: (if X <? 0 then "-"%char else "+"%char)
  :: (if Z.abs X <? 10 then "0"%char :: ds else ds).

(** The [%g] conversion with precision 6 of a positive value. *)
Definition general_format (n d : Z) : text :=
  let '(D, X) := six_digits n d in
  let cs := six_chars D in
  if (X <? -4) || (6 <=? X) then
    with_point (take 1 cs) (drop 1 cs) ++ exponent_chars X
  else if 0 <=? X then
    with_point (take (Z.to_nat (X + 1)) cs) (drop (Z.to_nat (X + 1)) cs)
  else
    with_point ["0"%char] (replicate (Z.to_nat (- X - 1)) "0"%char ++ cs).

(** [os << x] for a [double], with the default precision 6 and no
    [fixed] or [scientific] flag. (A not-a-number may also print with a
    sign; extraction rejects it either way.) *)
Definition insert_double (x : float) : text :=
  match Prim2SF x with
  | S754_nan => ["n"; "a"; "n"]%char
  | S754_infinity s =>
      if s then ["-"; "i"; "n"; "f"]%char else ["i"; "n"; "f"]%char
  | S754_zero s => if s then ["-"; "0"]%char else ["0"]%char
  | S754_finite s m e =>
      let '(n, d) := fraction_of m e in
      if s then "-"%char :: general_format n d else general_format n d
  end.

(** *** Input *)

(** [std::ifstream] after opening: the characters not yet read and
    [failbit]. *)
Record istream : Type := mk_istream { buf : text; failbit : bool }.

Fixpoint skipws (s : text) : text :=
  match s with
  | c :: s' => if isspace c then skipws s' else s
  | [] => []
  end.

Fixpoint span_digits (s : text) : text * text :=
  match s with
  | c :: s' =>
      if isdigit c then let '(ds, r) := span_digits s' in (c :: ds, r)
      else ([], s)
  | [] => ([], [])
  end.

Definition INT_MAX : Z := 2147483647.
Definition INT_MIN : Z := -2147483648.

(** [is >> n] for an [int]: the new stream and the value stored in [n],
    [None] when nothing is stored (the stream had failed already, or only
    white space was left). A failed conversion stores 0, one out of range
    stores the nearest limit; both set [failbit]. *)
Definition extract_int (s : istream) : istream * option Z :=
  if failbit s then (s, None)
  else
    match skipws (buf s) with
    | [] => (mk_istream [] true, None)
    | c :: r =>
        let '(neg, r1) :=
          if is_char c "-" then (true, r)
          else if is_char c "+" then (false, r) else (false, c :: r) in
        let '(ds, r2) := span_digits r1 in
        match ds with
        | [] => (mk_istream r2 true, Some 0)
        | _ =>
            let v := if neg : bool then - digits_value ds else digits_value ds in
            if INT_MAX <? v then (mk_istream r2 true, Some INT_MAX)
            else if v <? INT_MIN then (mk_istream r2 true, Some INT_MIN)
            else (mk_istream r2 false, Some v)
        end
    end.

(** The characters [num_get] accumulates for a floating-point value after
    the optional sign: digits, one decimal point before any exponent, one
    exponent letter after at least one digit, with its optional sign.
    (Leading zeros are kept one by one; the value is the same.) *)
Fixpoint scan_float (s : text) (mant dec sci : bool) : text * text :=
  match s with
  | [] => ([], [])
  | c :: s' =>
      if isdigit c then
        let '(t, r) := scan_float s' true dec sci in (c :: t, r)
      else if is_char c "." && negb dec && negb sci then
        let '(t, r) := scan_float s' mant true sci in (c :: t, r)
      else if (is_char c "e" || is_char c "E") && negb sci && mant then
        match s' with
        | [] => (["e"%char], [])
        | c2 :: s'' =>
            if is_char c2 "+" || is_char c2 "-" then
              let '(t, r) := scan_float s'' mant dec true in
              ("e"%char :: c2 :: t, r)
            else
              let '(t, r) := scan_float s' mant dec true in ("e"%char :: t, r)
        end
      else ([], s)
  end.

Definition accumulate_float (s : text) : text * text :=
  match s with
  | c :: s' =>
      if is_char c "+" || is_char c "-" then
        let '(t, r) := scan_float s' false false false in (c :: t, r)
      else scan_float s false false false
  | [] => ([], [])
  end.

(** [strtod] on the accumulated characters, accepted only when it consumes
    them all: sign, mantissa digits [M] and decimal exponent [e10] of the
    value [M * 10^e10]. *)
Definition parse_decimal (t : text) : option (bool * Z * Z) :=
  let '(neg, t1) :=
    match t with
    | c :: r =>
        if is_char c "-" then (true, r)
        else if is_char c "+" then (false, r) else (false, t)
    | [] => (false, [])
    end in
  let '(int_ds, t2) := span_digits t1 in
  let '(frac_ds, t3) :=
    match t2 with
    | c :: r => if is_char c "." then span_digits r else ([], t2)
    | [] => ([], [])
    end in
  match int_ds ++ frac_ds with
  | [] => None
  | ds =>
      let M := digits_value ds in
      let fd := Z.of_nat (length frac_ds) in
      match t3 with
      | [] => Some (neg, M, - fd)
      | c :: r =>
          if is_char c "e" || is_char c "E" then
            let '(eneg, r1) :=
              match r with
              | c2 :: r' =>
                  if is_char c2 "-" then (true, r')
                  else if is_char c2 "+" then (false, r') else (false, r)
              | [] => (false, [])
              end in
            let '(exp_ds, r2) := span_digits r1 in
            match exp_ds, r2 with
            | _ :: _, [] =>
                let E := digits_value exp_ds in
                Some (neg, M, (if eneg : bool then - E else E) - fd)
            | _, _ => None
            end
          else None
      end
  end.

(** The double nearest to [M * 10^e10] (ties to even), as [strtod]
    returns it. *)
Definition decimal_to_double (neg : bool) (M e10 : Z) : spec_float :=
  match M with
  | Zpos p =>
      if 0 <=? e10 then
        binary_normalize prec emax (if neg then - (M * 10 ^ e10) else M * 10 ^ e10)
          0 false
      else
        SFdiv prec emax (S754_finite neg p 0)
          (S754_finite false (Z.to_pos (10 ^ (- e10))) 0)
  | _ => S754_zero neg
  end.

(** [std::numeric_limits<double>::max()] *)
Definition DBL_MAX : float := 0x1.fffffffffffffp+1023%float.

(** [is >> x] for a [double]: the new stream and the value stored in [x],
    [None] when nothing is stored. A failed conversion stores 0, an
    overflow stores the largest finite double with its sign; both set
    [failbit]. *)
Definition extract_double (s : istream) : istream * option float :=
  if failbit s then (s, None)
  else
    match skipws (buf s) with
    | [] => (mk_istream [] true, None)
    | b =>
        let '(xtrc, rest) := accumulate_float b in
        match parse_decimal xtrc with
        | None => (mk_istream rest true, Some 0.0%float)
        | Some (neg, M, e10) =>
            match decimal_to_double neg M e10 with
            | S754_infinity sg =>
                (mk_istream rest true,
                 Some (if sg then (- DBL_MAX)%float else DBL_MAX))
            | sf => (mk_istream rest false, Some (SF2Prim sf))
            end
        end
    end.

(** [n] successive extractions [is >> x] of a [double] that all succeed:
    the values stored, in order, and the stream after the last. *)
Fixpoint extract_doubles (n : nat) (s : istream)
  : option (list float * istream) :=
  match n with
  | O => Some ([], s)
  | S n' =>
      let '(s', stored) := extract_double s in
      if failbit s' then None
      else
        v ← stored;
        '(vs, s'') ← extract_doubles n' s';
        Some (v :: vs, s'')
  end.

(** What reading back the text written for [x] stores, when the whole
    text is consumed without failure. *)
Definition reread (x : float) : option float :=
  match extract_double (mk_istream (insert_double x) false) with
  | (mk_istream [] false, Some v) => Some v
  | _ => None
  end.

(** What follows a number in a file: nothing, or white space. *)
Definition boundary (rest : text) : Prop :=
  match rest with [] => True | c :: _ => isspace c = true end.

(** [std::endl] writes a line feed. *)
Definition newline : ascii := "010"%char.

End IOStream.

(** ** The simplified excitable model: [FitzHughNagumo] *)

Module FitzHughNagumo.

(** The data members of the class, in declaration order. *)
Record t : Type := mk {
  width_ : Z;
  height_ : Z;
  dt_ : float;
  time_ : float;
  a_ : float;
  b_ : float;
  c_ : float;
  d_ : float;
  du_ : float;
  dv_ : float;
  u_ : grid float;
  v_ : grid float;
  u_new_ : grid float;
  v_new_ : grid float;
  stimulus_ : grid float
}.

(** The constructor. [resize] receives the [int] converted to [size_t]: a
    negative height, or a negative width with at least one row to resize,
    exceeds [max_size()] and throws; [None] stands for that exception. *)
Definition new (width height : Z) (dt : float) : option t :=
  if (height <? 0) || ((0 <? height) && (width <? 0)) then None
  else Some {|
    width_ := width; height_ := height; dt_ := dt; time_ := 0.0;
    a_ := 0.1; b_ := 0.5; c_ := 1.0; d_ := 0.0; du_ := 0.1; dv_ := 0.0;
    u_ := filled height width 0.0%float;
    v_ := filled height width 0.0%float;
    u_new_ := filled height width 0.0%float;
    v_new_ := filled height width 0.0%float;
    stimulus_ := filled height width 0.0%float |}.

(** [initialize]: the values drawn from [dis(gen)] are an argument, in
    the order the loop draws them; the generator itself is not modelled. *)
Definition initialize (draws : nat → float) (m : t) : option t :=
  '(u, v, st, _) ← for_cells 0 (height_ m) 0 (width_ m)
    (λ y x '(u, v, st, k),
       u' ← set u y x (draws k);
       v' ← set v y x (draws (S k));
       st' ← set st y x 0.0%float;
       Some (u', v', st', S (S k)))
    (u_ m, v_ m, stimulus_ m, 0%nat);
  Some {| width_ := width_ m; height_ := height_ m; dt_ := dt_ m; time_ := 0.0;
          a_ := a_ m; b_ := b_ m; c_ := c_ m; d_ := d_ m;
          du_ := du_ m; dv_ := dv_ m;
          u_ := u; v_ := v; u_new_ := u_new_ m; v_new_ := v_new_ m;
          stimulus_ := st |}.

Definition setParameters (a b c d : float) (m : t) : t :=
  {| width_ := width_ m; height_ := height_ m; dt_ := dt_ m; time_ := time_ m;
     a_ := a; b_ := b; c_ := c; d_ := d; du_ := du_ m; dv_ := dv_ m;
     u_ := u_ m; v_ := v_ m; u_new_ := u_new_ m; v_new_ := v_new_ m;
     stimulus_ := stimulus_ m |}.

Definition setDiffusionCoefficients (du dv : float) (m : t) : t :=
  {| width_ := width_ m; height_ := height_ m; dt_ := dt_ m; time_ := time_ m;
     a_ := a_ m; b_ := b_ m; c_ := c_ m; d_ := d_ m; du_ := du; dv_ := dv;
     u_ := u_ m; v_ := v_ m; u_new_ := u_new_ m; v_new_ := v_new_ m;
     stimulus_ := stimulus_ m |}.

Definition with_fields (u v : grid float) (m : t) : t :=
  {| width_ := width_ m; height_ := height_ m; dt_ := dt_ m; time_ := time_ m;
     a_ := a_ m; b_ := b_ m; c_ := c_ m; d_ := d_ m; du_ := du_ m; dv_ := dv_ m;
     u_ := u; v_ := v; u_new_ := u_new_ m; v_new_ := v_new_ m;
     stimulus_ := stimulus_ m |}.

Definition with_stimulus (st : grid float) (m : t) : t :=
  {| width_ := width_ m; height_ := height_ m; dt_ := dt_ m; time_ := time_ m;
     a_ := a_ m; b_ := b_ m; c_ := c_ m; d_ := d_ m; du_ := du_ m; dv_ := dv_ m;
     u_ := u_ m; v_ := v_ m; u_new_ := u_new_ m; v_new_ := v_new_ m;
     stimulus_ := st |}.

(** [x >= 0 && x < width_ && y >= 0 && y < height_] *)
Definition isValidCoordinate (m : t) (x y : Z) : bool :=
  (0 <=? x) && (x <? width_ m) && (0 <=? y) && (y <? height_ m).

(** The size test of [setInitialConditions]: [size()] is compared with the
    [int] member, and only row 0 is measured. *)
Definition init_dims_ok (m : t) (u_init v_init : grid float) : bool :=
  negb ((negb (Z.of_nat (length u_init) =? height_ m))
        || (negb (Z.of_nat (length v_init) =? height_ m))
        || ((0 <? height_ m)
            && ((negb (from_option (λ r, Z.of_nat (length r) =? width_ m) false (idx u_init 0)))
                || (negb (from_option (λ r, Z.of_nat (length r) =? width_ m) false (idx v_init 0)))))).

(** [setInitialConditions]: on a size mismatch the object is returned as it
    was (the message on [std::cerr] is not modelled); otherwise the values
    are copied cell by cell, and a short row of either argument is indexed
    out of range ([None]). *)
Definition setInitialConditions (u_init v_init : grid float) (m : t) : option t :=
  if negb (init_dims_ok m u_init v_init) then Some m
  else
    '(u, v) ← for_cells 0 (height_ m) 0 (width_ m)
      (λ y x '(u, v),
         ui ← get u_init y x;
         u' ← set u y x ui;
         vi ← get v_init y x;
         v' ← set v y x vi;
         Some (u', v'))
      (u_ m, v_ m);
    Some (with_fields u v m).

(** [addStimulus]: [duration] is accepted and not used. *)
Definition addStimulus (x y : Z) (strength duration : float) (m : t) : option t :=
  if negb (isValidCoordinate m x y) then Some m
  else st ← set (stimulus_ m) y x strength; Some (with_stimulus st m).

(** The five-point stencil over the interior cells. *)
Definition applyDiffusion (m : t) (g : grid float) (coeff : float)
  (result : grid float) : option (grid float) :=
  for_cells 1 (height_ m - 1) 1 (width_ m - 1)
    (λ y x result,
       laplacian ← stencil g y x;
       set result y x (coeff * laplacian)%float)
    result.

Definition reactionU (u_val v_val stim_val : float) : float :=
  (u_val - u_val * u_val * u_val / 3.0 - v_val + stim_val)%float.

Definition reactionV (m : t) (u_val v_val : float) : float :=
  ((u_val + a_ m - b_ m * v_val) / c_ m)%float.

(** The first half of [step]: the two derivative buffers after the
    diffusion calls ([du_ > 0.0] and [dv_ > 0.0] guard them). *)
Definition diffusion_terms (m : t) : option (grid float * grid float) :=
  du_dt ← fresh (height_ m) (width_ m) 0.0%float;
  dv_dt ← fresh (height_ m) (width_ m) 0.0%float;
  du_dt ← (if (0.0 <? du_ m)%float then applyDiffusion m (u_ m) (du_ m) du_dt
           else Some du_dt);
  dv_dt ← (if (0.0 <? dv_ m)%float then applyDiffusion m (v_ m) (dv_ m) dv_dt
           else Some dv_dt);
  Some (du_dt, dv_dt).

(** The body of the update loop of [step] at cell [(x, y)]; the loop state
    is [(du_dt, dv_dt, u_new_, v_new_)]. *)
Definition step_cell (m : t) (y x : Z)
  (st : grid float * grid float * grid float * grid float)
  : option (grid float * grid float * grid float * grid float) :=
  let '(du_dt, dv_dt, u_new, v_new) := st in
  u_val ← get (u_ m) y x;
  v_val ← get (v_ m) y x;
  stim_val ← get (stimulus_ m) y x;
  du0 ← get du_dt y x;
  du_dt ← set du_dt y x (du0 + reactionU u_val v_val stim_val)%float;
  dv0 ← get dv_dt y x;
  dv_dt ← set dv_dt y x (dv0 + reactionV m u_val v_val)%float;
  du1 ← get du_dt y x;
  u_new ← set u_new y x (u_val + dt_ m * du1)%float;
  dv1 ← get dv_dt y x;
  v_new ← set v_new y x (v_val + dt_ m * dv1)%float;
  Some (du_dt, dv_dt, u_new, v_new).

(** [step]: diffusion, the update loop, the two swaps, [time_ += dt_]. *)
Definition step (m : t) : option t :=
  '(du_dt, dv_dt) ← diffusion_terms m;
  '(_, _, u_new, v_new) ← for_cells 0 (height_ m) 0 (width_ m) (step_cell m)
                            (du_dt, dv_dt, u_new_ m, v_new_ m);
  Some {| width_ := width_ m; height_ := height_ m; dt_ := dt_ m;
          time_ := (time_ m + dt_ m)%float;
          a_ := a_ m; b_ := b_ m; c_ := c_ m; d_ := d_ m;
          du_ := du_ m; dv_ := dv_ m;
          u_ := u_new; v_ := v_new; u_new_ := u_ m; v_new_ := v_ m;
          stimulus_ := stimulus_ m |}.

(** [run]: [for (int i = 0; i < steps; ++i) step();] *)
Definition run (steps : Z) (m : t) : option t :=
  for_loop (range 0 steps) (λ _, step) m.

(** The characters written for one row of [g]: the values separated by
    single spaces, then [std::endl]. *)
Definition save_row (m : t) (g : grid float) (y : Z) (out : IOStream.text)
  : option IOStream.text :=
  out ← for_loop (range 0 (width_ m))
           (λ x out,
              v ← get g y x;
              Some (out ++ IOStream.insert_double v
                        ++ (if x <? width_ m - 1 then [" "%char] else [])))
           out;
  Some (out ++ [IOStream.newline]).

(** The characters [saveState] writes once the file is open. *)
Definition save_text (m : t) : option IOStream.text :=
  let out :=
    IOStream.insert_int (width_ m) ++ [" "%char]
    ++ IOStream.insert_int (height_ m) ++ [" "%char]
    ++ IOStream.insert_double (time_ m) ++ [IOStream.newline] in
  let out :=
    out ++ IOStream.insert_double (a_ m) ++ [" "%char]
        ++ IOStream.insert_double (b_ m) ++ [" "%char]
        ++ IOStream.insert_double (c_ m) ++ [" "%char]
        ++ IOStream.insert_double (d_ m) ++ [IOStream.newline] in
  let out :=
    out ++ IOStream.insert_double (du_ m) ++ [" "%char]
        ++ IOStream.insert_double (dv_ m) ++ [IOStream.newline] in
  out ← for_loop (range 0 (height_ m)) (save_row m (u_ m)) out;
  for_loop (range 0 (height_ m)) (save_row m (v_ m)) out.

(** [saveState]: [opened] tells whether [std::ofstream file(filename)]
    could create the file; the result is the returned flag and the
    characters written. Write errors are not detected by the source (the
    stream does not throw) and are not modelled. *)
Definition saveState (opened : bool) (m : t) : option (bool * IOStream.text) :=
  if negb opened then Some (false, [])
  else out ← save_text m; Some (true, out).

(** The members [loadState] assigns. *)
Definition with_loaded (time a b c d du dv : float) (u v : grid float) (m : t)
  : t :=
  {| width_ := width_ m; height_ := height_ m; dt_ := dt_ m; time_ := time;
     a_ := a; b_ := b; c_ := c; d_ := d; du_ := du; dv_ := dv;
     u_ := u; v_ := v; u_new_ := u_new_ m; v_new_ := v_new_ m;
     stimulus_ := stimulus_ m |}.

(** [file >> file_width >> file_height >> time_]: the stream, the two
    locals ([None]: never written) and the new [time_]. *)
Definition load_dims (content : IOStream.text) (m : t)
  : IOStream.istream * option Z * option Z * float :=
  let s := IOStream.mk_istream content false in
  let '(s, file_width) := IOStream.extract_int s in
  let '(s, file_height) := IOStream.extract_int s in
  let '(s, time) := IOStream.extract_double s in
  (s, file_width, file_height, default (time_ m) time).

(** [file >> a_ >> b_ >> c_ >> d_; file >> du_ >> dv_;] *)
Definition load_parameters (s : IOStream.istream) (time : float) (m : t)
  : IOStream.istream * t :=
  let '(s, a) := IOStream.extract_double s in
  let '(s, b) := IOStream.extract_double s in
  let '(s, c) := IOStream.extract_double s in
  let '(s, d) := IOStream.extract_double s in
  let '(s, du) := IOStream.extract_double s in
  let '(s, dv) := IOStream.extract_double s in
  (s, with_loaded time (default (a_ m) a) (default (b_ m) b)
        (default (c_ m) c) (default (d_ m) d) (default (du_ m) du)
        (default (dv_ m) dv) (u_ m) (v_ m) m).

(** The body of a read loop at cell [(x, y)]; the loop state is the
    stream, the grid and whether [return false] was reached. *)
Definition load_cell (y x : Z) (st : IOStream.istream * grid float * bool)
  : option (IOStream.istream * grid float * bool) :=
  let '(s, g, returned) := st in
  if returned : bool then Some st
  else
    _ ← get g y x;
    let '(s', stored) := IOStream.extract_double s in
    g' ← match stored with Some v => set g y x v | None => Some g end;
    Some (s', g', IOStream.failbit s').

(** One read loop of [loadState] over a whole field. *)
Definition load_field (m : t) (g : grid float) (s : IOStream.istream)
  : option (IOStream.istream * grid float * bool) :=
  for_cells 0 (height_ m) 0 (width_ m) load_cell (s, g, false).

(** [loadState]: [file] is the content of the file, [None] when it cannot
    be opened. Comparing a local that no extraction wrote is undefined. *)
Definition loadState (file : option IOStream.text) (m : t) : option (bool * t) :=
  match file with
  | None => Some (false, m)
  | Some content =>
      let '(s, file_width, file_height, time) := load_dims content m in
      let m0 := with_loaded time (a_ m) (b_ m) (c_ m) (d_ m) (du_ m) (dv_ m)
                  (u_ m) (v_ m) m in
      w ← file_width;
      if negb (w =? width_ m) then Some (false, m0)
      else
        h ← file_height;
        if negb (h =? height_ m) then Some (false, m0)
        else
          let '(s, m1) := load_parameters s time m in
          '(s, u, returned) ← load_field m (u_ m) s;
          let m2 := with_fields u (v_ m) m1 in
          if returned : bool then Some (false, m2)
          else
            '(s, v, returned) ← load_field m (v_ m) s;
            let m3 := with_fields u v m1 in
            if returned : bool then Some (false, m3) else Some (true, m3)
  end.

(** The cell a read loop leaves at position [i] of its row-major order
    when the first [k] extractions stored [vs] and the next one failed,
    storing [stored] or nothing; [old] is the cell before the call. *)
Definition partly_read (old : option float) (vs : list float)
  (stored : option float) (k i : nat) : option float :=
  if (i <? k)%nat then vs !! i
  else if (i =? k)%nat then
    match stored with Some v => Some v | None => old end
  else old.

(** [loadState] with the locals [file_width] and [file_height] holding
    [init_w] and [init_h] until an extraction writes them: what the
    function does when a local that no extraction wrote is read as the
    value its storage holds. Where [loadState] above has a result, this
    is the same result. *)
Definition loadState_from (init_w init_h : Z) (file : option IOStream.text)
  (m : t) : option (bool * t) :=
  match file with
  | None => Some (false, m)
  | Some content =>
      let '(s, file_width, file_height, time) := load_dims content m in
      let m0 := with_loaded time (a_ m) (b_ m) (c_ m) (d_ m) (du_ m) (dv_ m)
                  (u_ m) (v_ m) m in
      let w := default init_w file_width in
      if negb (w =? width_ m) then Some (false, m0)
      else
        let h := default init_h file_height in
        if negb (h =? height_ m) then Some (false, m0)
        else
          let '(s, m1) := load_parameters s time m in
          '(s, u, returned) ← load_field m (u_ m) s;
          let m2 := with_fields u (v_ m) m1 in
          if returned : bool then Some (false, m2)
          else
            '(s, v, returned) ← load_field m (v_ m) s;
            let m3 := with_fields u v m1 in
            if returned : bool then Some (false, m3) else Some (true, m3)
  end.

(** The file [saveState] writes, as one text. *)
Definition cell_text (m : t) (g : grid float) (y x : Z) : IOStream.text :=
  IOStream.insert_double (default 0.0%float (get g y x))
  ++ (if x <? width_ m - 1 then [" "%char] else []).

Definition row_text (m : t) (g : grid float) (y : Z) : IOStream.text :=
  concat (cell_text m g y <$> range 0 (width_ m)) ++ [IOStream.newline].

Definition field_text (m : t) (g : grid float) : IOStream.text :=
  concat (row_text m g <$> range 0 (height_ m)).

Definition file_text (m : t) : IOStream.text :=
  IOStream.insert_int (width_ m) ++ " "%char
  :: IOStream.insert_int (height_ m) ++ " "%char
  :: IOStream.insert_double (time_ m) ++ IOStream.newline
  :: IOStream.insert_double (a_ m) ++ " "%char
  :: IOStream.insert_double (b_ m) ++ " "%char
  :: IOStream.insert_double (c_ m) ++ " "%char
  :: IOStream.insert_double (d_ m) ++ IOStream.newline
  :: IOStream.insert_double (du_ m) ++ " "%char
  :: IOStream.insert_double (dv_ m) ++ IOStream.newline
  :: field_text m (u_ m) ++ field_text m (v_ m).

(** Every number [saveState] writes is one that extraction reads back
    (infinities and not-a-number are not). *)
Definition readable (m : t) : Prop :=
  Forall (λ x, is_Some (IOStream.reread x))
    [time_ m; a_ m; b_ m; c_ m; d_ m; du_ m; dv_ m]
  ∧ ∀ y x, 0 <= y < height_ m → 0 <= x < width_ m →
      is_Some (IOStream.reread (default 0.0%float (get (u_ m) y x)))
      ∧ is_Some (IOStream.reread (default 0.0%float (get (v_ m) y x))).

Definition readableb (m : t) : bool :=
  forallb (λ x, bool_decide (is_Some (IOStream.reread x)))
    [time_ m; a_ m; b_ m; c_ m; d_ m; du_ m; dv_ m]
  && forallb (λ y, forallb (λ x,
        bool_decide (is_Some (IOStream.reread (default 0.0%float (get (u_ m) y x))))
        && bool_decide (is_Some (IOStream.reread (default 0.0%float (get (v_ m) y x)))))
       (seqZ 0 (width_ m))) (seqZ 0 (height_ m)).

(** The loop state of [step] seen at one cell. *)
Definition cell4 (st : grid float * grid float * grid float * grid float)
  (p : Z * Z) : option (float * float * float * float) :=
  let '(du, dv, un, vn) := st in
  a ← get du p.1 p.2; b ← get dv p.1 p.2;
  c ← get un p.1 p.2; d ← get vn p.1 p.2; Some (a, b, c, d).

(** The Euler update of one cell from its derivative-buffer content. *)
Definition euler_cell (m : t) (p : Z * Z) (c : float * float * float * float)
  : float * float * float * float :=
  let u := default 0%float (get (u_ m) p.1 p.2) in
  let v := default 0%float (get (v_ m) p.1 p.2) in
  let st := default 0%float (get (stimulus_ m) p.1 p.2) in
  let du := (c.1.1.1 + reactionU u v st)%float in
  let dv := (c.1.1.2 + reactionV m u v)%float in
  (du, dv, (u + dt_ m * du)%float, (v + dt_ m * dv)%float).

(** Two objects that differ at most in simulation time and in the four
    field buffers. *)
Definition same_config (m m' : t) : Prop :=
  width_ m' = width_ m ∧ height_ m' = height_ m ∧ dt_ m' = dt_ m
  ∧ a_ m' = a_ m ∧ b_ m' = b_ m ∧ c_ m' = c_ m ∧ d_ m' = d_ m
  ∧ du_ m' = du_ m ∧ dv_ m' = dv_ m ∧ stimulus_ m' = stimulus_ m.

(** Every grid of the object can be indexed over the whole
    [height_] by [width_] rectangle, as after construction. *)
Definition wf (m : t) : Prop :=
  0 <= height_ m ∧ 0 <= width_ m
  ∧ covers (u_ m) (height_ m) (width_ m)
  ∧ covers (v_ m) (height_ m) (width_ m)
  ∧ covers (u_new_ m) (height_ m) (width_ m)
  ∧ covers (v_new_ m) (height_ m) (width_ m)
  ∧ covers (stimulus_ m) (height_ m) (width_ m).

(** Two objects with the same grid, time step, time, parameters and
    diffusion coefficients. *)
Definition same_scalars (m1 m2 : t) : Prop :=
  width_ m1 = width_ m2 ∧ height_ m1 = height_ m2 ∧ dt_ m1 = dt_ m2
  ∧ time_ m1 = time_ m2
  ∧ a_ m1 = a_ m2 ∧ b_ m1 = b_ m2 ∧ c_ m1 = c_ m2 ∧ d_ m1 = d_ m2
  ∧ du_ m1 = du_ m2 ∧ dv_ m1 = dv_ m2.

(** Two objects that hold the same values in every cell of the two fields
    and of the stimulus buffer; the scratch buffers [u_new_] and [v_new_]
    are not compared. *)
Definition agree (m1 m2 : t) : Prop :=
  same_scalars m1 m2
  ∧ ∀ y x, 0 <= y < height_ m1 → 0 <= x < width_ m1 →
      get (u_ m1) y x = get (u_ m2) y x
      ∧ get (v_ m1) y x = get (v_ m2) y x
      ∧ get (stimulus_ m1) y x = get (stimulus_ m2) y x.

Definition wfb (m : t) : bool :=
  (0 <=? height_ m) && (0 <=? width_ m)
  && coversb (u_ m) (height_ m) (width_ m)
  && coversb (v_ m) (height_ m) (width_ m)
  && coversb (u_new_ m) (height_ m) (width_ m)
  && coversb (v_new_ m) (height_ m) (width_ m)
  && coversb (stimulus_ m) (height_ m) (width_ m).

End FitzHughNagumo.

(** ** The base class of the ionic models: [CardiacElectrophysiology] *)

Module CardiacElectrophysiology.

(** The data members the constructor initialises. *)
Record t : Type := mk {
  width_ : Z;
  height_ : Z;
  dt_ : float;
  time_ : float;
  conductivity_ : float;
  mi_region_ : grid bool
}.

Definition new (width height : Z) (dt : float) : option t :=
  if (height <? 0) || ((0 <? height) && (width <? 0)) then None
  else Some {| width_ := width; height_ := height; dt_ := dt; time_ := 0.0;
               conductivity_ := 1.0; mi_region_ := filled height width false |}.

(** The size test of [setMIRegion]: the number of rows and the length of
    row 0. *)
Definition mask_dims_ok (m : t) (mi_region : grid bool) : bool :=
  negb ((negb (Z.of_nat (length mi_region) =? height_ m))
        || ((0 <? height_ m)
            && negb (from_option (λ r, Z.of_nat (length r) =? width_ m) false
                       (idx mi_region 0)))).

(** [setMIRegion]: a rejected mask leaves the object as it was; an accepted
    one is copy-assigned whole. *)
Definition setMIRegion (mi_region : grid bool) (m : t) : t :=
  if negb (mask_dims_ok m mi_region) then m
  else {| width_ := width_ m; height_ := height_ m; dt_ := dt_ m;
          time_ := time_ m; conductivity_ := conductivity_ m;
          mi_region_ := mi_region |}.

(** [setConductivity], defined in the class body. *)
Definition setConductivity (conductivity : float) (m : t) : t :=
  {| width_ := width_ m; height_ := height_ m; dt_ := dt_ m;
     time_ := time_ m; conductivity_ := conductivity;
     mi_region_ := mi_region_ m |}.

(** The body of the stencil loop at cell [(x, y)]. *)
Definition diffuse_cell (m : t) (g : grid float) (y x : Z)
  (result : grid float) : option (grid float) :=
  scar ← get (mi_region_ m) y x;
  if scar : bool then set result y x 0.0%float
  else
    laplacian ← stencil g y x;
    set result y x (conductivity_ m * laplacian)%float.

(** The masked five-point stencil over the interior cells. *)
Definition applyDiffusion (m : t) (g : grid float) (result : grid float)
  : option (grid float) :=
  for_cells 1 (height_ m - 1) 1 (width_ m - 1) (diffuse_cell m g) result.

Definition advance (m : t) : t :=
  {| width_ := width_ m; height_ := height_ m; dt_ := dt_ m;
     time_ := (time_ m + dt_ m)%float; conductivity_ := conductivity_ m;
     mi_region_ := mi_region_ m |}.

(** Two base sub-objects that differ at most in simulation time. *)
Definition same_grid (m m' : t) : Prop :=
  width_ m' = width_ m ∧ height_ m' = height_ m ∧ dt_ m' = dt_ m
  ∧ conductivity_ m' = conductivity_ m ∧ mi_region_ m' = mi_region_ m.

(** The virtual interface: [step] is overridden by each model, [run] is
    inherited. *)
Class Model (M : Type) : Type := {
  base : M → t;
  step : M → option M
}.

Definition run {M} `{Model M} (steps : Z) (m : M) : option M :=
  for_loop (range 0 steps) (λ _, step) m.

End CardiacElectrophysiology.

(** [std::map<std::string, double>]: [operator[]] on an absent key yields
    the value-initialised [0.0]. *)
Definition current_map : Type := list (string * float).

Fixpoint map_get (k : string) (m : current_map) : float :=
  match m with
  | [] => 0.0%float
  | (k', v) :: m' => if String.eqb k k' then v else map_get k m'
  end.

Fixpoint map_set (k : string) (v : float) (m : current_map) : current_map :=
  match m with
  | [] => [(k, v)]
  | (k', v') :: m' =>
      if String.eqb k k' then (k, v) :: m' else (k', v') :: map_set k v m'
  end.

(** Range-based [for] over a [std::map<std::string, double>] visits the
    entries in increasing key order ([std::string] compares byte-wise). *)
Fixpoint insert_by_key (e : string * float) (l : list (string * float))
  : list (string * float) :=
  match l with
  | [] => [e]
  | e' :: l' =>
      if String.ltb e'.1 e.1 then e' :: insert_by_key e l' else e :: l
  end.

Definition in_key_order (m : current_map) : list (string * float) :=
  foldr insert_by_key [] m.

(** [std::map<std::string, std::vector<std::vector<double>>>]:
    [operator[]] on an absent key yields the value-initialised empty
    vector. *)
Definition current_maps : Type := list (string * grid float).

Fixpoint maps_get (k : string) (m : current_maps) : grid float :=
  match m with
  | [] => []
  | (k', g) :: m' => if String.eqb k k' then g else maps_get k m'
  end.

Fixpoint maps_set (k : string) (g : grid float) (m : current_maps)
  : current_maps :=
  match m with
  | [] => [(k, g)]
  | (k', g') :: m' =>
      if String.eqb k k' then (k, g) :: m' else (k', g') :: maps_set k g m'
  end.

(** [std::max(a, b)] is [(a < b) ? b : a]; [std::min(a, b)] is
    [(b < a) ? b : a]. *)
Definition std_max (a b : float) : float := if (a <? b)%float then b else a.
Definition std_min (a b : float) : float := if (b <? a)%float then b else a.

(** The closed interval test [lo <= c && c <= hi] on doubles. *)
Definition in_range (lo hi c : float) : bool :=
  ((lo <=? c) && (c <=? hi))%float.

(** [exp] of [<cmath>] is not part of the repository; the models take it
    as an interface. [std::sqrt] is the IEEE operation [PrimFloat.sqrt]. *)
Class Libm : Type := { exp : float → float }.

(** ** Detailed ionic model A: [LuoRudyModel] *)

Module LuoRudyModel.
Import CardiacElectrophysiology.

Record t : Type := mk {
  super : CardiacElectrophysiology.t;
  V_ : grid float;
  m_ : grid float;
  h_ : grid float;
  j_ : grid float;
  xr_ : grid float;
  xs_ : grid float;
  d_ : grid float;
  f_ : grid float;
  fca_ : grid float;
  Cai_ : grid float;
  CaSR_ : grid float;
  GNa_ : float;
  Gsi_ : float;
  GK_ : float;
  GK1_ : float;
  Gb_ : float;
  GCaL_ : float
}.

Definition with_conductances (GNa Gsi GK GK1 Gb GCaL : float) (m : t) : t :=
  {| super := super m; V_ := V_ m; m_ := m_ m; h_ := h_ m; j_ := j_ m;
     xr_ := xr_ m; xs_ := xs_ m; d_ := d_ m; f_ := f_ m; fca_ := fca_ m;
     Cai_ := Cai_ m; CaSR_ := CaSR_ m;
     GNa_ := GNa; Gsi_ := Gsi; GK_ := GK; GK1_ := GK1; Gb_ := Gb;
     GCaL_ := GCaL |}.

(** [setCellType]: an unrecognised label changes nothing. *)
Definition setCellType (cell_type : string) (m : t) : t :=
  if String.eqb cell_type "normal" then
    with_conductances 23.0 0.09 0.282 0.6047 0.03921 0.000175 m
  else if String.eqb cell_type "ischemic" then
    with_conductances 15.0 0.06 0.2 0.4 0.03 0.00012 m
  else if String.eqb cell_type "infarcted" then
    with_conductances 2.0 0.01 0.05 0.1 0.01 0.00002 m
  else m.

(** The constructor; the six conductances are first set by the call
    [setCellType("normal")] that ends it. *)
Definition new (width height : Z) (dt : float) : option t :=
  b ← CardiacElectrophysiology.new width height dt;
  let g a := filled height width a in
  Some (setCellType "normal"
    {| super := b;
       V_ := g (-84.0)%float; m_ := g 0.0%float; h_ := g 1.0%float;
       j_ := g 1.0%float; xr_ := g 0.0%float; xs_ := g 0.0%float;
       d_ := g 0.0%float; f_ := g 1.0%float; fca_ := g 1.0%float;
       Cai_ := g 0.0002%float; CaSR_ := g 0.2%float;
       GNa_ := 0.0; Gsi_ := 0.0; GK_ := 0.0; GK1_ := 0.0; Gb_ := 0.0;
       GCaL_ := 0.0 |}).

(** Replaces the mask held by the base sub-object. *)
Definition setMIRegion (mi_region : grid bool) (m : t) : t :=
  {| super := CardiacElectrophysiology.setMIRegion mi_region (super m);
     V_ := V_ m; m_ := m_ m; h_ := h_ m; j_ := j_ m;
     xr_ := xr_ m; xs_ := xs_ m; d_ := d_ m; f_ := f_ m; fca_ := fca_ m;
     Cai_ := Cai_ m; CaSR_ := CaSR_ m;
     GNa_ := GNa_ m; Gsi_ := Gsi_ m; GK_ := GK_ m; GK1_ := GK1_ m;
     Gb_ := Gb_ m; GCaL_ := GCaL_ m |}.

(** The fields the update loop of [step] writes in place. *)
Definition with_gates (m' h' xr' Cai' : grid float) (m : t) : t :=
  {| super := super m; V_ := V_ m; m_ := m'; h_ := h'; j_ := j_ m;
     xr_ := xr'; xs_ := xs_ m; d_ := d_ m; f_ := f_ m; fca_ := fca_ m;
     Cai_ := Cai'; CaSR_ := CaSR_ m;
     GNa_ := GNa_ m; Gsi_ := Gsi_ m; GK_ := GK_ m; GK1_ := GK1_ m;
     Gb_ := Gb_ m; GCaL_ := GCaL_ m |}.

(** [V_ = V_new; time_ += dt_;] *)
Definition commit (V_new : grid float) (m : t) : t :=
  {| super := advance (super m); V_ := V_new; m_ := m_ m; h_ := h_ m;
     j_ := j_ m; xr_ := xr_ m; xs_ := xs_ m; d_ := d_ m; f_ := f_ m;
     fca_ := fca_ m; Cai_ := Cai_ m; CaSR_ := CaSR_ m;
     GNa_ := GNa_ m; Gsi_ := Gsi_ m; GK_ := GK_ m; GK1_ := GK1_ m;
     Gb_ := Gb_ m; GCaL_ := GCaL_ m |}.

Section WithLibm.
Context `{Libm}.

Definition calculateIonicCurrents (m : t) (x y : Z) : option current_map :=
  V ← get (V_ m) y x;
  Cai ← get (Cai_ m) y x;
  let currents : current_map := [] in
  let ENa := 54.4%float in
  mv ← get (m_ m) y x;
  hv ← get (h_ m) y x;
  jv ← get (j_ m) y x;
  let currents :=
    map_set "INa" (GNa_ m * mv * mv * mv * hv * jv * (V - ENa))%float currents in
  let ECa := 130.0%float in
  dv ← get (d_ m) y x;
  fv ← get (f_ m) y x;
  fcav ← get (fca_ m) y x;
  let currents :=
    map_set "ICaL" (GCaL_ m * dv * fv * fcav * (V - ECa))%float currents in
  let EK := (-77.0)%float in
  xrv ← get (xr_ m) y x;
  xsv ← get (xs_ m) y x;
  let currents :=
    map_set "IK" (GK_ m * xrv * xsv * (V - EK))%float currents in
  let currents :=
    map_set "IK1" (GK1_ m * (V - EK) / (1 + exp (0.07 * (V + 80))))%float
      currents in
  let currents := map_set "Ib" (Gb_ m * (V + 59.87))%float currents in
  let currents := map_set "ICaT" (0.0005 * dv * (V - ECa))%float currents in
  Some currents.

(** The body of the update loop of [step] at cell [(x, y)]; the loop state
    is the object together with the local [V_new]. *)
Definition step_cell (dV_dt : grid float) (y x : Z) (st : t * grid float)
  : option (t * grid float) :=
  let '(m, V_new) := st in
  let dt := dt_ (super m) in
  scar ← get (mi_region_ (super m)) y x;
  if scar : bool then
    v ← get (V_ m) y x;
    V_new ← set V_new y x v;
    Some (m, V_new)
  else
    currents ← calculateIonicCurrents m x y;
    let I_total :=
      (map_get "INa" currents + map_get "ICaL" currents + map_get "IK" currents
       + map_get "IK1" currents + map_get "Ib" currents
       + map_get "ICaT" currents)%float in
    dvdt ← get dV_dt y x;
    let dV := (- (I_total + dvdt) * dt)%float in
    v ← get (V_ m) y x;
    V_new ← set V_new y x (v + dV)%float;
    V_val ← get (V_ m) y x;
    let alpha_m :=
      (0.32 * (V_val + 47.13) / (1 - exp (-0.1 * (V_val + 47.13))))%float in
    let beta_m := (0.08 * exp (- V_val / 11.0))%float in
    m0 ← get (m_ m) y x;
    m' ← set (m_ m) y x (m0 + dt * (alpha_m * (1 - m0) - beta_m * m0))%float;
    let alpha_h := (0.135 * exp (- (V_val + 80) / 6.8))%float in
    let beta_h :=
      (3.56 * exp (0.079 * V_val) + 3.1e6 * exp (0.35 * V_val))%float in
    h0 ← get (h_ m) y x;
    h' ← set (h_ m) y x (h0 + dt * (alpha_h * (1 - h0) - beta_h * h0))%float;
    let alpha_xr :=
      (0.0005 * exp (0.083 * (V_val + 50))
       / (1 + exp (0.057 * (V_val + 50))))%float in
    let beta_xr :=
      (0.0013 * exp (-0.06 * (V_val + 20))
       / (1 + exp (-0.04 * (V_val + 20))))%float in
    xr0 ← get (xr_ m) y x;
    xr' ← set (xr_ m) y x
            (xr0 + dt * (alpha_xr * (1 - xr0) - beta_xr * xr0))%float;
    c0 ← get (Cai_ m) y x;
    Cai' ← set (Cai_ m) y x
             (c0 + dt * 0.001 * (- map_get "ICaL" currents - 0.0001 * c0))%float;
    c1 ← get Cai' y x;
    Cai' ← set Cai' y x (std_max 0.0001 (std_min 0.01 c1));
    Some (with_gates m' h' xr' Cai' m, V_new).

(** [LuoRudyModel::step] *)
Definition step (m : t) : option t :=
  let b := super m in
  V_new ← fresh (height_ b) (width_ b) 0.0%float;
  dV_dt ← fresh (height_ b) (width_ b) 0.0%float;
  dV_dt ← applyDiffusion b (V_ m) dV_dt;
  '(m', V_new) ← for_cells 0 (height_ b) 0 (width_ b) (step_cell dV_dt)
                   (m, V_new);
  Some (commit V_new m').

#[global] Instance model : Model t :=
  {| CardiacElectrophysiology.base := super;
     CardiacElectrophysiology.step := step |}.

(** What the update loop of [step] computes at a cell that is not
    flagged: [I_total] from the currents of the cell, and the new gate and
    calcium values from the stored potential [V_val] and the old value. *)
Definition total_current (currents : current_map) : float :=
  (map_get "INa" currents + map_get "ICaL" currents + map_get "IK" currents
   + map_get "IK1" currents + map_get "Ib" currents
   + map_get "ICaT" currents)%float.

Definition next_m (dt V_val m0 : float) : float :=
  let alpha_m :=
    (0.32 * (V_val + 47.13) / (1 - exp (-0.1 * (V_val + 47.13))))%float in
  let beta_m := (0.08 * exp (- V_val / 11.0))%float in
  (m0 + dt * (alpha_m * (1 - m0) - beta_m * m0))%float.

Definition next_h (dt V_val h0 : float) : float :=
  let alpha_h := (0.135 * exp (- (V_val + 80) / 6.8))%float in
  let beta_h :=
    (3.56 * exp (0.079 * V_val) + 3.1e6 * exp (0.35 * V_val))%float in
  (h0 + dt * (alpha_h * (1 - h0) - beta_h * h0))%float.

Definition next_xr (dt V_val xr0 : float) : float :=
  let alpha_xr :=
    (0.0005 * exp (0.083 * (V_val + 50))
     / (1 + exp (0.057 * (V_val + 50))))%float in
  let beta_xr :=
    (0.0013 * exp (-0.06 * (V_val + 20))
     / (1 + exp (-0.04 * (V_val + 20))))%float in
  (xr0 + dt * (alpha_xr * (1 - xr0) - beta_xr * xr0))%float.

Definition next_Cai (dt ICaL c0 : float) : float :=
  std_max 0.0001
    (std_min 0.01 (c0 + dt * 0.001 * (- ICaL - 0.0001 * c0))%float).

(** The names [getIonicCurrents] creates its maps for. *)
Definition current_names : list string :=
  ["INa"; "ICaL"; "IK"; "IK1"; "Ib"; "ICaT"]%string.

(** [for (const auto& pair : currents)
       current_maps[pair.first][y][x] = pair.second;] *)
Definition store_currents (y x : Z) (pairs : list (string * float))
  (maps : current_maps) : option current_maps :=
  for_loop pairs
    (λ pair maps,
       g ← set (maps_get pair.1 maps) y x pair.2;
       Some (maps_set pair.1 g maps))
    maps.

(** [getIonicCurrents]: one grid per name, sized [height_] by [width_],
    then the currents of every cell, flagged or not. *)
Definition getIonicCurrents (m : t) : option current_maps :=
  let b := super m in
  maps ← for_loop current_names
            (λ name maps,
               g ← fresh (height_ b) (width_ b) 0.0%float;
               Some (maps_set name g maps))
            [];
  for_cells 0 (height_ b) 0 (width_ b)
    (λ y x maps,
       currents ← calculateIonicCurrents m x y;
       store_currents y x (in_key_order currents) maps)
    maps.

End WithLibm.
(** The grids [step] reads, apart from the mask. *)
Definition fields (m : t) : list (grid float) :=
  [V_ m; m_ m; h_ m; j_ m; xr_ m; xs_ m; d_ m; f_ m; fca_ m; Cai_ m].

(** The object with other contents in [Gsi_] and [CaSR_]. *)
Definition with_unused (Gsi : float) (CaSR : grid float) (m : t) : t :=
  {| super := super m; V_ := V_ m; m_ := m_ m; h_ := h_ m; j_ := j_ m;
     xr_ := xr_ m; xs_ := xs_ m; d_ := d_ m; f_ := f_ m; fca_ := fca_ m;
     Cai_ := Cai_ m; CaSR_ := CaSR;
     GNa_ := GNa_ m; Gsi_ := Gsi; GK_ := GK_ m; GK1_ := GK1_ m;
     Gb_ := Gb_ m; GCaL_ := GCaL_ m |}.

(** The mask and every grid [step] reads can be indexed over the whole
    [height_] by [width_] rectangle, as after construction. *)
Definition wf (m : t) : Prop :=
  0 <= height_ (super m) ∧ 0 <= width_ (super m)
  ∧ covers (mi_region_ (super m)) (height_ (super m)) (width_ (super m))
  ∧ Forall (λ g, covers g (height_ (super m)) (width_ (super m))) (fields m).

Definition wfb (m : t) : bool :=
  (0 <=? height_ (super m)) && (0 <=? width_ (super m))
  && coversb (mi_region_ (super m)) (height_ (super m)) (width_ (super m))
  && forallb (λ g, coversb g (height_ (super m)) (width_ (super m))) (fields m).

(** What the update loop of [step] leaves alone. *)
Definition frame (m m' : t) : Prop :=
  super m' = super m ∧ V_ m' = V_ m ∧ j_ m' = j_ m ∧ xs_ m' = xs_ m
  ∧ d_ m' = d_ m ∧ f_ m' = f_ m ∧ fca_ m' = fca_ m ∧ CaSR_ m' = CaSR_ m
  ∧ GNa_ m' = GNa_ m ∧ Gsi_ m' = Gsi_ m ∧ GK_ m' = GK_ m
  ∧ GK1_ m' = GK1_ m ∧ Gb_ m' = Gb_ m ∧ GCaL_ m' = GCaL_ m.

(** The loop state of [step] seen at one cell: the entries of [V_new],
    [m_], [h_], [xr_] and [Cai_]. *)
Definition loop_cell (st : t * grid float) (p : Z * Z)
  : option (float * float * float * float * float) :=
  vn ← get st.2 p.1 p.2; mv ← get (m_ st.1) p.1 p.2;
  hv ← get (h_ st.1) p.1 p.2; xr ← get (xr_ st.1) p.1 p.2;
  ca ← get (Cai_ st.1) p.1 p.2; Some (vn, mv, hv, xr, ca).

(** How the update loop of [step] changes one cell: a flagged cell takes
    the stored potential into [V_new] and keeps its gates and calcium; any
    other cell ends with its calcium inside the clamp interval. *)
Definition cell_rel (m0 : t) (p : Z * Z)
  (c c' : float * float * float * float * float) : Prop :=
  (get (mi_region_ (super m0)) p.1 p.2 = Some true
   ∧ get (V_ m0) p.1 p.2 = Some c'.1.1.1.1
   ∧ c'.1.1.1.2 = c.1.1.1.2 ∧ c'.1.1.2 = c.1.1.2 ∧ c'.1.2 = c.1.2 ∧ c'.2 = c.2)
  ∨ (get (mi_region_ (super m0)) p.1 p.2 = Some false
     ∧ in_range 0.0001 0.01 c'.2 = true).

(** Every cell's calcium concentration lies in [[1e-4, 1e-2]]. *)
Definition calcium_bounded (m : t) : Prop :=
  ∀ y x, 0 <= y < height_ (super m) → 0 <= x < width_ (super m) →
    ∃ c, get (Cai_ m) y x = Some c ∧ in_range 0.0001 0.01 c = true.

(** How the update loop of [step] changes a cell that is not flagged,
    exactly: in any object [mm] that holds the loop state's values [c] at
    the cell and agrees with [m0] on what the loop leaves alone, the
    currents of the cell give the new values [c']. *)
Definition exact_rel `{Libm} (m0 : t) (dV : grid float) (p : Z * Z)
  (c c' : float * float * float * float * float) : Prop :=
  get (mi_region_ (super m0)) p.1 p.2 = Some false →
  ∀ mm, frame m0 mm →
    get (m_ mm) p.1 p.2 = Some c.1.1.1.2 → get (h_ mm) p.1 p.2 = Some c.1.1.2 →
    get (xr_ mm) p.1 p.2 = Some c.1.2 → get (Cai_ mm) p.1 p.2 = Some c.2 →
    ∃ cur D V,
      calculateIonicCurrents mm p.2 p.1 = Some cur
      ∧ get dV p.1 p.2 = Some D ∧ get (V_ m0) p.1 p.2 = Some V
      ∧ c' = ((V + - (total_current cur + D) * dt_ (super m0))%float,
              next_m (dt_ (super m0)) V c.1.1.1.2,
              next_h (dt_ (super m0)) V c.1.1.2,
              next_xr (dt_ (super m0)) V c.1.2,
              next_Cai (dt_ (super m0)) (map_get "ICaL" cur) c.2).

End LuoRudyModel.

(** ** Detailed ionic model B: [TenTusscherModel] *)

Module TenTusscherModel.
Import CardiacElectrophysiology.

Record t : Type := mk {
  super : CardiacElectrophysiology.t;
  V_ : grid float;
  m_ : grid float;
  h_ : grid float;
  j_ : grid float;
  oa_ : grid float;
  oi_ : grid float;
  d_ : grid float;
  f_ : grid float;
  fca_ : grid float;
  u_ : grid float;
  v_ : grid float;
  w_ : grid float;
  Cai_ : grid float;
  CaSR_ : grid float;
  CaSS_ : grid float;
  Nai_ : grid float;
  Ki_ : grid float;
  GNa_ : float;
  GCaL_ : float;
  GKr_ : float;
  GKs_ : float;
  GK1_ : float;
  Gto_ : float;
  GNaCa_ : float;
  GNaK_ : float
}.

Definition with_conductances
  (GNa GCaL GKr GKs GK1 Gto GNaCa GNaK : float) (m : t) : t :=
  {| super := super m; V_ := V_ m; m_ := m_ m; h_ := h_ m; j_ := j_ m;
     oa_ := oa_ m; oi_ := oi_ m; d_ := d_ m; f_ := f_ m; fca_ := fca_ m;
     u_ := u_ m; v_ := v_ m; w_ := w_ m; Cai_ := Cai_ m; CaSR_ := CaSR_ m;
     CaSS_ := CaSS_ m; Nai_ := Nai_ m; Ki_ := Ki_ m;
     GNa_ := GNa; GCaL_ := GCaL; GKr_ := GKr; GKs_ := GKs; GK1_ := GK1;
     Gto_ := Gto; GNaCa_ := GNaCa; GNaK_ := GNaK |}.

(** [setVariant]: an unrecognised label changes nothing. *)
Definition setVariant (variant : string) (m : t) : t :=
  if String.eqb variant "epi" then
    with_conductances 75.0 0.000175 0.046 0.0034 0.1908 0.294 1000.0 1.362 m
  else if String.eqb variant "endo" then
    with_conductances 75.0 0.000175 0.023 0.0034 0.1908 0.073 1000.0 1.362 m
  else if String.eqb variant "mid" then
    with_conductances 75.0 0.000175 0.023 0.0034 0.1908 0.294 1000.0 1.362 m
  else m.

(** The constructor; the eight conductances are first set by the call
    [setVariant("epi")] that ends it. *)
Definition new (width height : Z) (dt : float) : option t :=
  b ← CardiacElectrophysiology.new width height dt;
  let g a := filled height width a in
  Some (setVariant "epi"
    {| super := b;
       V_ := g (-86.2)%float; m_ := g 0.0%float; h_ := g 0.75%float;
       j_ := g 0.75%float; oa_ := g 0.0%float; oi_ := g 1.0%float;
       d_ := g 0.0%float; f_ := g 1.0%float; fca_ := g 1.0%float;
       u_ := g 0.0%float; v_ := g 1.0%float; w_ := g 1.0%float;
       Cai_ := g 0.0002%float; CaSR_ := g 0.2%float;
       CaSS_ := g 0.0002%float; Nai_ := g 11.6%float; Ki_ := g 138.3%float;
       GNa_ := 0.0; GCaL_ := 0.0; GKr_ := 0.0; GKs_ := 0.0; GK1_ := 0.0;
       Gto_ := 0.0; GNaCa_ := 0.0; GNaK_ := 0.0 |}).

(** Replaces the mask held by the base sub-object. *)
Definition setMIRegion (mi_region : grid bool) (m : t) : t :=
  {| super := CardiacElectrophysiology.setMIRegion mi_region (super m);
     V_ := V_ m; m_ := m_ m; h_ := h_ m; j_ := j_ m;
     oa_ := oa_ m; oi_ := oi_ m; d_ := d_ m; f_ := f_ m; fca_ := fca_ m;
     u_ := u_ m; v_ := v_ m; w_ := w_ m; Cai_ := Cai_ m; CaSR_ := CaSR_ m;
     CaSS_ := CaSS_ m; Nai_ := Nai_ m; Ki_ := Ki_ m;
     GNa_ := GNa_ m; GCaL_ := GCaL_ m; GKr_ := GKr_ m; GKs_ := GKs_ m;
     GK1_ := GK1_ m; Gto_ := Gto_ m; GNaCa_ := GNaCa_ m; GNaK_ := GNaK_ m |}.

(** The fields the update loop of [step] writes in place. *)
Definition with_gates (m' u' Cai' : grid float) (m : t) : t :=
  {| super := super m; V_ := V_ m; m_ := m'; h_ := h_ m; j_ := j_ m;
     oa_ := oa_ m; oi_ := oi_ m; d_ := d_ m; f_ := f_ m; fca_ := fca_ m;
     u_ := u'; v_ := v_ m; w_ := w_ m; Cai_ := Cai'; CaSR_ := CaSR_ m;
     CaSS_ := CaSS_ m; Nai_ := Nai_ m; Ki_ := Ki_ m;
     GNa_ := GNa_ m; GCaL_ := GCaL_ m; GKr_ := GKr_ m; GKs_ := GKs_ m;
     GK1_ := GK1_ m; Gto_ := Gto_ m; GNaCa_ := GNaCa_ m; GNaK_ := GNaK_ m |}.

(** [V_ = V_new; time_ += dt_;] *)
Definition commit (V_new : grid float) (m : t) : t :=
  {| super := advance (super m); V_ := V_new; m_ := m_ m; h_ := h_ m;
     j_ := j_ m; oa_ := oa_ m; oi_ := oi_ m; d_ := d_ m; f_ := f_ m;
     fca_ := fca_ m; u_ := u_ m; v_ := v_ m; w_ := w_ m; Cai_ := Cai_ m;
     CaSR_ := CaSR_ m; CaSS_ := CaSS_ m; Nai_ := Nai_ m; Ki_ := Ki_ m;
     GNa_ := GNa_ m; GCaL_ := GCaL_ m; GKr_ := GKr_ m; GKs_ := GKs_ m;
     GK1_ := GK1_ m; Gto_ := Gto_ m; GNaCa_ := GNaCa_ m; GNaK_ := GNaK_ m |}.

Section WithLibm.
Context `{Libm}.

Definition calculateIonicCurrents (m : t) (x y : Z) : option current_map :=
  V ← get (V_ m) y x;
  Cai ← get (Cai_ m) y x;
  Nai ← get (Nai_ m) y x;
  Ki ← get (Ki_ m) y x;
  let currents : current_map := [] in
  let ENa := 54.4%float in
  mv ← get (m_ m) y x;
  hv ← get (h_ m) y x;
  jv ← get (j_ m) y x;
  let currents :=
    map_set "INa" (GNa_ m * mv * mv * mv * hv * jv * (V - ENa))%float currents in
  let ECa := 130.0%float in
  dv ← get (d_ m) y x;
  fv ← get (f_ m) y x;
  fcav ← get (fca_ m) y x;
  let currents :=
    map_set "ICaL" (GCaL_ m * dv * fv * fcav * (V - ECa))%float currents in
  let EKr := (-77.0)%float in
  uv ← get (u_ m) y x;
  let currents :=
    map_set "IKr" (GKr_ m * PrimFloat.sqrt (Ki / 5.4) * uv * (V - EKr))%float
      currents in
  let EKs := (-77.0)%float in
  vv ← get (v_ m) y x;
  let currents := map_set "IKs" (GKs_ m * vv * (V - EKs))%float currents in
  let currents :=
    map_set "IK1"
      (GK1_ m * PrimFloat.sqrt (Ki / 5.4) * (V - EKr)
       / (1 + exp (0.07 * (V + 80))))%float currents in
  oav ← get (oa_ m) y x;
  oiv ← get (oi_ m) y x;
  let currents :=
    map_set "Ito" (Gto_ m * oav * oiv * (V - EKr))%float currents in
  let currents :=
    map_set "INaCa"
      (GNaCa_ m
       * (exp (0.03743 * V) * Nai * Nai * Nai * Cai
          - exp (-0.03743 * V) * 1.0 * 1.0 * 1.0 * 1.4)
       / (1 + 0.1 * exp (-0.03743 * V)))%float currents in
  let currents :=
    map_set "INaK" (GNaK_ m * Ki / (Ki + 1.0) * Nai / (Nai + 40.0))%float
      currents in
  Some currents.

(** The body of the update loop of [step] at cell [(x, y)]; the loop state
    is the object together with the local [V_new]. *)
Definition step_cell (dV_dt : grid float) (y x : Z) (st : t * grid float)
  : option (t * grid float) :=
  let '(m, V_new) := st in
  let dt := dt_ (super m) in
  scar ← get (mi_region_ (super m)) y x;
  if scar : bool then
    v ← get (V_ m) y x;
    V_new ← set V_new y x v;
    Some (m, V_new)
  else
    currents ← calculateIonicCurrents m x y;
    let I_total :=
      (map_get "INa" currents + map_get "ICaL" currents
       + map_get "IKr" currents + map_get "IKs" currents
       + map_get "IK1" currents + map_get "Ito" currents
       + map_get "INaCa" currents + map_get "INaK" currents)%float in
    dvdt ← get dV_dt y x;
    let dV := (- (I_total + dvdt) * dt)%float in
    v ← get (V_ m) y x;
    V_new ← set V_new y x (v + dV)%float;
    V_val ← get (V_ m) y x;
    let alpha_m :=
      (0.32 * (V_val + 47.13) / (1 - exp (-0.1 * (V_val + 47.13))))%float in
    let beta_m := (0.08 * exp (- V_val / 11.0))%float in
    m0 ← get (m_ m) y x;
    m' ← set (m_ m) y x (m0 + dt * (alpha_m * (1 - m0) - beta_m * m0))%float;
    let alpha_xr :=
      (0.0005 * exp (0.083 * (V_val + 50))
       / (1 + exp (0.057 * (V_val + 50))))%float in
    let beta_xr :=
      (0.0013 * exp (-0.06 * (V_val + 20))
       / (1 + exp (-0.04 * (V_val + 20))))%float in
    u0 ← get (u_ m) y x;
    u' ← set (u_ m) y x
           (u0 + dt * (alpha_xr * (1 - u0) - beta_xr * u0))%float;
    c0 ← get (Cai_ m) y x;
    Cai' ← set (Cai_ m) y x
             (c0 + dt * 0.001 * (- map_get "ICaL" currents - 0.0001 * c0))%float;
    c1 ← get Cai' y x;
    Cai' ← set Cai' y x (std_max 0.0001 (std_min 0.01 c1));
    Some (with_gates m' u' Cai' m, V_new).

(** [TenTusscherModel::step] *)
Definition step (m : t) : option t :=
  let b := super m in
  V_new ← fresh (height_ b) (width_ b) 0.0%float;
  dV_dt ← fresh (height_ b) (width_ b) 0.0%float;
  dV_dt ← applyDiffusion b (V_ m) dV_dt;
  '(m', V_new) ← for_cells 0 (height_ b) 0 (width_ b) (step_cell dV_dt)
                   (m, V_new);
  Some (commit V_new m').

#[global] Instance model : Model t :=
  {| CardiacElectrophysiology.base := super;
     CardiacElectrophysiology.step := step |}.

(** What the update loop of [step] computes at a cell that is not
    flagged: [I_total] from the currents of the cell, and the new gate and
    calcium values from the stored potential [V_val] and the old value. *)
Definition total_current (currents : current_map) : float :=
  (map_get "INa" currents + map_get "ICaL" currents
   + map_get "IKr" currents + map_get "IKs" currents
   + map_get "IK1" currents + map_get "Ito" currents
   + map_get "INaCa" currents + map_get "INaK" currents)%float.

Definition next_m (dt V_val m0 : float) : float :=
  let alpha_m :=
    (0.32 * (V_val + 47.13) / (1 - exp (-0.1 * (V_val + 47.13))))%float in
  let beta_m := (0.08 * exp (- V_val / 11.0))%float in
  (m0 + dt * (alpha_m * (1 - m0) - beta_m * m0))%float.

Definition next_u (dt V_val u0 : float) : float :=
  let alpha_xr :=
    (0.0005 * exp (0.083 * (V_val + 50))
     / (1 + exp (0.057 * (V_val + 50))))%float in
  let beta_xr :=
    (0.0013 * exp (-0.06 * (V_val + 20))
     / (1 + exp (-0.04 * (V_val + 20))))%float in
  (u0 + dt * (alpha_xr * (1 - u0) - beta_xr * u0))%float.

Definition next_Cai (dt ICaL c0 : float) : float :=
  std_max 0.0001
    (std_min 0.01 (c0 + dt * 0.001 * (- ICaL - 0.0001 * c0))%float).

End WithLibm.
(** The grids [step] reads, apart from the mask. *)
Definition fields (m : t) : list (grid float) :=
  [V_ m; m_ m; h_ m; j_ m; oa_ m; oi_ m; d_ m; f_ m; fca_ m; u_ m; v_ m;
   Cai_ m; Nai_ m; Ki_ m].

(** The object with other contents in [w_], [CaSR_] and [CaSS_]. *)
Definition with_unused (w CaSR CaSS : grid float) (m : t) : t :=
  {| super := super m; V_ := V_ m; m_ := m_ m; h_ := h_ m; j_ := j_ m;
     oa_ := oa_ m; oi_ := oi_ m; d_ := d_ m; f_ := f_ m; fca_ := fca_ m;
     u_ := u_ m; v_ := v_ m; w_ := w; Cai_ := Cai_ m; CaSR_ := CaSR;
     CaSS_ := CaSS; Nai_ := Nai_ m; Ki_ := Ki_ m;
     GNa_ := GNa_ m; GCaL_ := GCaL_ m; GKr_ := GKr_ m; GKs_ := GKs_ m;
     GK1_ := GK1_ m; Gto_ := Gto_ m; GNaCa_ := GNaCa_ m; GNaK_ := GNaK_ m |}.

(** The mask and every grid [step] reads can be indexed over the whole
    [height_] by [width_] rectangle, as after construction. *)
Definition wf (m : t) : Prop :=
  0 <= height_ (super m) ∧ 0 <= width_ (super m)
  ∧ covers (mi_region_ (super m)) (height_ (super m)) (width_ (super m))
  ∧ Forall (λ g, covers g (height_ (super m)) (width_ (super m))) (fields m).

Definition wfb (m : t) : bool :=
  (0 <=? height_ (super m)) && (0 <=? width_ (super m))
  && coversb (mi_region_ (super m)) (height_ (super m)) (width_ (super m))
  && forallb (λ g, coversb g (height_ (super m)) (width_ (super m))) (fields m).

(** What the update loop of [step] leaves alone. *)
Definition frame (m m' : t) : Prop :=
  super m' = super m ∧ V_ m' = V_ m ∧ h_ m' = h_ m ∧ j_ m' = j_ m
  ∧ oa_ m' = oa_ m ∧ oi_ m' = oi_ m ∧ d_ m' = d_ m ∧ f_ m' = f_ m
  ∧ fca_ m' = fca_ m ∧ v_ m' = v_ m ∧ w_ m' = w_ m ∧ CaSR_ m' = CaSR_ m
  ∧ CaSS_ m' = CaSS_ m ∧ Nai_ m' = Nai_ m ∧ Ki_ m' = Ki_ m
  ∧ GNa_ m' = GNa_ m ∧ GCaL_ m' = GCaL_ m ∧ GKr_ m' = GKr_ m
  ∧ GKs_ m' = GKs_ m ∧ GK1_ m' = GK1_ m ∧ Gto_ m' = Gto_ m
  ∧ GNaCa_ m' = GNaCa_ m ∧ GNaK_ m' = GNaK_ m.

(** The loop state of [step] seen at one cell: the entries of [V_new],
    [m_], [u_] and [Cai_]. *)
Definition loop_cell (st : t * grid float) (p : Z * Z)
  : option (float * float * float * float) :=
  vn ← get st.2 p.1 p.2; mv ← get (m_ st.1) p.1 p.2;
  uv ← get (u_ st.1) p.1 p.2; ca ← get (Cai_ st.1) p.1 p.2;
  Some (vn, mv, uv, ca).

(** How the update loop of [step] changes one cell: a flagged cell takes
    the stored potential into [V_new] and keeps its gates and calcium; any
    other cell ends with its calcium inside the clamp interval. *)
Definition cell_rel (m0 : t) (p : Z * Z)
  (c c' : float * float * float * float) : Prop :=
  (get (mi_region_ (super m0)) p.1 p.2 = Some true
   ∧ get (V_ m0) p.1 p.2 = Some c'.1.1.1
   ∧ c'.1.1.2 = c.1.1.2 ∧ c'.1.2 = c.1.2 ∧ c'.2 = c.2)
  ∨ (get (mi_region_ (super m0)) p.1 p.2 = Some false
     ∧ in_range 0.0001 0.01 c'.2 = true).

(** Every cell's calcium concentration lies in [[1e-4, 1e-2]]. *)
Definition calcium_bounded (m : t) : Prop :=
  ∀ y x, 0 <= y < height_ (super m) → 0 <= x < width_ (super m) →
    ∃ c, get (Cai_ m) y x = Some c ∧ in_range 0.0001 0.01 c = true.

(** How the update loop of [step] changes a cell that is not flagged,
    exactly: in any object [mm] that holds the loop state's values [c] at
    the cell and agrees with [m0] on what the loop leaves alone, the
    currents of the cell give the new values [c']. *)
Definition exact_rel `{Libm} (m0 : t) (dV : grid float) (p : Z * Z)
  (c c' : float * float * float * float) : Prop :=
  get (mi_region_ (super m0)) p.1 p.2 = Some false →
  ∀ mm, frame m0 mm →
    get (m_ mm) p.1 p.2 = Some c.1.1.2 → get (u_ mm) p.1 p.2 = Some c.1.2 →
    get (Cai_ mm) p.1 p.2 = Some c.2 →
    ∃ cur D V,
      calculateIonicCurrents mm p.2 p.1 = Some cur
      ∧ get dV p.1 p.2 = Some D ∧ get (V_ m0) p.1 p.2 = Some V
      ∧ c' = ((V + - (total_current cur + D) * dt_ (super m0))%float,
              next_m (dt_ (super m0)) V c.1.1.2,
              next_u (dt_ (super m0)) V c.1.2,
              next_Cai (dt_ (super m0)) (map_get "ICaL" cur) c.2).

End TenTusscherModel.

(** ** The terrain grid: [DTM]

    The class [DTM] shares the source file of the ionic models. *)

(** [std::atan] and [std::atan2] of [<cmath>], taken as an interface like
    [exp]. *)
Class LibmAngle : Type := {
  atan : float → float;
  atan2 : float → float → float
}.

Module DTM.

Record t : Type := mk {
  width_ : Z;
  height_ : Z;
  cell_size_ : float;
  elevation_data_ : grid float
}.

(** The constructor; it throws under the same conditions as the
    constructors of the models. *)
Definition new (width height : Z) (cell_size : float) : option t :=
  if (height <? 0) || ((0 <? height) && (width <? 0)) then None
  else Some {| width_ := width; height_ := height; cell_size_ := cell_size;
               elevation_data_ := filled height width 0.0%float |}.

Definition with_elevation (data : grid float) (d : t) : t :=
  {| width_ := width_ d; height_ := height_ d; cell_size_ := cell_size_ d;
     elevation_data_ := data |}.

(** [x >= 0 && x < width_ && y >= 0 && y < height_] *)
Definition isValidCoordinate (d : t) (x y : Z) : bool :=
  (0 <=? x) && (x <? width_ d) && (0 <=? y) && (y <? height_ d).

(** [getElevation]: an invalid coordinate yields [0.0] (the message on
    [std::cerr] is not modelled). *)
Definition getElevation (d : t) (x y : Z) : option float :=
  if negb (isValidCoordinate d x y) then Some 0.0%float
  else get (elevation_data_ d) y x.

(** [setElevation]: an invalid coordinate leaves the object as it was. *)
Definition setElevation (x y : Z) (elevation : float) (d : t) : option t :=
  if negb (isValidCoordinate d x y) then Some d
  else data ← set (elevation_data_ d) y x elevation;
       Some (with_elevation data d).

Definition getDimensions (d : t) : Z * Z := (width_ d, height_ d).

Definition getCellSize (d : t) : float := cell_size_ d.

(** [M_PI], the double nearest to pi. *)
Definition M_PI : float := 0x1.921fb54442d18p+1%float.

(** [!isValidCoordinate(x, y) || x == 0 || x == width_ - 1 || y == 0
     || y == height_ - 1] *)
Definition no_neighbourhood (d : t) (x y : Z) : bool :=
  negb (isValidCoordinate d x y) || (x =? 0) || (x =? width_ d - 1)
  || (y =? 0) || (y =? height_ d - 1).

Section WithLibmAngle.
Context `{LibmAngle}.

Definition calculateSlope (d : t) (x y : Z) : option float :=
  if no_neighbourhood d x y then Some 0.0%float
  else
    e ← getElevation d (x + 1) y;
    w ← getElevation d (x - 1) y;
    let dz_dx := ((e - w) / (2.0 * cell_size_ d))%float in
    s ← getElevation d x (y + 1);
    n ← getElevation d x (y - 1);
    let dz_dy := ((s - n) / (2.0 * cell_size_ d))%float in
    let slope_radians :=
      atan (PrimFloat.sqrt (dz_dx * dz_dx + dz_dy * dz_dy)) in
    Some (slope_radians * 180.0 / M_PI)%float.

Definition calculateAspect (d : t) (x y : Z) : option float :=
  if no_neighbourhood d x y then Some 0.0%float
  else
    e ← getElevation d (x + 1) y;
    w ← getElevation d (x - 1) y;
    let dz_dx := ((e - w) / (2.0 * cell_size_ d))%float in
    s ← getElevation d x (y + 1);
    n ← getElevation d x (y - 1);
    let dz_dy := ((s - n) / (2.0 * cell_size_ d))%float in
    let aspect_radians := atan2 dz_dy dz_dx in
    let aspect_degrees := (aspect_radians * 180.0 / M_PI)%float in
    let aspect_degrees := (90.0 - aspect_degrees)%float in
    Some (if (aspect_degrees <? 0)%float then (aspect_degrees + 360.0)%float
          else aspect_degrees).

End WithLibmAngle.

(** The characters written for row [y]: the values separated by single
    spaces, then [std::endl]. *)
Definition save_row (d : t) (y : Z) (out : IOStream.text)
  : option IOStream.text :=
  out ← for_loop (range 0 (width_ d))
           (λ x out,
              v ← get (elevation_data_ d) y x;
              Some (out ++ IOStream.insert_double v
                        ++ (if x <? width_ d - 1 then [" "%char] else [])))
           out;
  Some (out ++ [IOStream.newline]).

(** The characters [saveToFile] writes once the file is open. *)
Definition save_text (d : t) : option IOStream.text :=
  let out :=
    IOStream.insert_int (width_ d) ++ [" "%char]
    ++ IOStream.insert_int (height_ d) ++ [" "%char]
    ++ IOStream.insert_double (cell_size_ d) ++ [IOStream.newline] in
  for_loop (range 0 (height_ d)) (save_row d) out.

(** [saveToFile]: [opened] tells whether the file could be created; the
    result is the returned flag and the characters written. *)
Definition saveToFile (opened : bool) (d : t) : option (bool * IOStream.text) :=
  if negb opened then Some (false, [])
  else out ← save_text d; Some (true, out).

(** The body of the read loop at cell [(x, y)]; the loop state is the
    stream, the grid and whether [return false] was reached. *)
Definition load_cell (y x : Z) (st : IOStream.istream * grid float * bool)
  : option (IOStream.istream * grid float * bool) :=
  let '(s, g, returned) := st in
  if returned : bool then Some st
  else
    _ ← get g y x;
    let '(s', stored) := IOStream.extract_double s in
    g' ← match stored with Some v => set g y x v | None => Some g end;
    Some (s', g', IOStream.failbit s').

(** [loadFromFile]: [file] is the content of the file, [None] when it
    cannot be opened. The header is extracted into the members
    themselves. [resize] with a negative [int] converted to [size_t]
    throws [std::length_error], which the [catch] clause turns into
    [return false]; after [elevation_data_.resize(height_)] the vector has
    exactly [height_] rows, each of which the next loop resizes to
    [width_], new cells being [0.0]. (Memory is taken to suffice.) *)
Definition loadFromFile (file : option IOStream.text) (d : t)
  : option (bool * t) :=
  match file with
  | None => Some (false, d)
  | Some content =>
      let s := IOStream.mk_istream content false in
      let '(s, width) := IOStream.extract_int s in
      let '(s, height) := IOStream.extract_int s in
      let '(s, cell_size) := IOStream.extract_double s in
      let d1 := {| width_ := default (width_ d) width;
                   height_ := default (height_ d) height;
                   cell_size_ := default (cell_size_ d) cell_size;
                   elevation_data_ := elevation_data_ d |} in
      if height_ d1 <? 0 then Some (false, d1)
      else
        let rows := resize (Z.to_nat (height_ d1)) [] (elevation_data_ d) in
        if (0 <? height_ d1) && (width_ d1 <? 0) then
          Some (false, with_elevation rows d1)
        else
          let data := resize (Z.to_nat (width_ d1)) 0.0%float <$> rows in
          '(s, data, returned) ←
            for_cells 0 (height_ d1) 0 (width_ d1) load_cell (s, data, false);
          Some (negb returned, with_elevation data d1)
  end.

(** The file [saveToFile] writes, as one text. *)
Definition cell_text (d : t) (y x : Z) : IOStream.text :=
  IOStream.insert_double (default 0.0%float (get (elevation_data_ d) y x))
  ++ (if x <? width_ d - 1 then [" "%char] else []).

Definition row_text (d : t) (y : Z) : IOStream.text :=
  concat (cell_text d y <$> range 0 (width_ d)) ++ [IOStream.newline].

Definition file_text (d : t) : IOStream.text :=
  IOStream.insert_int (width_ d) ++ " "%char
  :: IOStream.insert_int (height_ d) ++ " "%char
  :: IOStream.insert_double (cell_size_ d) ++ IOStream.newline
  :: concat (row_text d <$> range 0 (height_ d)).

(** The grid can be indexed over the whole [height_] by [width_]
    rectangle, as after construction. *)
Definition wf (d : t) : Prop :=
  0 <= height_ d ∧ 0 <= width_ d
  ∧ covers (elevation_data_ d) (height_ d) (width_ d).

Definition wfb (d : t) : bool :=
  (0 <=? height_ d) && (0 <=? width_ d)
  && coversb (elevation_data_ d) (height_ d) (width_ d).

(** Every number [saveToFile] writes is one that extraction reads back. *)
Definition readable (d : t) : Prop :=
  is_Some (IOStream.reread (cell_size_ d))
  ∧ ∀ y x, 0 <= y < height_ d → 0 <= x < width_ d →
      is_Some (IOStream.reread (default 0.0%float (get (elevation_data_ d) y x))).

Definition readableb (d : t) : bool :=
  bool_decide (is_Some (IOStream.reread (cell_size_ d)))
  && forallb (λ y, forallb (λ x,
        bool_decide (is_Some (IOStream.reread
                       (default 0.0%float (get (elevation_data_ d) y x)))))
       (seqZ 0 (width_ d))) (seqZ 0 (height_ d)).

End DTM.

(** ** The demonstration driver

    [runFitzHughNagumoDemo] of the command-line program: construct,
    [initialize], set parameters and coefficients, stimulate the centre
    cell, [run], [saveState]. The console output and the timing are not
    modelled; the result is the final object, the flag [saveState]
    returned and the characters written. *)

Module Main.

Definition runFitzHughNagumoDemo (draws : nat → float) (opened : bool)
  (width height steps : Z)
  : option (FitzHughNagumo.t * bool * IOStream.text) :=
  fhn ← FitzHughNagumo.new width height 0.01;
  fhn ← FitzHughNagumo.initialize draws fhn;
  let fhn := FitzHughNagumo.setParameters 0.1 0.5 1.0 0.0 fhn in
  let fhn := FitzHughNagumo.setDiffusionCoefficients 0.1 0.0 fhn in
  let center_x := Z.quot width 2 in
  let center_y := Z.quot height 2 in
  fhn ← FitzHughNagumo.addStimulus center_x center_y 1.0 10.0 fhn;
  fhn ← FitzHughNagumo.run steps fhn;
  '(saved, out) ← FitzHughNagumo.saveState opened fhn;
  Some (fhn, saved, out).

End Main.

(** ** Sample objects *)

Module Samples.

(** [FitzHughNagumo fhn(3, 3, 0.01); fhn.addStimulus(1, 1, 1.0, 10.0);] *)
Definition fhn3 : FitzHughNagumo.t :=
  {| FitzHughNagumo.width_ := 3; FitzHughNagumo.height_ := 3;
     FitzHughNagumo.dt_ := 0.01; FitzHughNagumo.time_ := 0.0;
     FitzHughNagumo.a_ := 0.1; FitzHughNagumo.b_ := 0.5;
     FitzHughNagumo.c_ := 1.0; FitzHughNagumo.d_ := 0.0;
     FitzHughNagumo.du_ := 0.1; FitzHughNagumo.dv_ := 0.0;
     FitzHughNagumo.u_ := filled 3 3 0.0%float;
     FitzHughNagumo.v_ := filled 3 3 0.0%float;
     FitzHughNagumo.u_new_ := filled 3 3 0.0%float;
     FitzHughNagumo.v_new_ := filled 3 3 0.0%float;
     FitzHughNagumo.stimulus_ :=
       [[0.0; 0.0; 0.0]; [0.0; 1.0; 0.0]; [0.0; 0.0; 0.0]]%float |}.

(** [fhn3] with other contents in the two scratch buffers. *)
Definition fhn3_scratch : FitzHughNagumo.t :=
  {| FitzHughNagumo.width_ := 3; FitzHughNagumo.height_ := 3;
     FitzHughNagumo.dt_ := 0.01; FitzHughNagumo.time_ := 0.0;
     FitzHughNagumo.a_ := 0.1; FitzHughNagumo.b_ := 0.5;
     FitzHughNagumo.c_ := 1.0; FitzHughNagumo.d_ := 0.0;
     FitzHughNagumo.du_ := 0.1; FitzHughNagumo.dv_ := 0.0;
     FitzHughNagumo.u_ := filled 3 3 0.0%float;
     FitzHughNagumo.v_ := filled 3 3 0.0%float;
     FitzHughNagumo.u_new_ := filled 3 3 7.0%float;
     FitzHughNagumo.v_new_ := filled 3 3 (-2.5)%float;
     FitzHughNagumo.stimulus_ :=
       [[0.0; 0.0; 0.0]; [0.0; 1.0; 0.0]; [0.0; 0.0; 0.0]]%float |}.

(** A file for a 2 by 2 grid, recorded time 7.5. *)
Definition file_2x2 : IOStream.text :=
  list_ascii_of_string "2 2 7.5" ++ IOStream.newline
  :: list_ascii_of_string "0.1 0.5 1 0" ++ IOStream.newline
  :: list_ascii_of_string "0.1 0" ++ IOStream.newline
  :: list_ascii_of_string "1 2" ++ IOStream.newline
  :: list_ascii_of_string "3 4" ++ IOStream.newline
  :: list_ascii_of_string "5 6" ++ IOStream.newline
  :: list_ascii_of_string "7 8" ++ [IOStream.newline].

(** A file for a 3 by 3 grid whose third cell is not a number. *)
Definition file_bad_cell : IOStream.text :=
  list_ascii_of_string "3 3 7.5" ++ IOStream.newline
  :: list_ascii_of_string "9 8 7 6" ++ IOStream.newline
  :: list_ascii_of_string "5 4" ++ IOStream.newline
  :: list_ascii_of_string "1 2 x" ++ [IOStream.newline].

(** A stand-in for [exp], to run the ionic models on samples; nothing
    proved below depends on which function it is. *)
Definition libm_sample : Libm := {| exp := λ x, (1 + x + x * x / 2)%float |}.

(** A 4 by 3 mask that flags the interior cell [(x, y) = (1, 1)]. *)
Definition mask43 : grid bool :=
  [[false; false; false; false];
   [false; true; false; false];
   [false; false; false; false]].

(** [LuoRudyModel lr(4, 3, 0.01); lr.setMIRegion(mask43);] *)
Definition lr43 : LuoRudyModel.t :=
  {| LuoRudyModel.super :=
       {| CardiacElectrophysiology.width_ := 4;
          CardiacElectrophysiology.height_ := 3;
          CardiacElectrophysiology.dt_ := 0.01;
          CardiacElectrophysiology.time_ := 0.0;
          CardiacElectrophysiology.conductivity_ := 1.0;
          CardiacElectrophysiology.mi_region_ := mask43 |};
     LuoRudyModel.V_ := filled 3 4 (-84.0)%float;
     LuoRudyModel.m_ := filled 3 4 0.0%float;
     LuoRudyModel.h_ := filled 3 4 1.0%float;
     LuoRudyModel.j_ := filled 3 4 1.0%float;
     LuoRudyModel.xr_ := filled 3 4 0.0%float;
     LuoRudyModel.xs_ := filled 3 4 0.0%float;
     LuoRudyModel.d_ := filled 3 4 0.0%float;
     LuoRudyModel.f_ := filled 3 4 1.0%float;
     LuoRudyModel.fca_ := filled 3 4 1.0%float;
     LuoRudyModel.Cai_ := filled 3 4 0.0002%float;
     LuoRudyModel.CaSR_ := filled 3 4 0.2%float;
     LuoRudyModel.GNa_ := 23.0; LuoRudyModel.Gsi_ := 0.09;
     LuoRudyModel.GK_ := 0.282; LuoRudyModel.GK1_ := 0.6047;
     LuoRudyModel.Gb_ := 0.03921; LuoRudyModel.GCaL_ := 0.000175 |}.

(** [TenTusscherModel tt(4, 3, 0.01); tt.setMIRegion(mask43);] *)
Definition tt43 : TenTusscherModel.t :=
  {| TenTusscherModel.super :=
       {| CardiacElectrophysiology.width_ := 4;
          CardiacElectrophysiology.height_ := 3;
          CardiacElectrophysiology.dt_ := 0.01;
          CardiacElectrophysiology.time_ := 0.0;
          CardiacElectrophysiology.conductivity_ := 1.0;
          CardiacElectrophysiology.mi_region_ := mask43 |};
     TenTusscherModel.V_ := filled 3 4 (-86.2)%float;
     TenTusscherModel.m_ := filled 3 4 0.0%float;
     TenTusscherModel.h_ := filled 3 4 0.75%float;
     TenTusscherModel.j_ := filled 3 4 0.75%float;
     TenTusscherModel.oa_ := filled 3 4 0.0%float;
     TenTusscherModel.oi_ := filled 3 4 1.0%float;
     TenTusscherModel.d_ := filled 3 4 0.0%float;
     TenTusscherModel.f_ := filled 3 4 1.0%float;
     TenTusscherModel.fca_ := filled 3 4 1.0%float;
     TenTusscherModel.u_ := filled 3 4 0.0%float;
     TenTusscherModel.v_ := filled 3 4 1.0%float;
     TenTusscherModel.w_ := filled 3 4 1.0%float;
     TenTusscherModel.Cai_ := filled 3 4 0.0002%float;
     TenTusscherModel.CaSR_ := filled 3 4 0.2%float;
     TenTusscherModel.CaSS_ := filled 3 4 0.0002%float;
     TenTusscherModel.Nai_ := filled 3 4 11.6%float;
     TenTusscherModel.Ki_ := filled 3 4 138.3%float;
     TenTusscherModel.GNa_ := 75.0; TenTusscherModel.GCaL_ := 0.000175;
     TenTusscherModel.GKr_ := 0.046; TenTusscherModel.GKs_ := 0.0034;
     TenTusscherModel.GK1_ := 0.1908; TenTusscherModel.Gto_ := 0.294;
     TenTusscherModel.GNaCa_ := 1000.0; TenTusscherModel.GNaK_ := 1.362 |}.

(** A 4 by 3 mask whose row 1 is two cells short. *)
Definition mask_short : grid bool :=
  [[false; false; false; false]; [false; true]; [false; false; false; false]].

(** A 4 by 3 mask whose row 1 is one cell too long. *)
Definition mask_long : grid bool :=
  [[false; false; false; false];
   [false; true; false; false; true];
   [false; false; false; false]].

(** [DTM dtm(3, 2, 10.0);] with elevations set cell by cell. *)
Definition dtm32 : DTM.t :=
  {| DTM.width_ := 3; DTM.height_ := 2; DTM.cell_size_ := 10.0;
     DTM.elevation_data_ := [[100.0; 101.5; 103.0]; [99.0; 0.125; -4.0]]%float |}.

(** A 3 by 3 terrain with one interior cell. *)
Definition dtm33 : DTM.t :=
  {| DTM.width_ := 3; DTM.height_ := 3; DTM.cell_size_ := 2.0;
     DTM.elevation_data_ :=
       [[10.0; 11.0; 12.0]; [20.0; 21.0; 26.0]; [30.0; 35.0; 32.0]]%float |}.

(** Stand-ins for [atan] and [atan2], to run the terrain functions on
    samples; nothing proved below depends on which functions they are. *)
Definition libm_angle_sample : LibmAngle :=
  {| atan := λ x, x; atan2 := λ y x, (y - x)%float |}.

(** [DTM dtm(10, 10);] *)
Definition dtm10 : DTM.t :=
  {| DTM.width_ := 10; DTM.height_ := 10; DTM.cell_size_ := 1.0;
     DTM.elevation_data_ := filled 10 10 0.0%float |}.

(** [fhn3] with 0.25 in every cell of [u_] and -0.5 in every cell of
    [v_], as after [setInitialConditions]. *)
Definition fhn3_set : FitzHughNagumo.t :=
  FitzHughNagumo.with_fields (filled 3 3 0.25%float) (filled 3 3 (-0.5)%float)
    fhn3.

(** A file for a 3 by 3 grid that ends after the second value of the
    second field. *)
Definition file_truncated : IOStream.text :=
  list_ascii_of_string "3 3 7.5" ++ IOStream.newline
  :: list_ascii_of_string "9 8 7 6" ++ IOStream.newline
  :: list_ascii_of_string "5 4" ++ IOStream.newline
  :: list_ascii_of_string "1 2 3" ++ IOStream.newline
  :: list_ascii_of_string "4 5 6" ++ IOStream.newline
  :: list_ascii_of_string "7 8 9" ++ IOStream.newline
  :: list_ascii_of_string "10 11" ++ [IOStream.newline].

(** The base part of [lr43] after [setConductivity(0.0)]. *)
Definition still43 : CardiacElectrophysiology.t :=
  CardiacElectrophysiology.setConductivity 0.0 (LuoRudyModel.super lr43).

(** A 3 by 3 field that is not flat. *)
Definition ramp33 : grid float :=
  [[1.0; 2.0; 3.0]; [4.0; 1.0; 6.0]; [7.0; 8.0; 9.0]]%float.

(** [fhn3] holding [ramp33] in both fields, after
    [setDiffusionCoefficients(0.0, 0.0)]. *)
Definition fhn3_still : FitzHughNagumo.t :=
  FitzHughNagumo.setDiffusionCoefficients 0.0 0.0
    (FitzHughNagumo.with_fields ramp33 ramp33 fhn3).

(** A 3 by 4 field with an infinite value in the top row. *)
Definition field43_inf : grid float :=
  [[1.0; 1.0; infinity; 1.0]; [1.0; 1.0; 1.0; 1.0]; [1.0; 1.0; 1.0; 1.0]]%float.

(** A 3 by 4 field of finite values. *)
Definition field43 : grid float :=
  [[1.0; 2.0; 3.0; 4.0]; [5.0; 6.0; 9.0; 8.0]; [9.0; 10.0; 11.0; 12.0]]%float.

End Samples.

(** * Properties *)

(** ** Indexing *)

Lemma idx_Some {A} (v : list A) i a :
  idx v i = Some a ↔ 0 <= i ∧ v !! Z.to_nat i = Some a.
Proof.
  unfold idx. destruct (Z.ltb_spec i 0).
  - split; [done|lia].
  - split; [intros; split; [lia|done] | tauto].
Qed.

Lemma idx_is_Some {A} (v : list A) i :
  is_Some (idx v i) ↔ 0 <= i < Z.of_nat (length v).
Proof.
  unfold idx. destruct (Z.ltb_spec i 0).
  - split; [intros [? ?]; done | lia].
  - rewrite lookup_lt_is_Some. lia.
Qed.

Lemma upd_Some {A} (v : list A) i a :
  is_Some (idx v i) → upd v i a = Some (<[Z.to_nat i := a]> v).
Proof.
  rewrite idx_is_Some. intros Hi. unfold upd.
  destruct (Z.leb_spec 0 i); [|lia].
  destruct (Z.ltb_spec i (Z.of_nat (length v))); [done|lia].
Qed.

Lemma upd_inv {A} (v v' : list A) i a :
  upd v i a = Some v' →
  0 <= i < Z.of_nat (length v) ∧ v' = <[Z.to_nat i := a]> v.
Proof.
  unfold upd. destruct (Z.leb_spec 0 i); simpl; [|done].
  destruct (Z.ltb_spec i (Z.of_nat (length v))); [|done].
  intros [= <-]. split; [lia|done].
Qed.

Lemma idx_upd_eq {A} (v v' : list A) i a :
  upd v i a = Some v' → idx v' i = Some a.
Proof.
  intros [Hi ->]%upd_inv. apply idx_Some. split; [lia|].
  apply list_lookup_insert_eq. lia.
Qed.

Lemma idx_upd_ne {A} (v v' : list A) i j a :
  upd v i a = Some v' → i ≠ j → idx v' j = idx v j.
Proof.
  intros [Hi ->]%upd_inv Hne. unfold idx.
  destruct (Z.ltb_spec j 0); [done|].
  apply list_lookup_insert_ne. lia.
Qed.

Lemma get_Some {A} (g : grid A) y x a :
  get g y x = Some a ↔ ∃ row, idx g y = Some row ∧ idx row x = Some a.
Proof.
  unfold get. destruct (idx g y) as [row|]; simpl.
  - split; [eauto|]. by intros (? & [= <-] & ?).
  - split; [done|]. by intros (? & ? & ?).
Qed.

Lemma set_is_Some {A} (g : grid A) y x a :
  is_Some (get g y x) → is_Some (set g y x a).
Proof.
  intros [b (row & Hr & Hx)%get_Some]. unfold set. rewrite Hr. simpl.
  rewrite (upd_Some row x a) by eauto. simpl.
  rewrite upd_Some by eauto. eauto.
Qed.

Lemma set_inv {A} (g g' : grid A) y x a :
  set g y x a = Some g' → is_Some (get g y x).
Proof.
  unfold set, get. destruct (idx g y) as [row|]; simpl; [|done].
  destruct (upd row x a) as [row'|] eqn:Hu; simpl; [|done].
  intros _. apply upd_inv in Hu as [Hi _]. by apply idx_is_Some.
Qed.

Lemma get_set_eq {A} (g g' : grid A) y x a :
  set g y x a = Some g' → get g' y x = Some a.
Proof.
  unfold set. destruct (idx g y) as [row|] eqn:Hr; simpl; [|done].
  destruct (upd row x a) as [row'|] eqn:Hu; simpl; [|done].
  intros Hg. apply get_Some. exists row'. split.
  - by eapply idx_upd_eq.
  - by eapply idx_upd_eq.
Qed.

Lemma get_set_ne {A} (g g' : grid A) y x y' x' a :
  set g y x a = Some g' → (y', x') ≠ (y, x) → get g' y' x' = get g y' x'.
Proof.
  unfold set. destruct (idx g y) as [row|] eqn:Hr; simpl; [|done].
  destruct (upd row x a) as [row'|] eqn:Hu; simpl; [|done].
  intros Hg Hne. unfold get. destruct (decide (y' = y)) as [->|Hy].
  - rewrite (idx_upd_eq _ _ _ _ Hg), Hr. simpl.
    eapply idx_upd_ne; [done|]. congruence.
  - by rewrite (idx_upd_ne _ _ _ _ _ Hg) by done.
Qed.

Lemma get_filled {A} h w (a : A) y x :
  0 <= y < h → 0 <= x < w → get (filled h w a) y x = Some a.
Proof.
  intros Hy Hx. apply get_Some. exists (replicate (Z.to_nat w) a).
  split; apply idx_Some; (split; [lia|]); apply lookup_replicate_2; lia.
Qed.

Lemma get_filled_inv {A} h w (a b : A) y x :
  get (filled h w a) y x = Some b → b = a.
Proof.
  intros (row & [_ Hr]%idx_Some & [_ Hx]%idx_Some)%get_Some.
  apply lookup_replicate_1 in Hr as [-> _].
  by apply lookup_replicate_1 in Hx as [-> _].
Qed.

Lemma covers_filled {A} h w (a : A) : covers (filled h w a) h w.
Proof. intros y x Hy Hx. rewrite get_filled by done. eauto. Qed.

Lemma covers_set {A} (g g' : grid A) h w y x a :
  covers g h w → set g y x a = Some g' → covers g' h w.
Proof.
  intros Hc Hs y' x' Hy Hx. destruct (decide ((y', x') = (y, x))) as [[= -> ->]|Hne].
  - rewrite (get_set_eq _ _ _ _ _ Hs). eauto.
  - rewrite (get_set_ne _ _ _ _ _ _ _ Hs Hne). by apply Hc.
Qed.

(** ** Loops *)

Lemma for_loop_app {I S} (l1 l2 : list I) (body : I → S → option S) s :
  for_loop (l1 ++ l2) body s = for_loop l1 body s ≫= for_loop l2 body.
Proof.
  revert s. induction l1 as [|i l1 IH]; intros s; simpl; [done|].
  destruct (body i s); simpl; [apply IH|done].
Qed.

Lemma for_loop_fmap {I J S} (g : I → J) (l : list I) (body : J → S → option S) s :
  for_loop (g <$> l) body s = for_loop l (λ i, body (g i)) s.
Proof.
  revert s. induction l as [|i l IH]; intros s; simpl; [done|].
  destruct (body (g i) s); simpl; [apply IH|done].
Qed.

(** The nested loop is one loop over [cells]. *)
Lemma for_cells_flat {S} y0 y1 x0 x1 (body : Z → Z → S → option S) s :
  for_cells y0 y1 x0 x1 body s
  = for_loop (cells y0 y1 x0 x1) (λ p, body p.1 p.2) s.
Proof.
  unfold for_cells, cells. generalize (range y0 y1) as ys. intros ys. revert s.
  induction ys as [|y ys IH]; intros s; [done|].
  change (mbind ?f (y :: ys)) with (f y ++ mbind f ys).
  rewrite for_loop_app, for_loop_fmap. simpl.
  destruct (for_loop (range x0 x1) _ s); simpl; [apply IH|done].
Qed.

Lemma elem_of_cells y0 y1 x0 x1 y x :
  (y, x) ∈ cells y0 y1 x0 x1 ↔ y0 <= y < y1 ∧ x0 <= x < x1.
Proof.
  unfold cells, range. rewrite list_elem_of_bind. split.
  - intros (y' & (x' & [= -> ->] & Hx)%list_elem_of_fmap & Hy).
    apply elem_of_seqZ in Hx, Hy. lia.
  - intros [Hy Hx]. exists y. split.
    + apply list_elem_of_fmap. exists x. split; [done|]. apply elem_of_seqZ. lia.
    + apply elem_of_seqZ. lia.
Qed.

Lemma NoDup_cells y0 y1 x0 x1 : NoDup (cells y0 y1 x0 x1).
Proof.
  unfold cells, range. apply NoDup_bind.
  - intros y y' p _ _ (x & -> & _)%list_elem_of_fmap (x' & [= -> _] & _)%list_elem_of_fmap.
    done.
  - intros y _. apply NoDup_fmap_2; [|apply NoDup_seqZ]. by intros ?? [= ->].
  - apply NoDup_seqZ.
Qed.

(** A loop whose body at index [i] rewrites only the cell [i] of the state
    is a map over the visited cells: each visited cell ends related by [R]
    to its previous content, every other cell is untouched. [Inv] carries
    whatever else the body preserves. *)
Section cell_local.
Context {I S C : Type}.
Variables (cell : S → I → option C) (body : I → S → option S)
  (R : I → C → C → Prop) (Inv : S → Prop) (l : list I).
Hypothesis body_local : ∀ i s c,
  i ∈ l → Inv s → cell s i = Some c →
  ∃ s' c', body i s = Some s' ∧ Inv s' ∧ cell s' i = Some c' ∧ R i c c'
           ∧ ∀ j, j ≠ i → cell s' j = cell s j.

Lemma for_loop_local s :
  NoDup l → Inv s → (∀ i, i ∈ l → is_Some (cell s i)) →
  ∃ s', for_loop l body s = Some s' ∧ Inv s'
        ∧ (∀ i, i ∈ l →
             ∃ c c', cell s i = Some c ∧ cell s' i = Some c' ∧ R i c c')
        ∧ (∀ j, j ∉ l → cell s' j = cell s j).
Proof using body_local.
  clear -body_local. revert s body_local.
  induction l as [|i l' IH]; intros s Hb Hnd Hinv Hsome.
  - exists s. split_and!; try done. intros i Hi. by apply elem_of_nil in Hi.
  - apply NoDup_cons in Hnd as [Hi Hnd].
    destruct (Hsome i) as [c Hc]; [left|].
    destruct (Hb i s c) as (s1 & c1 & Hs1 & Hinv1 & Hc1 & HR & Hoth); [left|done..|].
    destruct (IH s1) as (s' & Hs' & Hinv' & Hin & Hout); try done.
    { intros j s2 c2 Hj. apply Hb. by right. }
    { intros j Hj. rewrite Hoth; [apply Hsome; by right|]. intros ->. done. }
    exists s'. simpl. rewrite Hs1. simpl. split_and!; try done.
    + intros j [->|Hj]%elem_of_cons.
      * exists c, c1. rewrite Hout by done. done.
      * destruct (Hin j Hj) as (c2 & c2' & Hc2 & Hc2' & HR2).
        exists c2, c2'. rewrite <- Hoth; [done|]. intros ->. done.
    + intros j [Hne Hj]%not_elem_of_cons. rewrite Hout by done. by apply Hoth.
Qed.

End cell_local.

(** A loop reaches an index whose body fails on every state, or fails
    before. *)
Lemma for_loop_fails {I S} (l : list I) (body : I → S → option S) i s :
  i ∈ l → (∀ s', body i s' = None) → for_loop l body s = None.
Proof.
  intros Hi Hnone. revert s. induction l as [|j l IH]; intros s.
  - by apply elem_of_nil in Hi.
  - simpl. apply elem_of_cons in Hi as [->|Hi].
    + by rewrite Hnone.
    + destruct (body j s); simpl; [by apply IH|done].
Qed.

Lemma fresh_Some {A} h w (a : A) :
  0 <= h → 0 <= w → fresh h w a = Some (filled h w a).
Proof.
  intros Hh Hw. unfold fresh.
  destruct (Z.ltb_spec h 0); [lia|]. destruct (Z.ltb_spec w 0); [lia|]. done.
Qed.

Lemma stencil_Some (g : grid float) h w y x :
  covers g h w → 1 <= y < h - 1 → 1 <= x < w - 1 →
  ∃ n s w' e c,
    get g (y - 1) x = Some n ∧ get g (y + 1) x = Some s
    ∧ get g y (x - 1) = Some w' ∧ get g y (x + 1) = Some e
    ∧ get g y x = Some c
    ∧ stencil g y x = Some (n + s + w' + e - 4.0 * c)%float.
Proof.
  intros Hc Hy Hx.
  destruct (Hc (y - 1) x) as [n Hn]; [lia..|].
  destruct (Hc (y + 1) x) as [s Hs]; [lia..|].
  destruct (Hc y (x - 1)) as [w' Hw]; [lia..|].
  destruct (Hc y (x + 1)) as [e He]; [lia..|].
  destruct (Hc y x) as [c Hcc]; [lia..|].
  exists n, s, w', e, c. unfold stencil. rewrite Hn, Hs, Hw, He, Hcc. done.
Qed.

Lemma coversb_covers {A} (g : grid A) h w : coversb g h w = true → covers g h w.
Proof.
  unfold coversb. rewrite forallb_forall. intros Hall y x Hy Hx.
  specialize (Hall y). rewrite forallb_forall in Hall.
  eapply bool_decide_eq_true_1, Hall; apply list_elem_of_In, elem_of_seqZ; lia.
Qed.

Lemma range_nil lo hi : hi <= lo → range lo hi = [].
Proof. intros. unfold range. apply seqZ_nil. lia. Qed.

(** A loop that ignores its counter: one more round is one more call. *)
Lemma for_loop_succ {S} (f : S → option S) k s :
  0 <= k →
  for_loop (range 0 (Z.succ k)) (λ _, f) s
  = for_loop (range 0 k) (λ _, f) s ≫= f.
Proof.
  intros Hk. unfold range.
  replace (Z.succ k - 0) with (k + 1) by lia.
  rewrite seqZ_app, for_loop_app by lia. rewrite Z.sub_0_r.
  destruct (for_loop (seqZ 0 k) _ s) as [s'|]; simpl; [|done].
  by destruct (f s').
Qed.

Lemma cells_empty y0 y1 x0 x1 : y1 <= y0 ∨ x1 <= x0 → cells y0 y1 x0 x1 = [].
Proof.
  intros Hempty. destruct (cells y0 y1 x0 x1) as [|[y x] l] eqn:E; [done|].
  assert (Hin : (y, x) ∈ cells y0 y1 x0 x1) by (rewrite E; left).
  apply elem_of_cells in Hin. lia.
Qed.

Lemma stencil_inv (g : grid float) y x lap :
  stencil g y x = Some lap →
  ∃ n s w e c,
    get g (y - 1) x = Some n ∧ get g (y + 1) x = Some s
    ∧ get g y (x - 1) = Some w ∧ get g y (x + 1) = Some e
    ∧ get g y x = Some c ∧ lap = (n + s + w + e - 4.0 * c)%float.
Proof.
  unfold stencil. intros Hst.
  destruct (get g (y - 1) x) as [n|]; [|done].
  destruct (get g (y + 1) x) as [s|]; [|done].
  destruct (get g y (x - 1)) as [w|]; [|done].
  destruct (get g y (x + 1)) as [e|]; [|done].
  destruct (get g y x) as [c|]; [|done].
  simpl in Hst. injection Hst as <-. exists n, s, w, e, c. done.
Qed.

(** A double that compares equal to zero is not above it. *)
Lemma eqb_zero_not_pos (c : float) :
  (c =? 0)%float = true → (0 <? c)%float = false.
Proof.
  rewrite FloatAxioms.eqb_spec, FloatAxioms.ltb_spec.
  change (Prim2SF 0) with (S754_zero false).
  destruct (Prim2SF c) as [[]|[]| |[] ? ?]; cbv; congruence.
Qed.

(** A coefficient that compares equal to zero times a finite value
    compares equal to zero; times an infinity or a not-a-number it is a
    not-a-number. *)
Lemma mul_zero_coefficient (c x : float) :
  (c =? 0)%float = true →
  (if finite x then PrimFloat.is_zero (c * x) else PrimFloat.is_nan (c * x))
  = true.
Proof.
  intros Hc.
  assert (∃ s, Prim2SF c = S754_zero s) as [s Hs].
  { revert Hc. rewrite FloatAxioms.eqb_spec.
    change (Prim2SF 0) with (S754_zero false).
    destruct (Prim2SF c) as [s|[]| |[] m e]; [eauto|intros H; cbv in H; discriminate..]. }
  unfold finite, PrimFloat.is_zero, PrimFloat.is_nan.
  rewrite !FloatAxioms.eqb_spec, FloatAxioms.mul_spec, Hs.
  change (Prim2SF PrimFloat.zero) with (S754_zero false).
  destruct (Prim2SF x) as [sx|sx| |sx m e]; reflexivity.
Qed.

(** The order of the nested loop. *)

Lemma cells_snoc h w :
  0 <= h →
  cells 0 (Z.succ h) 0 w = cells 0 h 0 w ++ ((λ x, (h, x)) <$> range 0 w).
Proof.
  intros Hh. unfold cells, range.
  replace (Z.succ h - 0) with (h + 1) by lia. rewrite Z.sub_0_r.
  rewrite seqZ_app by lia. rewrite bind_app. f_equal.
  - by rewrite Z.sub_0_r.
  - change (seqZ (0 + h) 1) with ([0 + h]). cbn. rewrite app_nil_r.
    by rewrite Z.add_0_l.
Qed.

Lemma cells_length h w :
  0 <= h → 0 <= w → length (cells 0 h 0 w) = Z.to_nat (h * w).
Proof.
  intros Hh Hw. revert h Hh. apply natlike_ind.
  - by rewrite cells_empty by lia.
  - intros h Hh IH. rewrite cells_snoc, length_app, IH by done.
    rewrite length_fmap. unfold range. rewrite length_seqZ. lia.
Qed.

(** Cell [(x, y)] is the one the nested loop visits at position
    [y * w + x]. *)
Lemma cells_lookup h w y x :
  0 <= y < h → 0 <= x < w →
  cells 0 h 0 w !! Z.to_nat (y * w + x) = Some (y, x).
Proof.
  intros Hy Hx. assert (Hh : 0 <= h) by lia. revert h Hh Hy.
  apply (natlike_ind (λ h, 0 <= y < h → _)); [lia|].
  intros h Hh IH Hy. rewrite cells_snoc by done.
  destruct (decide (y < h)) as [Hlt|Hge].
  - rewrite lookup_app_l; [apply IH; lia|].
    rewrite cells_length by lia. nia.
  - assert (y = h) as -> by lia.
    rewrite lookup_app_r; rewrite cells_length by lia; [|nia].
    replace (Z.to_nat (h * w + x) - Z.to_nat (h * w))%nat with (Z.to_nat x) by nia.
    rewrite list_lookup_fmap. unfold range.
    rewrite lookup_seqZ_lt by lia. cbn. do 2 f_equal. lia.
Qed.

(** Evaluates the left-hand side of the goal and takes the value found. *)
Ltac run_lhs :=
  match goal with
  | |- ?l = _ => let r := eval vm_compute in l in exact (eq_refl r <: l = r)
  end.

(** The same, when failing at [i] needs something the body preserves. *)
Lemma for_loop_fails_inv {I S} (Inv : S → Prop) (l : list I)
  (body : I → S → option S) i s :
  Inv s → (∀ j s1 s2, body j s1 = Some s2 → Inv s1 → Inv s2) →
  i ∈ l → (∀ s', Inv s' → body i s' = None) → for_loop l body s = None.
Proof.
  intros Hinv Hpres Hi Hnone. revert s Hinv.
  induction l as [|j l IH]; intros s Hinv.
  - by apply elem_of_nil in Hi.
  - simpl. apply elem_of_cons in Hi as [->|Hi].
    + by rewrite Hnone.
    + destruct (body j s) as [s1|] eqn:Hb; simpl; [|done]. apply IH; eauto.
Qed.

(** Indexing a row at its length is out of range. *)
Lemma get_past_end {A} (g : grid A) y row :
  idx g y = Some row → get g y (Z.of_nat (length row)) = None.
Proof.
  intros Hrow. unfold get. rewrite Hrow. simpl. unfold idx.
  destruct (Z.ltb_spec (Z.of_nat (length row)) 0); [done|].
  apply lookup_ge_None. lia.
Qed.

(** ** Formatted text input and output *)

Module IOStreamFacts.
Import IOStream.

Lemma isspace_not_numeric c :
  isspace c = true →
  isdigit c = false ∧ is_char c "." = false ∧ is_char c "e" = false
  ∧ is_char c "E" = false ∧ is_char c "+" = false ∧ is_char c "-" = false.
Proof.
  destruct c as [[] [] [] [] [] [] [] []]; vm_compute; intros; try discriminate;
    repeat split; reflexivity.
Qed.

Lemma skipws_spaces ws s : Forall (λ c, isspace c = true) ws → skipws (ws ++ s) = skipws s.
Proof. induction 1 as [|c ws Hc _ IH]; simpl; [done|]. by rewrite Hc. Qed.

Lemma skipws_app t rest : skipws t ≠ [] → skipws (t ++ rest) = skipws t ++ rest.
Proof.
  induction t as [|c t IH]; simpl; [done|].
  destruct (isspace c); [done|]. done.
Qed.

Lemma span_digits_app ds rest :
  Forall (λ c, isdigit c = true) ds → boundary rest →
  span_digits (ds ++ rest) = (ds, rest).
Proof.
  intros Hds Hb. induction Hds as [|c ds Hc _ IH]; simpl.
  - destruct rest as [|c r]; [done|]. simpl in *.
    by destruct (isspace_not_numeric c Hb) as (-> & _).
  - by rewrite Hc, IH.
Qed.

Lemma scan_float_cons c s mant dec sci :
  scan_float (c :: s) mant dec sci =
  if isdigit c then
    let '(t, r) := scan_float s true dec sci in (c :: t, r)
  else if is_char c "." && negb dec && negb sci then
    let '(t, r) := scan_float s mant true sci in (c :: t, r)
  else if (is_char c "e" || is_char c "E") && negb sci && mant then
    match s with
    | [] => (["e"%char], [])
    | c2 :: s'' =>
        if is_char c2 "+" || is_char c2 "-" then
          let '(t, r) := scan_float s'' mant dec true in
          ("e"%char :: c2 :: t, r)
        else
          let '(t, r) := scan_float s mant dec true in ("e"%char :: t, r)
    end
  else ([], c :: s).
Proof. reflexivity. Qed.

(** The scan of a number that ends with its text stops at the same place
    when white space follows. *)
Lemma scan_float_app n t mant dec sci acc rest :
  (length t ≤ n)%nat →
  scan_float t mant dec sci = (acc, []) → boundary rest →
  scan_float (t ++ rest) mant dec sci = (acc, rest).
Proof.
  revert t mant dec sci acc. induction n as [|n IH]; intros t mant dec sci acc Hlen Hscan Hb.
  - destruct t; [|simpl in Hlen; lia]. simpl in *. injection Hscan as <-.
    destruct rest as [|c r]; [done|]. simpl in *.
    destruct (isspace_not_numeric c Hb) as (-> & -> & -> & -> & _). done.
  - destruct t as [|c t].
    { apply (IH [] mant dec sci acc); [simpl; lia|done..]. }
    cbn [length] in Hlen. cbn [app]. rewrite scan_float_cons in Hscan |- *.
    destruct (isdigit c).
    { destruct (scan_float t true dec sci) as [a r] eqn:Hs. injection Hscan as <- ->.
      rewrite (IH t true dec sci a); [done|lia|done..]. }
    destruct (is_char c "." && negb dec && negb sci).
    { destruct (scan_float t mant true sci) as [a r] eqn:Hs. injection Hscan as <- ->.
      rewrite (IH t mant true sci a); [done|lia|done..]. }
    destruct ((is_char c "e" || is_char c "E") && negb sci && mant); [|done].
    destruct t as [|c2 t]; cbn [app].
    { injection Hscan as <-. destruct rest as [|c2 r]; [done|]. simpl in Hb.
      destruct (isspace_not_numeric c2 Hb) as (Hd & Hp & He & HE & Hpl & Hmi).
      rewrite Hpl, Hmi. cbn [orb]. rewrite scan_float_cons, Hd, Hp, He, HE. done. }
    destruct (is_char c2 "+" || is_char c2 "-").
    + destruct (scan_float t mant dec true) as [a r] eqn:Hs. injection Hscan as <- ->.
      rewrite (IH t mant dec true a); [done|cbn [length] in Hlen; lia|done..].
    + destruct (scan_float (c2 :: t) mant dec true) as [a r] eqn:Hs.
      injection Hscan as <- ->.
      change (c2 :: t ++ rest) with ((c2 :: t) ++ rest).
      rewrite (IH (c2 :: t) mant dec true a); [done|lia|done..].
Qed.

Lemma accumulate_float_app t acc rest :
  accumulate_float t = (acc, []) → boundary rest → t ≠ [] →
  accumulate_float (t ++ rest) = (acc, rest).
Proof.
  destruct t as [|c t]; [done|]. intros Hacc Hb _.
  unfold accumulate_float in *. cbn [app].
  destruct (is_char c "+" || is_char c "-").
  - destruct (scan_float t false false false) as [a r] eqn:Hs. injection Hacc as <- ->.
    by rewrite (scan_float_app (length t) t false false false a rest).
  - change (c :: t ++ rest) with ((c :: t) ++ rest).
    by apply (scan_float_app (length (c :: t))).
Qed.

(** Reading back the text written for [x] gives the same result when
    white space precedes it and white space follows it. *)
Lemma extract_double_token x v ws rest :
  reread x = Some v → Forall (λ c, isspace c = true) ws → boundary rest →
  extract_double (mk_istream (ws ++ insert_double x ++ rest) false)
  = (mk_istream rest false, Some v).
Proof.
  unfold reread, extract_double. cbn [failbit buf]. intros Hre Hws Hb.
  rewrite skipws_spaces by done. revert Hre.
  destruct (skipws (insert_double x)) as [|c b] eqn:Hskip; [done|].
  rewrite skipws_app, Hskip by (by rewrite Hskip).
  destruct (accumulate_float (c :: b)) as [xtrc r] eqn:Hacc.
  intros Hre.
  assert (r = []) as ->.
  { destruct (parse_decimal xtrc) as [[[neg M] e10]|];
      [destruct (decimal_to_double neg M e10)|]; destruct r; by simplify_eq. }
  cbn [app]. change (c :: b ++ rest) with ((c :: b) ++ rest).
  rewrite (accumulate_float_app _ _ _ Hacc Hb) by done.
  destruct (parse_decimal xtrc) as [[[neg M] e10]|]; [|done].
  destruct (decimal_to_double neg M e10); by simplify_eq.
Qed.

Lemma isdigit_not_space_sign c :
  isdigit c = true →
  isspace c = false ∧ is_char c "-" = false ∧ is_char c "+" = false.
Proof.
  destruct c as [[] [] [] [] [] [] [] []]; vm_compute; intros; try discriminate;
    repeat split; reflexivity.
Qed.

Lemma digit_char_spec d :
  0 <= d <= 9 → isdigit (digit_char d) = true ∧ digit_val (digit_char d) = d.
Proof.
  intros Hd.
  assert (d = 0 ∨ d = 1 ∨ d = 2 ∨ d = 3 ∨ d = 4 ∨ d = 5 ∨ d = 6 ∨ d = 7
          ∨ d = 8 ∨ d = 9) as Hcases by lia.
  repeat (destruct Hcases as [->|Hcases]; [by vm_compute|]). subst. by vm_compute.
Qed.

Lemma fold_digits_shift (l : text) (a : Z) :
  fold_left (λ acc c, 10 * acc + digit_val c) l a
  = a * 10 ^ Z.of_nat (length l) + digits_value l.
Proof.
  unfold digits_value. revert a. induction l as [|c l IH]; intros a.
  - simpl. lia.
  - cbn [fold_left length]. rewrite IH, (IH (10 * 0 + digit_val c)).
    rewrite Nat2Z.inj_succ, Z.pow_succ_r by lia. lia.
Qed.

Lemma digits_value_cons c l :
  digits_value (c :: l) = digit_val c * 10 ^ Z.of_nat (length l) + digits_value l.
Proof. unfold digits_value at 1. cbn [fold_left]. by rewrite fold_digits_shift. Qed.

Lemma digits_from_nonempty fuel n acc : acc ≠ [] → digits_from fuel n acc ≠ [].
Proof.
  revert n acc. induction fuel as [|fuel IH]; intros n acc Hacc; [done|].
  cbn [digits_from]. destruct (n <? 10); [done|]. by apply IH.
Qed.

Lemma digits_from_spec fuel n acc :
  0 <= n < 2 ^ Z.of_nat fuel → Forall (λ c, isdigit c = true) acc →
  Forall (λ c, isdigit c = true) (digits_from fuel n acc)
  ∧ digits_value (digits_from fuel n acc)
    = n * 10 ^ Z.of_nat (length acc) + digits_value acc
  ∧ (fuel ≠ O → digits_from fuel n acc ≠ []).
Proof.
  revert n acc. induction fuel as [|fuel IH]; intros n acc Hn Hacc.
  - simpl in *. assert (n = 0) as -> by lia. split_and!; [done|lia|done].
  - cbn [digits_from].
    assert (0 <= n mod 10 <= 9) as Hd by (pose proof (Z.mod_pos_bound n 10); lia).
    destruct (digit_char_spec _ Hd) as [Hdig Hval].
    destruct (Z.ltb_spec n 10).
    + split_and!; [by constructor| |done].
      rewrite digits_value_cons, Hval, Z.mod_small by lia. done.
    + rewrite Nat2Z.inj_succ, Z.pow_succ_r in Hn by lia.
      destruct (IH (n / 10) (digit_char (n mod 10) :: acc)) as (Hall & Hv & _).
      { split; [apply Z.div_pos; lia|]. apply Z.div_lt_upper_bound; lia. }
      { by constructor. }
      split_and!; [done| |].
      * rewrite Hv, digits_value_cons, Hval. cbn [length].
        rewrite Nat2Z.inj_succ, Z.pow_succ_r by lia.
        pose proof (Z.div_mod n 10). lia.
      * intros _. by apply digits_from_nonempty.
Qed.

Lemma digits_spec n :
  0 <= n →
  Forall (λ c, isdigit c = true) (digits n)
  ∧ digits_value (digits n) = n ∧ digits n ≠ [].
Proof.
  intros Hn. unfold digits.
  destruct (digits_from_spec (S (Z.to_nat (Z.log2 n))) n []) as (Hall & Hv & Hne).
  - split; [done|]. rewrite Nat2Z.inj_succ, Z2Nat.id by apply Z.log2_nonneg.
    destruct (decide (n = 0)) as [->|]; [done|]. apply Z.log2_spec. lia.
  - done.
  - split_and!; [done| |by apply Hne]. rewrite Hv. simpl. unfold digits_value. simpl. lia.
Qed.

(** Reading back the text written for a non-negative [int]. *)
Lemma extract_int_token n ws rest :
  0 <= n <= INT_MAX → Forall (λ c, isspace c = true) ws → boundary rest →
  extract_int (mk_istream (ws ++ insert_int n ++ rest) false)
  = (mk_istream rest false, Some n).
Proof.
  intros Hn Hws Hb. unfold extract_int, insert_int. cbn [failbit buf].
  destruct (Z.ltb_spec n 0); [lia|].
  destruct (digits_spec n) as (Hall & Hv & Hne); [lia|].
  rewrite skipws_spaces by done.
  destruct (digits n) as [|c ds] eqn:Hds; [done|].
  pose proof (Forall_inv Hall) as Hc. cbn beta in Hc.
  destruct (isdigit_not_space_sign c Hc) as (Hsp & Hmi & Hpl).
  cbn [app skipws]. rewrite Hsp, Hmi, Hpl.
  change (c :: ds ++ rest) with ((c :: ds) ++ rest).
  rewrite span_digits_app by done. rewrite Hv.
  destruct (Z.ltb_spec INT_MAX n); [lia|].
  destruct (Z.ltb_spec n INT_MIN); [unfold INT_MIN in *; lia|]. done.
Qed.

End IOStreamFacts.

(** ** The simplified excitable model *)

Module FitzHughNagumoFacts.
Import IOStream IOStreamFacts FitzHughNagumo.

(** What [applyDiffusion] leaves in [result]. *)
Lemma fhn_applyDiffusion_cells m g coeff result :
  covers g (height_ m) (width_ m) → covers result (height_ m) (width_ m) →
  ∃ r, applyDiffusion m g coeff result = Some r
    ∧ covers r (height_ m) (width_ m)
    ∧ (∀ y x, 1 <= y < height_ m - 1 → 1 <= x < width_ m - 1 →
         ∃ lap, stencil g y x = Some lap
                ∧ get r y x = Some (coeff * lap)%float)
    ∧ (∀ y x, ¬ (1 <= y < height_ m - 1 ∧ 1 <= x < width_ m - 1) →
         get r y x = get result y x).
Proof.
  intros Hg Hres. unfold applyDiffusion. rewrite for_cells_flat.
  set (body := λ (p : Z * Z) (result : grid float),
         laplacian ← stencil g p.1 p.2;
         set result p.1 p.2 (coeff * laplacian)%float).
  destruct (for_loop_local (λ (r : grid float) p, get r p.1 p.2) body
              (λ p _ c', ∃ lap, stencil g p.1 p.2 = Some lap
                                ∧ c' = (coeff * lap)%float)
              (λ _, True) (cells 1 (height_ m - 1) 1 (width_ m - 1)))
    with (s := result) as (r & Hr & _ & Hin & Hout).
  - intros [y x] s c [Hy Hx]%elem_of_cells _ Hc. simpl in *.
    destruct (stencil_Some g _ _ y x Hg Hy Hx)
      as (n & s' & w & e & c' & _ & _ & _ & _ & _ & Hst).
    unfold body. simpl. rewrite Hst. simpl.
    destruct (set_is_Some s y x (coeff * (n + s' + w + e - 4.0 * c'))%float)
      as [s1 Hs1]; [eauto|].
    exists s1. eexists. split_and!; [done|done|by eapply get_set_eq|eauto|].
    intros [y' x'] Hne. simpl. eapply get_set_ne; [done|]. congruence.
  - apply NoDup_cells.
  - done.
  - intros [y x] [Hy Hx]%elem_of_cells. simpl. apply Hres; lia.
  - assert (Hin' : ∀ y x, 1 <= y < height_ m - 1 → 1 <= x < width_ m - 1 →
        ∃ lap, stencil g y x = Some lap ∧ get r y x = Some (coeff * lap)%float).
    { intros y x Hy Hx.
      destruct (Hin (y, x)) as (c & c' & _ & Hc' & lap & Hlap & ->);
        [apply elem_of_cells; lia|]. eauto. }
    assert (Hout' : ∀ y x, ¬ (1 <= y < height_ m - 1 ∧ 1 <= x < width_ m - 1) →
        get r y x = get result y x).
    { intros y x Hni. apply (Hout (y, x)). by rewrite elem_of_cells. }
    exists r. split; [done|]. split_and!; [|done..].
    intros y x Hy Hx.
    destruct (decide (1 <= y < height_ m - 1 ∧ 1 <= x < width_ m - 1)) as [[??]|Hni].
    + destruct (Hin' y x) as (? & _ & ->); [done..|]. eauto.
    + rewrite Hout' by done. by apply Hres.
Qed.

Lemma cell4_Some du dv un vn y x a b c d :
  cell4 (du, dv, un, vn) (y, x) = Some (a, b, c, d) ↔
  get du y x = Some a ∧ get dv y x = Some b
  ∧ get un y x = Some c ∧ get vn y x = Some d.
Proof.
  unfold cell4. simpl. split.
  - intros Hc. destruct (get du y x), (get dv y x), (get un y x), (get vn y x);
      simplify_eq/=; done.
  - intros (-> & -> & -> & ->). done.
Qed.

Lemma fhn_step_cell_local m y x st c :
  covers (u_ m) (height_ m) (width_ m) →
  covers (v_ m) (height_ m) (width_ m) →
  covers (stimulus_ m) (height_ m) (width_ m) →
  0 <= y < height_ m → 0 <= x < width_ m →
  cell4 st (y, x) = Some c →
  ∃ st', step_cell m y x st = Some st'
    ∧ cell4 st' (y, x) = Some (euler_cell m (y, x) c)
    ∧ ∀ q, q ≠ (y, x) → cell4 st' q = cell4 st q.
Proof.
  intros Hu Hv Hs Hy Hx. destruct st as [[[du dv] un] vn].
  destruct c as [[[a b] c0] d0]. intros (Ha & Hb & Hc & Hd)%cell4_Some.
  destruct (Hu y x Hy Hx) as [u Hu']. destruct (Hv y x Hy Hx) as [v Hv'].
  destruct (Hs y x Hy Hx) as [s Hs'].
  unfold step_cell, euler_cell. simpl. rewrite Hu', Hv', Hs', Ha. simpl.
  destruct (set_is_Some du y x (a + reactionU u v s)%float) as [du' Hdu']; [eauto|].
  rewrite Hdu'. simpl. rewrite Hb. simpl.
  destruct (set_is_Some dv y x (b + reactionV m u v)%float) as [dv' Hdv']; [eauto|].
  rewrite Hdv'. simpl. rewrite (get_set_eq _ _ _ _ _ Hdu'). simpl.
  destruct (set_is_Some un y x (u + dt_ m * (a + reactionU u v s))%float)
    as [un' Hun']; [eauto|].
  rewrite Hun'. simpl. rewrite (get_set_eq _ _ _ _ _ Hdv'). simpl.
  destruct (set_is_Some vn y x (v + dt_ m * (b + reactionV m u v))%float)
    as [vn' Hvn']; [eauto|].
  rewrite Hvn'. simpl. eexists. split; [done|]. split.
  - apply cell4_Some. split_and!; by eapply get_set_eq.
  - intros [y' x'] Hne. unfold cell4. simpl.
    by rewrite (get_set_ne _ _ _ _ _ _ _ Hdu' Hne), (get_set_ne _ _ _ _ _ _ _ Hdv' Hne),
      (get_set_ne _ _ _ _ _ _ _ Hun' Hne), (get_set_ne _ _ _ _ _ _ _ Hvn' Hne).
Qed.

Lemma diffusion_terms_covers m :
  wf m → ∃ du dv, diffusion_terms m = Some (du, dv)
    ∧ covers du (height_ m) (width_ m) ∧ covers dv (height_ m) (width_ m).
Proof.
  intros (Hh & Hw & Hu & Hv & _). unfold diffusion_terms.
  rewrite !fresh_Some by done. simpl.
  assert (Hz := covers_filled (height_ m) (width_ m) 0%float).
  destruct (fhn_applyDiffusion_cells m (u_ m) (du_ m) _ Hu Hz) as (ru & Hru & Hcu & _).
  destruct (fhn_applyDiffusion_cells m (v_ m) (dv_ m) _ Hv Hz) as (rv & Hrv & Hcv & _).
  destruct (0 <? du_ m)%float; [rewrite Hru|]; simpl;
    (destruct (0 <? dv_ m)%float; [rewrite Hrv|]; simpl; eauto).
Qed.

(** One step, cell by cell: the step completes, and each cell of the new
    fields is the Euler update computed from the pre-step fields and the
    diffusion buffers. *)
Lemma fhn_step_cells m :
  wf m →
  ∃ du dv m',
    diffusion_terms m = Some (du, dv) ∧ step m = Some m' ∧ wf m'
    ∧ same_config m m'
    ∧ time_ m' = (time_ m + dt_ m)%float
    ∧ u_new_ m' = u_ m ∧ v_new_ m' = v_ m
    ∧ ∀ y x, 0 <= y < height_ m → 0 <= x < width_ m →
        ∃ u v st Du Dv,
          get (u_ m) y x = Some u ∧ get (v_ m) y x = Some v
          ∧ get (stimulus_ m) y x = Some st
          ∧ get du y x = Some Du ∧ get dv y x = Some Dv
          ∧ get (u_ m') y x = Some (u + dt_ m * (Du + reactionU u v st))%float
          ∧ get (v_ m') y x = Some (v + dt_ m * (Dv + reactionV m u v))%float.
Proof.
  intros Hwf. destruct (diffusion_terms_covers m Hwf) as (du & dv & Hdt & Hcdu & Hcdv).
  destruct Hwf as (Hh & Hw & Hu & Hv & Hun & Hvn & Hs).
  exists du, dv. unfold step. rewrite Hdt. simpl. rewrite for_cells_flat.
  destruct (for_loop_local cell4 (λ p, step_cell m p.1 p.2)
              (λ p c c', c' = euler_cell m p c)
              (λ _, True) (cells 0 (height_ m) 0 (width_ m)))
    with (s := (du, dv, u_new_ m, v_new_ m)) as (st' & Hst' & _ & Hin & _).
  - intros [y x] st c [Hy Hx]%elem_of_cells _ Hc. simpl.
    destruct (fhn_step_cell_local m y x st c) as (st1 & ? & ? & ?); try done.
    exists st1. eexists. done.
  - apply NoDup_cells.
  - done.
  - intros [y x] [Hy Hx]%elem_of_cells.
    destruct (Hcdu y x Hy Hx) as [a Ha]. destruct (Hcdv y x Hy Hx) as [b Hb].
    destruct (Hun y x Hy Hx) as [c Hc]. destruct (Hvn y x Hy Hx) as [d Hd].
    exists (a, b, c, d). apply cell4_Some. done.
  - rewrite Hst'. simpl. destruct st' as [[[du' dv'] un'] vn']. simpl.
    eexists. split; [done|]. split; [done|].
    assert (Hcell : ∀ y x, 0 <= y < height_ m → 0 <= x < width_ m →
      ∃ u v st Du Dv,
        get (u_ m) y x = Some u ∧ get (v_ m) y x = Some v
        ∧ get (stimulus_ m) y x = Some st
        ∧ get du y x = Some Du ∧ get dv y x = Some Dv
        ∧ get un' y x = Some (u + dt_ m * (Du + reactionU u v st))%float
        ∧ get vn' y x = Some (v + dt_ m * (Dv + reactionV m u v))%float).
    { intros y x Hy Hx.
      destruct (Hu y x Hy Hx) as [u Hu']. destruct (Hv y x Hy Hx) as [v Hv'].
      destruct (Hs y x Hy Hx) as [s Hs'].
      destruct (Hcdu y x Hy Hx) as [a Ha]. destruct (Hcdv y x Hy Hx) as [b Hb].
      destruct (Hun y x Hy Hx) as [c Hc]. destruct (Hvn y x Hy Hx) as [d Hd].
      exists u, v, s, a, b. split_and!; try done.
      all: destruct (Hin (y, x)) as (c1 & c1' & Hc1 & Hc1' & ->);
        [by apply elem_of_cells|];
        rewrite (proj2 (cell4_Some du dv (u_new_ m) (v_new_ m) y x a b c d)) in Hc1 by done;
        injection Hc1 as <-;
        apply cell4_Some in Hc1' as (_ & _ & Hun' & Hvn');
        unfold euler_cell in *; simpl in *; rewrite ?Hu', ?Hv', ?Hs' in *; simpl in *; done. }
    split_and!; try done. unfold wf. simpl. split_and!; try done.
    + intros y x Hy Hx.
      destruct (Hcell y x Hy Hx) as (? & ? & ? & ? & ? & ? & ? & ? & ? & ? & -> & ?). eauto.
    + intros y x Hy Hx.
      destruct (Hcell y x Hy Hx) as (? & ? & ? & ? & ? & ? & ? & ? & ? & ? & ? & ->). eauto.
Qed.

Lemma fhn_wfb_wf m : wfb m = true → wf m.
Proof.
  unfold wfb, wf. rewrite !andb_true_iff, !Z.leb_le.
  intros [[[[[[??]?]?]?]?]?]. split_and!; try done; by apply coversb_covers.
Qed.

Lemma fhn_wf_new width height dt m :
  0 <= width → new width height dt = Some m → wf m.
Proof.
  intros Hw. unfold new. destruct (Z.ltb_spec height 0); simpl; [done|].
  destruct ((0 <? height) && (width <? 0)); [done|]. intros [= <-].
  unfold wf. simpl. split_and!; try done; apply covers_filled.
Qed.

Lemma fhn_run_zero m : run 0 m = Some m.
Proof. done. Qed.

Lemma fhn_run_succ k m : 0 <= k → run (Z.succ k) m = run k m ≫= step.
Proof. apply for_loop_succ. Qed.

(** [run] completes on a well-formed object and changes neither its
    configuration nor its stimulus buffer. *)
Lemma run_wf k m :
  0 <= k → wf m → ∃ mk, run k m = Some mk ∧ wf mk ∧ same_config m mk.
Proof.
  intros Hk Hwf. revert k Hk. apply natlike_ind.
  - exists m. rewrite fhn_run_zero. unfold same_config. done.
  - intros k Hk (mk & Hrun & Hwfk & Hcfg). rewrite fhn_run_succ, Hrun by done. simpl.
    destruct (fhn_step_cells mk Hwfk) as (du & dv & m' & _ & Hstep & Hwf' & Hcfg' & _).
    exists m'. split_and!; try done.
    unfold same_config in *. destruct_and!. split_and!; congruence.
Qed.

Lemma isValidCoordinate_true m x y :
  isValidCoordinate m x y = true ↔ 0 <= y < height_ m ∧ 0 <= x < width_ m.
Proof.
  unfold isValidCoordinate. rewrite !andb_true_iff, !Z.leb_le, !Z.ltb_lt. lia.
Qed.

(** [addStimulus] at a valid coordinate stores [strength] and nothing
    else. *)
Lemma addStimulus_valid m x y strength duration :
  wf m → isValidCoordinate m x y = true →
  ∃ m0, addStimulus x y strength duration m = Some m0 ∧ wf m0
    ∧ get (stimulus_ m0) y x = Some strength
    ∧ width_ m0 = width_ m ∧ height_ m0 = height_ m ∧ dt_ m0 = dt_ m
    ∧ u_ m0 = u_ m ∧ v_ m0 = v_ m.
Proof.
  intros (Hh & Hw & Hu & Hv & Hun & Hvn & Hs) Hvalid.
  unfold addStimulus. rewrite Hvalid. simpl.
  apply isValidCoordinate_true in Hvalid as [Hy Hx].
  destruct (set_is_Some (stimulus_ m) y x strength) as [st Hst]; [by apply Hs|].
  rewrite Hst. simpl. eexists. split; [done|].
  split_and!; try done; [|by eapply get_set_eq].
  unfold wf. simpl. split_and!; try done. by eapply covers_set.
Qed.

Lemma init_dims_ok_true m (u_init v_init : grid float) :
  init_dims_ok m u_init v_init = true ↔
  Z.of_nat (length u_init) = height_ m ∧ Z.of_nat (length v_init) = height_ m
  ∧ (0 < height_ m →
     ∃ ru rv, idx u_init 0 = Some ru ∧ idx v_init 0 = Some rv
              ∧ Z.of_nat (length ru) = width_ m
              ∧ Z.of_nat (length rv) = width_ m).
Proof.
  unfold init_dims_ok.
  rewrite negb_true_iff, !orb_false_iff, !negb_false_iff, !Z.eqb_eq.
  rewrite andb_false_iff, Z.ltb_ge, orb_false_iff, !negb_false_iff.
  split.
  - intros [[Hu Hv] Hrow]. split_and!; try done. intros Hpos.
    destruct Hrow as [?|[Hru Hrv]]; [lia|].
    destruct (idx u_init 0) as [ru|], (idx v_init 0) as [rv|]; simpl in *; try done.
    exists ru, rv. by rewrite <- !Z.eqb_eq.
  - intros (Hu & Hv & Hrow). split_and!; try done.
    destruct (Z.le_gt_cases (height_ m) 0) as [?|Hpos]; [by left|right].
    destruct Hrow as (ru & rv & -> & -> & ? & ?); [lia|]. simpl.
    by rewrite !Z.eqb_eq.
Qed.

(** A row of either argument shorter than the grid is wide is indexed past
    its end by the copy loop of [setInitialConditions] itself. *)
Lemma setInitialConditions_short_row m (u_init v_init : grid float) y row :
  init_dims_ok m u_init v_init = true →
  0 <= y < height_ m →
  idx u_init y = Some row ∨ idx v_init y = Some row →
  Z.of_nat (length row) < width_ m →
  setInitialConditions u_init v_init m = None.
Proof.
  intros Hok Hy Hrow Hshort. unfold setInitialConditions. rewrite Hok. simpl.
  rewrite for_cells_flat.
  rewrite (for_loop_fails _ _ (y, Z.of_nat (length row))); [done| |].
  - apply elem_of_cells. lia.
  - intros [u v]. cbn [fst snd]. destruct Hrow as [Hrow|Hrow].
    + by rewrite (get_past_end _ _ _ Hrow).
    + destruct (get u_init _ _); [|done]. cbn [mbind option_bind].
      destruct (set u _ _ _); [|done]. cbn [mbind option_bind].
      by rewrite (get_past_end _ _ _ Hrow).
Qed.

Lemma stencil_agree (g1 g2 : grid float) h w y x :
  (∀ y' x', 0 <= y' < h → 0 <= x' < w → get g1 y' x' = get g2 y' x') →
  1 <= y < h - 1 → 1 <= x < w - 1 → stencil g1 y x = stencil g2 y x.
Proof.
  intros Hag Hy Hx. unfold stencil.
  by rewrite !Hag by lia.
Qed.

(** The diffusion buffers depend only on the cells of the field. *)
Lemma applyDiffusion_agree m1 m2 g1 g2 coeff r1 r2 :
  width_ m1 = width_ m2 → height_ m1 = height_ m2 →
  covers g1 (height_ m1) (width_ m1) → covers g2 (height_ m1) (width_ m1) →
  (∀ y x, 0 <= y < height_ m1 → 0 <= x < width_ m1 → get g1 y x = get g2 y x) →
  applyDiffusion m1 g1 coeff (filled (height_ m1) (width_ m1) 0.0%float) = Some r1 →
  applyDiffusion m2 g2 coeff (filled (height_ m1) (width_ m1) 0.0%float) = Some r2 →
  ∀ y x, 0 <= y < height_ m1 → 0 <= x < width_ m1 → get r1 y x = get r2 y x.
Proof.
  intros Hw Hh Hg1 Hg2 Hag Hr1 Hr2 y x Hy Hx.
  assert (Hz := covers_filled (height_ m1) (width_ m1) 0.0%float).
  destruct (fhn_applyDiffusion_cells m1 g1 coeff _ Hg1 Hz) as (r1' & Hr1' & _ & Hin1 & Hout1).
  rewrite Hw, Hh in Hg2, Hz.
  destruct (fhn_applyDiffusion_cells m2 g2 coeff _ Hg2 Hz) as (r2' & Hr2' & _ & Hin2 & Hout2).
  rewrite <- Hw, <- Hh in Hr2', Hin2, Hout2.
  rewrite Hr1 in Hr1'. injection Hr1' as <-.
  rewrite Hr2 in Hr2'. injection Hr2' as <-.
  destruct (decide (1 <= y < height_ m1 - 1 ∧ 1 <= x < width_ m1 - 1)) as [[??]|Hni].
  - destruct (Hin1 y x) as (l1 & Hl1 & ->); [done..|].
    destruct (Hin2 y x) as (l2 & Hl2 & ->); [done..|].
    rewrite (stencil_agree g1 g2 (height_ m1) (width_ m1)) in Hl1 by done.
    congruence.
  - by rewrite Hout1, Hout2.
Qed.

Lemma diffusion_terms_agree m1 m2 du1 dv1 du2 dv2 :
  wf m1 → wf m2 → agree m1 m2 →
  diffusion_terms m1 = Some (du1, dv1) → diffusion_terms m2 = Some (du2, dv2) →
  ∀ y x, 0 <= y < height_ m1 → 0 <= x < width_ m1 →
    get du1 y x = get du2 y x ∧ get dv1 y x = get dv2 y x.
Proof.
  intros (Hh1 & Hw1 & Hu1 & Hv1 & _) (Hh2 & Hw2 & Hu2 & Hv2 & _).
  intros ((Hw & Hh & _ & _ & _ & _ & _ & _ & Hdu & Hdv) & Hcells).
  unfold diffusion_terms. rewrite <- Hw, <- Hh, <- Hdu, <- Hdv in *.
  rewrite !fresh_Some by done. cbn [mbind option_bind].
  intros Hd1 Hd2 y x Hy Hx.
  assert (Hagu : ∀ y x, 0 <= y < height_ m1 → 0 <= x < width_ m1 →
            get (u_ m1) y x = get (u_ m2) y x) by (intros; by apply Hcells).
  assert (Hagv : ∀ y x, 0 <= y < height_ m1 → 0 <= x < width_ m1 →
            get (v_ m1) y x = get (v_ m2) y x) by (intros; by apply Hcells).
  assert (Hdu' : ∀ a1 a2,
    (if (0 <? du_ m1)%float
     then applyDiffusion m1 (u_ m1) (du_ m1) (filled (height_ m1) (width_ m1) 0.0%float)
     else Some (filled (height_ m1) (width_ m1) 0.0%float)) = Some a1 →
    (if (0 <? du_ m1)%float
     then applyDiffusion m2 (u_ m2) (du_ m1) (filled (height_ m1) (width_ m1) 0.0%float)
     else Some (filled (height_ m1) (width_ m1) 0.0%float)) = Some a2 →
    get a1 y x = get a2 y x).
  { intros a1 a2 Ha1 Ha2. destruct (0 <? du_ m1)%float; [|congruence].
    exact (applyDiffusion_agree m1 m2 _ _ _ _ _ Hw Hh Hu1 Hu2 Hagu Ha1 Ha2 y x Hy Hx). }
  assert (Hdv' : ∀ b1 b2,
    (if (0 <? dv_ m1)%float
     then applyDiffusion m1 (v_ m1) (dv_ m1) (filled (height_ m1) (width_ m1) 0.0%float)
     else Some (filled (height_ m1) (width_ m1) 0.0%float)) = Some b1 →
    (if (0 <? dv_ m1)%float
     then applyDiffusion m2 (v_ m2) (dv_ m1) (filled (height_ m1) (width_ m1) 0.0%float)
     else Some (filled (height_ m1) (width_ m1) 0.0%float)) = Some b2 →
    get b1 y x = get b2 y x).
  { intros b1 b2 Hb1 Hb2. destruct (0 <? dv_ m1)%float; [|congruence].
    exact (applyDiffusion_agree m1 m2 _ _ _ _ _ Hw Hh Hv1 Hv2 Hagv Hb1 Hb2 y x Hy Hx). }
  destruct (if (0 <? du_ m1)%float then applyDiffusion m1 _ _ _ else _)
    as [a1|] eqn:Ha1; [|done].
  destruct (if (0 <? du_ m1)%float then applyDiffusion m2 _ _ _ else _)
    as [a2|] eqn:Ha2; [|done].
  cbn [mbind option_bind] in Hd1, Hd2.
  destruct (if (0 <? dv_ m1)%float then applyDiffusion m1 _ _ _ else _)
    as [b1|] eqn:Hb1; [|done].
  destruct (if (0 <? dv_ m1)%float then applyDiffusion m2 _ _ _ else _)
    as [b2|] eqn:Hb2; [|done].
  cbn [mbind option_bind] in Hd1, Hd2. simplify_eq. split; [by apply Hdu'|by apply Hdv'].
Qed.

(** One step takes agreeing objects to agreeing objects. *)
Lemma step_agree m1 m2 :
  wf m1 → wf m2 → agree m1 m2 →
  ∃ m1' m2', step m1 = Some m1' ∧ step m2 = Some m2'
    ∧ wf m1' ∧ wf m2' ∧ agree m1' m2'.
Proof.
  intros Hwf1 Hwf2 Hag.
  destruct (fhn_step_cells m1 Hwf1)
    as (du1 & dv1 & m1' & Hd1 & Hs1 & Hwf1' & Hcfg1 & Ht1 & _ & _ & Hc1).
  destruct (fhn_step_cells m2 Hwf2)
    as (du2 & dv2 & m2' & Hd2 & Hs2 & Hwf2' & Hcfg2 & Ht2 & _ & _ & Hc2).
  exists m1', m2'. split_and!; try done.
  pose proof (diffusion_terms_agree _ _ _ _ _ _ Hwf1 Hwf2 Hag Hd1 Hd2) as Hdiff.
  destruct Hag as (Hsc & Hcells).
  destruct Hsc as (Hw & Hh & Hdt & Ht & Ha & Hb & Hc & Hd & Hdu & Hdv).
  destruct Hcfg1 as (Hw1 & Hh1 & Hdt1 & Ha1 & Hb1 & Hcc1 & Hdd1 & Hdu1 & Hdv1 & Hst1).
  destruct Hcfg2 as (Hw2 & Hh2 & Hdt2 & Ha2 & Hb2 & Hcc2 & Hdd2 & Hdu2 & Hdv2 & Hst2).
  split.
  - unfold same_scalars. split_and!; congruence.
  - intros y x Hy Hx. rewrite Hh1 in Hy. rewrite Hw1 in Hx.
    destruct (Hc1 y x Hy Hx)
      as (u1 & v1 & s1 & Du1 & Dv1 & Hu1 & Hv1 & Hs1' & HDu1 & HDv1 & Hu1' & Hv1').
    destruct (Hc2 y x) as (u2 & v2 & s2 & Du2 & Dv2 & Hu2 & Hv2 & Hs2' & HDu2 & HDv2 & Hu2' & Hv2');
      [lia..|].
    destruct (Hcells y x Hy Hx) as (Hue & Hve & Hse).
    destruct (Hdiff y x Hy Hx) as (Hdue & Hdve).
    rewrite Hu1', Hv1', Hu2', Hv2', Hst1, Hst2.
    assert (u1 = u2) as -> by congruence. assert (v1 = v2) as -> by congruence.
    assert (s1 = s2) as -> by congruence. assert (Du1 = Du2) as -> by congruence.
    assert (Dv1 = Dv2) as -> by congruence.
    unfold reactionV. rewrite Hdt, Ha, Hb, Hc. done.
Qed.

(** [run] takes agreeing objects to agreeing objects. *)
Lemma run_agree k m1 m2 :
  0 <= k → wf m1 → wf m2 → agree m1 m2 →
  ∃ r1 r2, run k m1 = Some r1 ∧ run k m2 = Some r2
    ∧ wf r1 ∧ wf r2 ∧ agree r1 r2.
Proof.
  intros Hk Hwf1 Hwf2 Hag. revert k Hk. apply natlike_ind.
  - exists m1, m2. by rewrite !fhn_run_zero.
  - intros k Hk (r1 & r2 & Hr1 & Hr2 & Hw1 & Hw2 & Hag').
    rewrite !fhn_run_succ, Hr1, Hr2 by done. cbn [mbind option_bind].
    destruct (step_agree r1 r2 Hw1 Hw2 Hag') as (r1' & r2' & ? & ? & ? & ? & ?).
    exists r1', r2'. done.
Qed.

(** ** Persistence *)

(** A loop that only appends to the text written so far. *)
Lemma for_loop_append {I} (l : list I) (body : I → text → option text)
  (piece : I → text) out :
  (∀ i o, i ∈ l → body i o = Some (o ++ piece i)) →
  for_loop l body out = Some (out ++ concat (piece <$> l)).
Proof.
  revert out. induction l as [|i l IH]; intros out Hb.
  - simpl. by rewrite app_nil_r.
  - cbn [for_loop fmap list_fmap concat]. rewrite Hb by left.
    cbn [mbind option_bind]. rewrite IH, app_assoc; [done|].
    intros j o Hj. apply Hb. by right.
Qed.

Lemma save_row_text m g y out :
  covers g (height_ m) (width_ m) → 0 <= y < height_ m →
  save_row m g y out = Some (out ++ row_text m g y).
Proof.
  intros Hg Hy. unfold save_row, row_text.
  rewrite (for_loop_append _ _ (cell_text m g y)).
  - cbn [mbind option_bind]. by rewrite app_assoc.
  - intros x o Hx%elem_of_seqZ. destruct (Hg y x) as [v Hv]; [lia..|].
    unfold cell_text. rewrite Hv. cbn [mbind option_bind default]. done.
Qed.

Lemma save_text_file_text m : wf m → save_text m = Some (file_text m).
Proof.
  intros (Hh & Hw & Hu & Hv & _). unfold save_text.
  rewrite (for_loop_append _ _ (row_text m (u_ m))).
  2:{ intros y o Hy%elem_of_seqZ. apply save_row_text; [done|lia]. }
  cbn [mbind option_bind].
  rewrite (for_loop_append _ _ (row_text m (v_ m))).
  2:{ intros y o Hy%elem_of_seqZ. apply save_row_text; [done|lia]. }
  unfold file_text, field_text. f_equal.
  repeat rewrite <- app_assoc. cbn [app]. done.
Qed.

Lemma isspace_space : isspace " " = true.
Proof. reflexivity. Qed.

Lemma isspace_newline : isspace newline = true.
Proof. reflexivity. Qed.

(** One read of the loop body on the text written for a cell. *)
Lemma load_cell_token y x (v v' : float) ws rest G :
  is_Some (get G y x) → reread v = Some v' →
  Forall (λ c, isspace c = true) ws → boundary rest →
  ∃ G', load_cell y x (mk_istream (ws ++ insert_double v ++ rest) false, G, false)
        = Some (mk_istream rest false, G', false)
    ∧ set G y x v' = Some G'.
Proof.
  intros [g0 Hg0] Hre Hws Hb. unfold load_cell. rewrite Hg0. cbn [mbind option_bind].
  rewrite (extract_double_token v v' ws rest) by done.
  destruct (set_is_Some G y x v') as [G' HG']; [eauto|].
  exists G'. rewrite HG'. done.
Qed.

(** Reading the rest of row [y], from column [x0] on, from the text
    written for it. *)
Lemma load_row m (g : grid float) h y (n : nat) :
  ∀ x0 ws rest G,
    x0 + Z.of_nat n = width_ m → 0 <= x0 → 0 <= y < h →
    Forall (λ c, isspace c = true) ws → covers G h (width_ m) →
    (∀ x, x0 <= x < width_ m →
       is_Some (reread (default 0.0%float (get g y x)))) →
    ∃ ws' G',
      for_loop (seqZ x0 (Z.of_nat n)) (load_cell y)
        (mk_istream (ws ++ concat (cell_text m g y <$> seqZ x0 (Z.of_nat n))
                        ++ newline :: rest) false, G, false)
      = Some (mk_istream (ws' ++ newline :: rest) false, G', false)
      ∧ Forall (λ c, isspace c = true) ws' ∧ covers G' h (width_ m)
      ∧ (∀ x, x0 <= x < width_ m →
           get G' y x = reread (default 0.0%float (get g y x)))
      ∧ (∀ y' x', ¬ (y' = y ∧ x0 <= x' < width_ m) → get G' y' x' = get G y' x').
Proof.
  induction n as [|n IH]; intros x0 ws rest G Hn Hx0 Hy Hws HG Hread.
  - exists ws, G. cbn. split_and!; try done. intros x ?. lia.
  - rewrite Nat2Z.inj_succ in Hn |- *.
    rewrite seqZ_cons by lia. rewrite Z.pred_succ.
    cbn [fmap list_fmap concat for_loop].
    destruct (Hread x0) as [v' Hv']; [lia|].
    set (sep := if x0 <? width_ m - 1 then [" "%char] else []).
    set (tail := concat (cell_text m g y <$> seqZ (Z.succ x0) (Z.of_nat n))).
    assert (Hsep : Forall (λ c, isspace c = true) sep).
    { unfold sep. destruct (x0 <? width_ m - 1); repeat constructor. }
    assert (Hbd : boundary (sep ++ tail ++ newline :: rest)).
    { unfold sep. destruct (Z.ltb_spec x0 (width_ m - 1)); [done|].
      assert (n = 0%nat) as -> by lia. done. }
    destruct (load_cell_token y x0 (default 0.0%float (get g y x0)) v' ws
                (sep ++ tail ++ newline :: rest) G)
      as (G1 & Hload & Hset); [apply HG; lia|done..|].
    unfold cell_text at 1. fold sep.
    replace (ws ++ ((insert_double (default 0%float (get g y x0)) ++ sep) ++ tail)
                ++ newline :: rest)
      with (ws ++ insert_double (default 0%float (get g y x0))
               ++ sep ++ tail ++ newline :: rest)
      by (by rewrite <- !app_assoc).
    rewrite Hload. cbn [mbind option_bind].
    destruct (IH (Z.succ x0) sep rest G1) as (ws' & G' & Hloop & Hws' & HG' & Hin & Hout);
      [lia|lia|done|done|by eapply covers_set|intros; apply Hread; lia|].
    exists ws', G'. split; [exact Hloop|]. split_and!; try done.
    + intros x Hx. destruct (decide (x = x0)) as [->|Hne].
      * rewrite Hout by lia. rewrite (get_set_eq _ _ _ _ _ Hset). done.
      * apply Hin. lia.
    + intros y' x' Hni. rewrite Hout by lia.
      eapply get_set_ne; [done|]. intros [= -> ->]. lia.
Qed.

(** Reading the rows from [y0] on from the text written for them. *)
Lemma load_rows m (g : grid float) (n : nat) :
  ∀ y0 ws rest G,
    y0 + Z.of_nat n = height_ m → 0 <= y0 → 0 <= width_ m →
    Forall (λ c, isspace c = true) ws → covers G (height_ m) (width_ m) →
    (∀ y x, y0 <= y < height_ m → 0 <= x < width_ m →
       is_Some (reread (default 0.0%float (get g y x)))) →
    ∃ ws' G',
      for_loop (seqZ y0 (Z.of_nat n))
        (λ y, for_loop (range 0 (width_ m)) (load_cell y))
        (mk_istream (ws ++ concat (row_text m g <$> seqZ y0 (Z.of_nat n)) ++ rest)
           false, G, false)
      = Some (mk_istream (ws' ++ rest) false, G', false)
      ∧ Forall (λ c, isspace c = true) ws' ∧ covers G' (height_ m) (width_ m)
      ∧ (∀ y x, y0 <= y < height_ m → 0 <= x < width_ m →
           get G' y x = reread (default 0.0%float (get g y x)))
      ∧ (∀ y x, ¬ (y0 <= y < height_ m ∧ 0 <= x < width_ m) →
           get G' y x = get G y x).
Proof.
  induction n as [|n IH]; intros y0 ws rest G Hn Hy0 Hw Hws HG Hread.
  - exists ws, G. cbn. split_and!; try done. intros y x ? ?. lia.
  - rewrite Nat2Z.inj_succ in Hn |- *.
    rewrite seqZ_cons by lia. rewrite Z.pred_succ.
    cbn [fmap list_fmap concat for_loop].
    set (tail := concat (row_text m g <$> seqZ (Z.succ y0) (Z.of_nat n))).
    destruct (load_row m g (height_ m) y0 (Z.to_nat (width_ m)) 0 ws (tail ++ rest) G)
      as (ws1 & G1 & Hrow & Hws1 & HG1 & Hin1 & Hout1);
      [lia|lia|lia|done|done|intros; apply Hread; lia|].
    rewrite Z2Nat.id in Hrow by done.
    unfold row_text at 1. unfold range. rewrite Z.sub_0_r.
    replace (ws ++ ((concat (cell_text m g y0 <$> seqZ 0 (width_ m)) ++ [newline]) ++ tail)
                ++ rest)
      with (ws ++ concat (cell_text m g y0 <$> seqZ 0 (width_ m))
               ++ newline :: tail ++ rest)
      by (rewrite <- !app_assoc; done).
    rewrite Hrow. cbn [mbind option_bind].
    destruct (IH (Z.succ y0) (ws1 ++ [newline]) rest G1)
      as (ws' & G' & Hloop & Hws' & HG' & Hin & Hout);
      [lia|lia|done| |done|intros; apply Hread; lia|].
    { apply Forall_app. split; [done|]. repeat constructor. }
    exists ws', G'. split.
    { rewrite <- Hloop. unfold range. rewrite Z.sub_0_r.
      by rewrite <- !app_assoc. }
    split_and!; try done.
    + intros y x Hy Hx. destruct (decide (y = y0)) as [->|Hne].
      * rewrite Hout by lia. by apply Hin1.
      * apply Hin; lia.
    + intros y x Hni. rewrite Hout by lia. apply Hout1. lia.
Qed.

(** Reading a whole field from the text written for it. *)
Lemma load_field_text m m0 (g G : grid float) ws rest :
  width_ m0 = width_ m → height_ m0 = height_ m →
  0 <= height_ m → 0 <= width_ m →
  Forall (λ c, isspace c = true) ws → covers G (height_ m) (width_ m) →
  (∀ y x, 0 <= y < height_ m → 0 <= x < width_ m →
     is_Some (reread (default 0.0%float (get g y x)))) →
  ∃ ws' G',
    load_field m0 G (mk_istream (ws ++ field_text m g ++ rest) false)
    = Some (mk_istream (ws' ++ rest) false, G', false)
    ∧ Forall (λ c, isspace c = true) ws'
    ∧ ∀ y x, 0 <= y < height_ m → 0 <= x < width_ m →
        get G' y x = reread (default 0.0%float (get g y x)).
Proof.
  intros Hw0 Hh0 Hh Hw Hws HG Hread.
  destruct (load_rows m g (Z.to_nat (height_ m)) 0 ws rest G)
    as (ws' & G' & Hloop & Hws' & _ & Hin & _); [lia|lia|done..|].
  rewrite Z2Nat.id in Hloop by done.
  exists ws', G'. split; [|done].
  unfold load_field, for_cells, field_text, range. rewrite Hw0, Hh0, !Z.sub_0_r.
  unfold range in Hloop. rewrite Z.sub_0_r in Hloop. exact Hloop.
Qed.

Lemma new_Some width height dt :
  0 <= height → 0 <= width →
  new width height dt
  = Some {| width_ := width; height_ := height; dt_ := dt; time_ := 0.0;
            a_ := 0.1; b_ := 0.5; c_ := 1.0; d_ := 0.0; du_ := 0.1; dv_ := 0.0;
            u_ := filled height width 0.0%float;
            v_ := filled height width 0.0%float;
            u_new_ := filled height width 0.0%float;
            v_new_ := filled height width 0.0%float;
            stimulus_ := filled height width 0.0%float |}.
Proof.
  intros Hh Hw. unfold new.
  destruct (Z.ltb_spec height 0); [lia|]. destruct (Z.ltb_spec width 0); [lia|].
  by rewrite andb_false_r.
Qed.

(** Loading the file written for [m] into an object of the same size. *)
Lemma load_file_text m m0 :
  wf m → wf m0 → width_ m0 = width_ m → height_ m0 = height_ m →
  width_ m <= INT_MAX → height_ m <= INT_MAX → readable m →
  ∃ m',
    loadState (Some (file_text m)) m0 = Some (true, m')
    ∧ [Some (time_ m'); Some (a_ m'); Some (b_ m'); Some (c_ m'); Some (d_ m');
       Some (du_ m'); Some (dv_ m')]
      = reread <$> [time_ m; a_ m; b_ m; c_ m; d_ m; du_ m; dv_ m]
    ∧ (∀ y x, 0 <= y < height_ m → 0 <= x < width_ m →
         get (u_ m') y x = reread (default 0.0%float (get (u_ m) y x))
         ∧ get (v_ m') y x = reread (default 0.0%float (get (v_ m) y x)))
    ∧ width_ m' = width_ m0 ∧ height_ m' = height_ m0 ∧ dt_ m' = dt_ m0
    ∧ stimulus_ m' = stimulus_ m0.
Proof.
  intros (Hh & Hw & _) (_ & _ & Hu0 & Hv0 & _) Hw0 Hh0 Hwmax Hhmax [Hsc Hcells].
  rewrite !Forall_cons in Hsc.
  destruct Hsc as ([t' Ht] & [a' Ha] & [b' Hb] & [c' Hc] & [d' Hd]
                   & [du' Hdu] & [dv' Hdv] & _).
  assert (Hsp : Forall (λ c, isspace c = true) [" "%char]) by (repeat constructor).
  assert (Hnl : Forall (λ c, isspace c = true) [newline]) by (repeat constructor).
  unfold loadState, load_dims, file_text.
  pose proof (extract_int_token (width_ m) []) as E. cbn [app] in E.
  rewrite E by (done || lia). clear E.
  pose proof (extract_int_token (height_ m) [" "%char]) as E. cbn [app] in E.
  rewrite E by (done || lia). clear E.
  pose proof (extract_double_token (time_ m) t' [" "%char]) as E. cbn [app] in E.
  rewrite E by done. clear E.
  cbn [mbind option_bind default]. rewrite Hw0, Hh0, !Z.eqb_refl. cbn [negb].
  unfold load_parameters.
  pose proof (extract_double_token (a_ m) a' [newline]) as E. cbn [app] in E.
  rewrite E by done. clear E.
  pose proof (extract_double_token (b_ m) b' [" "%char]) as E. cbn [app] in E.
  rewrite E by done. clear E.
  pose proof (extract_double_token (c_ m) c' [" "%char]) as E. cbn [app] in E.
  rewrite E by done. clear E.
  pose proof (extract_double_token (d_ m) d' [" "%char]) as E. cbn [app] in E.
  rewrite E by done. clear E.
  pose proof (extract_double_token (du_ m) du' [newline]) as E. cbn [app] in E.
  rewrite E by done. clear E.
  pose proof (extract_double_token (dv_ m) dv' [" "%char]) as E. cbn [app] in E.
  rewrite E by done. clear E.
  cbn [default].
  rewrite Hw0, Hh0 in Hu0, Hv0.
  destruct (load_field_text m m0 (u_ m) (u_ m0) [newline] (field_text m (v_ m)))
    as (ws1 & U & HU & Hws1 & HUcells); try done.
  { intros y x Hy Hx. by apply Hcells. }
  cbn [app] in HU. rewrite HU. cbn [mbind option_bind].
  destruct (load_field_text m m0 (v_ m) (v_ m0) ws1 [])
    as (ws2 & V & HV & Hws2 & HVcells); try done.
  { intros y x Hy Hx. by apply Hcells. }
  rewrite app_nil_r in HV. rewrite HV. cbn [mbind option_bind].
  eexists. split; [done|]. cbn. rewrite Ht, Ha, Hb, Hc, Hd, Hdu, Hdv.
  split_and!; try done. intros y x Hy Hx. split; [by apply HUcells|by apply HVcells].
Qed.

Lemma readableb_readable m : readableb m = true → readable m.
Proof.
  unfold readableb, readable. rewrite andb_true_iff.
  intros [Hsc Hcells]. rewrite forallb_forall in Hsc, Hcells. split.
  - apply Forall_forall. intros x Hx%list_elem_of_In.
    apply Hsc in Hx. by apply bool_decide_eq_true in Hx.
  - intros y x Hy Hx.
    assert (Hiny : In y (seqZ 0 (height_ m)))
      by (apply list_elem_of_In, elem_of_seqZ; lia).
    assert (Hinx : In x (seqZ 0 (width_ m)))
      by (apply list_elem_of_In, elem_of_seqZ; lia).
    specialize (Hcells y Hiny). rewrite forallb_forall in Hcells.
    specialize (Hcells x Hinx). apply andb_true_iff in Hcells as [H1 H2].
    apply bool_decide_eq_true in H1, H2. done.
Qed.

(** A read loop flags [return false] only with [failbit] set. *)
Lemma load_field_flag m g s s' g' :
  load_field m g s = Some (s', g', true) → failbit s' = true.
Proof.
  unfold load_field. rewrite for_cells_flat.
  generalize (cells 0 (height_ m) 0 (width_ m)). intros l.
  assert (Hgen : ∀ st st', for_loop l (λ p, load_cell p.1 p.2) st = Some st' →
            (st.2 = true → failbit st.1.1 = true) →
            st'.2 = true → failbit st'.1.1 = true).
  { induction l as [|p l IH]; intros st st' Hloop Hinv.
    - simpl in Hloop. by injection Hloop as <-.
    - cbn [for_loop] in Hloop.
      destruct (load_cell p.1 p.2 st) as [st1|] eqn:Hcell; [|done].
      cbn [mbind option_bind] in Hloop. apply (IH st1 st' Hloop).
      revert Hcell. unfold load_cell. destruct st as [[s0 g0] r0].
      destruct r0; [by intros [= <-]|].
      destruct (get g0 p.1 p.2); [|done]. cbn [mbind option_bind].
      destruct (extract_double s0) as [s1 stored].
      destruct (match stored with Some v => set g0 p.1 p.2 v | None => Some g0 end);
        [|done].
      cbn [mbind option_bind]. intros [= <-]. cbn. done. }
  intros Hloop. by apply (Hgen _ _ Hloop).
Qed.

(** Once [return false] is reached the rest of a read loop does
    nothing. *)
Lemma load_cells_returned (l : list (Z * Z)) s (g : grid float) :
  for_loop l (λ p, load_cell p.1 p.2) (s, g, true) = Some (s, g, true).
Proof. induction l as [|p l IH]; [done|]. cbn. exact IH. Qed.

(** A read loop whose extractions all succeed stores the values in the
    order of the cells. *)
Lemma load_cells_prefix (l : list (Z * Z)) : ∀ s (g : grid float) vs sk,
  NoDup l → (∀ q, q ∈ l → is_Some (get g q.1 q.2)) →
  extract_doubles (length l) s = Some (vs, sk) →
  ∃ g', for_loop l (λ p, load_cell p.1 p.2) (s, g, false) = Some (sk, g', false)
    ∧ (∀ i q, l !! i = Some q → get g' q.1 q.2 = vs !! i)
    ∧ (∀ q, q ∉ l → get g' q.1 q.2 = get g q.1 q.2).
Proof.
  induction l as [|p l IH]; intros s g vs sk Hnd Hsome Hex.
  - injection Hex as <- <-. exists g. split_and!; try done.
  - apply NoDup_cons in Hnd as [Hp Hnd].
    cbn [length extract_doubles] in Hex.
    destruct (extract_double s) as [s1 stored] eqn:Hx.
    destruct (failbit s1) eqn:Hfb; [done|].
    destruct stored as [v|]; [|done]. cbn [mbind option_bind] in Hex.
    destruct (extract_doubles (length l) s1) as [[vs' sk']|] eqn:Hrest; [|done].
    cbn [mbind option_bind] in Hex. injection Hex as <- <-.
    destruct (Hsome p) as [old Hold]; [left|].
    destruct (set_is_Some g p.1 p.2 v) as [g1 Hg1]; [eauto|].
    destruct (IH s1 g1 vs' sk' Hnd) as (g' & Hloop & Hin & Hout); [|done|].
    { intros q Hq. destruct (decide (q = p)) as [->|Hne].
      - rewrite (get_set_eq _ _ _ _ _ Hg1). eauto.
      - rewrite (get_set_ne _ _ _ _ _ _ _ Hg1); [apply Hsome; by right|].
        destruct q, p. done. }
    exists g'. split_and!.
    + assert (Hcell : load_cell p.1 p.2 (s, g, false) = Some (s1, g1, false)).
      { unfold load_cell. rewrite Hold. cbn [mbind option_bind].
        rewrite Hx, Hg1. cbn [mbind option_bind]. by rewrite Hfb. }
      cbn [for_loop]. rewrite Hcell. exact Hloop.
    + intros [|i] q Hq.
      * injection Hq as <-. rewrite (Hout p Hp). cbn.
        by rewrite (get_set_eq _ _ _ _ _ Hg1).
      * cbn. by apply Hin.
    + intros q [Hne Hq]%not_elem_of_cons. rewrite (Hout q Hq).
      apply (get_set_ne _ _ _ _ _ _ _ Hg1). destruct q, p. done.
Qed.

(** A read loop whose first [k] extractions succeed and whose next one
    fails: the flag is set, and the cells are as [partly_read] tells. *)
Lemma load_cells_fail (l : list (Z * Z)) :
  ∀ (k : nat) s (g : grid float) vs sk sf stored,
  NoDup l → (∀ q, q ∈ l → is_Some (get g q.1 q.2)) →
  (k < length l)%nat →
  extract_doubles k s = Some (vs, sk) →
  extract_double sk = (sf, stored) → failbit sf = true →
  ∃ g', for_loop l (λ p, load_cell p.1 p.2) (s, g, false) = Some (sf, g', true)
    ∧ (∀ i q, l !! i = Some q →
         get g' q.1 q.2 = partly_read (get g q.1 q.2) vs stored k i)
    ∧ (∀ q, q ∉ l → get g' q.1 q.2 = get g q.1 q.2).
Proof.
  induction l as [|p l IH]; intros k s g vs sk sf stored Hnd Hsome Hk Hex Hx Hfb.
  - simpl in Hk. lia.
  - apply NoDup_cons in Hnd as [Hp Hnd].
    destruct (Hsome p) as [old Hold]; [left|].
    destruct k as [|k].
    + injection Hex as <- <-.
      assert (∃ g1, match stored with Some v => set g p.1 p.2 v | None => Some g end
                    = Some g1
                ∧ get g1 p.1 p.2
                  = match stored with Some v => Some v | None => get g p.1 p.2 end
                ∧ ∀ q, q ≠ p → get g1 q.1 q.2 = get g q.1 q.2)
        as (g1 & Hg1 & Hat & Hoth).
      { destruct stored as [v|].
        - destruct (set_is_Some g p.1 p.2 v) as [g1 Hg1]; [eauto|].
          exists g1. split_and!; [done|by apply (get_set_eq _ _ _ _ _ Hg1)|].
          intros q Hne. apply (get_set_ne _ _ _ _ _ _ _ Hg1). destruct q, p. done.
        - exists g. done. }
      exists g1. split_and!.
      * assert (Hcell : load_cell p.1 p.2 (s, g, false) = Some (sf, g1, true)).
        { unfold load_cell. rewrite Hold. cbn [mbind option_bind].
          rewrite Hx, Hg1. cbn [mbind option_bind]. by rewrite Hfb. }
        cbn [for_loop]. rewrite Hcell. apply load_cells_returned.
      * intros [|i] q Hq.
        -- injection Hq as <-. exact Hat.
        -- cbn in Hq. unfold partly_read. cbn.
           apply Hoth. intros ->. apply Hp. by eapply list_elem_of_lookup_2.
      * intros q [Hne Hq]%not_elem_of_cons. by apply Hoth.
    + cbn [extract_doubles] in Hex.
      destruct (extract_double s) as [s1 st1] eqn:Hx1.
      destruct (failbit s1) eqn:Hfb1; [done|].
      destruct st1 as [v|]; [|done]. cbn [mbind option_bind] in Hex.
      destruct (extract_doubles k s1) as [[vs' sk']|] eqn:Hrest; [|done].
      cbn [mbind option_bind] in Hex. injection Hex as <- <-.
      destruct (set_is_Some g p.1 p.2 v) as [g1 Hg1]; [eauto|].
      destruct (IH k s1 g1 vs' sk' sf stored Hnd) as (g' & Hloop & Hin & Hout);
        [|simpl in Hk; lia|done..|].
      { intros q Hq. destruct (decide (q = p)) as [->|Hne].
        - rewrite (get_set_eq _ _ _ _ _ Hg1). eauto.
        - rewrite (get_set_ne _ _ _ _ _ _ _ Hg1); [apply Hsome; by right|].
          destruct q, p. done. }
      exists g'. split_and!.
      * assert (Hcell : load_cell p.1 p.2 (s, g, false) = Some (s1, g1, false)).
        { unfold load_cell. rewrite Hold. cbn [mbind option_bind].
          rewrite Hx1, Hg1. cbn [mbind option_bind]. by rewrite Hfb1. }
        cbn [for_loop]. rewrite Hcell. exact Hloop.
      * intros [|i] q Hq.
        -- injection Hq as <-. rewrite (Hout p Hp). unfold partly_read. cbn.
           by rewrite (get_set_eq _ _ _ _ _ Hg1).
        -- cbn in Hq. rewrite (Hin i q Hq).
           assert (Hne : q ≠ p).
           { intros ->. apply Hp. by eapply list_elem_of_lookup_2. }
           rewrite (get_set_ne _ _ _ _ _ _ _ Hg1) by (destruct q, p; done).
           unfold partly_read. cbn [lookup list_lookup].
           change (S i <? S k)%nat with (i <? k)%nat.
           change (S i =? S k)%nat with (i =? k)%nat. done.
      * intros q [Hne Hq]%not_elem_of_cons. rewrite (Hout q Hq).
        apply (get_set_ne _ _ _ _ _ _ _ Hg1). destruct q, p. done.
Qed.

(** One read loop of [loadState] over a field, when all extractions
    succeed and when the extraction after the first [k] fails. *)
Lemma load_field_all m (g : grid float) s vs sk :
  0 <= height_ m → 0 <= width_ m → covers g (height_ m) (width_ m) →
  extract_doubles (Z.to_nat (height_ m * width_ m)) s = Some (vs, sk) →
  ∃ g', load_field m g s = Some (sk, g', false)
    ∧ ∀ y x, 0 <= y < height_ m → 0 <= x < width_ m →
        get g' y x = vs !! Z.to_nat (y * width_ m + x).
Proof.
  intros Hh Hw Hg Hex. unfold load_field. rewrite for_cells_flat.
  rewrite <- (cells_length (height_ m) (width_ m)) in Hex by done.
  destruct (load_cells_prefix (cells 0 (height_ m) 0 (width_ m)) s g vs sk
              (NoDup_cells _ _ _ _)) as (g' & Hloop & Hin & _); [|done|].
  { intros [y x] [Hy Hx]%elem_of_cells. by apply Hg. }
  exists g'. split; [done|]. intros y x Hy Hx.
  apply (Hin _ (y, x)). by apply cells_lookup.
Qed.

Lemma load_field_fail m (g : grid float) s (k : nat) vs sk sf stored :
  0 <= height_ m → 0 <= width_ m → covers g (height_ m) (width_ m) →
  Z.of_nat k < height_ m * width_ m →
  extract_doubles k s = Some (vs, sk) →
  extract_double sk = (sf, stored) → failbit sf = true →
  ∃ g', load_field m g s = Some (sf, g', true)
    ∧ ∀ y x, 0 <= y < height_ m → 0 <= x < width_ m →
        get g' y x
        = partly_read (get g y x) vs stored k (Z.to_nat (y * width_ m + x)).
Proof.
  intros Hh Hw Hg Hk Hex Hx Hfb. unfold load_field. rewrite for_cells_flat.
  destruct (load_cells_fail (cells 0 (height_ m) 0 (width_ m)) k s g vs sk sf stored
              (NoDup_cells _ _ _ _)) as (g' & Hloop & Hin & _); [| |done..|].
  { intros [y x] [Hy Hx']%elem_of_cells. by apply Hg. }
  { rewrite cells_length by done. lia. }
  exists g'. split; [done|]. intros y x Hy Hx'.
  apply (Hin _ (y, x)). by apply cells_lookup.
Qed.

Lemma loadState_from_agrees init_w init_h file m r :
  loadState file m = Some r → loadState_from init_w init_h file m = Some r.
Proof.
  destruct file as [content|]; [|intros Hr; exact Hr].
  unfold loadState, loadState_from.
  destruct (load_dims content m) as [[[s ow] oh] time].
  destruct ow as [w|]; [|done]. cbn [mbind option_bind default]. unfold id.
  destruct (negb (w =? width_ m)); [done|].
  destruct oh as [h|]; [|done]. cbn [mbind option_bind default]. done.
Qed.

(** A failed stream stays as it is, and nothing is stored. *)
Lemma extract_double_failed s :
  failbit s = true → extract_double s = (s, None).
Proof. intros Hf. unfold extract_double. by rewrite Hf. Qed.

Lemma extract_int_failed s :
  failbit s = true → extract_int s = (s, None).
Proof. intros Hf. unfold extract_int. by rewrite Hf. Qed.

(** A read loop on a failed stream changes no cell. *)
Lemma load_field_failed m (g : grid float) s :
  0 <= height_ m → 0 <= width_ m → covers g (height_ m) (width_ m) →
  failbit s = true →
  load_field m g s
  = Some (s, g, bool_decide (0 < height_ m ∧ 0 < width_ m)).
Proof.
  intros Hh Hw Hg Hf. unfold load_field. rewrite for_cells_flat.
  destruct (cells 0 (height_ m) 0 (width_ m)) as [|[y x] l] eqn:Hl.
  - rewrite bool_decide_eq_false_2; [done|]. intros [Hh' Hw'].
    assert (Hin : (0, 0) ∈ cells 0 (height_ m) 0 (width_ m))
      by (apply elem_of_cells; lia).
    rewrite Hl in Hin. by apply elem_of_nil in Hin.
  - assert (Hin : (y, x) ∈ cells 0 (height_ m) 0 (width_ m))
      by (rewrite Hl; left).
    apply elem_of_cells in Hin as [Hy Hx].
    rewrite bool_decide_eq_true_2 by lia.
    destruct (Hg y x Hy Hx) as [old Hold].
    assert (Hcell : load_cell y x (s, g, false) = Some (s, g, true)).
    { unfold load_cell. rewrite Hold. cbn [mbind option_bind].
      rewrite (extract_double_failed s Hf). cbn [mbind option_bind]. by rewrite Hf. }
    cbn [for_loop fst snd]. rewrite Hcell. apply load_cells_returned.
Qed.

End FitzHughNagumoFacts.


(** ** The masked diffusion operator and the ionic models *)

Module CardiacFacts.
Import CardiacElectrophysiology.

(** What the masked [applyDiffusion] leaves in [result]. *)
Lemma cardiac_applyDiffusion_cells m g result :
  covers (mi_region_ m) (height_ m) (width_ m) →
  covers g (height_ m) (width_ m) → covers result (height_ m) (width_ m) →
  ∃ r, applyDiffusion m g result = Some r
    ∧ covers r (height_ m) (width_ m)
    ∧ (∀ y x, 1 <= y < height_ m - 1 → 1 <= x < width_ m - 1 →
         (get (mi_region_ m) y x = Some true ∧ get r y x = Some 0.0%float)
         ∨ (get (mi_region_ m) y x = Some false
            ∧ ∃ lap, stencil g y x = Some lap
                     ∧ get r y x = Some (conductivity_ m * lap)%float))
    ∧ (∀ y x, ¬ (1 <= y < height_ m - 1 ∧ 1 <= x < width_ m - 1) →
         get r y x = get result y x).
Proof.
  intros Hmask Hg Hres. unfold applyDiffusion. rewrite for_cells_flat.
  destruct (for_loop_local (λ (r : grid float) p, get r p.1 p.2)
              (λ p, diffuse_cell m g p.1 p.2)
              (λ p _ c',
                 (get (mi_region_ m) p.1 p.2 = Some true ∧ c' = 0.0%float)
                 ∨ (get (mi_region_ m) p.1 p.2 = Some false
                    ∧ ∃ lap, stencil g p.1 p.2 = Some lap
                             ∧ c' = (conductivity_ m * lap)%float))
              (λ _, True) (cells 1 (height_ m - 1) 1 (width_ m - 1)))
    with (s := result) as (r & Hr & _ & Hin & Hout).
  - intros [y x] s c [Hy Hx]%elem_of_cells _ Hc. simpl in *.
    destruct (Hmask y x) as [scar Hscar]; [lia..|].
    unfold diffuse_cell. rewrite Hscar. simpl. destruct scar.
    + destruct (set_is_Some s y x 0.0%float) as [s1 Hs1]; [eauto|].
      exists s1. eexists. split_and!; [done|done|by eapply get_set_eq|by left|].
      intros [y' x'] Hne. simpl. eapply get_set_ne; [done|]. congruence.
    + destruct (stencil_Some g _ _ y x Hg Hy Hx)
        as (n & s' & w & e & c' & _ & _ & _ & _ & _ & Hst).
      rewrite Hst. simpl.
      destruct (set_is_Some s y x (conductivity_ m * (n + s' + w + e - 4.0 * c'))%float)
        as [s1 Hs1]; [eauto|].
      exists s1. eexists. split_and!; [done|done|by eapply get_set_eq|right; eauto|].
      intros [y' x'] Hne. simpl. eapply get_set_ne; [done|]. congruence.
  - apply NoDup_cells.
  - done.
  - intros [y x] [Hy Hx]%elem_of_cells. simpl. apply Hres; lia.
  - assert (Hout' : ∀ y x, ¬ (1 <= y < height_ m - 1 ∧ 1 <= x < width_ m - 1) →
        get r y x = get result y x).
    { intros y x Hni. apply (Hout (y, x)). by rewrite elem_of_cells. }
    assert (Hin' : ∀ y x, 1 <= y < height_ m - 1 → 1 <= x < width_ m - 1 →
         (get (mi_region_ m) y x = Some true ∧ get r y x = Some 0.0%float)
         ∨ (get (mi_region_ m) y x = Some false
            ∧ ∃ lap, stencil g y x = Some lap
                     ∧ get r y x = Some (conductivity_ m * lap)%float)).
    { intros y x Hy Hx.
      destruct (Hin (y, x)) as (c & c' & _ & Hc' & [[? ->]|(? & lap & ? & ->)]);
        [apply elem_of_cells; lia|left|right]; eauto. }
    exists r. split; [done|]. split_and!; [|done..].
    intros y x Hy Hx.
    destruct (decide (1 <= y < height_ m - 1 ∧ 1 <= x < width_ m - 1)) as [[??]|Hni].
    + destruct (Hin' y x) as [[_ ->]|(_ & ? & _ & ->)]; eauto.
    + rewrite Hout' by done. by apply Hres.
Qed.

(** The diffusion buffer of a step holds zero at every flagged cell. *)
Lemma applyDiffusion_scar_zero m g r y x :
  covers (mi_region_ m) (height_ m) (width_ m) →
  covers g (height_ m) (width_ m) →
  applyDiffusion m g (filled (height_ m) (width_ m) 0.0%float) = Some r →
  0 <= y < height_ m → 0 <= x < width_ m →
  get (mi_region_ m) y x = Some true → get r y x = Some 0.0%float.
Proof.
  intros Hmask Hg Hr Hy Hx Hscar.
  destruct (cardiac_applyDiffusion_cells m g _ Hmask Hg
              (covers_filled (height_ m) (width_ m) 0.0%float))
    as (r' & Hr' & _ & Hin & Hout).
  rewrite Hr in Hr'. injection Hr' as <-.
  destruct (decide (1 <= y < height_ m - 1 ∧ 1 <= x < width_ m - 1)) as [[??]|Hni].
  - destruct (Hin y x) as [[_ ?]|[? _]]; [done..|congruence].
  - rewrite Hout by done. by apply get_filled.
Qed.

Lemma cardiac_run_zero {M} `{Model M} (m : M) : run 0 m = Some m.
Proof. done. Qed.

Lemma cardiac_run_succ {M} `{Model M} k (m : M) :
  0 <= k → run (Z.succ k) m = run k m ≫= step.
Proof. apply for_loop_succ. Qed.

Lemma ltb_leb (a b : float) : (a <? b)%float = true → (a <=? b)%float = true.
Proof.
  rewrite FloatAxioms.ltb_spec, FloatAxioms.leb_spec. unfold SFltb, SFleb.
  by destruct (SFcompare _ _) as [[]|].
Qed.

(** The clamp [std::max(0.0001, std::min(0.01, c))] lands in the interval
    for every double, not-a-number included. *)
Lemma clamp_in_range (c : float) :
  in_range 0.0001 0.01 (std_max 0.0001 (std_min 0.01 c)) = true.
Proof.
  unfold std_min. destruct (c <? 0.01)%float eqn:Hhi.
  - unfold std_max. destruct (0.0001 <? c)%float eqn:Hlo.
    + unfold in_range. by rewrite (ltb_leb _ _ Hhi), (ltb_leb _ _ Hlo).
    + reflexivity.
  - reflexivity.
Qed.

Lemma mask_dims_ok_true m (mask : grid bool) :
  mask_dims_ok m mask = true ↔
  Z.of_nat (length mask) = height_ m
  ∧ (0 < height_ m →
     ∃ row0, idx mask 0 = Some row0 ∧ Z.of_nat (length row0) = width_ m).
Proof.
  unfold mask_dims_ok.
  rewrite negb_true_iff, orb_false_iff, negb_false_iff, Z.eqb_eq.
  rewrite andb_false_iff, Z.ltb_ge, negb_false_iff.
  split.
  - intros [Hlen Hrow]. split; [done|]. intros Hpos.
    destruct Hrow as [?|Hrow]; [lia|].
    destruct (idx mask 0) as [row0|]; simpl in *; [|done].
    exists row0. by rewrite <- Z.eqb_eq.
  - intros [Hlen Hrow]. split; [done|].
    destruct (Z.le_gt_cases (height_ m) 0) as [?|Hpos]; [by left|right].
    destruct Hrow as (row0 & -> & ?); [lia|]. simpl. by rewrite Z.eqb_eq.
Qed.

Lemma setMIRegion_accepted m (mask : grid bool) :
  mask_dims_ok m mask = true →
  mi_region_ (setMIRegion mask m) = mask
  ∧ width_ (setMIRegion mask m) = width_ m
  ∧ height_ (setMIRegion mask m) = height_ m.
Proof. intros Hok. unfold setMIRegion. by rewrite Hok. Qed.

End CardiacFacts.
(** Steps through the option monad of a loop body: a read whose value is
    known, or a write to a cell that can be indexed. *)
Ltac read_cell :=
  match goal with
  | H : get ?g ?y ?x = Some _ |- context [get ?g ?y ?x] =>
      rewrite H; cbn [mbind option_bind]
  end.

Ltac write_cell :=
  match goal with
  | |- context [set ?g ?y ?x ?v] =>
      let g' := fresh "g" in
      let Hg := fresh "Hset" in
      destruct (set_is_Some g y x v) as [g' Hg]; [eauto|];
      rewrite Hg; cbn [mbind option_bind];
      pose proof (get_set_eq _ _ _ _ _ Hg)
  end.

Module LuoRudyFacts.
Import CardiacElectrophysiology LuoRudyModel CardiacFacts.

Section WithLibm.
Context `{Libm}.

Lemma wf_fields m :
  wf m → Forall (λ g, covers g (height_ (super m)) (width_ (super m))) (fields m).
Proof. by intros (_ & _ & _ & ?). Qed.

Lemma lr_step_cell_local m0 dV y x st c :
  wf m0 → covers dV (height_ (super m0)) (width_ (super m0)) →
  frame m0 st.1 →
  0 <= y < height_ (super m0) → 0 <= x < width_ (super m0) →
  loop_cell st (y, x) = Some c →
  ∃ st' c', step_cell dV y x st = Some st' ∧ frame m0 st'.1
    ∧ loop_cell st' (y, x) = Some c' ∧ cell_rel m0 (y, x) c c'
    ∧ ∀ q, q ≠ (y, x) → loop_cell st' q = loop_cell st q.
Proof.
  intros (Hh & Hw & Hmask & Hf) HdV Hfr Hy Hx Hc.
  destruct st as [m Vn]. simpl in *.
  unfold fields in Hf. rewrite !Forall_cons in Hf.
  destruct Hf as (HV & _ & _ & Hj & _ & Hxs & Hd & Hff & Hfca & _ & _).
  destruct Hfr as (Hsup & HfV & Hfj & Hfxs & Hfd & Hf_f & Hffca & HfCaSR & Hcond).
  unfold loop_cell in Hc. simpl in Hc.
  destruct (get Vn y x) as [vn|] eqn:Hvn; [|done].
  destruct (get (m_ m) y x) as [mv|] eqn:Hmv; [|done].
  destruct (get (h_ m) y x) as [hv|] eqn:Hhv; [|done].
  destruct (get (xr_ m) y x) as [xr|] eqn:Hxr; [|done].
  destruct (get (Cai_ m) y x) as [ca|] eqn:Hca; [|done].
  simpl in Hc. injection Hc as <-.
  destruct (Hmask y x Hy Hx) as [scar Hscar].
  destruct (HV y x Hy Hx) as [v HvV]. destruct (Hj y x Hy Hx) as [jv Hjv].
  destruct (Hxs y x Hy Hx) as [xsv Hxsv]. destruct (Hd y x Hy Hx) as [dv Hdv].
  destruct (Hff y x Hy Hx) as [fv Hfv]. destruct (Hfca y x Hy Hx) as [fcav Hfcav].
  destruct (HdV y x Hy Hx) as [dvdt Hdvdt].
  unfold step_cell. rewrite Hsup, Hscar. simpl. destruct scar.
  - rewrite HfV, HvV. simpl.
    destruct (set_is_Some Vn y x v) as [Vn' HVn']; [eauto|]. rewrite HVn'. simpl.
    eexists. eexists. split; [done|]. simpl. split.
    { unfold frame. done. }
    split.
    { unfold loop_cell. simpl.
      rewrite (get_set_eq _ _ _ _ _ HVn'), Hmv, Hhv, Hxr, Hca. done. }
    split. { left. simpl. done. }
    intros [y' x'] Hne. unfold loop_cell. simpl.
    by rewrite (get_set_ne _ _ _ _ _ _ _ HVn' Hne).
  - destruct (calculateIonicCurrents m x y) as [cur|] eqn:Hcur; cycle 1.
    { exfalso. revert Hcur. unfold calculateIonicCurrents.
      rewrite HfV, Hfj, Hfxs, Hfd, Hf_f, Hffca.
      rewrite HvV, Hca, Hmv, Hhv, Hjv, Hdv, Hfv, Hfcav, Hxr, Hxsv. done. }
    cbn [mbind option_bind]. rewrite HfV.
    repeat first [read_cell | write_cell].
    eexists. eexists. split; [done|]. cbn [fst snd]. split.
    { unfold frame. cbn. done. }
    split.
    { unfold loop_cell. cbn [fst snd with_gates m_ h_ xr_ Cai_].
      repeat read_cell. done. }
    split.
    { right. split; [done|]. cbn [snd]. apply clamp_in_range. }
    intros [y' x'] Hne. unfold loop_cell. cbn [fst snd with_gates m_ h_ xr_ Cai_].
    repeat match goal with
    | Hs : set _ y x _ = Some ?g |- context [get ?g y' x'] =>
        rewrite (get_set_ne _ _ _ _ _ _ _ Hs Hne)
    end. done.
Qed.

Lemma lr_loop_cell_Some (st : t * grid float) y x c :
  loop_cell st (y, x) = Some c ↔
  get st.2 y x = Some c.1.1.1.1 ∧ get (m_ st.1) y x = Some c.1.1.1.2
  ∧ get (h_ st.1) y x = Some c.1.1.2 ∧ get (xr_ st.1) y x = Some c.1.2
  ∧ get (Cai_ st.1) y x = Some c.2.
Proof.
  unfold loop_cell. cbn [fst snd]. destruct c as [[[[vn mv] hv] xr] ca]. split.
  - intros Hc. destruct (get st.2 y x), (get (m_ st.1) y x), (get (h_ st.1) y x),
      (get (xr_ st.1) y x), (get (Cai_ st.1) y x); simplify_eq/=; done.
  - cbn [fst snd]. intros (-> & -> & -> & -> & ->). done.
Qed.

(** One step of the model: it completes, keeps the object well-formed, and
    at a flagged cell keeps potential and calcium while the diffusion
    buffer holds zero; at any other cell the calcium ends clamped. *)
Lemma lr_step_cells m :
  wf m →
  ∃ dV m',
    applyDiffusion (super m) (V_ m)
      (filled (height_ (super m)) (width_ (super m)) 0.0%float) = Some dV
    ∧ step m = Some m' ∧ wf m' ∧ super m' = advance (super m)
    ∧ ∀ y x, 0 <= y < height_ (super m) → 0 <= x < width_ (super m) →
        (get (mi_region_ (super m)) y x = Some true
         ∧ get dV y x = Some 0.0%float
         ∧ get (V_ m') y x = get (V_ m) y x
         ∧ get (Cai_ m') y x = get (Cai_ m) y x)
        ∨ (get (mi_region_ (super m)) y x = Some false
           ∧ ∃ c, get (Cai_ m') y x = Some c ∧ in_range 0.0001 0.01 c = true).
Proof.
  intros Hwf. pose proof Hwf as (Hh & Hw & Hmask & Hf).
  unfold fields in Hf. rewrite !Forall_cons in Hf.
  destruct Hf as (HV & Hm & Hhh & Hj & Hxr & Hxs & Hd & Hff & Hfca & HCai & _).
  destruct (cardiac_applyDiffusion_cells (super m) (V_ m) _ Hmask HV
              (covers_filled (height_ (super m)) (width_ (super m)) 0.0%float))
    as (dV & HdV & HcdV & _).
  exists dV. unfold step. rewrite !fresh_Some by done. cbn [mbind option_bind].
  rewrite HdV. cbn [mbind option_bind]. rewrite for_cells_flat.
  destruct (for_loop_local loop_cell (λ p, step_cell dV p.1 p.2) (cell_rel m)
              (λ st, frame m st.1)
              (cells 0 (height_ (super m)) 0 (width_ (super m))))
    with (s := (m, filled (height_ (super m)) (width_ (super m)) 0.0%float))
    as ([m' Vn'] & Hloop & Hfr & Hin & _).
  - intros [y x] st c [Hy Hx]%elem_of_cells Hinv Hc. cbn [fst snd].
    by apply lr_step_cell_local.
  - apply NoDup_cells.
  - unfold frame. done.
  - intros [y x] [Hy Hx]%elem_of_cells.
    destruct (Hm y x Hy Hx) as [? ?]. destruct (Hhh y x Hy Hx) as [? ?].
    destruct (Hxr y x Hy Hx) as [? ?]. destruct (HCai y x Hy Hx) as [? ?].
    eexists (_, _, _, _, _). apply lr_loop_cell_Some. cbn [fst snd].
    rewrite get_filled by done. done.
  - rewrite Hloop. cbn [mbind option_bind]. eexists. split; [done|]. split; [done|].
    cbn [fst] in Hfr.
    destruct Hfr as (Hsup & HfV & Hfj & Hfxs & Hfd & Hf_f & Hffca & HfCaSR & Hcond).
    assert (Hcell : ∀ y x, 0 <= y < height_ (super m) → 0 <= x < width_ (super m) →
      ∃ c c', loop_cell (m, filled (height_ (super m)) (width_ (super m)) 0.0%float) (y, x) = Some c
              ∧ loop_cell (m', Vn') (y, x) = Some c' ∧ cell_rel m (y, x) c c').
    { intros y x Hy Hx. apply (Hin (y, x)). by apply elem_of_cells. }
    split_and!.
    + unfold wf, fields. cbn [commit super V_ m_ h_ j_ xr_ xs_ d_ f_ fca_ Cai_].
      rewrite Hsup. cbn [advance height_ width_ mi_region_].
      split_and!; try done. rewrite !Forall_cons.
      rewrite Hfj, Hfxs, Hfd, Hf_f, Hffca.
      split_and!; try done; intros y x Hy Hx;
        destruct (Hcell y x Hy Hx) as (c & c' & _ & Hc'%lr_loop_cell_Some & _);
        cbn [fst snd] in Hc'; destruct Hc' as (? & ? & ? & ? & ?); eauto.
    + cbn [commit super]. by rewrite Hsup.
    + intros y x Hy Hx.
      destruct (Hcell y x Hy Hx) as (c & c' & Hc%lr_loop_cell_Some & Hc'%lr_loop_cell_Some & Hrel).
      cbn [fst snd] in Hc, Hc'. destruct Hc as (_ & _ & _ & _ & Hca).
      destruct Hc' as (Hvn' & _ & _ & _ & Hca').
      cbn [commit V_ Cai_].
      destruct Hrel as [(Hscar & HVc & _ & _ & _ & Hceq)|(Hscar & Hrange)];
        cbn [fst snd] in *.
      * left. split_and!; try done.
        -- by apply (applyDiffusion_scar_zero (super m) (V_ m) dV y x).
        -- congruence.
        -- congruence.
      * right. eauto.
Qed.

(** [run] completes on a well-formed object; the grid and the mask stay,
    flagged cells keep their potential, and bounded calcium stays
    bounded. *)
Lemma lr_run_invariant k m :
  wf m → 0 <= k →
  ∃ mk, run k m = Some mk ∧ wf mk ∧ same_grid (super m) (super mk)
    ∧ (∀ y x, 0 <= y < height_ (super m) → 0 <= x < width_ (super m) →
         get (mi_region_ (super m)) y x = Some true →
         get (V_ mk) y x = get (V_ m) y x)
    ∧ (calcium_bounded m → calcium_bounded mk).
Proof.
  intros Hwf Hk. revert k Hk. apply natlike_ind.
  - exists m. rewrite cardiac_run_zero. unfold same_grid. done.
  - intros k Hk (mk & Hrun & Hwfk & Hsame & Hscar & Hca).
    rewrite cardiac_run_succ, Hrun by done. cbn [mbind option_bind].
    destruct (lr_step_cells mk Hwfk) as (dV & m' & _ & Hstep & Hwf' & Hsup & Hcell).
    destruct Hsame as (Hw & Hh & Hdt & Hcond & Hmask).
    exists m'. split; [exact Hstep|]. split; [done|]. split_and!.
    + unfold same_grid. rewrite Hsup. cbn [advance width_ height_ dt_ conductivity_ mi_region_].
      done.
    + intros y x Hy Hx Hflag. rewrite <- Hscar by done.
      destruct (Hcell y x) as [(_ & _ & HV & _)|(Hno & _)]; [lia..|done|congruence].
    + intros Hb y x Hy Hx. rewrite Hsup in Hy, Hx. cbn [advance height_ width_] in Hy, Hx.
      destruct (Hcell y x Hy Hx) as [(_ & _ & _ & HC)|(_ & Hc)]; [|done].
      rewrite HC. apply (Hca Hb); done.
Qed.

Lemma lr_wf_new width height dt m :
  0 <= width → new width height dt = Some m → wf m.
Proof.
  intros Hw. unfold new, CardiacElectrophysiology.new.
  destruct (Z.ltb_spec height 0); simpl; [done|].
  destruct ((0 <? height) && (width <? 0)); [done|]. simpl. intros [= <-].
  unfold wf, fields. simpl. split_and!; try done; [apply covers_filled|].
  repeat constructor; apply covers_filled.
Qed.

Lemma lr_wfb_wf m : wfb m = true → wf m.
Proof.
  unfold wfb, wf. rewrite !andb_true_iff, !Z.leb_le, forallb_forall.
  intros [[[??]?] Hall]. split_and!; try done; [by apply coversb_covers|].
  apply Forall_forall. intros g Hg. by apply coversb_covers, Hall, list_elem_of_In.
Qed.

(** Installing an accepted mask that covers the grid keeps the object
    well-formed. *)
Lemma lr_wf_setMIRegion mask m :
  wf m → covers mask (height_ (super m)) (width_ (super m)) →
  wf (setMIRegion mask m)
  ∧ height_ (super (setMIRegion mask m)) = height_ (super m)
  ∧ width_ (super (setMIRegion mask m)) = width_ (super m)
  ∧ V_ (setMIRegion mask m) = V_ m.
Proof.
  intros (Hh & Hw & Hmask & Hf) Hc.
  unfold wf, setMIRegion, CardiacElectrophysiology.setMIRegion, fields. cbn [super V_].
  destruct (mask_dims_ok (super m) mask); cbn; done.
Qed.

Lemma lr_new_calcium_bounded width height dt m :
  new width height dt = Some m → calcium_bounded m.
Proof.
  unfold new, CardiacElectrophysiology.new.
  destruct ((height <? 0) || (0 <? height) && (width <? 0)); [done|]. simpl.
  intros [= <-] y x Hy Hx. simpl in *. exists 0.0002%float.
  rewrite get_filled by done. done.
Qed.

(** The update loop never touches the base sub-object. *)
Lemma lr_step_cell_super dV y x st st' :
  step_cell dV y x st = Some st' → super st'.1 = super st.1.
Proof.
  destruct st as [m Vn]. unfold step_cell. cbn [fst].
  destruct (get (mi_region_ (super m)) y x) as [[]|]; cbn [mbind option_bind];
    intros Hs;
    repeat match type of Hs with
    | context [mbind _ ?o] =>
        destruct o; cbn [mbind option_bind] in Hs; [|discriminate Hs]
    end;
    try discriminate Hs; by injection Hs as <-.
Qed.

(** With a mask row shorter than the grid is wide, [step] indexes that row
    past its end. *)
Lemma lr_step_short_mask_row m y row :
  0 <= y < height_ (super m) →
  idx (mi_region_ (super m)) y = Some row →
  Z.of_nat (length row) < width_ (super m) →
  step m = None.
Proof.
  intros Hy Hrow Hshort. unfold step.
  destruct (fresh _ _ _) as [Vn|]; [|done]. cbn [mbind option_bind].
  destruct (applyDiffusion _ _ _) as [dV|]; [|done]. cbn [mbind option_bind].
  rewrite for_cells_flat.
  rewrite (for_loop_fails_inv (λ st, super st.1 = super m) _ _
             (y, Z.of_nat (length row))); [done|done| | |].
  - intros [y' x'] s1 s2 Hb Hs1. cbn [fst snd] in Hb.
    apply lr_step_cell_super in Hb. congruence.
  - apply elem_of_cells. lia.
  - intros [m' Vn'] Hsup. cbn [fst snd] in *. unfold step_cell.
    by rewrite Hsup, (get_past_end _ _ _ Hrow).
Qed.

End WithLibm.
End LuoRudyFacts.

Module TenTusscherFacts.
Import CardiacElectrophysiology TenTusscherModel CardiacFacts.

Section WithLibm.
Context `{Libm}.

Lemma tt_step_cell_local m0 dV y x st c :
  wf m0 → covers dV (height_ (super m0)) (width_ (super m0)) →
  frame m0 st.1 →
  0 <= y < height_ (super m0) → 0 <= x < width_ (super m0) →
  loop_cell st (y, x) = Some c →
  ∃ st' c', step_cell dV y x st = Some st' ∧ frame m0 st'.1
    ∧ loop_cell st' (y, x) = Some c' ∧ cell_rel m0 (y, x) c c'
    ∧ ∀ q, q ≠ (y, x) → loop_cell st' q = loop_cell st q.
Proof.
  intros (Hh & Hw & Hmask & Hf) HdV Hfr Hy Hx Hc.
  destruct st as [m Vn]. simpl in *.
  unfold fields in Hf. rewrite !Forall_cons in Hf.
  destruct Hf as (HV & _ & Hhh & Hj & Hoa & Hoi & Hd & Hff & Hfca & _ & Hvv
                  & _ & HNai & HKi & _).
  destruct Hfr as (Hsup & HfV & Hfh & Hfj & Hfoa & Hfoi & Hfd & Hf_f & Hffca
                   & Hfv & Hfw & HfCaSR & HfCaSS & HfNai & HfKi & Hcond).
  unfold loop_cell in Hc. simpl in Hc.
  destruct (get Vn y x) as [vn|] eqn:Hvn; [|done].
  destruct (get (m_ m) y x) as [mv|] eqn:Hmv; [|done].
  destruct (get (u_ m) y x) as [uv|] eqn:Huv; [|done].
  destruct (get (Cai_ m) y x) as [ca|] eqn:Hca; [|done].
  simpl in Hc. injection Hc as <-.
  destruct (Hmask y x Hy Hx) as [scar Hscar].
  destruct (HV y x Hy Hx) as [v HvV]. destruct (Hhh y x Hy Hx) as [hv Hhv].
  destruct (Hj y x Hy Hx) as [jv Hjv]. destruct (Hoa y x Hy Hx) as [oav Hoav].
  destruct (Hoi y x Hy Hx) as [oiv Hoiv]. destruct (Hd y x Hy Hx) as [dv Hdv].
  destruct (Hff y x Hy Hx) as [fv Hfv']. destruct (Hfca y x Hy Hx) as [fcav Hfcav].
  destruct (Hvv y x Hy Hx) as [vv Hvv']. destruct (HNai y x Hy Hx) as [nai Hnai].
  destruct (HKi y x Hy Hx) as [ki Hki].
  destruct (HdV y x Hy Hx) as [dvdt Hdvdt].
  unfold step_cell. rewrite Hsup, Hscar. simpl. destruct scar.
  - rewrite HfV, HvV. simpl.
    destruct (set_is_Some Vn y x v) as [Vn' HVn']; [eauto|]. rewrite HVn'. simpl.
    eexists. eexists. split; [done|]. simpl. split.
    { unfold frame. done. }
    split.
    { unfold loop_cell. simpl.
      rewrite (get_set_eq _ _ _ _ _ HVn'), Hmv, Huv, Hca. done. }
    split. { left. simpl. done. }
    intros [y' x'] Hne. unfold loop_cell. simpl.
    by rewrite (get_set_ne _ _ _ _ _ _ _ HVn' Hne).
  - destruct (calculateIonicCurrents m x y) as [cur|] eqn:Hcur; cycle 1.
    { exfalso. revert Hcur. unfold calculateIonicCurrents.
      rewrite HfV, Hfh, Hfj, Hfoa, Hfoi, Hfd, Hf_f, Hffca, Hfv, HfNai, HfKi.
      rewrite HvV, Hca, Hnai, Hki, Hmv, Hhv, Hjv, Hdv, Hfv', Hfcav, Huv, Hvv',
        Hoav, Hoiv. done. }
    cbn [mbind option_bind]. rewrite HfV.
    repeat first [read_cell | write_cell].
    eexists. eexists. split; [done|]. cbn [fst snd]. split.
    { unfold frame. cbn. done. }
    split.
    { unfold loop_cell. cbn [fst snd with_gates m_ u_ Cai_].
      repeat read_cell. done. }
    split.
    { right. split; [done|]. cbn [snd]. apply clamp_in_range. }
    intros [y' x'] Hne. unfold loop_cell. cbn [fst snd with_gates m_ u_ Cai_].
    repeat match goal with
    | Hs : set _ y x _ = Some ?g |- context [get ?g y' x'] =>
        rewrite (get_set_ne _ _ _ _ _ _ _ Hs Hne)
    end. done.
Qed.

Lemma tt_loop_cell_Some (st : t * grid float) y x c :
  loop_cell st (y, x) = Some c ↔
  get st.2 y x = Some c.1.1.1 ∧ get (m_ st.1) y x = Some c.1.1.2
  ∧ get (u_ st.1) y x = Some c.1.2 ∧ get (Cai_ st.1) y x = Some c.2.
Proof.
  unfold loop_cell. cbn [fst snd]. destruct c as [[[vn mv] uv] ca]. split.
  - intros Hc. destruct (get st.2 y x), (get (m_ st.1) y x),
      (get (u_ st.1) y x), (get (Cai_ st.1) y x); simplify_eq/=; done.
  - cbn [fst snd]. intros (-> & -> & -> & ->). done.
Qed.

(** One step of the model: it completes, keeps the object well-formed, and
    at a flagged cell keeps potential and calcium while the diffusion
    buffer holds zero; at any other cell the calcium ends clamped. *)
Lemma tt_step_cells m :
  wf m →
  ∃ dV m',
    applyDiffusion (super m) (V_ m)
      (filled (height_ (super m)) (width_ (super m)) 0.0%float) = Some dV
    ∧ step m = Some m' ∧ wf m' ∧ super m' = advance (super m)
    ∧ ∀ y x, 0 <= y < height_ (super m) → 0 <= x < width_ (super m) →
        (get (mi_region_ (super m)) y x = Some true
         ∧ get dV y x = Some 0.0%float
         ∧ get (V_ m') y x = get (V_ m) y x
         ∧ get (Cai_ m') y x = get (Cai_ m) y x)
        ∨ (get (mi_region_ (super m)) y x = Some false
           ∧ ∃ c, get (Cai_ m') y x = Some c ∧ in_range 0.0001 0.01 c = true).
Proof.
  intros Hwf. pose proof Hwf as (Hh & Hw & Hmask & Hf).
  unfold fields in Hf. rewrite !Forall_cons in Hf.
  destruct Hf as (HV & Hm & Hhh & Hj & Hoa & Hoi & Hd & Hff & Hfca & Hu & Hvv
                  & HCai & HNai & HKi & _).
  destruct (cardiac_applyDiffusion_cells (super m) (V_ m) _ Hmask HV
              (covers_filled (height_ (super m)) (width_ (super m)) 0.0%float))
    as (dV & HdV & HcdV & _).
  exists dV. unfold step. rewrite !fresh_Some by done. cbn [mbind option_bind].
  rewrite HdV. cbn [mbind option_bind]. rewrite for_cells_flat.
  destruct (for_loop_local loop_cell (λ p, step_cell dV p.1 p.2) (cell_rel m)
              (λ st, frame m st.1)
              (cells 0 (height_ (super m)) 0 (width_ (super m))))
    with (s := (m, filled (height_ (super m)) (width_ (super m)) 0.0%float))
    as ([m' Vn'] & Hloop & Hfr & Hin & _).
  - intros [y x] st c [Hy Hx]%elem_of_cells Hinv Hc. cbn [fst snd].
    by apply tt_step_cell_local.
  - apply NoDup_cells.
  - unfold frame. done.
  - intros [y x] [Hy Hx]%elem_of_cells.
    destruct (Hm y x Hy Hx) as [? ?]. destruct (Hu y x Hy Hx) as [? ?].
    destruct (HCai y x Hy Hx) as [? ?].
    eexists (_, _, _, _). apply tt_loop_cell_Some. cbn [fst snd].
    rewrite get_filled by done. done.
  - rewrite Hloop. cbn [mbind option_bind]. eexists. split; [done|]. split; [done|].
    cbn [fst] in Hfr.
    destruct Hfr as (Hsup & HfV & Hfh & Hfj & Hfoa & Hfoi & Hfd & Hf_f & Hffca
                     & Hfv & Hfw & HfCaSR & HfCaSS & HfNai & HfKi & Hcond).
    assert (Hcell : ∀ y x, 0 <= y < height_ (super m) → 0 <= x < width_ (super m) →
      ∃ c c', loop_cell (m, filled (height_ (super m)) (width_ (super m)) 0.0%float) (y, x) = Some c
              ∧ loop_cell (m', Vn') (y, x) = Some c' ∧ cell_rel m (y, x) c c').
    { intros y x Hy Hx. apply (Hin (y, x)). by apply elem_of_cells. }
    split_and!.
    + unfold wf, fields.
      cbn [commit super V_ m_ h_ j_ oa_ oi_ d_ f_ fca_ u_ v_ Cai_ Nai_ Ki_].
      rewrite Hsup. cbn [advance height_ width_ mi_region_].
      split_and!; try done. rewrite !Forall_cons.
      rewrite Hfh, Hfj, Hfoa, Hfoi, Hfd, Hf_f, Hffca, Hfv, HfNai, HfKi.
      split_and!; try done; intros y x Hy Hx;
        destruct (Hcell y x Hy Hx) as (c & c' & _ & Hc'%tt_loop_cell_Some & _);
        cbn [fst snd] in Hc'; destruct Hc' as (? & ? & ? & ?); eauto.
    + cbn [commit super]. by rewrite Hsup.
    + intros y x Hy Hx.
      destruct (Hcell y x Hy Hx) as (c & c' & Hc%tt_loop_cell_Some & Hc'%tt_loop_cell_Some & Hrel).
      cbn [fst snd] in Hc, Hc'. destruct Hc as (_ & _ & _ & Hca).
      destruct Hc' as (Hvn' & _ & _ & Hca').
      cbn [commit V_ Cai_].
      destruct Hrel as [(Hscar & HVc & _ & _ & Hceq)|(Hscar & Hrange)];
        cbn [fst snd] in *.
      * left. split_and!; try done.
        -- by apply (applyDiffusion_scar_zero (super m) (V_ m) dV y x).
        -- congruence.
        -- congruence.
      * right. eauto.
Qed.

(** [run] completes on a well-formed object; the grid and the mask stay,
    flagged cells keep their potential, and bounded calcium stays
    bounded. *)
Lemma tt_run_invariant k m :
  wf m → 0 <= k →
  ∃ mk, run k m = Some mk ∧ wf mk ∧ same_grid (super m) (super mk)
    ∧ (∀ y x, 0 <= y < height_ (super m) → 0 <= x < width_ (super m) →
         get (mi_region_ (super m)) y x = Some true →
         get (V_ mk) y x = get (V_ m) y x)
    ∧ (calcium_bounded m → calcium_bounded mk).
Proof.
  intros Hwf Hk. revert k Hk. apply natlike_ind.
  - exists m. rewrite cardiac_run_zero. unfold same_grid. done.
  - intros k Hk (mk & Hrun & Hwfk & Hsame & Hscar & Hca).
    rewrite cardiac_run_succ, Hrun by done. cbn [mbind option_bind].
    destruct (tt_step_cells mk Hwfk) as (dV & m' & _ & Hstep & Hwf' & Hsup & Hcell).
    destruct Hsame as (Hw & Hh & Hdt & Hcond & Hmask).
    exists m'. split; [exact Hstep|]. split; [done|]. split_and!.
    + unfold same_grid. rewrite Hsup. cbn [advance width_ height_ dt_ conductivity_ mi_region_].
      done.
    + intros y x Hy Hx Hflag. rewrite <- Hscar by done.
      destruct (Hcell y x) as [(_ & _ & HV & _)|(Hno & _)]; [lia..|done|congruence].
    + intros Hb y x Hy Hx. rewrite Hsup in Hy, Hx. cbn [advance height_ width_] in Hy, Hx.
      destruct (Hcell y x Hy Hx) as [(_ & _ & _ & HC)|(_ & Hc)]; [|done].
      rewrite HC. apply (Hca Hb); done.
Qed.

Lemma tt_wf_new width height dt m :
  0 <= width → new width height dt = Some m → wf m.
Proof.
  intros Hw. unfold new, CardiacElectrophysiology.new.
  destruct (Z.ltb_spec height 0); simpl; [done|].
  destruct ((0 <? height) && (width <? 0)); [done|]. simpl. intros [= <-].
  unfold wf, fields. simpl. split_and!; try done; [apply covers_filled|].
  repeat constructor; apply covers_filled.
Qed.

Lemma tt_wfb_wf m : wfb m = true → wf m.
Proof.
  unfold wfb, wf. rewrite !andb_true_iff, !Z.leb_le, forallb_forall.
  intros [[[??]?] Hall]. split_and!; try done; [by apply coversb_covers|].
  apply Forall_forall. intros g Hg. by apply coversb_covers, Hall, list_elem_of_In.
Qed.

(** Installing an accepted mask that covers the grid keeps the object
    well-formed. *)
Lemma tt_wf_setMIRegion mask m :
  wf m → covers mask (height_ (super m)) (width_ (super m)) →
  wf (setMIRegion mask m)
  ∧ height_ (super (setMIRegion mask m)) = height_ (super m)
  ∧ width_ (super (setMIRegion mask m)) = width_ (super m)
  ∧ V_ (setMIRegion mask m) = V_ m.
Proof.
  intros (Hh & Hw & Hmask & Hf) Hc.
  unfold wf, setMIRegion, CardiacElectrophysiology.setMIRegion, fields. cbn [super V_].
  destruct (mask_dims_ok (super m) mask); cbn; done.
Qed.

Lemma tt_new_calcium_bounded width height dt m :
  new width height dt = Some m → calcium_bounded m.
Proof.
  unfold new, CardiacElectrophysiology.new.
  destruct ((height <? 0) || (0 <? height) && (width <? 0)); [done|]. simpl.
  intros [= <-] y x Hy Hx. simpl in *. exists 0.0002%float.
  rewrite get_filled by done. done.
Qed.

(** The update loop never touches the base sub-object. *)
Lemma tt_step_cell_super dV y x st st' :
  step_cell dV y x st = Some st' → super st'.1 = super st.1.
Proof.
  destruct st as [m Vn]. unfold step_cell. cbn [fst].
  destruct (get (mi_region_ (super m)) y x) as [[]|]; cbn [mbind option_bind];
    intros Hs;
    repeat match type of Hs with
    | context [mbind _ ?o] =>
        destruct o; cbn [mbind option_bind] in Hs; [|discriminate Hs]
    end;
    try discriminate Hs; by injection Hs as <-.
Qed.

(** With a mask row shorter than the grid is wide, [step] indexes that row
    past its end. *)
Lemma tt_step_short_mask_row m y row :
  0 <= y < height_ (super m) →
  idx (mi_region_ (super m)) y = Some row →
  Z.of_nat (length row) < width_ (super m) →
  step m = None.
Proof.
  intros Hy Hrow Hshort. unfold step.
  destruct (fresh _ _ _) as [Vn|]; [|done]. cbn [mbind option_bind].
  destruct (applyDiffusion _ _ _) as [dV|]; [|done]. cbn [mbind option_bind].
  rewrite for_cells_flat.
  rewrite (for_loop_fails_inv (λ st, super st.1 = super m) _ _
             (y, Z.of_nat (length row))); [done|done| | |].
  - intros [y' x'] s1 s2 Hb Hs1. cbn [fst snd] in Hb.
    apply tt_step_cell_super in Hb. congruence.
  - apply elem_of_cells. lia.
  - intros [m' Vn'] Hsup. cbn [fst snd] in *. unfold step_cell.
    by rewrite Hsup, (get_past_end _ _ _ Hrow).
Qed.

End WithLibm.
End TenTusscherFacts.

(** * The claims *)

Section FitzHughNagumoClaims.
Import FitzHughNagumo FitzHughNagumoFacts.

Example fhn3_built :
  FitzHughNagumo.new 3 3 0.01 ≫= addStimulus 1 1 1.0 10.0 = Some Samples.fhn3.
Proof. reflexivity. Qed.

Example fhn3_first_step :
  (m ← step Samples.fhn3; get (u_ m) 1 1) = Some 0.01%float
  ∧ (m ← step Samples.fhn3; get (v_ m) 1 1) = Some 0.001%float.
Proof. split; vm_compute; reflexivity. Qed.

(** C6. On a well-formed object one [step] completes, and every cell of the
    new fields is the forward-Euler update
    [u' = u + dt * (diffusion_u + (u - u*u*u/3 - v + stimulus))] and
    [v' = v + dt * (diffusion_v + (u + a - b*v)/c)], where [u], [v] and
    [stimulus] are the pre-step values of that cell and [diffusion_u],
    [diffusion_v] are the cell's entries of the two diffusion buffers
    computed from the pre-step fields. *)
Theorem step_forward_euler (m : FitzHughNagumo.t) :
  wf m →
  ∃ du_dt dv_dt m',
    diffusion_terms m = Some (du_dt, dv_dt) ∧ step m = Some m'
    ∧ ∀ y x, 0 <= y < height_ m → 0 <= x < width_ m →
        ∃ u v stim diffusion_u diffusion_v,
          get (u_ m) y x = Some u ∧ get (v_ m) y x = Some v
          ∧ get (stimulus_ m) y x = Some stim
          ∧ get du_dt y x = Some diffusion_u
          ∧ get dv_dt y x = Some diffusion_v
          ∧ get (u_ m') y x
            = Some (u + dt_ m * (diffusion_u + (u - u * u * u / 3.0 - v + stim)))%float
          ∧ get (v_ m') y x
            = Some (v + dt_ m * (diffusion_v + (u + a_ m - b_ m * v) / c_ m))%float.
Proof.
  intros Hwf.
  destruct (fhn_step_cells m Hwf) as (du & dv & m' & Hd & Hs & _ & _ & _ & _ & _ & Hcell).
  exists du, dv, m'. split_and!; try done.
Qed.

Lemma step_forward_euler_witness :
  wf Samples.fhn3
  ∧ ∃ du_dt dv_dt m',
      diffusion_terms Samples.fhn3 = Some (du_dt, dv_dt)
      ∧ step Samples.fhn3 = Some m'
      ∧ ∃ u v stim diffusion_u diffusion_v,
          get (u_ Samples.fhn3) 1 1 = Some u ∧ get (v_ Samples.fhn3) 1 1 = Some v
          ∧ get (stimulus_ Samples.fhn3) 1 1 = Some stim
          ∧ get du_dt 1 1 = Some diffusion_u
          ∧ get dv_dt 1 1 = Some diffusion_v
          ∧ get (u_ m') 1 1
            = Some (u + 0.01 * (diffusion_u + (u - u * u * u / 3.0 - v + stim)))%float
          ∧ get (v_ m') 1 1
            = Some (v + 0.01 * (diffusion_v + (u + 0.1 - 0.5 * v) / 1.0))%float.
Proof.
  assert (Hwf : wf Samples.fhn3) by (apply fhn_wfb_wf; vm_compute; reflexivity).
  split; [exact Hwf|].
  destruct (step_forward_euler Samples.fhn3 Hwf) as (du & dv & m' & Hd & Hs & Hc).
  exists du, dv, m'. split; [exact Hd|]. split; [exact Hs|].
  apply (Hc 1 1); simpl; lia.
Defined.

(** C2, as stated, fails: after [addStimulus(1, 1, 1.0, 10.0)] on a fresh
    3 by 3 object the stimulus buffer still holds the strength after the
    first step, and the second step gives the stimulated cell a value
    different from the one it gets when the stimulus is cleared before that
    step. *)
Lemma stimulus_one_shot_counterexample :
  ∃ m1 m2 m2',
    FitzHughNagumo.new 3 3 0.01 ≫= addStimulus 1 1 1.0 10.0
      = Some Samples.fhn3
    ∧ step Samples.fhn3 = Some m1
    ∧ get (stimulus_ m1) 1 1 = Some 1.0%float
    ∧ step m1 = Some m2
    ∧ step (with_stimulus (filled 3 3 0.0%float) m1) = Some m2'
    ∧ get (u_ m2) 1 1 = Some 0.020049996666666667%float
    ∧ get (u_ m2') 1 1 = Some 0.010049996666666667%float
    ∧ get (u_ m2) 1 1 ≠ get (u_ m2') 1 1.
Proof.
  destruct (step Samples.fhn3) as [m1|] eqn:H1; [|by vm_compute in H1].
  destruct (step m1) as [m2|] eqn:H2;
    [|by vm_compute in H1; injection H1 as <-; vm_compute in H2].
  destruct (step (with_stimulus (filled 3 3 0.0%float) m1)) as [m2'|] eqn:H3;
    [|by vm_compute in H1; injection H1 as <-; vm_compute in H3].
  exists m1, m2, m2'.
  vm_compute in H1. injection H1 as <-.
  vm_compute in H2. injection H2 as <-.
  vm_compute in H3. injection H3 as <-.
  split_and!; try reflexivity. vm_compute. discriminate.
Qed.

(** C2, amended. The strength stored by [addStimulus] at a valid cell stays
    in the stimulus buffer: after any number [k >= 0] of steps following
    the call, the next step still adds [strength] to the reaction term of
    that cell ([duration] is not used). *)
Theorem stimulus_persists (m : FitzHughNagumo.t) (x y : Z)
  (strength duration : float) (k : Z) :
  wf m → isValidCoordinate m x y = true → 0 <= k →
  ∃ m0 mk du_dt dv_dt mk',
    addStimulus x y strength duration m = Some m0
    ∧ run k m0 = Some mk
    ∧ get (stimulus_ mk) y x = Some strength
    ∧ diffusion_terms mk = Some (du_dt, dv_dt)
    ∧ step mk = Some mk'
    ∧ ∃ u v diffusion_u,
        get (u_ mk) y x = Some u ∧ get (v_ mk) y x = Some v
        ∧ get du_dt y x = Some diffusion_u
        ∧ get (u_ mk') y x
          = Some (u + dt_ m * (diffusion_u + (u - u * u * u / 3.0 - v + strength)))%float.
Proof.
  intros Hwf Hvalid Hk.
  destruct (addStimulus_valid m x y strength duration Hwf Hvalid)
    as (m0 & Hadd & Hwf0 & Hst0 & Hw0 & Hh0 & Hdt0 & _).
  destruct (run_wf k m0 Hk Hwf0) as (mk & Hrun & Hwfk & Hcfg).
  destruct (fhn_step_cells mk Hwfk)
    as (du & dv & mk' & Hd & Hs & _ & _ & _ & _ & _ & Hcell).
  apply isValidCoordinate_true in Hvalid as [Hy Hx].
  destruct Hcfg as (Hwk & Hhk & Hdtk & _ & _ & _ & _ & _ & _ & Hstk).
  exists m0, mk, du, dv, mk'. split_and!; try done; [congruence|].
  destruct (Hcell y x) as (u & v & st & Du & Dv & Hu & Hv & Hst & HDu & HDv & Hu' & Hv');
    [lia..|].
  exists u, v, Du. split_and!; try done.
  rewrite Hu'. unfold reactionU. rewrite Hstk, Hst0 in Hst. injection Hst as <-.
  by rewrite Hdtk, Hdt0.
Qed.

Lemma stimulus_persists_witness :
  wf Samples.fhn3 ∧ isValidCoordinate Samples.fhn3 1 1 = true ∧ 0 <= 5
  ∧ ∃ m0 mk du_dt dv_dt mk',
      addStimulus 1 1 2.0 10.0 Samples.fhn3 = Some m0
      ∧ run 5 m0 = Some mk
      ∧ get (stimulus_ mk) 1 1 = Some 2.0%float
      ∧ diffusion_terms mk = Some (du_dt, dv_dt)
      ∧ step mk = Some mk'
      ∧ ∃ u v diffusion_u,
          get (u_ mk) 1 1 = Some u ∧ get (v_ mk) 1 1 = Some v
          ∧ get du_dt 1 1 = Some diffusion_u
          ∧ get (u_ mk') 1 1
            = Some (u + 0.01 * (diffusion_u + (u - u * u * u / 3.0 - v + 2.0)))%float.
Proof.
  assert (Hwf : wf Samples.fhn3) by (apply fhn_wfb_wf; vm_compute; reflexivity).
  assert (Hv : isValidCoordinate Samples.fhn3 1 1 = true) by reflexivity.
  assert (Hk : 0 <= 5) by lia.
  split; [exact Hwf|]. split; [exact Hv|]. split; [exact Hk|].
  exact (stimulus_persists Samples.fhn3 1 1 2.0 10.0 5 Hwf Hv Hk).
Defined.

End FitzHughNagumoClaims.

Section DiffusionClaims.
Import CardiacFacts.

(** C4, as stated, fails. With [conductivity_] zero the masked operator
    still multiplies: an infinite potential next to an unflagged interior
    cell leaves a not-a-number there, not zero. The unmasked operator
    called with a zero coefficient does the same. *)
Lemma zero_coefficient_counterexample :
  CardiacElectrophysiology.conductivity_ Samples.still43 = 0.0%float
  ∧ get (CardiacElectrophysiology.mi_region_ Samples.still43) 1 2 = Some false
  ∧ CardiacElectrophysiology.applyDiffusion Samples.still43 Samples.field43_inf
      (filled 3 4 0.0%float)
    = Some [[0.0; 0.0; 0.0; 0.0]; [0.0; 0.0; nan; 0.0]; [0.0; 0.0; 0.0; 0.0]]%float
  ∧ FitzHughNagumo.applyDiffusion Samples.fhn3
      [[1.0; infinity; 1.0]; [1.0; 1.0; 1.0]; [1.0; 1.0; 1.0]]%float 0.0
      (filled 3 3 0.0%float)
    = Some [[0.0; 0.0; 0.0]; [0.0; nan; 0.0]; [0.0; 0.0; 0.0]]%float.
Proof. split_and!; vm_compute; reflexivity. Qed.

(** C4, amended. Both diffusion operators complete on grids that cover the
    rectangle. The unmasked one writes [coeff * (N+S+E+W - 4*center)] at
    every interior cell; the masked one writes zero at flagged interior
    cells and [conductivity_ * (N+S+E+W - 4*center)] at the other interior
    cells; both leave every cell outside the interior as it was. When the
    width or the height is below 3 the result is the argument, unchanged.
    In [step] of the simplified model a zero [du_] leaves the first
    diffusion buffer zero at every cell, and a zero [dv_] the second.
    Neither operator tests its coefficient: with a coefficient equal to
    zero the value written at an interior cell that is not flagged
    compares equal to zero when the five-point sum is finite, and is a
    not-a-number when the sum is infinite or a not-a-number. *)
Theorem applyDiffusion_spec :
  (∀ (m : FitzHughNagumo.t) g coeff result,
     covers g (FitzHughNagumo.height_ m) (FitzHughNagumo.width_ m) →
     covers result (FitzHughNagumo.height_ m) (FitzHughNagumo.width_ m) →
     ∃ r, FitzHughNagumo.applyDiffusion m g coeff result = Some r
       ∧ (∀ y x, 1 <= y <= FitzHughNagumo.height_ m - 2 →
                 1 <= x <= FitzHughNagumo.width_ m - 2 →
            ∃ n s w e c,
              get g (y - 1) x = Some n ∧ get g (y + 1) x = Some s
              ∧ get g y (x - 1) = Some w ∧ get g y (x + 1) = Some e
              ∧ get g y x = Some c
              ∧ get r y x = Some (coeff * (n + s + w + e - 4.0 * c))%float)
       ∧ (∀ y x, ¬ (1 <= y <= FitzHughNagumo.height_ m - 2
                    ∧ 1 <= x <= FitzHughNagumo.width_ m - 2) →
            get r y x = get result y x))
  ∧ (∀ (m : CardiacElectrophysiology.t) g result,
     covers (CardiacElectrophysiology.mi_region_ m)
       (CardiacElectrophysiology.height_ m) (CardiacElectrophysiology.width_ m) →
     covers g (CardiacElectrophysiology.height_ m) (CardiacElectrophysiology.width_ m) →
     covers result (CardiacElectrophysiology.height_ m)
       (CardiacElectrophysiology.width_ m) →
     ∃ r, CardiacElectrophysiology.applyDiffusion m g result = Some r
       ∧ (∀ y x, 1 <= y <= CardiacElectrophysiology.height_ m - 2 →
                 1 <= x <= CardiacElectrophysiology.width_ m - 2 →
            (get (CardiacElectrophysiology.mi_region_ m) y x = Some true
             ∧ get r y x = Some 0.0%float)
            ∨ (get (CardiacElectrophysiology.mi_region_ m) y x = Some false
               ∧ ∃ n s w e c,
                   get g (y - 1) x = Some n ∧ get g (y + 1) x = Some s
                   ∧ get g y (x - 1) = Some w ∧ get g y (x + 1) = Some e
                   ∧ get g y x = Some c
                   ∧ get r y x
                     = Some (CardiacElectrophysiology.conductivity_ m
                             * (n + s + w + e - 4.0 * c))%float))
       ∧ (∀ y x, ¬ (1 <= y <= CardiacElectrophysiology.height_ m - 2
                    ∧ 1 <= x <= CardiacElectrophysiology.width_ m - 2) →
            get r y x = get result y x))
  ∧ (∀ (m : FitzHughNagumo.t) g coeff result,
     FitzHughNagumo.width_ m < 3 ∨ FitzHughNagumo.height_ m < 3 →
     FitzHughNagumo.applyDiffusion m g coeff result = Some result)
  ∧ (∀ (m : CardiacElectrophysiology.t) g result,
     CardiacElectrophysiology.width_ m < 3 ∨ CardiacElectrophysiology.height_ m < 3 →
     CardiacElectrophysiology.applyDiffusion m g result = Some result)
  ∧ (∀ (m : FitzHughNagumo.t),
     FitzHughNagumo.wf m →
     ∃ du_dt dv_dt,
       FitzHughNagumo.diffusion_terms m = Some (du_dt, dv_dt)
       ∧ ((FitzHughNagumo.du_ m =? 0)%float = true →
          ∀ y x, 0 <= y < FitzHughNagumo.height_ m →
                 0 <= x < FitzHughNagumo.width_ m →
            get du_dt y x = Some 0.0%float)
       ∧ ((FitzHughNagumo.dv_ m =? 0)%float = true →
          ∀ y x, 0 <= y < FitzHughNagumo.height_ m →
                 0 <= x < FitzHughNagumo.width_ m →
            get dv_dt y x = Some 0.0%float))
  ∧ (∀ (m : FitzHughNagumo.t) g coeff result,
     covers g (FitzHughNagumo.height_ m) (FitzHughNagumo.width_ m) →
     covers result (FitzHughNagumo.height_ m) (FitzHughNagumo.width_ m) →
     (coeff =? 0)%float = true →
     ∃ r, FitzHughNagumo.applyDiffusion m g coeff result = Some r
       ∧ ∀ y x, 1 <= y <= FitzHughNagumo.height_ m - 2 →
                1 <= x <= FitzHughNagumo.width_ m - 2 →
           ∃ lap v, stencil g y x = Some lap ∧ get r y x = Some v
             ∧ (if finite lap then PrimFloat.is_zero v else PrimFloat.is_nan v)
               = true)
  ∧ (∀ (m : CardiacElectrophysiology.t) g result,
     covers (CardiacElectrophysiology.mi_region_ m)
       (CardiacElectrophysiology.height_ m) (CardiacElectrophysiology.width_ m) →
     covers g (CardiacElectrophysiology.height_ m) (CardiacElectrophysiology.width_ m) →
     covers result (CardiacElectrophysiology.height_ m)
       (CardiacElectrophysiology.width_ m) →
     (CardiacElectrophysiology.conductivity_ m =? 0)%float = true →
     ∃ r, CardiacElectrophysiology.applyDiffusion m g result = Some r
       ∧ ∀ y x, 1 <= y <= CardiacElectrophysiology.height_ m - 2 →
                1 <= x <= CardiacElectrophysiology.width_ m - 2 →
           get (CardiacElectrophysiology.mi_region_ m) y x = Some false →
           ∃ lap v, stencil g y x = Some lap ∧ get r y x = Some v
             ∧ (if finite lap then PrimFloat.is_zero v else PrimFloat.is_nan v)
               = true).
Proof.
  split_and!.
  - intros m g coeff result Hg Hres.
    destruct (FitzHughNagumoFacts.fhn_applyDiffusion_cells m g coeff result Hg Hres)
      as (r & Hr & _ & Hin & Hout).
    exists r. split; [done|]. split.
    + intros y x Hy Hx. destruct (Hin y x) as (lap & Hlap & Hget); [lia..|].
      apply stencil_inv in Hlap as (n & s & w & e & c & ? & ? & ? & ? & ? & ->).
      exists n, s, w, e, c. done.
    + intros y x Hni. apply Hout. lia.
  - intros m g result Hmask Hg Hres.
    destruct (cardiac_applyDiffusion_cells m g result Hmask Hg Hres)
      as (r & Hr & _ & Hin & Hout).
    exists r. split; [done|]. split.
    + intros y x Hy Hx.
      destruct (Hin y x) as [?|(Hno & lap & Hlap & Hget)]; [lia..|by left|right].
      apply stencil_inv in Hlap as (n & s & w & e & c & ? & ? & ? & ? & ? & ->).
      split; [done|]. exists n, s, w, e, c. done.
    + intros y x Hni. apply Hout. lia.
  - intros m g coeff result Hsmall. unfold FitzHughNagumo.applyDiffusion.
    rewrite for_cells_flat, cells_empty by lia. done.
  - intros m g result Hsmall. unfold CardiacElectrophysiology.applyDiffusion.
    rewrite for_cells_flat, cells_empty by lia. done.
  - intros m Hwf.
    destruct (FitzHughNagumoFacts.diffusion_terms_covers m Hwf)
      as (du & dv & Hd & _). exists du, dv. split; [done|].
    destruct Hwf as (Hh & Hw & _).
    revert Hd. unfold FitzHughNagumo.diffusion_terms.
    rewrite !fresh_Some by done. cbn [mbind option_bind]. intros Hd. split.
    + intros Hzero y x Hy Hx. revert Hd. rewrite (eqb_zero_not_pos _ Hzero).
      cbn [mbind option_bind].
      destruct (if (0 <? FitzHughNagumo.dv_ m)%float then _ else _); [|done].
      cbn [mbind option_bind]. intros [= <- _]. by apply get_filled.
    + intros Hzero y x Hy Hx. revert Hd. rewrite (eqb_zero_not_pos _ Hzero).
      destruct (if (0 <? FitzHughNagumo.du_ m)%float then _ else _); [|done].
      cbn [mbind option_bind]. intros [= _ <-]. by apply get_filled.
  - intros m g coeff result Hg Hres Hzero.
    destruct (FitzHughNagumoFacts.fhn_applyDiffusion_cells m g coeff result Hg Hres)
      as (r & Hr & _ & Hin & _).
    exists r. split; [done|]. intros y x Hy Hx.
    destruct (Hin y x) as (lap & Hlap & Hget); [lia..|].
    exists lap, (coeff * lap)%float. split_and!; try done.
    by apply mul_zero_coefficient.
  - intros m g result Hmask Hg Hres Hzero.
    destruct (cardiac_applyDiffusion_cells m g result Hmask Hg Hres)
      as (r & Hr & _ & Hin & _).
    exists r. split; [done|]. intros y x Hy Hx Hno.
    destruct (Hin y x) as [(Hyes & _)|(_ & lap & Hlap & Hget)]; [lia..|congruence|].
    exists lap, (CardiacElectrophysiology.conductivity_ m * lap)%float.
    split_and!; try done. by apply mul_zero_coefficient.
Qed.

Lemma applyDiffusion_spec_witness :
  (covers Samples.ramp33 3 3 ∧ covers (filled 3 3 0.0%float) 3 3
   ∧ ∃ r, FitzHughNagumo.applyDiffusion Samples.fhn3 Samples.ramp33 0.5
            (filled 3 3 0.0%float) = Some r
          ∧ get r 1 1 = Some 8.0%float ∧ get r 0 1 = Some 0.0%float)
  ∧ (∃ r, CardiacElectrophysiology.applyDiffusion
            (LuoRudyModel.super Samples.lr43) Samples.field43 (filled 3 4 5.0%float)
          = Some r
          ∧ get r 1 1 = Some 0.0%float ∧ get r 1 2 = Some (-8.0)%float
          ∧ get r 2 2 = Some 5.0%float)
  ∧ (FitzHughNagumo.wf Samples.fhn3_still
     ∧ ∃ du_dt dv_dt,
         FitzHughNagumo.diffusion_terms Samples.fhn3_still = Some (du_dt, dv_dt)
         ∧ get du_dt 1 1 = Some 0.0%float ∧ get dv_dt 1 1 = Some 0.0%float)
  ∧ (∃ r, CardiacElectrophysiology.applyDiffusion Samples.still43 Samples.field43
            (filled 3 4 5.0%float) = Some r
          ∧ ∃ v, get r 1 2 = Some v ∧ PrimFloat.is_zero v = true)
  ∧ (∃ m, FitzHughNagumo.new 2 3 0.01 = Some m
       ∧ FitzHughNagumo.applyDiffusion m Samples.ramp33 0.5 (filled 3 2 5.0%float)
         = Some (filled 3 2 5.0%float))
  ∧ (∃ m, CardiacElectrophysiology.new 4 2 0.01 = Some m
       ∧ CardiacElectrophysiology.applyDiffusion m Samples.field43 (filled 2 4 5.0%float)
         = Some (filled 2 4 5.0%float)).
Proof.
  assert (Hg : covers Samples.ramp33 (FitzHughNagumo.height_ Samples.fhn3)
                 (FitzHughNagumo.width_ Samples.fhn3))
    by (apply coversb_covers; vm_compute; reflexivity).
  assert (Hr : covers (filled 3 3 0.0%float)
                 (FitzHughNagumo.height_ Samples.fhn3)
                 (FitzHughNagumo.width_ Samples.fhn3))
    by (apply coversb_covers; vm_compute; reflexivity).
  assert (Hmask : covers (CardiacElectrophysiology.mi_region_ Samples.still43) 3 4)
    by (apply coversb_covers; vm_compute; reflexivity).
  assert (Hg4 : covers Samples.field43 3 4)
    by (apply coversb_covers; vm_compute; reflexivity).
  assert (Hr4 : covers (filled 3 4 5.0%float) 3 4) by apply covers_filled.
  split_and!.
  - exact Hg.
  - exact Hr.
  - destruct (proj1 applyDiffusion_spec Samples.fhn3 _ 0.5%float _ Hg Hr)
      as (r & Hrun & Hin & Hout).
    exists r. split; [exact Hrun|]. split.
    + destruct (Hin 1 1) as (n & s & w & e & c & Hn & Hs & Hw & He & Hc & Hget);
        [simpl; lia..|].
      vm_compute in Hn, Hs, Hw, He, Hc.
      injection Hn as <-. injection Hs as <-. injection Hw as <-.
      injection He as <-. injection Hc as <-. rewrite Hget. reflexivity.
    + rewrite (Hout 0 1) by (simpl; lia). reflexivity.
  - destruct (proj1 (proj2 applyDiffusion_spec) (LuoRudyModel.super Samples.lr43)
                Samples.field43 (filled 3 4 5.0%float) Hmask Hg4 Hr4)
      as (r & Hrun & Hin & Hout).
    exists r. split; [exact Hrun|]. split_and!.
    + destruct (Hin 1 1) as [(_ & Hz)|(Hno & _)]; [simpl; lia..|exact Hz|].
      vm_compute in Hno. discriminate.
    + destruct (Hin 1 2)
        as [(Hyes & _)|(_ & n & s & w & e & c & Hn & Hs & Hw & He & Hc & Hget)];
        [simpl; lia..| |].
      { vm_compute in Hyes. discriminate. }
      vm_compute in Hn, Hs, Hw, He, Hc.
      injection Hn as <-. injection Hs as <-. injection Hw as <-.
      injection He as <-. injection Hc as <-. rewrite Hget. reflexivity.
    + rewrite (Hout 2 2) by (simpl; lia). reflexivity.
  - apply FitzHughNagumoFacts.fhn_wfb_wf. vm_compute. reflexivity.
  - destruct (proj1 (proj2 (proj2 (proj2 (proj2 applyDiffusion_spec)))) Samples.fhn3_still)
      as (du & dv & Hd & Hdu & Hdv);
      [apply FitzHughNagumoFacts.fhn_wfb_wf; vm_compute; reflexivity|].
    exists du, dv. split; [exact Hd|]. split.
    + apply Hdu; [reflexivity|simpl; lia..].
    + apply Hdv; [reflexivity|simpl; lia..].
  - destruct (proj2 (proj2 (proj2 (proj2 (proj2 (proj2 applyDiffusion_spec)))))
                Samples.still43 Samples.field43 (filled 3 4 5.0%float) Hmask Hg4 Hr4 eq_refl)
      as (r & Hrun & Hin).
    exists r. split; [exact Hrun|].
    destruct (Hin 1 2 ltac:(simpl; lia) ltac:(simpl; lia) eq_refl)
      as (lap & v & Hlap & Hget & Hz).
    exists v. split; [exact Hget|].
    vm_compute in Hlap. injection Hlap as <-. exact Hz.
  - eexists. split; [reflexivity|].
    apply (proj1 (proj2 (proj2 applyDiffusion_spec))). left. simpl. lia.
  - eexists. split; [reflexivity|].
    apply (proj1 (proj2 (proj2 (proj2 applyDiffusion_spec)))). right. simpl. lia.
Defined.

(** C10. In the masked operator a flagged cell only has its own entry set
    to zero. At an interior cell that is not flagged the operator writes
    [conductivity_ * (N+S+E+W - 4*center)] computed from the stored
    potentials of the four neighbours whatever their flags, so the stored
    potential of a flagged neighbour enters the sum like any other. *)
Theorem scar_potential_feeds_neighbours (m : CardiacElectrophysiology.t)
  (g result : grid float) (y x : Z) :
  covers (CardiacElectrophysiology.mi_region_ m)
    (CardiacElectrophysiology.height_ m) (CardiacElectrophysiology.width_ m) →
  covers g (CardiacElectrophysiology.height_ m) (CardiacElectrophysiology.width_ m) →
  covers result (CardiacElectrophysiology.height_ m)
    (CardiacElectrophysiology.width_ m) →
  1 <= y <= CardiacElectrophysiology.height_ m - 2 →
  1 <= x <= CardiacElectrophysiology.width_ m - 2 →
  get (CardiacElectrophysiology.mi_region_ m) y x = Some false →
  ∃ r n s w e c,
    CardiacElectrophysiology.applyDiffusion m g result = Some r
    ∧ get g (y - 1) x = Some n ∧ get g (y + 1) x = Some s
    ∧ get g y (x - 1) = Some w ∧ get g y (x + 1) = Some e
    ∧ get g y x = Some c
    ∧ get r y x
      = Some (CardiacElectrophysiology.conductivity_ m
              * (n + s + w + e - 4.0 * c))%float
    ∧ ∀ y' x', 1 <= y' <= CardiacElectrophysiology.height_ m - 2 →
               1 <= x' <= CardiacElectrophysiology.width_ m - 2 →
        get (CardiacElectrophysiology.mi_region_ m) y' x' = Some true →
        get r y' x' = Some 0.0%float.
Proof.
  intros Hmask Hg Hres Hy Hx Hno.
  destruct (cardiac_applyDiffusion_cells m g result Hmask Hg Hres)
    as (r & Hr & _ & Hin & _).
  destruct (Hin y x) as [[? _]|(_ & lap & Hlap & Hget)]; [lia..|congruence|].
  apply stencil_inv in Hlap as (n & s & w & e & c & ? & ? & ? & ? & ? & ->).
  exists r, n, s, w, e, c. split_and!; try done.
  intros y' x' Hy' Hx' Hflag.
  destruct (Hin y' x') as [[_ ?]|[? _]]; [lia..|done|congruence].
Qed.

(** On the 4 by 3 sample the flagged cell [(1, 1)] stores 5.0 and its
    unflagged neighbour [(2, 1)] stores 1.0: the neighbour's entry is
    [1.0 * (0 + 0 + 5.0 + 0 - 4.0 * 1.0)]. *)
Lemma scar_potential_feeds_neighbours_witness :
  get (CardiacElectrophysiology.mi_region_ (LuoRudyModel.super Samples.lr43)) 1 1
    = Some true
  ∧ get (CardiacElectrophysiology.mi_region_ (LuoRudyModel.super Samples.lr43)) 1 2
    = Some false
  ∧ ∃ r,
      CardiacElectrophysiology.applyDiffusion (LuoRudyModel.super Samples.lr43)
        [[0.0; 0.0; 0.0; 0.0]; [0.0; 5.0; 1.0; 0.0]; [0.0; 0.0; 0.0; 0.0]]%float
        (filled 3 4 0.0%float) = Some r
      ∧ get r 1 2 = Some (1.0 * (0.0 + 0.0 + 5.0 + 0.0 - 4.0 * 1.0))%float
      ∧ get r 1 1 = Some 0.0%float.
Proof.
  split; [reflexivity|]. split; [reflexivity|].
  destruct (scar_potential_feeds_neighbours (LuoRudyModel.super Samples.lr43)
              [[0.0; 0.0; 0.0; 0.0]; [0.0; 5.0; 1.0; 0.0]; [0.0; 0.0; 0.0; 0.0]]%float
              (filled 3 4 0.0%float) 1 2)
    as (r & n & s & w & e & c & Hr & Hn & Hs & Hw & He & Hc & Hget & Hzero);
    try (apply coversb_covers; vm_compute; reflexivity);
    try (simpl; lia); try reflexivity.
  exists r. split; [exact Hr|].
  vm_compute in Hn, Hs, Hw, He, Hc.
  injection Hn as <-. injection Hs as <-. injection Hw as <-.
  injection He as <-. injection Hc as <-.
  split; [exact Hget|]. apply Hzero; [simpl; lia..|reflexivity].
Defined.

End DiffusionClaims.

Section IonicClaims.
Import CardiacElectrophysiology CardiacFacts.

Example lr43_built :
  LuoRudyModel.setMIRegion Samples.mask43 <$> LuoRudyModel.new 4 3 0.01
  = Some Samples.lr43.
Proof. reflexivity. Qed.

Example tt43_built :
  TenTusscherModel.setMIRegion Samples.mask43 <$> TenTusscherModel.new 4 3 0.01
  = Some Samples.tt43.
Proof. reflexivity. Qed.

(** C3. In both ionic models, once an accepted mask covering the grid is
    installed, every flagged cell keeps, after any number [N] of steps,
    the potential it had when the mask was installed, and at each of those
    steps the diffusion buffer holds zero for that cell. (The simplified
    excitable model has no mask and hence no flagged cell.) *)
Theorem scar_cells_frozen `{Libm} :
  (∀ (m0 : LuoRudyModel.t) (mask : grid bool) (N y x : Z),
     LuoRudyModel.wf m0 →
     covers mask (height_ (LuoRudyModel.super m0)) (width_ (LuoRudyModel.super m0)) →
     0 <= y < height_ (LuoRudyModel.super m0) →
     0 <= x < width_ (LuoRudyModel.super m0) →
     get (mi_region_ (LuoRudyModel.super (LuoRudyModel.setMIRegion mask m0))) y x
       = Some true →
     0 <= N →
     ∃ mN, run N (LuoRudyModel.setMIRegion mask m0) = Some mN
       ∧ get (LuoRudyModel.V_ mN) y x = get (LuoRudyModel.V_ m0) y x
       ∧ ∀ k, 0 <= k < N →
           ∃ mk dV_dt,
             run k (LuoRudyModel.setMIRegion mask m0) = Some mk
             ∧ applyDiffusion (LuoRudyModel.super mk) (LuoRudyModel.V_ mk)
                 (filled (height_ (LuoRudyModel.super mk))
                    (width_ (LuoRudyModel.super mk)) 0.0%float) = Some dV_dt
             ∧ get dV_dt y x = Some 0.0%float)
  ∧ (∀ (m0 : TenTusscherModel.t) (mask : grid bool) (N y x : Z),
     TenTusscherModel.wf m0 →
     covers mask (height_ (TenTusscherModel.super m0))
       (width_ (TenTusscherModel.super m0)) →
     0 <= y < height_ (TenTusscherModel.super m0) →
     0 <= x < width_ (TenTusscherModel.super m0) →
     get (mi_region_ (TenTusscherModel.super (TenTusscherModel.setMIRegion mask m0))) y x
       = Some true →
     0 <= N →
     ∃ mN, run N (TenTusscherModel.setMIRegion mask m0) = Some mN
       ∧ get (TenTusscherModel.V_ mN) y x = get (TenTusscherModel.V_ m0) y x
       ∧ ∀ k, 0 <= k < N →
           ∃ mk dV_dt,
             run k (TenTusscherModel.setMIRegion mask m0) = Some mk
             ∧ applyDiffusion (TenTusscherModel.super mk) (TenTusscherModel.V_ mk)
                 (filled (height_ (TenTusscherModel.super mk))
                    (width_ (TenTusscherModel.super mk)) 0.0%float) = Some dV_dt
             ∧ get dV_dt y x = Some 0.0%float).
Proof.
  split.
  - intros m0 mask N y x Hwf0 Hcov Hy Hx Hflag HN.
    destruct (LuoRudyFacts.lr_wf_setMIRegion mask m0 Hwf0 Hcov) as (Hwf & Hh & Hw & HV).
    set (m := LuoRudyModel.setMIRegion mask m0) in *.
    destruct (LuoRudyFacts.lr_run_invariant N m Hwf HN) as (mN & HrunN & _ & _ & Hscar & _).
    exists mN. split; [done|]. split.
    { rewrite <- HV. apply Hscar; [lia..|done]. }
    intros k Hk.
    destruct (LuoRudyFacts.lr_run_invariant k m Hwf) as (mk & Hrunk & Hwfk & Hsame & _);
      [lia|].
    destruct (LuoRudyFacts.lr_step_cells mk Hwfk) as (dV & m' & HdV & _ & _ & _ & Hcell).
    destruct Hsame as (Hwk & Hhk & _ & _ & Hmk).
    exists mk, dV. split; [done|]. split; [done|].
    destruct (Hcell y x) as [(_ & Hz & _)|(Hno & _)]; [lia..|done|congruence].
  - intros m0 mask N y x Hwf0 Hcov Hy Hx Hflag HN.
    destruct (TenTusscherFacts.tt_wf_setMIRegion mask m0 Hwf0 Hcov) as (Hwf & Hh & Hw & HV).
    set (m := TenTusscherModel.setMIRegion mask m0) in *.
    destruct (TenTusscherFacts.tt_run_invariant N m Hwf HN) as (mN & HrunN & _ & _ & Hscar & _).
    exists mN. split; [done|]. split.
    { rewrite <- HV. apply Hscar; [lia..|done]. }
    intros k Hk.
    destruct (TenTusscherFacts.tt_run_invariant k m Hwf) as (mk & Hrunk & Hwfk & Hsame & _);
      [lia|].
    destruct (TenTusscherFacts.tt_step_cells mk Hwfk) as (dV & m' & HdV & _ & _ & _ & Hcell).
    destruct Hsame as (Hwk & Hhk & _ & _ & Hmk).
    exists mk, dV. split; [done|]. split; [done|].
    destruct (Hcell y x) as [(_ & Hz & _)|(Hno & _)]; [lia..|done|congruence].
Qed.

Lemma scar_cells_frozen_witness :
  LuoRudyModel.wf Samples.lr43
  ∧ covers Samples.mask43 3 4
  ∧ get (mi_region_ (LuoRudyModel.super
           (LuoRudyModel.setMIRegion Samples.mask43 Samples.lr43))) 1 1
    = Some true
  ∧ ∃ mN,
      run (H := @LuoRudyModel.model Samples.libm_sample) 3
        (LuoRudyModel.setMIRegion Samples.mask43 Samples.lr43) = Some mN
      ∧ get (LuoRudyModel.V_ mN) 1 1 = Some (-84.0)%float.
Proof.
  assert (Hwf : LuoRudyModel.wf Samples.lr43)
    by (apply LuoRudyFacts.lr_wfb_wf; vm_compute; reflexivity).
  assert (Hcov : covers Samples.mask43 3 4)
    by (apply coversb_covers; vm_compute; reflexivity).
  assert (Hflag : get (mi_region_ (LuoRudyModel.super
           (LuoRudyModel.setMIRegion Samples.mask43 Samples.lr43))) 1 1
    = Some true) by reflexivity.
  split; [exact Hwf|]. split; [exact Hcov|]. split; [exact Hflag|].
  destruct (proj1 (@scar_cells_frozen Samples.libm_sample)
              Samples.lr43 Samples.mask43 3 1 1 Hwf Hcov
              ltac:(simpl; lia) ltac:(simpl; lia) Hflag ltac:(lia))
    as (mN & Hrun & HV & _).
  exists mN. split; [exact Hrun|]. rewrite HV. reflexivity.
Defined.

(** C7. In both ionic models the calcium concentration of every cell lies
    in [[1e-4, 1e-2]] after construction; one step leaves each flagged
    cell's calcium as it was and each other cell's calcium clamped into the
    interval; hence the bound holds after every step. *)
Theorem calcium_stays_bounded `{Libm} :
  ((∀ width height dt m,
      LuoRudyModel.new width height dt = Some m → LuoRudyModel.calcium_bounded m)
   ∧ (∀ m, LuoRudyModel.wf m →
        ∃ m', step m = Some m'
          ∧ ∀ y x, 0 <= y < height_ (LuoRudyModel.super m) →
              0 <= x < width_ (LuoRudyModel.super m) →
              (get (mi_region_ (LuoRudyModel.super m)) y x = Some true
               ∧ get (LuoRudyModel.Cai_ m') y x = get (LuoRudyModel.Cai_ m) y x)
              ∨ (get (mi_region_ (LuoRudyModel.super m)) y x = Some false
                 ∧ ∃ c, get (LuoRudyModel.Cai_ m') y x = Some c
                        ∧ in_range 0.0001 0.01 c = true))
   ∧ (∀ m N, LuoRudyModel.wf m → LuoRudyModel.calcium_bounded m → 0 <= N →
        ∃ mN, run N m = Some mN ∧ LuoRudyModel.calcium_bounded mN))
  ∧ ((∀ width height dt m,
        TenTusscherModel.new width height dt = Some m →
        TenTusscherModel.calcium_bounded m)
     ∧ (∀ m, TenTusscherModel.wf m →
          ∃ m', step m = Some m'
            ∧ ∀ y x, 0 <= y < height_ (TenTusscherModel.super m) →
                0 <= x < width_ (TenTusscherModel.super m) →
                (get (mi_region_ (TenTusscherModel.super m)) y x = Some true
                 ∧ get (TenTusscherModel.Cai_ m') y x
                   = get (TenTusscherModel.Cai_ m) y x)
                ∨ (get (mi_region_ (TenTusscherModel.super m)) y x = Some false
                   ∧ ∃ c, get (TenTusscherModel.Cai_ m') y x = Some c
                          ∧ in_range 0.0001 0.01 c = true))
     ∧ (∀ m N, TenTusscherModel.wf m → TenTusscherModel.calcium_bounded m →
          0 <= N →
          ∃ mN, run N m = Some mN ∧ TenTusscherModel.calcium_bounded mN)).
Proof.
  split; split_and!.
  - apply LuoRudyFacts.lr_new_calcium_bounded.
  - intros m Hwf.
    destruct (LuoRudyFacts.lr_step_cells m Hwf) as (dV & m' & _ & Hstep & _ & _ & Hcell).
    exists m'. split; [done|]. intros y x Hy Hx.
    destruct (Hcell y x Hy Hx) as [(? & _ & _ & ?)|?]; [left|right]; done.
  - intros m N Hwf Hb HN.
    destruct (LuoRudyFacts.lr_run_invariant N m Hwf HN) as (mN & Hrun & _ & _ & _ & Hca).
    exists mN. split; [done|]. by apply Hca.
  - apply TenTusscherFacts.tt_new_calcium_bounded.
  - intros m Hwf.
    destruct (TenTusscherFacts.tt_step_cells m Hwf) as (dV & m' & _ & Hstep & _ & _ & Hcell).
    exists m'. split; [done|]. intros y x Hy Hx.
    destruct (Hcell y x Hy Hx) as [(? & _ & _ & ?)|?]; [left|right]; done.
  - intros m N Hwf Hb HN.
    destruct (TenTusscherFacts.tt_run_invariant N m Hwf HN) as (mN & Hrun & _ & _ & _ & Hca).
    exists mN. split; [done|]. by apply Hca.
Qed.

Lemma calcium_stays_bounded_witness :
  TenTusscherModel.wf Samples.tt43
  ∧ TenTusscherModel.calcium_bounded Samples.tt43
  ∧ ∃ mN,
      run (H := @TenTusscherModel.model Samples.libm_sample) 4 Samples.tt43
        = Some mN
      ∧ TenTusscherModel.calcium_bounded mN.
Proof.
  assert (Hwf : TenTusscherModel.wf Samples.tt43)
    by (apply TenTusscherFacts.tt_wfb_wf; vm_compute; reflexivity).
  assert (Hb : TenTusscherModel.calcium_bounded Samples.tt43).
  { intros y x Hy Hx. exists 0.0002%float. simpl in Hy, Hx.
    unfold Samples.tt43. cbn [TenTusscherModel.Cai_].
    rewrite get_filled by done. done. }
  split; [exact Hwf|]. split; [exact Hb|].
  exact (proj2 (proj2 (proj2 (@calcium_stays_bounded Samples.libm_sample)))
           Samples.tt43 4 Hwf Hb ltac:(lia)).
Defined.

(** C9, as stated, fails: a mask whose row 0 has the grid's width and
    whose row 1 is longer passes the test and is installed, some later row
    has a different length, and yet the next step completes: no row is
    indexed past its end. And initial conditions whose later row is short
    pass the test but are not installed: the copy loop of the call itself
    reads past the end of that row. *)
Lemma row_zero_check_counterexample :
  mask_dims_ok (LuoRudyModel.super Samples.lr43) Samples.mask_long = true
  ∧ mi_region_ (LuoRudyModel.super
                  (LuoRudyModel.setMIRegion Samples.mask_long Samples.lr43))
    = Samples.mask_long
  ∧ (length <$> Samples.mask_long) = [4; 5; 4]%nat
  ∧ is_Some (step (Model := @LuoRudyModel.model Samples.libm_sample)
               (LuoRudyModel.setMIRegion Samples.mask_long Samples.lr43))
  ∧ FitzHughNagumo.init_dims_ok Samples.fhn3
      [[1.0; 2.0; 3.0]; [4.0]; [7.0; 8.0; 9.0]]%float (filled 3 3 0.0%float)
    = true
  ∧ FitzHughNagumo.setInitialConditions
      [[1.0; 2.0; 3.0]; [4.0]; [7.0; 8.0; 9.0]]%float (filled 3 3 0.0%float)
      Samples.fhn3 = None.
Proof.
  split_and!; try reflexivity.
  vm_compute. eexists. reflexivity.
Qed.

(** C9, amended. Both tests look at the number of rows and at the length
    of row 0 only. An accepted mask is installed whole; when one of its
    rows inside the grid is shorter than the grid is wide, the next [step]
    of either ionic model indexes that row past its end. Accepted initial
    conditions are copied cell by cell; when a row of either argument
    inside the grid is shorter than the grid is wide, the copy loop of
    [setInitialConditions] itself indexes that row past its end. *)
Theorem dimension_checks_measure_row_zero `{Libm} :
  (∀ (m : CardiacElectrophysiology.t) (mask : grid bool),
     mask_dims_ok m mask = true ↔
     Z.of_nat (length mask) = height_ m
     ∧ (0 < height_ m →
        ∃ row0, idx mask 0 = Some row0 ∧ Z.of_nat (length row0) = width_ m))
  ∧ (∀ (m : FitzHughNagumo.t) (u_init v_init : grid float),
     FitzHughNagumo.init_dims_ok m u_init v_init = true ↔
     Z.of_nat (length u_init) = FitzHughNagumo.height_ m
     ∧ Z.of_nat (length v_init) = FitzHughNagumo.height_ m
     ∧ (0 < FitzHughNagumo.height_ m →
        ∃ ru rv, idx u_init 0 = Some ru ∧ idx v_init 0 = Some rv
                 ∧ Z.of_nat (length ru) = FitzHughNagumo.width_ m
                 ∧ Z.of_nat (length rv) = FitzHughNagumo.width_ m))
  ∧ (∀ (m : CardiacElectrophysiology.t) (mask : grid bool),
     mask_dims_ok m mask = true → mi_region_ (setMIRegion mask m) = mask)
  ∧ (∀ (m : LuoRudyModel.t) (mask : grid bool) (y : Z) (row : list bool),
     mask_dims_ok (LuoRudyModel.super m) mask = true →
     0 <= y < height_ (LuoRudyModel.super m) →
     idx mask y = Some row →
     Z.of_nat (length row) < width_ (LuoRudyModel.super m) →
     get mask y (Z.of_nat (length row)) = None
     ∧ step (LuoRudyModel.setMIRegion mask m) = None)
  ∧ (∀ (m : TenTusscherModel.t) (mask : grid bool) (y : Z) (row : list bool),
     mask_dims_ok (TenTusscherModel.super m) mask = true →
     0 <= y < height_ (TenTusscherModel.super m) →
     idx mask y = Some row →
     Z.of_nat (length row) < width_ (TenTusscherModel.super m) →
     get mask y (Z.of_nat (length row)) = None
     ∧ step (TenTusscherModel.setMIRegion mask m) = None)
  ∧ (∀ (m : FitzHughNagumo.t) (u_init v_init : grid float) (y : Z)
       (row : list float),
     FitzHughNagumo.init_dims_ok m u_init v_init = true →
     0 <= y < FitzHughNagumo.height_ m →
     idx u_init y = Some row ∨ idx v_init y = Some row →
     Z.of_nat (length row) < FitzHughNagumo.width_ m →
     FitzHughNagumo.setInitialConditions u_init v_init m = None).
Proof.
  split_and!.
  - apply mask_dims_ok_true.
  - apply FitzHughNagumoFacts.init_dims_ok_true.
  - intros m mask Hok. by apply setMIRegion_accepted.
  - intros m mask y row Hok Hy Hrow Hshort.
    split; [by apply get_past_end|].
    destruct (setMIRegion_accepted _ _ Hok) as (Hmask & Hw & Hh).
    apply (LuoRudyFacts.lr_step_short_mask_row _ y row); cbn [LuoRudyModel.setMIRegion LuoRudyModel.super];
      rewrite ?Hmask, ?Hw, ?Hh; done.
  - intros m mask y row Hok Hy Hrow Hshort.
    split; [by apply get_past_end|].
    destruct (setMIRegion_accepted _ _ Hok) as (Hmask & Hw & Hh).
    apply (TenTusscherFacts.tt_step_short_mask_row _ y row);
      cbn [TenTusscherModel.setMIRegion TenTusscherModel.super];
      rewrite ?Hmask, ?Hw, ?Hh; done.
  - apply FitzHughNagumoFacts.setInitialConditions_short_row.
Qed.

Lemma dimension_checks_measure_row_zero_witness :
  mask_dims_ok (LuoRudyModel.super Samples.lr43) Samples.mask_short = true
  ∧ idx Samples.mask_short 1 = Some [false; true]
  ∧ get Samples.mask_short 1 2 = None
  ∧ step (Model := @LuoRudyModel.model Samples.libm_sample)
      (LuoRudyModel.setMIRegion Samples.mask_short Samples.lr43) = None.
Proof.
  assert (Hok : mask_dims_ok (LuoRudyModel.super Samples.lr43) Samples.mask_short
                = true) by reflexivity.
  assert (Hrow : idx Samples.mask_short 1 = Some [false; true]) by reflexivity.
  split; [exact Hok|]. split; [exact Hrow|].
  exact (proj1 (proj2 (proj2 (proj2 (@dimension_checks_measure_row_zero
                                        Samples.libm_sample))))
           Samples.lr43 Samples.mask_short 1 [false; true] Hok
           ltac:(simpl; lia) Hrow ltac:(simpl; lia)).
Defined.

End IonicClaims.

Section DeterminismClaims.
Import CardiacElectrophysiology.

(** C8. [step] and [run] are functions of the object. For the simplified
    model the result depends only on the grid, the time step, the time, the
    parameters, the diffusion coefficients, the two fields and the
    stimulus buffer: two well-formed objects equal in these (whatever
    their scratch buffers hold) reach, after the same number of steps, the
    same time and the same value in every cell of both fields. For the
    ionic models, objects equal in every member take equal runs. *)
Theorem runs_are_deterministic `{Libm} :
  (∀ (m1 m2 : FitzHughNagumo.t) (N : Z),
     FitzHughNagumo.wf m1 → FitzHughNagumo.wf m2 →
     FitzHughNagumo.same_scalars m1 m2 →
     FitzHughNagumo.u_ m1 = FitzHughNagumo.u_ m2 →
     FitzHughNagumo.v_ m1 = FitzHughNagumo.v_ m2 →
     FitzHughNagumo.stimulus_ m1 = FitzHughNagumo.stimulus_ m2 →
     0 <= N →
     ∃ r1 r2,
       FitzHughNagumo.run N m1 = Some r1 ∧ FitzHughNagumo.run N m2 = Some r2
       ∧ FitzHughNagumo.time_ r1 = FitzHughNagumo.time_ r2
       ∧ ∀ y x, 0 <= y < FitzHughNagumo.height_ m1 →
                0 <= x < FitzHughNagumo.width_ m1 →
           get (FitzHughNagumo.u_ r1) y x = get (FitzHughNagumo.u_ r2) y x
           ∧ get (FitzHughNagumo.v_ r1) y x = get (FitzHughNagumo.v_ r2) y x)
  ∧ (∀ (m1 m2 : LuoRudyModel.t) (N : Z),
     LuoRudyModel.super m1 = LuoRudyModel.super m2 →
     LuoRudyModel.fields m1 = LuoRudyModel.fields m2 →
     LuoRudyModel.CaSR_ m1 = LuoRudyModel.CaSR_ m2 →
     (LuoRudyModel.GNa_ m1, LuoRudyModel.Gsi_ m1, LuoRudyModel.GK_ m1,
      LuoRudyModel.GK1_ m1, LuoRudyModel.Gb_ m1, LuoRudyModel.GCaL_ m1)
     = (LuoRudyModel.GNa_ m2, LuoRudyModel.Gsi_ m2, LuoRudyModel.GK_ m2,
        LuoRudyModel.GK1_ m2, LuoRudyModel.Gb_ m2, LuoRudyModel.GCaL_ m2) →
     step m1 = step m2 ∧ run N m1 = run N m2)
  ∧ (∀ (m1 m2 : TenTusscherModel.t) (N : Z),
     TenTusscherModel.super m1 = TenTusscherModel.super m2 →
     TenTusscherModel.fields m1 = TenTusscherModel.fields m2 →
     (TenTusscherModel.w_ m1, TenTusscherModel.CaSR_ m1, TenTusscherModel.CaSS_ m1)
     = (TenTusscherModel.w_ m2, TenTusscherModel.CaSR_ m2, TenTusscherModel.CaSS_ m2) →
     (TenTusscherModel.GNa_ m1, TenTusscherModel.GCaL_ m1, TenTusscherModel.GKr_ m1,
      TenTusscherModel.GKs_ m1, TenTusscherModel.GK1_ m1, TenTusscherModel.Gto_ m1,
      TenTusscherModel.GNaCa_ m1, TenTusscherModel.GNaK_ m1)
     = (TenTusscherModel.GNa_ m2, TenTusscherModel.GCaL_ m2, TenTusscherModel.GKr_ m2,
        TenTusscherModel.GKs_ m2, TenTusscherModel.GK1_ m2, TenTusscherModel.Gto_ m2,
        TenTusscherModel.GNaCa_ m2, TenTusscherModel.GNaK_ m2) →
     step m1 = step m2 ∧ run N m1 = run N m2).
Proof.
  split_and!.
  - intros m1 m2 N Hwf1 Hwf2 Hsc Hu Hv Hst HN.
    assert (Hag : FitzHughNagumo.agree m1 m2).
    { split; [done|]. intros y x _ _. by rewrite Hu, Hv, Hst. }
    destruct (FitzHughNagumoFacts.run_agree N m1 m2 HN Hwf1 Hwf2 Hag)
      as (r1 & r2 & Hr1 & Hr2 & Hw1 & _ & (Hsc' & Hcells)).
    exists r1, r2. split_and!; try done.
    + by destruct Hsc' as (_ & _ & _ & ? & _).
    + intros y x Hy Hx.
      destruct (FitzHughNagumoFacts.run_wf N m1 HN Hwf1) as (r1' & Hr1' & _ & Hcfg).
      rewrite Hr1 in Hr1'. injection Hr1' as <-.
      destruct Hcfg as (Hw & Hh & _).
      destruct (Hcells y x) as (? & ? & _); [lia..|done].
  - intros [] [] N. cbn. intros -> [= -> -> -> -> -> -> -> -> -> ->] -> [= -> -> -> -> -> ->].
    done.
  - intros [] [] N. cbn.
    intros -> [= -> -> -> -> -> -> -> -> -> -> -> -> -> ->] [= -> -> ->]
      [= -> -> -> -> -> -> -> ->].
    done.
Qed.

Lemma runs_are_deterministic_witness :
  FitzHughNagumo.wf Samples.fhn3 ∧ FitzHughNagumo.wf Samples.fhn3_scratch
  ∧ FitzHughNagumo.u_new_ Samples.fhn3 ≠ FitzHughNagumo.u_new_ Samples.fhn3_scratch
  ∧ ∃ r1 r2,
      FitzHughNagumo.run 3 Samples.fhn3 = Some r1
      ∧ FitzHughNagumo.run 3 Samples.fhn3_scratch = Some r2
      ∧ FitzHughNagumo.time_ r1 = FitzHughNagumo.time_ r2
      ∧ get (FitzHughNagumo.u_ r1) 1 1 = get (FitzHughNagumo.u_ r2) 1 1
      ∧ get (FitzHughNagumo.v_ r1) 1 1 = get (FitzHughNagumo.v_ r2) 1 1.
Proof.
  assert (Hwf1 : FitzHughNagumo.wf Samples.fhn3)
    by (apply FitzHughNagumoFacts.fhn_wfb_wf; vm_compute; reflexivity).
  assert (Hwf2 : FitzHughNagumo.wf Samples.fhn3_scratch)
    by (apply FitzHughNagumoFacts.fhn_wfb_wf; vm_compute; reflexivity).
  split; [exact Hwf1|]. split; [exact Hwf2|].
  split; [vm_compute; discriminate|].
  destruct (proj1 (@runs_are_deterministic Samples.libm_sample)
              Samples.fhn3 Samples.fhn3_scratch 3 Hwf1 Hwf2)
    as (r1 & r2 & Hr1 & Hr2 & Ht & Hcells);
    [unfold FitzHughNagumo.same_scalars; simpl; tauto
    |reflexivity|reflexivity|reflexivity|lia|].
  exists r1, r2. split; [exact Hr1|]. split; [exact Hr2|]. split; [exact Ht|].
  apply Hcells; simpl; lia.
Defined.

End DeterminismClaims.

Section PersistenceClaims.
Import IOStream IOStreamFacts FitzHughNagumo FitzHughNagumoFacts.

Example insert_double_samples :
  string_of_list_ascii <$> (insert_double <$>
    [0.1; 0.020049996666666667; -1e-05; 1234567.0; 100000.0; 1e6; 123456.5;
     0.00001234]%float)
  = ["0.1"; "0.02005"; "-1e-05"; "1.23457e+06"; "100000"; "1e+06"; "123456";
     "1.234e-05"]%string.
Proof. vm_compute. reflexivity. Qed.

Example reread_samples :
  reread <$> [0.5; 0.020049996666666667; infinity; nan]%float
  = [Some 0.5; Some 0.02005; None; None]%float.
Proof. vm_compute. reflexivity. Qed.

(** C1, as stated, fails. A file recorded for a 2 by 2 grid is rejected by
    a 3 by 3 object, but the object's time is by then the file's 7.5. And
    a file for a 3 by 3 grid whose third cell is not a number is rejected
    with time, parameters, coefficients and the first three cells already
    overwritten. *)
Lemma load_failure_counterexample :
  ∃ m' m'',
    loadState (Some Samples.file_2x2) Samples.fhn3 = Some (false, m')
    ∧ time_ Samples.fhn3 = 0.0%float ∧ time_ m' = 7.5%float
    ∧ loadState (Some Samples.file_bad_cell) Samples.fhn3 = Some (false, m'')
    ∧ (a_ Samples.fhn3, du_ Samples.fhn3) = (0.1, 0.1)%float
    ∧ (a_ m'', du_ m'') = (9.0, 5.0)%float
    ∧ u_ Samples.fhn3 = filled 3 3 0.0%float
    ∧ u_ m'' = [[1.0; 2.0; 0.0]; [0.0; 0.0; 0.0]; [0.0; 0.0; 0.0]]%float.
Proof.
  eexists _, _.
  split; [vm_compute; reflexivity|]. split; [reflexivity|].
  split; [reflexivity|]. split; [vm_compute; reflexivity|].
  split_and!; reflexivity.
Qed.

(** C1, amended. When the width read from the file differs from the
    object's, or the width agrees and the height read differs, [loadState]
    returns false with parameters, diffusion coefficients, both fields and
    everything else but the time as they were; the time is not covered.
    When the sizes agree, the first [k] values of the first field are
    extracted and the next extraction fails, [loadState] returns false and
    keeps what it read: the time, the parameters and the coefficients are
    the ones extracted, the first [k] cells of [u_] in row-major order
    hold the extracted values, the cell at the failure holds what the
    failed extraction stored (0 after a malformed number, the largest
    finite double after an overflow) or, when it stored nothing (end of
    the file), its old value, and the later cells and [v_] are as before.
    When
    the whole first field is extracted and the failure comes after [k]
    values of the second, [u_] holds the extracted field and [v_] is left
    in the same way. Whatever the file, the grid size, the time step, the
    stimulus buffer and the scratch buffers are as they were. *)
Theorem load_failure_preserves :
  (∀ (m : FitzHughNagumo.t) content s w oh time,
     load_dims content m = (s, Some w, oh, time) →
     w ≠ width_ m ∨ (∃ h, oh = Some h ∧ h ≠ height_ m) →
     ∃ m', loadState (Some content) m = Some (false, m')
       ∧ (a_ m', b_ m', c_ m', d_ m') = (a_ m, b_ m, c_ m, d_ m)
       ∧ (du_ m', dv_ m') = (du_ m, dv_ m)
       ∧ u_ m' = u_ m ∧ v_ m' = v_ m)
  ∧ (∀ (m : FitzHughNagumo.t) content s time s1 m1 (k : nat) vs sk sf stored,
     wf m →
     load_dims content m = (s, Some (width_ m), Some (height_ m), time) →
     load_parameters s time m = (s1, m1) →
     Z.of_nat k < height_ m * width_ m →
     extract_doubles k s1 = Some (vs, sk) →
     extract_double sk = (sf, stored) → failbit sf = true →
     ∃ m', loadState (Some content) m = Some (false, m')
       ∧ time_ m' = time
       ∧ (a_ m', b_ m', c_ m', d_ m', du_ m', dv_ m')
         = (a_ m1, b_ m1, c_ m1, d_ m1, du_ m1, dv_ m1)
       ∧ v_ m' = v_ m
       ∧ ∀ y x, 0 <= y < height_ m → 0 <= x < width_ m →
           get (u_ m') y x
           = partly_read (get (u_ m) y x) vs stored k
               (Z.to_nat (y * width_ m + x)))
  ∧ (∀ (m : FitzHughNagumo.t) content s time s1 m1 us su (k : nat) vs sk sf
       stored,
     wf m →
     load_dims content m = (s, Some (width_ m), Some (height_ m), time) →
     load_parameters s time m = (s1, m1) →
     extract_doubles (Z.to_nat (height_ m * width_ m)) s1 = Some (us, su) →
     Z.of_nat k < height_ m * width_ m →
     extract_doubles k su = Some (vs, sk) →
     extract_double sk = (sf, stored) → failbit sf = true →
     ∃ m', loadState (Some content) m = Some (false, m')
       ∧ time_ m' = time
       ∧ (a_ m', b_ m', c_ m', d_ m', du_ m', dv_ m')
         = (a_ m1, b_ m1, c_ m1, d_ m1, du_ m1, dv_ m1)
       ∧ ∀ y x, 0 <= y < height_ m → 0 <= x < width_ m →
           get (u_ m') y x = us !! Z.to_nat (y * width_ m + x)
           ∧ get (v_ m') y x
             = partly_read (get (v_ m) y x) vs stored k
                 (Z.to_nat (y * width_ m + x)))
  ∧ (∀ (m : FitzHughNagumo.t) file b m',
     loadState file m = Some (b, m') →
     width_ m' = width_ m ∧ height_ m' = height_ m ∧ dt_ m' = dt_ m
     ∧ stimulus_ m' = stimulus_ m
     ∧ u_new_ m' = u_new_ m ∧ v_new_ m' = v_new_ m).
Proof.
  assert (Hpar_time : ∀ (m : FitzHughNagumo.t) s time s1 m1,
            load_parameters s time m = (s1, m1) →
            time_ m1 = time ∧ u_ m1 = u_ m ∧ v_ m1 = v_ m).
  { intros m s time s1 m1. unfold load_parameters.
    repeat (destruct (extract_double _) as [? ?]). by intros [= _ <-]. }
  split_and!.
  - intros m content s w oh time Hdims Hdiff. unfold loadState. rewrite Hdims.
    cbn [mbind option_bind].
    destruct (Z.eqb_spec w (width_ m)) as [->|Hw]; cbn [negb].
    + destruct Hdiff as [?|(h & -> & Hh)]; [done|]. cbn [mbind option_bind].
      destruct (Z.eqb_spec h (height_ m)); [done|]. cbn [negb].
      eexists. split; [done|]. done.
    + eexists. split; [done|]. done.
  - intros m content s time s1 m1 k vs sk sf stored Hwf Hdims Hpar Hk Hex Hx Hfb.
    destruct Hwf as (Hh & Hw & Hu & _).
    destruct (load_field_fail m (u_ m) s1 k vs sk sf stored Hh Hw Hu Hk Hex Hx Hfb)
      as (U & HU & Hcells).
    destruct (Hpar_time _ _ _ _ _ Hpar) as (Ht & _ & _).
    unfold loadState. rewrite Hdims. cbn [mbind option_bind].
    rewrite !Z.eqb_refl. cbn [negb]. rewrite Hpar, HU. cbn [mbind option_bind].
    eexists. split; [done|]. cbn [with_fields time_ a_ b_ c_ d_ du_ dv_ u_ v_].
    split_and!; done.
  - intros m content s time s1 m1 us su k vs sk sf stored Hwf Hdims Hpar Hus Hk
      Hex Hx Hfb.
    destruct Hwf as (Hh & Hw & Hu & Hv & _).
    destruct (load_field_all m (u_ m) s1 us su Hh Hw Hu Hus) as (U & HU & HUc).
    destruct (load_field_fail m (v_ m) su k vs sk sf stored Hh Hw Hv Hk Hex Hx Hfb)
      as (V & HV & HVc).
    destruct (Hpar_time _ _ _ _ _ Hpar) as (Ht & _ & _).
    unfold loadState. rewrite Hdims. cbn [mbind option_bind].
    rewrite !Z.eqb_refl. cbn [negb]. rewrite Hpar, HU. cbn [mbind option_bind].
    rewrite HV. cbn [mbind option_bind].
    eexists. split; [done|]. cbn [with_fields time_ a_ b_ c_ d_ du_ dv_ u_ v_].
    split_and!; try done. intros y x Hy Hx'. split; [by apply HUc|by apply HVc].
  - intros m [content|] b m'; [|by intros [= <- <-]].
    unfold loadState. destruct (load_dims content m) as [[[s ow] oh] time].
    destruct ow as [w|]; [|done]. cbn [mbind option_bind].
    destruct (w =? width_ m); cbn [negb]; [|by intros [= <- <-]].
    destruct oh as [h|]; [|done]. cbn [mbind option_bind].
    destruct (h =? height_ m); cbn [negb]; [|by intros [= <- <-]].
    destruct (load_parameters s time m) as [s1 m1] eqn:Hpar.
    assert (Hm1 : width_ m1 = width_ m ∧ height_ m1 = height_ m ∧ dt_ m1 = dt_ m
                  ∧ stimulus_ m1 = stimulus_ m
                  ∧ u_new_ m1 = u_new_ m ∧ v_new_ m1 = v_new_ m).
    { revert Hpar. unfold load_parameters.
      repeat (destruct (extract_double _) as [? ?]). by intros [= _ <-]. }
    destruct (load_field m (u_ m) s1) as [[[su U] ru]|]; [|done].
    cbn [mbind option_bind]. destruct ru; [by intros [= <- <-]|].
    destruct (load_field m (v_ m) su) as [[[sv V] rv]|]; [|done].
    cbn [mbind option_bind]. destruct rv; by intros [= <- <-].
Qed.

Lemma load_failure_preserves_witness :
  (2 ≠ width_ Samples.fhn3
   ∧ ∃ m', loadState (Some Samples.file_2x2) Samples.fhn3 = Some (false, m')
       ∧ (a_ m', b_ m', c_ m', d_ m') = (0.1, 0.5, 1.0, 0.0)%float
       ∧ (du_ m', dv_ m') = (0.1, 0.0)%float
       ∧ u_ m' = filled 3 3 0.0%float ∧ v_ m' = filled 3 3 0.0%float)
  ∧ (wf Samples.fhn3_set
     ∧ ∃ m', loadState (Some Samples.file_bad_cell) Samples.fhn3_set = Some (false, m')
         ∧ time_ m' = 7.5%float
         ∧ (a_ m', b_ m', c_ m', d_ m', du_ m', dv_ m')
           = (9.0, 8.0, 7.0, 6.0, 5.0, 4.0)%float
         ∧ v_ m' = filled 3 3 (-0.5)%float
         ∧ get (u_ m') 0 1 = Some 2.0%float
         ∧ get (u_ m') 0 2 = Some 0.0%float
         ∧ get (u_ m') 1 1 = Some 0.25%float)
  ∧ (∃ m', loadState (Some Samples.file_truncated) Samples.fhn3_set = Some (false, m')
       ∧ time_ m' = 7.5%float
       ∧ get (u_ m') 2 2 = Some 9.0%float
       ∧ get (v_ m') 0 1 = Some 11.0%float
       ∧ get (v_ m') 0 2 = Some (-0.5)%float)
  ∧ (∃ b m', loadState (Some Samples.file_truncated) Samples.fhn3_set = Some (b, m')
       ∧ width_ m' = 3 ∧ stimulus_ m' = stimulus_ Samples.fhn3).
Proof.
  assert (Hwf : wf Samples.fhn3_set) by (apply fhn_wfb_wf; vm_compute; reflexivity).
  split_and!.
  - discriminate.
  - assert (Hd : load_dims Samples.file_2x2 Samples.fhn3
                 = (mk_istream (skipn 7 Samples.file_2x2) false, Some 2, Some 2,
                    7.5%float)) by (vm_compute; reflexivity).
    assert (Hne : 2 ≠ width_ Samples.fhn3) by discriminate.
    destruct (proj1 load_failure_preserves Samples.fhn3 Samples.file_2x2 _ 2
                (Some 2) 7.5%float Hd (or_introl Hne))
      as (m' & Hl & Ha & Hdu & Hu & Hv).
    exists m'. split; [exact Hl|]. split; [exact Ha|]. split; [exact Hdu|].
    split; [exact Hu|exact Hv].
  - exact Hwf.
  - pose proof (proj1 (proj2 load_failure_preserves)) as Hfail.
    edestruct (Hfail Samples.fhn3_set Samples.file_bad_cell) with (k := 2%nat)
      as (m' & Hl & Ht & Hpars & Hv & Hcells);
      [exact Hwf|run_lhs|run_lhs|simpl; lia|run_lhs|run_lhs|reflexivity|].
    exists m'. split; [exact Hl|]. split; [exact Ht|].
    split; [exact Hpars|]. split; [exact Hv|].
    split_and!.
    + rewrite (Hcells 0 1) by (simpl; lia). reflexivity.
    + rewrite (Hcells 0 2) by (simpl; lia). reflexivity.
    + rewrite (Hcells 1 1) by (simpl; lia). reflexivity.
  - pose proof (proj1 (proj2 (proj2 load_failure_preserves))) as Hfail.
    edestruct (Hfail Samples.fhn3_set Samples.file_truncated) with (k := 2%nat)
      as (m' & Hl & Ht & Hpars & Hcells);
      [exact Hwf|run_lhs|run_lhs|run_lhs|simpl; lia|run_lhs|run_lhs|reflexivity|].
    exists m'. split; [exact Hl|]. split; [exact Ht|].
    split_and!.
    + rewrite (proj1 (Hcells 2 2 ltac:(simpl; lia) ltac:(simpl; lia))). reflexivity.
    + rewrite (proj2 (Hcells 0 1 ltac:(simpl; lia) ltac:(simpl; lia))). reflexivity.
    + rewrite (proj2 (Hcells 0 2 ltac:(simpl; lia) ltac:(simpl; lia))). reflexivity.
  - destruct (loadState (Some Samples.file_truncated) Samples.fhn3_set) as [[b m']|] eqn:Hl;
      [|vm_compute in Hl; discriminate].
    exists b, m'. split; [reflexivity|].
    destruct (proj2 (proj2 (proj2 load_failure_preserves)) Samples.fhn3_set
                (Some Samples.file_truncated) b m' Hl) as (Hw & _ & _ & Hs & _).
    split; [exact Hw|exact Hs].
Defined.

(** C5, as stated, fails. After two steps from the 3 by 3 sample the
    centre cell holds 0.020049996666666667; [saveState] writes it as
    [0.02005], and [loadState] into a fresh object of the same size
    returns true with 0.02005 in that cell. And with an infinite value in
    a cell the file is written but [loadState] returns false. *)
Lemma round_trip_counterexample :
  ∃ m text m0 m' m_inf text_inf b_inf,
    run 2 Samples.fhn3 = Some m
    ∧ saveState true m = Some (true, text)
    ∧ FitzHughNagumo.new 3 3 0.01 = Some m0
    ∧ loadState (Some text) m0 = Some (true, m')
    ∧ get (u_ m) 1 1 = Some 0.020049996666666667%float
    ∧ get (u_ m') 1 1 = Some 0.02005%float
    ∧ get (u_ m') 1 1 ≠ get (u_ m) 1 1
    ∧ setInitialConditions
        [[0.0; 0.0; 0.0]; [0.0; infinity; 0.0]; [0.0; 0.0; 0.0]]%float
        (filled 3 3 0.0%float) m0 = Some m_inf
    ∧ saveState true m_inf = Some (true, text_inf)
    ∧ loadState (Some text_inf) m0 = Some (false, b_inf).
Proof.
  eexists _, _, _, _, _, _, _.
  split; [vm_compute; reflexivity|]. split; [vm_compute; reflexivity|].
  split; [vm_compute; reflexivity|]. split; [vm_compute; reflexivity|].
  split; [reflexivity|]. split; [reflexivity|].
  split; [vm_compute; discriminate|].
  split; [vm_compute; reflexivity|]. split; [vm_compute; reflexivity|].
  vm_compute. reflexivity.
Qed.

(** C5, amended. For a well-formed object whose sizes are [int] values and
    whose saved numbers are all ones extraction reads back, [saveState]
    followed by [loadState] into a freshly constructed object of the same
    width and height returns true; the loaded time and every loaded cell
    of both fields is the saved value as read back from the six
    significant digits written for it, [reread], which is the saved value
    itself exactly when those digits denote it. *)
Theorem save_load_round_trip (m : FitzHughNagumo.t) (dt : float) :
  wf m → width_ m <= INT_MAX → height_ m <= INT_MAX → readable m →
  ∃ text m0 m',
    saveState true m = Some (true, text)
    ∧ FitzHughNagumo.new (width_ m) (height_ m) dt = Some m0
    ∧ loadState (Some text) m0 = Some (true, m')
    ∧ Some (time_ m') = reread (time_ m)
    ∧ ∀ y x, 0 <= y < height_ m → 0 <= x < width_ m →
        ∃ u v, get (u_ m) y x = Some u ∧ get (v_ m) y x = Some v
          ∧ get (u_ m') y x = reread u ∧ get (v_ m') y x = reread v
          ∧ (reread u = Some u → get (u_ m') y x = get (u_ m) y x)
          ∧ (reread v = Some v → get (v_ m') y x = get (v_ m) y x).
Proof.
  intros Hwf Hwmax Hhmax Hread.
  pose proof Hwf as (Hh & Hw & Hu & Hv & _).
  exists (file_text m). unfold saveState. cbn [negb].
  rewrite save_text_file_text by done. cbn [mbind option_bind].
  rewrite new_Some by done. eexists. 
  match goal with |- ∃ m', _ ∧ Some ?m0 = _ ∧ _ => set (fresh_m := m0) end.
  destruct (load_file_text m fresh_m) as (m' & Hload & Hsc & Hcells & _);
    try done.
  { unfold fresh_m, wf. cbn. split_and!; try done; apply covers_filled. }
  exists m'. split_and!; try done.
  - by injection Hsc.
  - intros y x Hy Hx. destruct (Hu y x Hy Hx) as [u Hu'].
    destruct (Hv y x Hy Hx) as [v Hv']. destruct (Hcells y x Hy Hx) as [HU HV].
    rewrite Hu' in HU. rewrite Hv' in HV.
    change (get (u_ m') y x = reread u) in HU.
    change (get (v_ m') y x = reread v) in HV.
    exists u, v. split_and!; try done; congruence.
Qed.

Lemma save_load_round_trip_witness :
  ∃ m, run 2 Samples.fhn3 = Some m
    ∧ wf m ∧ readable m
    ∧ ∃ text m0 m',
        saveState true m = Some (true, text)
        ∧ FitzHughNagumo.new 3 3 0.25 = Some m0
        ∧ loadState (Some text) m0 = Some (true, m')
        ∧ time_ m = 0.02%float ∧ Some (time_ m') = reread 0.02%float
        ∧ get (u_ m) 1 1 = Some 0.020049996666666667%float
        ∧ get (u_ m') 1 1 = Some 0.02005%float
        ∧ get (v_ m) 1 1 = Some 0.0020950000000000001%float
        ∧ get (v_ m') 1 1 = Some 0.002095%float.
Proof.
  destruct (run 2 Samples.fhn3) as [m|] eqn:Hrun; [|vm_compute in Hrun; discriminate].
  vm_compute in Hrun. injection Hrun as <-.
  eexists. split; [reflexivity|].
  match goal with |- wf ?m ∧ _ => set (m2 := m) end.
  assert (Hwf : wf m2) by (apply fhn_wfb_wf; vm_compute; reflexivity).
  assert (Hr : readable m2)
    by (apply readableb_readable; vm_compute; reflexivity).
  split; [exact Hwf|]. split; [exact Hr|].
  destruct (save_load_round_trip m2 0.25%float Hwf
              ltac:(vm_compute; discriminate) ltac:(vm_compute; discriminate) Hr)
    as (text & m0 & m' & Hs & Hn & Hl & Ht & Hcells).
  exists text, m0, m'. split; [exact Hs|]. split; [exact Hn|].
  split; [exact Hl|]. split; [reflexivity|]. split; [exact Ht|].
  destruct (Hcells 1 1) as (u & v & Hu & Hv & HU & HV & _); [simpl; lia..|].
  vm_compute in Hu, Hv. injection Hu as <-. injection Hv as <-.
  split; [reflexivity|]. split; [rewrite HU; vm_compute; reflexivity|].
  split; [reflexivity|]. rewrite HV. vm_compute. reflexivity.
Defined.

End PersistenceClaims.

(** * Further properties of the embedded code *)

(** ** Repeated steps *)

Lemma for_loop_range_add {S} (f : S → option S) j k s :
  0 <= j → 0 <= k →
  for_loop (range 0 (j + k)) (λ _, f) s
  = for_loop (range 0 j) (λ _, f) s ≫= for_loop (range 0 k) (λ _, f).
Proof.
  intros Hj Hk. revert k Hk. apply natlike_ind.
  - rewrite Z.add_0_r, (range_nil 0 0) by lia.
    by destruct (for_loop (range 0 j) (λ _ : Z, f) s).
  - intros k Hk IH. rewrite Z.add_succ_r, !for_loop_succ by lia. rewrite IH.
    destruct (for_loop (range 0 j) (λ _ : Z, f) s) as [sj|]; [|done].
    cbn [mbind option_bind]. by rewrite for_loop_succ by lia.
Qed.

Lemma for_loop_range_neg {S} (f : S → option S) k s :
  k <= 0 → for_loop (range 0 k) (λ _, f) s = Some s.
Proof. intros Hk. by rewrite range_nil by lia. Qed.

Section FitzHughNagumoExtras.
Import IOStream IOStreamFacts FitzHughNagumo FitzHughNagumoFacts.

Lemma fhn_run_time k m :
  0 <= k → wf m →
  ∃ mk, run k m = Some mk ∧ wf mk ∧ same_config m mk
    ∧ time_ mk = Nat.iter (Z.to_nat k) (λ t, (t + dt_ m)%float) (time_ m).
Proof.
  intros Hk Hwf. revert k Hk. apply natlike_ind.
  - exists m. rewrite fhn_run_zero. unfold same_config. done.
  - intros k Hk (mk & Hrun & Hwfk & Hcfg & Ht).
    destruct (fhn_step_cells mk Hwfk)
      as (du & dv & m' & _ & Hstep & Hwf' & Hcfg' & Ht' & _).
    exists m'. rewrite fhn_run_succ, Hrun by done. cbn [mbind option_bind].
    split_and!; try done.
    + unfold same_config in *. destruct_and!. split_and!; congruence.
    + rewrite Z2Nat.inj_succ, Nat.iter_succ by done. rewrite <- Ht, Ht'.
      unfold same_config in Hcfg. destruct_and!. congruence.
Qed.

(** X1. [run] with a count of zero or less returns the object as it is. On a
    well-formed object [run(j)] followed by [run(k)] is [run(j + k)]; the
    grid size, the time step, the parameters, the diffusion coefficients
    and the stimulus buffer are those of the start, and the time is the
    start time with [dt_] added [j + k] times, one rounded addition per
    step. *)
Theorem run_composes_and_accumulates_time :
  (∀ (m : FitzHughNagumo.t) k, k <= 0 → run k m = Some m)
  ∧ (∀ (m : FitzHughNagumo.t) j k,
       wf m → 0 <= j → 0 <= k →
       ∃ mj mk, run j m = Some mj ∧ run k mj = Some mk
         ∧ run (j + k) m = Some mk
         ∧ same_config m mk
         ∧ time_ mk
           = Nat.iter (Z.to_nat (j + k)) (λ t, (t + dt_ m)%float) (time_ m)).
Proof.
  split.
  - intros m k Hk. by apply for_loop_range_neg.
  - intros m j k Hwf Hj Hk.
    destruct (fhn_run_time j m Hj Hwf) as (mj & Hrj & Hwfj & _).
    destruct (fhn_run_time k mj Hk Hwfj) as (mk & Hrk & _).
    destruct (fhn_run_time (j + k) m ltac:(lia) Hwf) as (mjk & Hrjk & _ & Hc & Ht).
    assert (mjk = mk) as ->.
    { unfold run in *. rewrite for_loop_range_add, Hrj in Hrjk by done.
      cbn [mbind option_bind] in Hrjk. congruence. }
    by exists mj, mk.
Qed.

Lemma run_composes_and_accumulates_time_witness :
  wf Samples.fhn3
  ∧ ∃ mj mk, run 2 Samples.fhn3 = Some mj ∧ run 3 mj = Some mk
      ∧ run 5 Samples.fhn3 = Some mk
      ∧ time_ mk = (0.0 + 0.01 + 0.01 + 0.01 + 0.01 + 0.01)%float.
Proof.
  assert (Hwf : wf Samples.fhn3) by (apply fhn_wfb_wf; vm_compute; reflexivity).
  split; [exact Hwf|].
  destruct (proj2 run_composes_and_accumulates_time Samples.fhn3 2 3 Hwf
              ltac:(lia) ltac:(lia)) as (mj & mk & H1 & H2 & H3 & _ & Ht).
  exists mj, mk. split; [exact H1|]. split; [exact H2|]. split; [exact H3|].
  exact Ht.
Defined.


(** ** Stimulus and initial conditions *)

Lemma get_is_Some_set {A} (g g' : grid A) y x a y' x' :
  set g y x a = Some g' → is_Some (get g y' x') → is_Some (get g' y' x').
Proof.
  intros Hs Hg. destruct (decide ((y', x') = (y, x))) as [[= -> ->]|Hne].
  - rewrite (get_set_eq _ _ _ _ _ Hs). done.
  - by rewrite (get_set_ne _ _ _ _ _ _ _ Hs Hne).
Qed.

Lemma fhn_addStimulus_cell (m : FitzHughNagumo.t) x y strength duration :
  wf m → 0 <= x < width_ m → 0 <= y < height_ m →
  ∃ m0, addStimulus x y strength duration m = Some m0
    ∧ m0 = with_stimulus (stimulus_ m0) m ∧ wf m0
    ∧ get (stimulus_ m0) y x = Some strength
    ∧ ∀ y' x', (y', x') ≠ (y, x) →
        get (stimulus_ m0) y' x' = get (stimulus_ m) y' x'.
Proof.
  intros Hwf Hx Hy.
  assert (Hv : isValidCoordinate m x y = true)
    by (apply isValidCoordinate_true; lia).
  pose proof Hwf as (Hh & Hw & Hu & Hvv & Hun & Hvn & Hst).
  unfold addStimulus. rewrite Hv. cbn [negb].
  destruct (set_is_Some (stimulus_ m) y x strength (Hst y x Hy Hx)) as [st Hset].
  rewrite Hset. cbn [mbind option_bind]. eexists. split; [done|].
  cbn [stimulus_ with_stimulus]. split_and!.
  - done.
  - unfold wf. cbn [with_stimulus width_ height_ u_ v_ u_new_ v_new_ stimulus_].
    split_and!; try done. by eapply covers_set.
  - by eapply get_set_eq.
  - intros y' x' Hne. by eapply get_set_ne.
Qed.

(** X2. [addStimulus] with a coordinate outside the grid returns the object
    unchanged. With a coordinate inside the grid of a well-formed object
    it stores the strength in that one cell of the stimulus buffer and
    changes nothing else; a second call on the same cell replaces the
    stored strength (the strengths are not added). *)
Theorem addStimulus_sets_one_cell :
  (∀ (m : FitzHughNagumo.t) x y strength duration,
     ¬ (0 <= x < width_ m ∧ 0 <= y < height_ m) →
     addStimulus x y strength duration m = Some m)
  ∧ (∀ (m : FitzHughNagumo.t) x y strength duration,
       wf m → 0 <= x < width_ m → 0 <= y < height_ m →
       ∃ m0, addStimulus x y strength duration m = Some m0
         ∧ m0 = with_stimulus (stimulus_ m0) m
         ∧ get (stimulus_ m0) y x = Some strength
         ∧ (∀ y' x', (y', x') ≠ (y, x) →
              get (stimulus_ m0) y' x' = get (stimulus_ m) y' x')
         ∧ ∀ strength2 duration2,
             ∃ m1, addStimulus x y strength2 duration2 m0 = Some m1
               ∧ get (stimulus_ m1) y x = Some strength2
               ∧ ∀ y' x', (y', x') ≠ (y, x) →
                   get (stimulus_ m1) y' x' = get (stimulus_ m) y' x').
Proof.
  split.
  - intros m x y strength duration Hout. unfold addStimulus.
    destruct (isValidCoordinate m x y) eqn:Hv; [|done].
    apply isValidCoordinate_true in Hv. lia.
  - intros m x y strength duration Hwf Hx Hy.
    destruct (fhn_addStimulus_cell m x y strength duration Hwf Hx Hy)
      as (m0 & Ha & Hm0 & Hwf0 & Hg & Hother).
    exists m0. split_and!; try done.
    intros strength2 duration2.
    destruct (fhn_addStimulus_cell m0 x y strength2 duration2 Hwf0)
      as (m1 & Ha1 & _ & _ & Hg1 & Hother1).
    { rewrite Hm0. cbn. done. }
    { rewrite Hm0. cbn. done. }
    exists m1. split_and!; try done.
    intros y' x' Hne. rewrite Hother1 by done. by apply Hother.
Qed.

Lemma addStimulus_sets_one_cell_witness :
  FitzHughNagumo.wf Samples.fhn3
  ∧ ∃ m0, addStimulus 2 0 3.5 1.0 Samples.fhn3 = Some m0
      ∧ get (stimulus_ m0) 0 2 = Some 3.5%float
      ∧ get (stimulus_ m0) 1 1 = Some 1.0%float.
Proof.
  assert (Hwf : wf Samples.fhn3) by (apply fhn_wfb_wf; vm_compute; reflexivity).
  split; [exact Hwf|].
  destruct (proj2 addStimulus_sets_one_cell Samples.fhn3 2 0 3.5%float 1.0%float
              Hwf ltac:(simpl; lia) ltac:(simpl; lia))
    as (m0 & Ha & _ & Hg & Hother & _).
  exists m0. split; [exact Ha|]. split; [exact Hg|].
  rewrite (Hother 1 1) by discriminate. reflexivity.
Defined.

(** X3. [setInitialConditions] returns the object unchanged when either
    argument has a number of rows other than [height_]. When the size test
    passes and both arguments cover the grid, every cell of [u_] and [v_]
    inside the grid takes the argument's value; the time, the parameters,
    the diffusion coefficients and the stimulus buffer stay as they
    were. *)
Theorem setInitialConditions_copies :
  (∀ (m : FitzHughNagumo.t) (u_init v_init : grid float),
     Z.of_nat (length u_init) ≠ height_ m ∨ Z.of_nat (length v_init) ≠ height_ m →
     setInitialConditions u_init v_init m = Some m)
  ∧ (∀ (m : FitzHughNagumo.t) (u_init v_init : grid float),
       wf m → init_dims_ok m u_init v_init = true →
       covers u_init (height_ m) (width_ m) →
       covers v_init (height_ m) (width_ m) →
       ∃ m', setInitialConditions u_init v_init m = Some m'
         ∧ wf m' ∧ same_config m m' ∧ time_ m' = time_ m
         ∧ ∀ y x, 0 <= y < height_ m → 0 <= x < width_ m →
             get (u_ m') y x = get u_init y x
             ∧ get (v_ m') y x = get v_init y x).
Proof.
  split.
  - intros m u_init v_init Hne. unfold setInitialConditions.
    destruct (init_dims_ok m u_init v_init) eqn:Hok; [|done].
    apply init_dims_ok_true in Hok. lia.
  - intros m u_init v_init Hwf Hok Hcu Hcv.
    pose proof Hwf as (Hh & Hw & Hu & Hv & Hun & Hvn & Hst).
    unfold setInitialConditions. rewrite Hok. cbn [negb].
    rewrite for_cells_flat.
    destruct (for_loop_local
                (λ (s : grid float * grid float) (p : Z * Z),
                   a ← get s.1 p.1 p.2; b ← get s.2 p.1 p.2; Some (a, b))
                (λ (p : Z * Z) '(u, v),
                   ui ← get u_init p.1 p.2; u' ← set u p.1 p.2 ui;
                   vi ← get v_init p.1 p.2; v' ← set v p.1 p.2 vi;
                   Some (u', v'))
                (λ p _ c', get u_init p.1 p.2 = Some c'.1
                           ∧ get v_init p.1 p.2 = Some c'.2)
                (λ _, True)
                (cells 0 (height_ m) 0 (width_ m)))
      with (s := (u_ m, v_ m)) as ([u' v'] & Hloop & _ & Hin & _).
    + intros [y x] [u v] [a b] [Hy Hx]%elem_of_cells _ Hc. cbn [fst snd] in *.
      destruct (get u y x) as [a'|] eqn:Hgu; [|done].
      destruct (get v y x) as [b'|] eqn:Hgv; [|done].
      cbn [mbind option_bind] in Hc.
      destruct (Hcu y x Hy Hx) as [ui Hui]. destruct (Hcv y x Hy Hx) as [vi Hvi].
      rewrite Hui, Hvi. cbn [mbind option_bind].
      destruct (set_is_Some u y x ui) as [u1 Hu1]; [by rewrite Hgu|].
      destruct (set_is_Some v y x vi) as [v1 Hv1]; [by rewrite Hgv|].
      rewrite Hu1. cbn [mbind option_bind]. rewrite Hv1. cbn [mbind option_bind].
      exists (u1, v1), (ui, vi). cbn [fst snd].
      rewrite (get_set_eq _ _ _ _ _ Hu1), (get_set_eq _ _ _ _ _ Hv1).
      cbn [mbind option_bind]. split_and!; try done.
      intros [y' x'] Hne. cbn [fst snd].
      by rewrite (get_set_ne _ _ _ _ _ _ _ Hu1 Hne),
                 (get_set_ne _ _ _ _ _ _ _ Hv1 Hne).
    + apply NoDup_cells.
    + done.
    + intros [y x] [Hy Hx]%elem_of_cells. cbn [fst snd].
      destruct (Hu y x Hy Hx) as [? ->]. destruct (Hv y x Hy Hx) as [? ->]. done.
    + rewrite Hloop. cbn [mbind option_bind]. eexists. split; [done|].
      assert (Hcells : ∀ y x, 0 <= y < height_ m → 0 <= x < width_ m →
                get u' y x = get u_init y x ∧ get v' y x = get v_init y x).
      { intros y x Hy Hx.
        destruct (Hin (y, x)) as ([a b] & [a' b'] & _ & Hc' & Ha & Hb);
          [by apply elem_of_cells|]. cbn [fst snd] in *.
        destruct (get u' y x); [|done]. destruct (get v' y x); [|done].
        cbn [mbind option_bind] in Hc'. injection Hc' as -> ->.
        by rewrite Ha, Hb. }
      split_and!; try done.
      unfold wf. cbn [with_fields width_ height_ u_ v_ u_new_ v_new_ stimulus_].
      split_and!; try done.
      * intros y x Hy Hx. rewrite (proj1 (Hcells y x Hy Hx)). by apply Hcu.
      * intros y x Hy Hx. rewrite (proj2 (Hcells y x Hy Hx)). by apply Hcv.
Qed.

Lemma setInitialConditions_copies_witness :
  FitzHughNagumo.wf Samples.fhn3
  ∧ ∃ m', setInitialConditions
            [[1.0; 2.0; 3.0]; [4.0; 5.0; 6.0]; [7.0; 8.0; 9.0]]%float
            (filled 3 3 0.5%float) Samples.fhn3 = Some m'
      ∧ get (u_ m') 1 2 = Some 6.0%float ∧ get (v_ m') 1 2 = Some 0.5%float.
Proof.
  assert (Hwf : wf Samples.fhn3) by (apply fhn_wfb_wf; vm_compute; reflexivity).
  split; [exact Hwf|].
  destruct (proj2 setInitialConditions_copies Samples.fhn3
              [[1.0; 2.0; 3.0]; [4.0; 5.0; 6.0]; [7.0; 8.0; 9.0]]%float
              (filled 3 3 0.5%float) Hwf ltac:(vm_compute; reflexivity)
              ltac:(apply coversb_covers; vm_compute; reflexivity)
              ltac:(apply coversb_covers; vm_compute; reflexivity))
    as (m' & Hs & _ & _ & _ & Hcells).
  exists m'. split; [exact Hs|].
  destruct (Hcells 1 2 ltac:(simpl; lia) ltac:(simpl; lia)) as [Hu Hv].
  split; [exact Hu|exact Hv].
Defined.


(** ** [initialize] *)

Lemma initialize_loop (draws : nat → float) (l : list (Z * Z)) :
  ∀ (u v st : grid float) (k : nat),
    NoDup l →
    (∀ p, p ∈ l → is_Some (get u p.1 p.2) ∧ is_Some (get v p.1 p.2)
                  ∧ is_Some (get st p.1 p.2)) →
    ∃ u' v' st',
      for_loop l
        (λ p, (λ (y x : Z) '(u, v, st, k),
                 u' ← set u y x (draws k);
                 v' ← set v y x (draws (S k));
                 st' ← set st y x 0.0%float;
                 Some (u', v', st', S (S k))) p.1 p.2)
        (u, v, st, k)
      = Some (u', v', st', (k + 2 * length l)%nat)
      ∧ (∀ i p, l !! i = Some p →
           get u' p.1 p.2 = Some (draws (k + 2 * i)%nat)
           ∧ get v' p.1 p.2 = Some (draws (S (k + 2 * i)))
           ∧ get st' p.1 p.2 = Some 0.0%float)
      ∧ (∀ q, q ∉ l →
           get u' q.1 q.2 = get u q.1 q.2 ∧ get v' q.1 q.2 = get v q.1 q.2
           ∧ get st' q.1 q.2 = get st q.1 q.2).
Proof.
  induction l as [|[y x] l IH]; intros u v st k Hnd Hall.
  - exists u, v, st. cbn. rewrite Nat.add_0_r. split_and!; try done.
  - apply NoDup_cons in Hnd as [Hnotin Hnd].
    destruct (Hall (y, x)) as (Hu & Hv & Hst); [left|]. cbn [fst snd] in *.
    destruct (set_is_Some u y x (draws k) Hu) as [u1 Hu1].
    destruct (set_is_Some v y x (draws (S k)) Hv) as [v1 Hv1].
    destruct (set_is_Some st y x 0.0%float Hst) as [st1 Hst1].
    destruct (IH u1 v1 st1 (S (S k)) Hnd) as (u' & v' & st' & Hloop & Hin & Hout).
    { intros p Hp. destruct (Hall p) as (? & ? & ?); [by right|].
      split_and!; by eapply get_is_Some_set. }
    exists u', v', st'. cbn [for_loop fst snd]. rewrite Hu1. cbn [mbind option_bind].
    rewrite Hv1. cbn [mbind option_bind]. rewrite Hst1. cbn [mbind option_bind].
    rewrite Hloop. split_and!.
    + do 2 f_equal. cbn [length]. lia.
    + intros [|i] p Hp.
      * injection Hp as <-. cbn [fst snd].
        destruct (Hout (y, x) Hnotin) as (Ho1 & Ho2 & Ho3). cbn [fst snd] in *.
        rewrite Ho1, Ho2, Ho3, Nat.add_0_r.
        by rewrite (get_set_eq _ _ _ _ _ Hu1), (get_set_eq _ _ _ _ _ Hv1),
                   (get_set_eq _ _ _ _ _ Hst1).
      * destruct (Hin i p Hp) as (Hi1 & Hi2 & Hi3). cbn [lookup] in *.
        rewrite Hi1, Hi2, Hi3.
        replace (S (S k) + 2 * i)%nat with (k + 2 * S i)%nat by lia. done.
    + intros [y' x'] Hq. apply not_elem_of_cons in Hq as [Hne Hq].
      destruct (Hout (y', x') Hq) as (Ho1 & Ho2 & Ho3). cbn [fst snd] in *.
      rewrite Ho1, Ho2, Ho3.
      by rewrite (get_set_ne _ _ _ _ _ _ _ Hu1 Hne),
                 (get_set_ne _ _ _ _ _ _ _ Hv1 Hne),
                 (get_set_ne _ _ _ _ _ _ _ Hst1 Hne).
Qed.

Lemma fhn_initialize_cells (draws : nat → float) (m : FitzHughNagumo.t) :
  wf m →
  ∃ m', initialize draws m = Some m' ∧ wf m'
    ∧ time_ m' = 0.0%float
    ∧ (width_ m', height_ m', dt_ m') = (width_ m, height_ m, dt_ m)
    ∧ (a_ m', b_ m', c_ m', d_ m', du_ m', dv_ m')
      = (a_ m, b_ m, c_ m, d_ m, du_ m, dv_ m)
    ∧ ∀ y x, 0 <= y < height_ m → 0 <= x < width_ m →
        get (u_ m') y x = Some (draws (Z.to_nat (2 * (y * width_ m + x))))
        ∧ get (v_ m') y x = Some (draws (Z.to_nat (2 * (y * width_ m + x) + 1)))
        ∧ get (stimulus_ m') y x = Some 0.0%float.
Proof.
  intros Hwf. pose proof Hwf as (Hh & Hw & Hu & Hv & Hun & Hvn & Hst).
  unfold initialize. rewrite for_cells_flat.
  destruct (initialize_loop draws (cells 0 (height_ m) 0 (width_ m))
              (u_ m) (v_ m) (stimulus_ m) 0%nat)
    as (u' & v' & st' & Hloop & Hin & _).
  { apply NoDup_cells. }
  { intros [y x] [Hy Hx]%elem_of_cells. cbn [fst snd]. split_and!; eauto. }
  rewrite Hloop. cbn [mbind option_bind]. eexists. split; [done|].
  cbn [width_ height_ dt_ time_ a_ b_ c_ d_ du_ dv_ u_ v_ stimulus_].
  assert (Hcells : ∀ y x, 0 <= y < height_ m → 0 <= x < width_ m →
            get u' y x = Some (draws (Z.to_nat (2 * (y * width_ m + x))))
            ∧ get v' y x = Some (draws (Z.to_nat (2 * (y * width_ m + x) + 1)))
            ∧ get st' y x = Some 0.0%float).
  { intros y x Hy Hx.
    destruct (Hin _ _ (cells_lookup (height_ m) (width_ m) y x Hy Hx))
      as (Hgu & Hgv & Hgs). cbn [fst snd] in *.
    rewrite Hgu, Hgv, Hgs. split_and!; try done; do 2 f_equal; nia. }
  split_and!; try done.
  unfold wf. cbn [width_ height_ u_ v_ u_new_ v_new_ stimulus_].
  split_and!; try done.
  - intros y x Hy Hx. by rewrite (proj1 (Hcells y x Hy Hx)).
  - intros y x Hy Hx. by rewrite (proj1 (proj2 (Hcells y x Hy Hx))).
  - intros y x Hy Hx. by rewrite (proj2 (proj2 (Hcells y x Hy Hx))).
Qed.

(** X4. [initialize] on a well-formed object completes; it sets the time
    to zero and every stimulus cell to zero, keeps the parameters, the
    diffusion coefficients and the time step, and gives cell [(x, y)] the
    draws number [2 * (y * width_ + x)] (to [u_]) and
    [2 * (y * width_ + x) + 1] (to [v_]) of the generator, counting from
    zero: the draws go to the cells in row-major order, [u_] before [v_]. *)
Theorem initialize_draws_in_row_major_order (draws : nat → float)
  (m : FitzHughNagumo.t) :
  wf m →
  ∃ m', initialize draws m = Some m' ∧ wf m'
    ∧ time_ m' = 0.0%float
    ∧ (width_ m', height_ m', dt_ m') = (width_ m, height_ m, dt_ m)
    ∧ (a_ m', b_ m', c_ m', d_ m', du_ m', dv_ m')
      = (a_ m, b_ m, c_ m, d_ m, du_ m, dv_ m)
    ∧ ∀ y x, 0 <= y < height_ m → 0 <= x < width_ m →
        get (u_ m') y x = Some (draws (Z.to_nat (2 * (y * width_ m + x))))
        ∧ get (v_ m') y x = Some (draws (Z.to_nat (2 * (y * width_ m + x) + 1)))
        ∧ get (stimulus_ m') y x = Some 0.0%float.
Proof.
  exact (fhn_initialize_cells draws m).
Qed.

(** On the 3 by 3 sample, with the draws numbered by their position, the
    centre cell [(1, 1)] receives draws 8 and 9 and loses its stimulus. *)
Lemma initialize_draws_in_row_major_order_witness :
  FitzHughNagumo.wf Samples.fhn3
  ∧ get (stimulus_ Samples.fhn3) 1 1 = Some 1.0%float
  ∧ ∃ m', initialize (λ k, PrimFloat.of_uint63 (Uint63.of_Z (Z.of_nat k)))
            Samples.fhn3 = Some m'
      ∧ get (u_ m') 1 1 = Some 8.0%float ∧ get (v_ m') 1 1 = Some 9.0%float
      ∧ get (stimulus_ m') 1 1 = Some 0.0%float.
Proof.
  assert (Hwf : wf Samples.fhn3) by (apply fhn_wfb_wf; vm_compute; reflexivity).
  split; [exact Hwf|]. split; [reflexivity|].
  destruct (initialize_draws_in_row_major_order
              (λ k, PrimFloat.of_uint63 (Uint63.of_Z (Z.of_nat k)))
              Samples.fhn3 Hwf) as (m' & Hi & _ & _ & _ & _ & Hcells).
  exists m'. split; [exact Hi|].
  destruct (Hcells 1 1 ltac:(simpl; lia) ltac:(simpl; lia)) as (Hu & Hv & Hs).
  split; [exact Hu|]. split; [exact Hv|exact Hs].
Defined.


(** ** Where diffusion does not act *)

Lemma diffusion_terms_zero m :
  wf m →
  ∃ du dv, diffusion_terms m = Some (du, dv)
    ∧ (∀ y x, 0 <= y < height_ m → 0 <= x < width_ m →
         ¬ (1 <= y <= height_ m - 2 ∧ 1 <= x <= width_ m - 2)
         ∨ (0.0 <? du_ m)%float = false →
         get du y x = Some 0.0%float)
    ∧ (∀ y x, 0 <= y < height_ m → 0 <= x < width_ m →
         ¬ (1 <= y <= height_ m - 2 ∧ 1 <= x <= width_ m - 2)
         ∨ (0.0 <? dv_ m)%float = false →
         get dv y x = Some 0.0%float).
Proof.
  intros Hwf. pose proof Hwf as (Hh & Hw & Hu & Hv & _).
  unfold diffusion_terms. rewrite !fresh_Some by done. cbn [mbind option_bind].
  assert (Hone : ∀ g coeff, covers g (height_ m) (width_ m) →
            ∃ r, (if (0.0 <? coeff)%float
                  then applyDiffusion m g coeff
                         (filled (height_ m) (width_ m) 0.0%float)
                  else Some (filled (height_ m) (width_ m) 0.0%float)) = Some r
              ∧ ∀ y x, 0 <= y < height_ m → 0 <= x < width_ m →
                  ¬ (1 <= y <= height_ m - 2 ∧ 1 <= x <= width_ m - 2)
                  ∨ (0.0 <? coeff)%float = false →
                  get r y x = Some 0.0%float).
  { intros g coeff Hg. destruct (0.0 <? coeff)%float.
    - destruct (fhn_applyDiffusion_cells m g coeff _ Hg
                  (covers_filled (height_ m) (width_ m) 0.0%float))
        as (r & Hr & _ & _ & Hout).
      exists r. split; [done|]. intros y x Hy Hx [Hb|?]; [|done].
      rewrite Hout by lia. by apply get_filled.
    - eexists. split; [done|]. intros y x Hy Hx _. by apply get_filled. }
  destruct (Hone (u_ m) (du_ m) Hu) as (du & -> & Hdu).
  destruct (Hone (v_ m) (dv_ m) Hv) as (dv & -> & Hdv).
  cbn [mbind option_bind]. by exists du, dv.
Qed.

(** X5. In one [step] on a well-formed object, a cell of the outermost
    ring of the grid (and so every cell of a grid narrower or lower than
    3) receives no diffusion contribution: its new values are
    [u + dt * (0.0 + reactionU(u, v, stimulus))] and
    [v + dt * (0.0 + reactionV(u, v))] computed from its own pre-step
    values alone. *)
Theorem border_cells_react_only (m : FitzHughNagumo.t) (y x : Z) :
  wf m → 0 <= y < height_ m → 0 <= x < width_ m →
  ¬ (1 <= y <= height_ m - 2 ∧ 1 <= x <= width_ m - 2) →
  ∃ m' u v stim,
    step m = Some m'
    ∧ get (u_ m) y x = Some u ∧ get (v_ m) y x = Some v
    ∧ get (stimulus_ m) y x = Some stim
    ∧ get (u_ m') y x = Some (u + dt_ m * (0.0 + reactionU u v stim))%float
    ∧ get (v_ m') y x = Some (v + dt_ m * (0.0 + reactionV m u v))%float.
Proof.
  intros Hwf Hy Hx Hborder.
  destruct (fhn_step_cells m Hwf) as (du & dv & m' & Hd & Hstep & _ & _ & _ & _ & _ & Hcells).
  destruct (diffusion_terms_zero m Hwf) as (du' & dv' & Hd' & Hdu & Hdv).
  rewrite Hd in Hd'. injection Hd' as <- <-.
  destruct (Hcells y x Hy Hx) as (u & v & st & Du & Dv & Hu & Hv & Hst & HDu & HDv & Hu' & Hv').
  rewrite Hdu in HDu by auto. rewrite Hdv in HDv by auto.
  injection HDu as <-. injection HDv as <-.
  by exists m', u, v, st.
Qed.

Lemma border_cells_react_only_witness :
  FitzHughNagumo.wf Samples.fhn3
  ∧ ∃ m' u v stim,
      step Samples.fhn3 = Some m'
      ∧ get (u_ Samples.fhn3) 0 1 = Some u ∧ get (v_ Samples.fhn3) 0 1 = Some v
      ∧ get (stimulus_ Samples.fhn3) 0 1 = Some stim
      ∧ get (u_ m') 0 1 = Some (u + 0.01 * (0.0 + reactionU u v stim))%float
      ∧ get (v_ m') 0 1
        = Some (v + 0.01 * (0.0 + reactionV Samples.fhn3 u v))%float.
Proof.
  assert (Hwf : wf Samples.fhn3) by (apply fhn_wfb_wf; vm_compute; reflexivity).
  split; [exact Hwf|].
  exact (border_cells_react_only Samples.fhn3 0 1 Hwf ltac:(simpl; lia)
           ltac:(simpl; lia) ltac:(simpl; lia)).
Defined.

(** X6. The test [du_ > 0.0] that guards the diffusion of [u_] in [step] is
    false for a zero, a negative and a not-a-number coefficient alike:
    then no cell of [u_] receives a diffusion contribution, and the same
    holds for [v_] under [dv_ > 0.0]. A negative coefficient does not run
    the stencil backwards; it switches diffusion off. *)
Theorem diffusion_needs_positive_coefficient (m : FitzHughNagumo.t) :
  wf m →
  ∃ m', step m = Some m'
    ∧ ((0.0 <? du_ m)%float = false →
       ∀ y x, 0 <= y < height_ m → 0 <= x < width_ m →
         ∃ u v stim,
           get (u_ m) y x = Some u ∧ get (v_ m) y x = Some v
           ∧ get (stimulus_ m) y x = Some stim
           ∧ get (u_ m') y x
             = Some (u + dt_ m * (0.0 + reactionU u v stim))%float)
    ∧ ((0.0 <? dv_ m)%float = false →
       ∀ y x, 0 <= y < height_ m → 0 <= x < width_ m →
         ∃ u v,
           get (u_ m) y x = Some u ∧ get (v_ m) y x = Some v
           ∧ get (v_ m') y x
             = Some (v + dt_ m * (0.0 + reactionV m u v))%float).
Proof.
  intros Hwf.
  destruct (fhn_step_cells m Hwf) as (du & dv & m' & Hd & Hstep & _ & _ & _ & _ & _ & Hcells).
  destruct (diffusion_terms_zero m Hwf) as (du' & dv' & Hd' & Hdu & Hdv).
  rewrite Hd in Hd'. injection Hd' as <- <-.
  exists m'. split; [done|]. split.
  - intros Hoff y x Hy Hx.
    destruct (Hcells y x Hy Hx) as (u & v & st & Du & Dv & Hu & Hv & Hst & HDu & HDv & Hu' & Hv').
    rewrite Hdu in HDu by auto. injection HDu as <-. by exists u, v, st.
  - intros Hoff y x Hy Hx.
    destruct (Hcells y x Hy Hx) as (u & v & st & Du & Dv & Hu & Hv & Hst & HDu & HDv & Hu' & Hv').
    rewrite Hdv in HDv by auto. injection HDv as <-. by exists u, v.
Qed.

(** With [du_ = -0.5] the interior cell [(1, 1)] of the 3 by 3 sample,
    whose neighbours differ from it, is updated by its reaction term
    alone. *)
Lemma diffusion_needs_positive_coefficient_witness :
  FitzHughNagumo.wf
    (with_fields [[1.0; 2.0; 3.0]; [4.0; 5.0; 6.0]; [7.0; 8.0; 9.0]]%float
       (filled 3 3 0.0%float) (setDiffusionCoefficients (-0.5) 0.0 Samples.fhn3))
  ∧ ∃ m',
      step (with_fields [[1.0; 2.0; 3.0]; [4.0; 5.0; 6.0]; [7.0; 8.0; 9.0]]%float
              (filled 3 3 0.0%float)
              (setDiffusionCoefficients (-0.5) 0.0 Samples.fhn3)) = Some m'
      ∧ get (u_ m') 1 1
        = Some (5.0 + 0.01 * (0.0 + reactionU 5.0 0.0 1.0))%float.
Proof.
  set (m := with_fields _ _ _).
  assert (Hwf : wf m) by (apply fhn_wfb_wf; vm_compute; reflexivity).
  split; [exact Hwf|].
  destruct (diffusion_needs_positive_coefficient m Hwf) as (m' & Hs & Hu & _).
  exists m'. split; [exact Hs|].
  destruct (Hu ltac:(vm_compute; reflexivity) 1 1 ltac:(simpl; lia) ltac:(simpl; lia))
    as (u & v & st & Hgu & Hgv & Hgs & Hu').
  vm_compute in Hgu, Hgv, Hgs. injection Hgu as <-. injection Hgv as <-.
  injection Hgs as <-. exact Hu'.
Defined.

(** ** Construction *)

(** X7. The constructor throws when the height is negative, or positive
    with a negative width. With a non-negative width and height it
    returns an object on which any number of steps completes, each
    leaving an object whose five grids cover the rectangle: no step ever
    indexes a vector out of range, whatever the size (0 by 0, 1 by 1 and
    2 by 2 included). A zero height with a negative width is accepted by
    the constructor, and the first [step] then throws when it builds its
    derivative buffers. *)
Theorem constructed_model_steps_safely (width height : Z) (dt : float) :
  (height < 0 ∨ (0 < height ∧ width < 0) →
   FitzHughNagumo.new width height dt = None)
  ∧ (0 <= width → 0 <= height →
     ∃ m, FitzHughNagumo.new width height dt = Some m
       ∧ ∀ N, ∃ mN, run N m = Some mN ∧ wf mN
                    ∧ (width_ mN, height_ mN) = (width, height))
  ∧ (width < 0 → height = 0 →
     ∃ m, FitzHughNagumo.new width height dt = Some m ∧ step m = None).
Proof.
  split_and!.
  - intros Hneg. unfold FitzHughNagumo.new.
    destruct (Z.ltb_spec height 0); [done|].
    destruct (Z.ltb_spec 0 height), (Z.ltb_spec width 0); try done; lia.
  - intros Hw Hh. rewrite new_Some by done. eexists. split; [done|].
    match goal with |- ∀ N, ∃ mN, run N ?m0 = _ ∧ _ => set (m := m0) end.
    assert (Hwf : wf m) by (by apply (fhn_wf_new width height dt); [|apply new_Some]).
    intros N. destruct (Z.le_gt_cases 0 N) as [HN|HN].
    + destruct (run_wf N m HN Hwf) as (mN & Hrun & HwfN & Hcfg).
      exists mN. split_and!; try done.
      destruct Hcfg as (-> & -> & _). done.
    + exists m. split_and!; try done. apply for_loop_range_neg. lia.
  - intros Hw ->. unfold FitzHughNagumo.new. cbn. eexists. split; [done|].
    unfold step, diffusion_terms, fresh. cbn [height_ width_].
    destruct (Z.ltb_spec width 0); [done|lia].
Qed.

Lemma constructed_model_steps_safely_witness :
  ∃ m, FitzHughNagumo.new 2 1 0.01 = Some m
    ∧ ∃ mN, run 4 m = Some mN ∧ wf mN
            ∧ (width_ mN, height_ mN) = (2, 1).
Proof.
  destruct (proj1 (proj2 (constructed_model_steps_safely 2 1 0.01%float))
              ltac:(lia) ltac:(lia)) as (m & Hn & Hrun).
  exists m. split; [exact Hn|]. exact (Hrun 4).
Defined.

(** ** The parameter [d_] *)

(** X8. The parameter [d] of [setParameters] is stored but never read by
    [step]: running any number of steps from an object with another [d]
    gives the same object up to that member, so the fields and the time
    do not depend on [d]. *)
Theorem parameter_d_has_no_effect (m : FitzHughNagumo.t) (d : float) (k : Z) :
  run k (setParameters (a_ m) (b_ m) (c_ m) d m)
  = (λ r, setParameters (a_ r) (b_ r) (c_ r) d r) <$> run k m.
Proof.
  assert (Hstep : ∀ m0, step (setParameters (a_ m0) (b_ m0) (c_ m0) d m0)
            = (λ r, setParameters (a_ r) (b_ r) (c_ r) d r) <$> step m0).
  { intros m0. unfold step.
    change (diffusion_terms (setParameters (a_ m0) (b_ m0) (c_ m0) d m0))
      with (diffusion_terms m0).
    destruct (diffusion_terms m0) as [[du dv]|]; [|done].
    cbn [mbind option_bind].
    change (for_cells 0 (height_ (setParameters (a_ m0) (b_ m0) (c_ m0) d m0)) 0
              (width_ (setParameters (a_ m0) (b_ m0) (c_ m0) d m0))
              (step_cell (setParameters (a_ m0) (b_ m0) (c_ m0) d m0))
              (du, dv, u_new_ (setParameters (a_ m0) (b_ m0) (c_ m0) d m0),
               v_new_ (setParameters (a_ m0) (b_ m0) (c_ m0) d m0)))
      with (for_cells 0 (height_ m0) 0 (width_ m0) (step_cell m0)
              (du, dv, u_new_ m0, v_new_ m0)).
    destruct (for_cells 0 (height_ m0) 0 (width_ m0) (step_cell m0)
                (du, dv, u_new_ m0, v_new_ m0)) as [[[[? ?] un] vn]|]; done. }
  destruct (Z.le_gt_cases 0 k) as [Hk|Hk].
  - revert k Hk. apply natlike_ind.
    + by rewrite !fhn_run_zero.
    + intros k Hk IH. rewrite !fhn_run_succ, IH by done.
      destruct (run k m) as [r|]; [|done]. cbn [fmap option_fmap option_map mbind option_bind].
      rewrite Hstep. by destruct (step r).
  - unfold run. rewrite !for_loop_range_neg by lia. done.
Qed.

(** ** An empty file *)

(** X9. [loadState] on a file that holds nothing but white space (an empty
    file included) writes nothing: no extraction stores a value, so
    whatever the locals [file_width] and [file_height] hold, the object
    is returned as it was. The result is false, unless the grid has no
    cell and the two locals happen to hold its width and height. *)
Theorem loadState_blank_file_leaves_object (m : FitzHughNagumo.t)
  (blank : text) (init_w init_h : Z) :
  Forall (λ c, isspace c = true) blank → wf m →
  loadState_from init_w init_h (Some blank) m
  = Some (bool_decide (init_w = width_ m ∧ init_h = height_ m
                       ∧ ¬ (0 < height_ m ∧ 0 < width_ m)), m).
Proof.
  intros Hws (Hh & Hw & Hu & Hv & _).
  assert (Hi : extract_int (mk_istream blank false) = (mk_istream [] true, None)).
  { unfold extract_int. cbn [failbit buf].
    pose proof (skipws_spaces blank [] Hws) as Hsk. rewrite app_nil_r in Hsk.
    by rewrite Hsk. }
  assert (Hf : failbit (mk_istream [] true) = true) by done.
  assert (Hm : ∀ m : FitzHughNagumo.t,
            with_loaded (time_ m) (a_ m) (b_ m) (c_ m) (d_ m) (du_ m) (dv_ m)
              (u_ m) (v_ m) m = m) by (by intros []).
  unfold loadState_from, load_dims. rewrite Hi.
  rewrite (extract_int_failed _ Hf), (extract_double_failed _ Hf).
  cbn [default]. unfold id. rewrite Hm.
  destruct (Z.eqb_spec init_w (width_ m)) as [->|Hnw]; cbn [negb]; cycle 1.
  { rewrite bool_decide_eq_false_2; [done|]. tauto. }
  destruct (Z.eqb_spec init_h (height_ m)) as [->|Hnh]; cbn [negb]; cycle 1.
  { rewrite bool_decide_eq_false_2; [done|]. tauto. }
  unfold load_parameters. rewrite !(extract_double_failed _ Hf).
  cbn [default]. unfold id. rewrite Hm.
  rewrite (load_field_failed m (u_ m) _ Hh Hw Hu Hf). cbn [mbind option_bind].
  assert (Hm2 : with_fields (u_ m) (v_ m) m = m) by (by destruct m).
  destruct (decide (0 < height_ m ∧ 0 < width_ m)) as [Hpos|Hpos].
  - rewrite (bool_decide_eq_true_2 _ Hpos).
    rewrite bool_decide_eq_false_2 by tauto. by rewrite Hm2.
  - rewrite (bool_decide_eq_false_2 _ Hpos).
    rewrite (load_field_failed m (v_ m) _ Hh Hw Hv Hf). cbn [mbind option_bind].
    rewrite (bool_decide_eq_false_2 _ Hpos).
    rewrite bool_decide_eq_true_2 by tauto. by rewrite Hm2.
Qed.

Lemma loadState_blank_file_leaves_object_witness :
  wf Samples.fhn3_set
  ∧ loadState_from 7 (-3) (Some [" "%char; newline]) Samples.fhn3_set
    = Some (false, Samples.fhn3_set)
  ∧ loadState_from 3 3 (Some []) Samples.fhn3_set = Some (false, Samples.fhn3_set).
Proof.
  assert (Hwf : wf Samples.fhn3_set) by (apply fhn_wfb_wf; vm_compute; reflexivity).
  split; [exact Hwf|]. split.
  - etrans; [exact (loadState_blank_file_leaves_object Samples.fhn3_set [" "%char; newline]
                      7 (-3) ltac:(repeat constructor) Hwf)|].
    vm_compute. reflexivity.
  - etrans; [exact (loadState_blank_file_leaves_object Samples.fhn3_set [] 3 3
                      ltac:(constructor) Hwf)|].
    vm_compute. reflexivity.
Defined.


(** ** The demonstration driver *)

Lemma fhn_wf_setters a b c d du dv (m : FitzHughNagumo.t) :
  wf m → wf (setDiffusionCoefficients du dv (setParameters a b c d m)).
Proof. intros Hwf. exact Hwf. Qed.

(** X10. For every non-negative width and height and every step count,
    [runFitzHughNagumoDemo] completes without indexing out of range and
    [saveState] returns true once the file is open. The final object has
    the requested size, the constructor's default parameters and
    coefficients (the two setter calls restate them), and a time equal to
    0.01 added to zero once per step. When the grid has a cell, the
    centre cell [(width / 2, height / 2)] holds stimulus 1.0 and every
    other cell holds 0.0; the characters written are those of the final
    object. *)
Theorem demo_run_completes (draws : nat → float) (width height steps : Z) :
  0 <= width → 0 <= height →
  ∃ fhn out,
    Main.runFitzHughNagumoDemo draws true width height steps
    = Some (fhn, true, out)
    ∧ wf fhn ∧ (width_ fhn, height_ fhn) = (width, height)
    ∧ time_ fhn
      = Nat.iter (Z.to_nat steps) (λ t, (t + 0.01)%float) 0.0%float
    ∧ (a_ fhn, b_ fhn, c_ fhn, d_ fhn, du_ fhn, dv_ fhn)
      = (0.1, 0.5, 1.0, 0.0, 0.1, 0.0)%float
    ∧ (∀ y x, 0 <= y < height → 0 <= x < width →
         get (stimulus_ fhn) y x
         = Some (if decide ((y, x) = (Z.quot height 2, Z.quot width 2))
                 then 1.0%float else 0.0%float))
    ∧ out = file_text fhn.
Proof.
  intros Hw Hh. unfold Main.runFitzHughNagumoDemo.
  rewrite new_Some by done. cbn [mbind option_bind].
  match goal with |- context [initialize draws ?m0] => set (m0' := m0) end.
  assert (Hwf0 : wf m0')
    by (by apply (fhn_wf_new width height 0.01%float); [|apply new_Some]).
  destruct (fhn_initialize_cells draws m0' Hwf0)
    as (m1 & Hi & Hwf1 & Ht1 & Hdims1 & Hpar1 & Hcells1).
  rewrite Hi. cbn [mbind option_bind]. cbn [m0' width_ height_ dt_] in *.
  injection Hdims1 as Hw1 Hh1 Hdt1.
  set (m2 := setDiffusionCoefficients 0.1 0.0 (setParameters 0.1 0.5 1.0 0.0 m1)).
  assert (Hwf2 : wf m2) by (by apply fhn_wf_setters).
  assert (Hst2 : ∀ y x, 0 <= y < height → 0 <= x < width →
            get (stimulus_ m2) y x = Some 0.0%float).
  { intros y x Hy Hx. by apply Hcells1. }
  assert (∃ m3, addStimulus (Z.quot width 2) (Z.quot height 2) 1.0 10.0 m2 = Some m3
            ∧ wf m3 ∧ same_config m2 (with_stimulus (stimulus_ m2) m3)
            ∧ time_ m3 = time_ m2
            ∧ ∀ y x, 0 <= y < height → 0 <= x < width →
                get (stimulus_ m3) y x
                = Some (if decide ((y, x) = (Z.quot height 2, Z.quot width 2))
                        then 1.0%float else 0.0%float))
    as (m3 & Ha & Hwf3 & Hcfg3 & Ht3 & Hst3).
  { destruct (decide (0 < width ∧ 0 < height)) as [[Hwp Hhp]|Hempty].
    - destruct (fhn_addStimulus_cell m2 (Z.quot width 2) (Z.quot height 2)
                  1.0%float 10.0%float Hwf2)
        as (m3 & Ha & Hm3 & Hwf3 & Hg & Hother).
      { cbn [m2 setDiffusionCoefficients setParameters width_]. rewrite Hw1.
        pose proof (Z.quot_pos width 2). pose proof (Z.quot_lt width 2). lia. }
      { cbn [m2 setDiffusionCoefficients setParameters height_]. rewrite Hh1.
        pose proof (Z.quot_pos height 2). pose proof (Z.quot_lt height 2). lia. }
      exists m3. split; [done|]. split; [done|]. rewrite Hm3. split_and!; try done.
      intros y x Hy Hx. destruct (decide _) as [[= -> ->]|Hne].
      + rewrite <- Hm3. exact Hg.
      + rewrite <- Hm3. rewrite Hother by done. by apply Hst2.
    - exists m2. split.
      + unfold addStimulus.
        destruct (isValidCoordinate m2 _ _) eqn:Hv; [|done].
        apply isValidCoordinate_true in Hv.
        cbn [m2 setDiffusionCoefficients setParameters width_ height_] in Hv.
        pose proof (Z.quot_lt width 2). pose proof (Z.quot_lt height 2). lia.
      + split_and!; try done. intros y x Hy Hx. lia. }
  rewrite Ha. cbn [mbind option_bind].
  assert (∃ mk, run steps m3 = Some mk ∧ wf mk ∧ same_config m3 mk
            ∧ time_ mk = Nat.iter (Z.to_nat steps) (λ t, (t + dt_ m3)%float)
                           (time_ m3))
    as (mk & Hrun & Hwfk & Hcfgk & Htk).
  { destruct (Z.le_gt_cases 0 steps) as [Hs|Hs]; [by apply fhn_run_time|].
    exists m3. unfold run. rewrite for_loop_range_neg by lia.
    replace (Z.to_nat steps) with 0%nat by lia. unfold same_config. done. }
  rewrite Hrun. cbn [mbind option_bind]. unfold saveState. cbn [negb].
  rewrite save_text_file_text by done. cbn [mbind option_bind].
  exists mk, (file_text mk). split; [done|].
  unfold same_config in Hcfg3, Hcfgk.
  cbn [with_stimulus m2 setDiffusionCoefficients setParameters
       width_ height_ dt_ a_ b_ c_ d_ du_ dv_ stimulus_ time_] in Hcfg3, Ht3.
  destruct Hcfg3 as (C1 & C2 & C3 & C4 & C5 & C6 & C7 & C8 & C9 & _).
  destruct Hcfgk as (K1 & K2 & K3 & K4 & K5 & K6 & K7 & K8 & K9 & K10).
  split_and!; try done.
  - congruence.
  - rewrite Htk, Ht3, Ht1, C3, Hdt1. done.
  - congruence.
  - intros y x Hy Hx. rewrite K10. by apply Hst3.
Qed.

Lemma demo_run_completes_witness :
  ∃ fhn out,
    Main.runFitzHughNagumoDemo (λ _, 0.0%float) true 3 3 2 = Some (fhn, true, out)
    ∧ time_ fhn = (0.0 + 0.01 + 0.01)%float
    ∧ get (stimulus_ fhn) 1 1 = Some 1.0%float
    ∧ get (stimulus_ fhn) 0 2 = Some 0.0%float.
Proof.
  destruct (demo_run_completes (λ _, 0.0%float) 3 3 2 ltac:(lia) ltac:(lia))
    as (fhn & out & Hd & _ & _ & Ht & _ & Hst & _).
  exists fhn, out. split; [exact Hd|]. split; [exact Ht|].
  split; [exact (Hst 1 1 ltac:(lia) ltac:(lia))|exact (Hst 0 2 ltac:(lia) ltac:(lia))].
Defined.

End FitzHughNagumoExtras.

(** ** Loops: invariants and commuting maps *)

Lemma for_loop_invariant {I S} (P : S → Prop) (l : list I)
  (body : I → S → option S) s s' :
  (∀ i s1 s2, i ∈ l → body i s1 = Some s2 → P s1 → P s2) →
  P s → for_loop l body s = Some s' → P s'.
Proof.
  revert s. induction l as [|i l IH]; intros s Hbody Hs Hl; cbn in Hl.
  - by injection Hl as <-.
  - destruct (body i s) as [s1|] eqn:Hb; [|done]. cbn in Hl.
    apply (IH s1); [|by eapply Hbody; [left|..]|done].
    intros j s2 s3 Hj. apply Hbody. by right.
Qed.

Lemma for_loop_commute {I S} (F : S → S) (l : list I)
  (body : I → S → option S) s :
  (∀ i s, body i (F s) = F <$> body i s) →
  for_loop l body (F s) = F <$> for_loop l body s.
Proof.
  intros Hbody. revert s. induction l as [|i l IH]; intros s; cbn; [done|].
  rewrite Hbody. destruct (body i s) as [s1|]; cbn; [apply IH|done].
Qed.

Section LuoRudyExtras.
Context `{Libm}.
Import CardiacElectrophysiology CardiacFacts LuoRudyModel LuoRudyFacts.

(** The update loop leaves alone everything listed in [frame]. *)
Lemma lr_step_cell_frame dV y x st st' :
  step_cell dV y x st = Some st' → frame st.1 st'.1.
Proof.
  destruct st as [m Vn]. unfold step_cell, frame. cbn [fst].
  destruct (get (mi_region_ (super m)) y x) as [[]|]; cbn [mbind option_bind];
    intros Hs;
    repeat match type of Hs with
    | context [mbind _ ?o] =>
        destruct o; cbn [mbind option_bind] in Hs; [|discriminate Hs]
    end;
    try discriminate Hs; by injection Hs as <-.
Qed.

Lemma lr_step_frame (m m' : LuoRudyModel.t) :
  LuoRudyModel.step m = Some m' →
  super m' = advance (super m)
  ∧ j_ m' = j_ m ∧ xs_ m' = xs_ m ∧ d_ m' = d_ m ∧ f_ m' = f_ m
  ∧ fca_ m' = fca_ m ∧ CaSR_ m' = CaSR_ m
  ∧ (GNa_ m', Gsi_ m', GK_ m', GK1_ m', Gb_ m', GCaL_ m')
    = (GNa_ m, Gsi_ m, GK_ m, GK1_ m, Gb_ m, GCaL_ m).
Proof.
  unfold LuoRudyModel.step.
  destruct (fresh _ _ _) as [Vn|]; [|done]. cbn [mbind option_bind].
  destruct (applyDiffusion _ _ _) as [dV|]; [|done]. cbn [mbind option_bind].
  destruct (for_cells _ _ _ _ _ _) as [[m1 Vn1]|] eqn:Hloop; [|done].
  cbn [mbind option_bind]. intros [= <-].
  rewrite for_cells_flat in Hloop.
  apply (for_loop_invariant (λ st, frame m st.1)) in Hloop.
  - cbn [fst] in Hloop. unfold frame in Hloop. destruct_and!.
    cbn [commit super j_ xs_ d_ f_ fca_ CaSR_ GNa_ Gsi_ GK_ GK1_ Gb_ GCaL_].
    split_and!; congruence.
  - intros [y x] s1 s2 _ Hb Hs1. apply lr_step_cell_frame in Hb.
    unfold frame in *. destruct_and!. split_and!; congruence.
  - unfold frame. done.
Qed.


Lemma lr_run_frame k (m mk : LuoRudyModel.t) :
  run k m = Some mk →
  same_grid (super m) (super mk)
  ∧ time_ (super mk)
    = Nat.iter (Z.to_nat k) (λ t, (t + dt_ (super m))%float) (time_ (super m))
  ∧ j_ mk = j_ m ∧ xs_ mk = xs_ m ∧ d_ mk = d_ m ∧ f_ mk = f_ m
  ∧ fca_ mk = fca_ m ∧ CaSR_ mk = CaSR_ m
  ∧ (GNa_ mk, Gsi_ mk, GK_ mk, GK1_ mk, Gb_ mk, GCaL_ mk)
    = (GNa_ m, Gsi_ m, GK_ m, GK1_ m, Gb_ m, GCaL_ m).
Proof.
  destruct (Z.le_gt_cases 0 k) as [Hk|Hk]; cycle 1.
  { unfold run. rewrite range_nil by lia. cbn. intros [= <-].
    replace (Z.to_nat k) with 0%nat by lia. unfold same_grid. done. }
  revert k Hk mk. apply (natlike_ind (λ k, ∀ mk, run k m = Some mk → _)).
  - intros mk. rewrite cardiac_run_zero. intros [= <-]. unfold same_grid. done.
  - intros k Hk IH mk. rewrite cardiac_run_succ by done.
    destruct (run k m) as [m1|]; [|done]. cbn [mbind option_bind].
    intros Hstep. destruct (IH m1 eq_refl) as (Hg & Ht & Hj & Hxs & Hd & Hf & Hfca & HCaSR & HG).
    apply lr_step_frame in Hstep as (Hsup & Hj' & Hxs' & Hd' & Hf' & Hfca' & HCaSR' & HG').
    destruct Hg as (Hw & Hh & Hdt & Hcond & Hmask).
    rewrite Z2Nat.inj_succ, Nat.iter_succ by done. rewrite <- Ht.
    unfold same_grid. rewrite Hsup.
    cbn [advance width_ height_ dt_ time_ conductivity_ mi_region_].
    split_and!; congruence.
Qed.

(** [step] reads neither [Gsi_] nor [CaSR_]. *)
Lemma lr_step_cell_unused g c dV y x (st : LuoRudyModel.t * grid float) :
  step_cell dV y x (with_unused g c st.1, st.2)
  = (λ st', (with_unused g c st'.1, st'.2)) <$> step_cell dV y x st.
Proof.
  destruct st as [m Vn]. unfold step_cell, calculateIonicCurrents.
  cbn [fst snd with_unused super V_ m_ h_ j_ xr_ xs_ d_ f_ fca_ Cai_ CaSR_
       GNa_ Gsi_ GK_ GK1_ Gb_ GCaL_].
  destruct (get (mi_region_ (super m)) y x) as [[]|];
    cbn [mbind option_bind fmap option_fmap option_map]; [| |done];
    repeat match goal with
    | |- context [mbind _ ?o] =>
        destruct o; cbn [mbind option_bind fmap option_fmap option_map]; [|done]
    end; done.
Qed.

Lemma lr_step_unused g c (m : LuoRudyModel.t) :
  LuoRudyModel.step (with_unused g c m) = with_unused g c <$> LuoRudyModel.step m.
Proof.
  unfold LuoRudyModel.step. cbn [with_unused super V_].
  destruct (fresh _ _ _) as [Vn|]; [|done]. cbn [mbind option_bind].
  destruct (applyDiffusion _ _ _) as [dV|]; [|done]. cbn [mbind option_bind].
  rewrite !for_cells_flat.
  set (F := λ st : LuoRudyModel.t * grid float, (with_unused g c st.1, st.2)).
  change (with_unused g c m, Vn) with (F (m, Vn)).
  rewrite (for_loop_commute F).
  - destruct (for_loop _ _ (m, Vn)) as [[m1 Vn1]|]; cbn; done.
  - intros [y x] st. cbn [fst snd]. apply lr_step_cell_unused.
Qed.

(** One step at the flagged cells: every written variable keeps its
    value. *)
Lemma lr_step_flagged m :
  wf m →
  ∃ m', LuoRudyModel.step m = Some m' ∧ wf m'
    ∧ super m' = advance (super m)
    ∧ ∀ y x, 0 <= y < height_ (super m) → 0 <= x < width_ (super m) →
        get (mi_region_ (super m)) y x = Some true →
        get (V_ m') y x = get (V_ m) y x ∧ get (m_ m') y x = get (m_ m) y x
        ∧ get (h_ m') y x = get (h_ m) y x ∧ get (xr_ m') y x = get (xr_ m) y x
        ∧ get (Cai_ m') y x = get (Cai_ m) y x.
Proof.
  intros Hwf. destruct (lr_step_cells m Hwf) as (dV & m' & HdV & Hstep & Hwf' & Hsup & _).
  exists m'. split; [done|]. split; [done|]. split; [done|].
  pose proof Hwf as (Hh & Hw & Hmask & Hf).
  unfold fields in Hf. rewrite !Forall_cons in Hf.
  destruct Hf as (HV & Hm & Hhh & Hj & Hxr & Hxs & Hd & Hff & Hfca & HCai & _).
  destruct (cardiac_applyDiffusion_cells (super m) (V_ m) _ Hmask HV
              (covers_filled (height_ (super m)) (width_ (super m)) 0.0%float))
    as (dV' & HdV' & HcdV & _).
  revert Hstep. unfold LuoRudyModel.step. rewrite !fresh_Some by done.
  cbn [mbind option_bind]. rewrite HdV'. cbn [mbind option_bind].
  rewrite for_cells_flat.
  destruct (for_loop_local loop_cell (λ p, step_cell dV' p.1 p.2) (cell_rel m)
              (λ st, frame m st.1)
              (cells 0 (height_ (super m)) 0 (width_ (super m))))
    with (s := (m, filled (height_ (super m)) (width_ (super m)) 0.0%float))
    as ([m1 Vn'] & Hloop & Hfr & Hin & _).
  - intros [y x] st c [Hy Hx]%elem_of_cells Hinv Hc. cbn [fst snd].
    by apply lr_step_cell_local.
  - apply NoDup_cells.
  - unfold frame. done.
  - intros [y x] [Hy Hx]%elem_of_cells.
    destruct (Hm y x Hy Hx) as [? ?]. destruct (Hhh y x Hy Hx) as [? ?].
    destruct (Hxr y x Hy Hx) as [? ?]. destruct (HCai y x Hy Hx) as [? ?].
    eexists (_, _, _, _, _). apply lr_loop_cell_Some. cbn [fst snd].
    rewrite get_filled by done. done.
  - rewrite Hloop. cbn [mbind option_bind]. intros [= <-].
    intros y x Hy Hx Hflag.
    destruct (Hin (y, x)) as (c & c' & Hc%lr_loop_cell_Some & Hc'%lr_loop_cell_Some & Hrel);
      [by apply elem_of_cells|].
    cbn [fst snd] in Hc, Hc'. destruct Hc as (_ & Hc2 & Hc3 & Hc4 & Hc5).
    destruct Hc' as (Hc1' & Hc2' & Hc3' & Hc4' & Hc5').
    cbn [commit V_ m_ h_ xr_ Cai_].
    destruct Hrel as [(_ & HVc & E2 & E3 & E4 & E5)|(Hno & _)];
      cbn [fst snd] in *; [|congruence].
    rewrite Hc1', Hc2', Hc3', Hc4', Hc5', Hc2, Hc3, Hc4, Hc5, HVc.
    split_and!; congruence.
Qed.

Lemma lr_run_flagged k m :
  wf m → 0 <= k →
  ∃ mk, run k m = Some mk ∧ wf mk ∧ same_grid (super m) (super mk)
    ∧ ∀ y x, 0 <= y < height_ (super m) → 0 <= x < width_ (super m) →
        get (mi_region_ (super m)) y x = Some true →
        get (V_ mk) y x = get (V_ m) y x ∧ get (m_ mk) y x = get (m_ m) y x
        ∧ get (h_ mk) y x = get (h_ m) y x ∧ get (xr_ mk) y x = get (xr_ m) y x
        ∧ get (Cai_ mk) y x = get (Cai_ m) y x.
Proof.
  intros Hwf Hk. revert k Hk. apply natlike_ind.
  - exists m. rewrite cardiac_run_zero. unfold same_grid. done.
  - intros k Hk (mk & Hrun & Hwfk & Hsame & Hscar).
    rewrite cardiac_run_succ, Hrun by done. cbn [mbind option_bind].
    destruct (lr_step_flagged mk Hwfk) as (m' & Hstep & Hwf' & Hsup & Hcell).
    destruct Hsame as (Hw & Hh & Hdt & Hcond & Hmask).
    exists m'. split; [exact Hstep|]. split; [done|]. split.
    + unfold same_grid. rewrite Hsup.
      cbn [advance width_ height_ dt_ conductivity_ mi_region_]. done.
    + intros y x Hy Hx Hflag.
      destruct (Hscar y x Hy Hx Hflag) as (<- & <- & <- & <- & <-).
      apply Hcell; congruence.
Qed.

End LuoRudyExtras.

Section TenTusscherExtras.
Context `{Libm}.
Import CardiacElectrophysiology CardiacFacts TenTusscherModel TenTusscherFacts.

Lemma tt_step_cell_frame dV y x st st' :
  step_cell dV y x st = Some st' → frame st.1 st'.1.
Proof.
  destruct st as [m Vn]. unfold step_cell, frame. cbn [fst].
  destruct (get (mi_region_ (super m)) y x) as [[]|]; cbn [mbind option_bind];
    intros Hs;
    repeat match type of Hs with
    | context [mbind _ ?o] =>
        destruct o; cbn [mbind option_bind] in Hs; [|discriminate Hs]
    end;
    try discriminate Hs; by injection Hs as <-.
Qed.

Lemma tt_step_frame (m m' : TenTusscherModel.t) :
  TenTusscherModel.step m = Some m' → frame (commit (V_ m') m) m'.
Proof.
  unfold TenTusscherModel.step.
  destruct (fresh _ _ _) as [Vn|]; [|done]. cbn [mbind option_bind].
  destruct (applyDiffusion _ _ _) as [dV|]; [|done]. cbn [mbind option_bind].
  destruct (for_cells _ _ _ _ _ _) as [[m1 Vn1]|] eqn:Hloop; [|done].
  cbn [mbind option_bind]. intros [= <-].
  rewrite for_cells_flat in Hloop.
  apply (for_loop_invariant (λ st, frame m st.1)) in Hloop.
  - cbn [fst] in Hloop. unfold frame in *. destruct_and!.
    cbn [commit super V_ h_ j_ oa_ oi_ d_ f_ fca_ v_ w_ CaSR_ CaSS_ Nai_ Ki_
         GNa_ GCaL_ GKr_ GKs_ GK1_ Gto_ GNaCa_ GNaK_].
    split_and!; congruence.
  - intros [y x] s1 s2 _ Hb Hs1. apply tt_step_cell_frame in Hb.
    unfold frame in *. destruct_and!. split_and!; congruence.
  - unfold frame. done.
Qed.

Lemma tt_run_frame k (m mk : TenTusscherModel.t) :
  run k m = Some mk →
  same_grid (super m) (super mk)
  ∧ time_ (super mk)
    = Nat.iter (Z.to_nat k) (λ t, (t + dt_ (super m))%float) (time_ (super m))
  ∧ (h_ mk, j_ mk, oa_ mk, oi_ mk, d_ mk, f_ mk, fca_ mk, v_ mk, w_ mk)
    = (h_ m, j_ m, oa_ m, oi_ m, d_ m, f_ m, fca_ m, v_ m, w_ m)
  ∧ (CaSR_ mk, CaSS_ mk, Nai_ mk, Ki_ mk) = (CaSR_ m, CaSS_ m, Nai_ m, Ki_ m)
  ∧ (GNa_ mk, GCaL_ mk, GKr_ mk, GKs_ mk, GK1_ mk, Gto_ mk, GNaCa_ mk, GNaK_ mk)
    = (GNa_ m, GCaL_ m, GKr_ m, GKs_ m, GK1_ m, Gto_ m, GNaCa_ m, GNaK_ m).
Proof.
  destruct (Z.le_gt_cases 0 k) as [Hk|Hk]; cycle 1.
  { unfold run. rewrite range_nil by lia. cbn. intros [= <-].
    replace (Z.to_nat k) with 0%nat by lia. unfold same_grid. done. }
  revert k Hk mk. apply (natlike_ind (λ k, ∀ mk, run k m = Some mk → _)).
  - intros mk. rewrite cardiac_run_zero. intros [= <-]. unfold same_grid. done.
  - intros k Hk IH mk. rewrite cardiac_run_succ by done.
    destruct (run k m) as [m1|]; [|done]. cbn [mbind option_bind].
    intros Hstep. destruct (IH m1 eq_refl) as (Hg & Ht & Hgates & Hconc & HG).
    apply tt_step_frame in Hstep. unfold frame in Hstep.
    cbn [commit super V_ h_ j_ oa_ oi_ d_ f_ fca_ v_ w_ CaSR_ CaSS_ Nai_ Ki_
         GNa_ GCaL_ GKr_ GKs_ GK1_ Gto_ GNaCa_ GNaK_] in Hstep.
    destruct Hstep as (Hsup & _ & Hrest).
    destruct Hg as (Hw & Hh & Hdt & Hcond & Hmask).
    rewrite Z2Nat.inj_succ, Nat.iter_succ by done. rewrite <- Ht.
    unfold same_grid. rewrite Hsup.
    cbn [advance width_ height_ dt_ time_ conductivity_ mi_region_].
    destruct_and!. simplify_eq. split_and!; try congruence.
Qed.

(** [step] reads none of [w_], [CaSR_] and [CaSS_]. *)
Lemma tt_step_cell_unused w c cs dV y x (st : TenTusscherModel.t * grid float) :
  step_cell dV y x (with_unused w c cs st.1, st.2)
  = (λ st', (with_unused w c cs st'.1, st'.2)) <$> step_cell dV y x st.
Proof.
  destruct st as [m Vn]. unfold step_cell, calculateIonicCurrents.
  cbn [fst snd with_unused super V_ m_ h_ j_ oa_ oi_ d_ f_ fca_ u_ v_ w_
       Cai_ CaSR_ CaSS_ Nai_ Ki_
       GNa_ GCaL_ GKr_ GKs_ GK1_ Gto_ GNaCa_ GNaK_].
  destruct (get (mi_region_ (super m)) y x) as [[]|];
    cbn [mbind option_bind fmap option_fmap option_map]; [| |done];
    repeat match goal with
    | |- context [mbind _ ?o] =>
        destruct o; cbn [mbind option_bind fmap option_fmap option_map]; [|done]
    end; done.
Qed.

Lemma tt_step_unused w c cs (m : TenTusscherModel.t) :
  TenTusscherModel.step (with_unused w c cs m)
  = with_unused w c cs <$> TenTusscherModel.step m.
Proof.
  unfold TenTusscherModel.step. cbn [with_unused super V_].
  destruct (fresh _ _ _) as [Vn|]; [|done]. cbn [mbind option_bind].
  destruct (applyDiffusion _ _ _) as [dV|]; [|done]. cbn [mbind option_bind].
  rewrite !for_cells_flat.
  set (F := λ st : TenTusscherModel.t * grid float,
              (with_unused w c cs st.1, st.2)).
  change (with_unused w c cs m, Vn) with (F (m, Vn)).
  rewrite (for_loop_commute F).
  - destruct (for_loop _ _ (m, Vn)) as [[m1 Vn1]|]; cbn; done.
  - intros [y x] st. cbn [fst snd]. apply tt_step_cell_unused.
Qed.

Lemma tt_step_flagged m :
  wf m →
  ∃ m', TenTusscherModel.step m = Some m' ∧ wf m'
    ∧ super m' = advance (super m)
    ∧ ∀ y x, 0 <= y < height_ (super m) → 0 <= x < width_ (super m) →
        get (mi_region_ (super m)) y x = Some true →
        get (V_ m') y x = get (V_ m) y x ∧ get (m_ m') y x = get (m_ m) y x
        ∧ get (u_ m') y x = get (u_ m) y x
        ∧ get (Cai_ m') y x = get (Cai_ m) y x.
Proof.
  intros Hwf. destruct (tt_step_cells m Hwf) as (dV & m' & HdV & Hstep & Hwf' & Hsup & _).
  exists m'. split; [done|]. split; [done|]. split; [done|].
  pose proof Hwf as (Hh & Hw & Hmask & Hf).
  unfold fields in Hf. rewrite !Forall_cons in Hf.
  destruct Hf as (HV & Hm & Hhh & Hj & Hoa & Hoi & Hd & Hff & Hfca & Hu & Hvv
                  & HCai & HNai & HKi & _).
  destruct (cardiac_applyDiffusion_cells (super m) (V_ m) _ Hmask HV
              (covers_filled (height_ (super m)) (width_ (super m)) 0.0%float))
    as (dV' & HdV' & HcdV & _).
  revert Hstep. unfold TenTusscherModel.step. rewrite !fresh_Some by done.
  cbn [mbind option_bind]. rewrite HdV'. cbn [mbind option_bind].
  rewrite for_cells_flat.
  destruct (for_loop_local loop_cell (λ p, step_cell dV' p.1 p.2) (cell_rel m)
              (λ st, frame m st.1)
              (cells 0 (height_ (super m)) 0 (width_ (super m))))
    with (s := (m, filled (height_ (super m)) (width_ (super m)) 0.0%float))
    as ([m1 Vn'] & Hloop & Hfr & Hin & _).
  - intros [y x] st c [Hy Hx]%elem_of_cells Hinv Hc. cbn [fst snd].
    by apply tt_step_cell_local.
  - apply NoDup_cells.
  - unfold frame. done.
  - intros [y x] [Hy Hx]%elem_of_cells.
    destruct (Hm y x Hy Hx) as [? ?]. destruct (Hu y x Hy Hx) as [? ?].
    destruct (HCai y x Hy Hx) as [? ?].
    eexists (_, _, _, _). apply tt_loop_cell_Some. cbn [fst snd].
    rewrite get_filled by done. done.
  - rewrite Hloop. cbn [mbind option_bind]. intros [= <-].
    intros y x Hy Hx Hflag.
    destruct (Hin (y, x)) as (c & c' & Hc%tt_loop_cell_Some & Hc'%tt_loop_cell_Some & Hrel);
      [by apply elem_of_cells|].
    cbn [fst snd] in Hc, Hc'. destruct Hc as (_ & Hc2 & Hc3 & Hc4).
    destruct Hc' as (Hc1' & Hc2' & Hc3' & Hc4').
    cbn [commit V_ m_ u_ Cai_].
    destruct Hrel as [(_ & HVc & E2 & E3 & E4)|(Hno & _)];
      cbn [fst snd] in *; [|congruence].
    rewrite Hc1', Hc2', Hc3', Hc4', Hc2, Hc3, Hc4, HVc.
    split_and!; congruence.
Qed.

Lemma tt_run_flagged k m :
  wf m → 0 <= k →
  ∃ mk, run k m = Some mk ∧ wf mk ∧ same_grid (super m) (super mk)
    ∧ ∀ y x, 0 <= y < height_ (super m) → 0 <= x < width_ (super m) →
        get (mi_region_ (super m)) y x = Some true →
        get (V_ mk) y x = get (V_ m) y x ∧ get (m_ mk) y x = get (m_ m) y x
        ∧ get (u_ mk) y x = get (u_ m) y x
        ∧ get (Cai_ mk) y x = get (Cai_ m) y x.
Proof.
  intros Hwf Hk. revert k Hk. apply natlike_ind.
  - exists m. rewrite cardiac_run_zero. unfold same_grid. done.
  - intros k Hk (mk & Hrun & Hwfk & Hsame & Hscar).
    rewrite cardiac_run_succ, Hrun by done. cbn [mbind option_bind].
    destruct (tt_step_flagged mk Hwfk) as (m' & Hstep & Hwf' & Hsup & Hcell).
    destruct Hsame as (Hw & Hh & Hdt & Hcond & Hmask).
    exists m'. split; [exact Hstep|]. split; [done|]. split.
    + unfold same_grid. rewrite Hsup.
      cbn [advance width_ height_ dt_ conductivity_ mi_region_]. done.
    + intros y x Hy Hx Hflag.
      destruct (Hscar y x Hy Hx Hflag) as (<- & <- & <- & <-).
      apply Hcell; congruence.
Qed.

End TenTusscherExtras.

Section IonicExtras.
Import CardiacElectrophysiology CardiacFacts.

(** X11. Whenever [run(N)] completes on an object of either ionic model,
    the grid size, the time step, the conductivity, the mask and all
    conductances are as before, the time is the start time with [dt_]
    added once per step, and every state variable that the update loop
    does not integrate is untouched in every cell: [j_], [xs_], [d_],
    [f_], [fca_] and [CaSR_] for [LuoRudyModel]; [h_], [j_], [oa_],
    [oi_], [d_], [f_], [fca_], [v_], [w_], [CaSR_], [CaSS_], [Nai_] and
    [Ki_] for [TenTusscherModel]. *)
Theorem steps_leave_unintegrated_state `{Libm} :
  (∀ (m mN : LuoRudyModel.t) (N : Z),
     run N m = Some mN →
     same_grid (LuoRudyModel.super m) (LuoRudyModel.super mN)
     ∧ time_ (LuoRudyModel.super mN)
       = Nat.iter (Z.to_nat N) (λ t, (t + dt_ (LuoRudyModel.super m))%float)
           (time_ (LuoRudyModel.super m))
     ∧ LuoRudyModel.j_ mN = LuoRudyModel.j_ m
     ∧ LuoRudyModel.xs_ mN = LuoRudyModel.xs_ m
     ∧ LuoRudyModel.d_ mN = LuoRudyModel.d_ m
     ∧ LuoRudyModel.f_ mN = LuoRudyModel.f_ m
     ∧ LuoRudyModel.fca_ mN = LuoRudyModel.fca_ m
     ∧ LuoRudyModel.CaSR_ mN = LuoRudyModel.CaSR_ m
     ∧ (LuoRudyModel.GNa_ mN, LuoRudyModel.Gsi_ mN, LuoRudyModel.GK_ mN,
        LuoRudyModel.GK1_ mN, LuoRudyModel.Gb_ mN, LuoRudyModel.GCaL_ mN)
       = (LuoRudyModel.GNa_ m, LuoRudyModel.Gsi_ m, LuoRudyModel.GK_ m,
          LuoRudyModel.GK1_ m, LuoRudyModel.Gb_ m, LuoRudyModel.GCaL_ m))
  ∧ (∀ (m mN : TenTusscherModel.t) (N : Z),
       run N m = Some mN →
       same_grid (TenTusscherModel.super m) (TenTusscherModel.super mN)
       ∧ time_ (TenTusscherModel.super mN)
         = Nat.iter (Z.to_nat N)
             (λ t, (t + dt_ (TenTusscherModel.super m))%float)
             (time_ (TenTusscherModel.super m))
       ∧ (TenTusscherModel.h_ mN, TenTusscherModel.j_ mN, TenTusscherModel.oa_ mN,
          TenTusscherModel.oi_ mN, TenTusscherModel.d_ mN, TenTusscherModel.f_ mN,
          TenTusscherModel.fca_ mN, TenTusscherModel.v_ mN, TenTusscherModel.w_ mN)
         = (TenTusscherModel.h_ m, TenTusscherModel.j_ m, TenTusscherModel.oa_ m,
            TenTusscherModel.oi_ m, TenTusscherModel.d_ m, TenTusscherModel.f_ m,
            TenTusscherModel.fca_ m, TenTusscherModel.v_ m, TenTusscherModel.w_ m)
       ∧ (TenTusscherModel.CaSR_ mN, TenTusscherModel.CaSS_ mN,
          TenTusscherModel.Nai_ mN, TenTusscherModel.Ki_ mN)
         = (TenTusscherModel.CaSR_ m, TenTusscherModel.CaSS_ m,
            TenTusscherModel.Nai_ m, TenTusscherModel.Ki_ m)
       ∧ (TenTusscherModel.GNa_ mN, TenTusscherModel.GCaL_ mN,
          TenTusscherModel.GKr_ mN, TenTusscherModel.GKs_ mN,
          TenTusscherModel.GK1_ mN, TenTusscherModel.Gto_ mN,
          TenTusscherModel.GNaCa_ mN, TenTusscherModel.GNaK_ mN)
         = (TenTusscherModel.GNa_ m, TenTusscherModel.GCaL_ m,
            TenTusscherModel.GKr_ m, TenTusscherModel.GKs_ m,
            TenTusscherModel.GK1_ m, TenTusscherModel.Gto_ m,
            TenTusscherModel.GNaCa_ m, TenTusscherModel.GNaK_ m)).
Proof.
  split.
  - intros m mN N Hrun. exact (lr_run_frame N m mN Hrun).
  - intros m mN N Hrun. exact (tt_run_frame N m mN Hrun).
Qed.

(** X12. [step] of [LuoRudyModel] reads neither the conductance [Gsi_] nor
    the grid [CaSR_], and [step] of [TenTusscherModel] reads none of the
    grids [w_], [CaSR_] and [CaSS_]: a run from an object with other
    contents in these members is the same run, these members apart. *)
Theorem unused_members_do_not_affect_runs `{Libm} :
  (∀ (m : LuoRudyModel.t) (Gsi : float) (CaSR : grid float) (N : Z),
     run N (LuoRudyModel.with_unused Gsi CaSR m)
     = LuoRudyModel.with_unused Gsi CaSR <$> run N m)
  ∧ (∀ (m : TenTusscherModel.t) (w CaSR CaSS : grid float) (N : Z),
       run N (TenTusscherModel.with_unused w CaSR CaSS m)
       = TenTusscherModel.with_unused w CaSR CaSS <$> run N m).
Proof.
  split.
  - intros m Gsi CaSR N.
    exact (for_loop_commute (LuoRudyModel.with_unused Gsi CaSR) (range 0 N)
             (λ _, LuoRudyModel.step) m (λ _ s, lr_step_unused Gsi CaSR s)).
  - intros m w CaSR CaSS N.
    exact (for_loop_commute (TenTusscherModel.with_unused w CaSR CaSS) (range 0 N)
             (λ _, TenTusscherModel.step) m (λ _ s, tt_step_unused w CaSR CaSS s)).
Qed.

(** X13. In both ionic models a flagged cell of a well-formed object keeps,
    over any number of steps, the value of every variable the update
    loop writes: [V_], [m_], [h_], [xr_] and [Cai_] in [LuoRudyModel];
    [V_], [m_], [u_] and [Cai_] in [TenTusscherModel]. *)
Theorem flagged_cells_keep_every_variable `{Libm} :
  (∀ (m : LuoRudyModel.t) (N y x : Z),
     LuoRudyModel.wf m → 0 <= N →
     0 <= y < height_ (LuoRudyModel.super m) →
     0 <= x < width_ (LuoRudyModel.super m) →
     get (mi_region_ (LuoRudyModel.super m)) y x = Some true →
     ∃ mN, run N m = Some mN
       ∧ get (LuoRudyModel.V_ mN) y x = get (LuoRudyModel.V_ m) y x
       ∧ get (LuoRudyModel.m_ mN) y x = get (LuoRudyModel.m_ m) y x
       ∧ get (LuoRudyModel.h_ mN) y x = get (LuoRudyModel.h_ m) y x
       ∧ get (LuoRudyModel.xr_ mN) y x = get (LuoRudyModel.xr_ m) y x
       ∧ get (LuoRudyModel.Cai_ mN) y x = get (LuoRudyModel.Cai_ m) y x)
  ∧ (∀ (m : TenTusscherModel.t) (N y x : Z),
       TenTusscherModel.wf m → 0 <= N →
       0 <= y < height_ (TenTusscherModel.super m) →
       0 <= x < width_ (TenTusscherModel.super m) →
       get (mi_region_ (TenTusscherModel.super m)) y x = Some true →
       ∃ mN, run N m = Some mN
         ∧ get (TenTusscherModel.V_ mN) y x = get (TenTusscherModel.V_ m) y x
         ∧ get (TenTusscherModel.m_ mN) y x = get (TenTusscherModel.m_ m) y x
         ∧ get (TenTusscherModel.u_ mN) y x = get (TenTusscherModel.u_ m) y x
         ∧ get (TenTusscherModel.Cai_ mN) y x
           = get (TenTusscherModel.Cai_ m) y x).
Proof.
  split.
  - intros m N y x Hwf HN Hy Hx Hflag.
    destruct (lr_run_flagged N m Hwf HN) as (mN & Hrun & _ & _ & Hcells).
    exists mN. split; [done|]. by apply Hcells.
  - intros m N y x Hwf HN Hy Hx Hflag.
    destruct (tt_run_flagged N m Hwf HN) as (mN & Hrun & _ & _ & Hcells).
    exists mN. split; [done|]. by apply Hcells.
Qed.

Lemma steps_leave_unintegrated_state_witness :
  ∃ mN, run (H := @LuoRudyModel.model Samples.libm_sample) 2 Samples.lr43 = Some mN
    ∧ LuoRudyModel.j_ mN = filled 3 4 1.0%float
    ∧ LuoRudyModel.xs_ mN = filled 3 4 0.0%float
    ∧ LuoRudyModel.Gsi_ mN = 0.09%float.
Proof.
  destruct (@LuoRudyFacts.lr_run_invariant Samples.libm_sample 2 Samples.lr43)
    as (mN & Hrun & _); [apply LuoRudyFacts.lr_wfb_wf; vm_compute; reflexivity|lia|].
  exists mN. split; [exact Hrun|].
  destruct (proj1 (@steps_leave_unintegrated_state Samples.libm_sample)
              Samples.lr43 mN 2 Hrun)
    as (_ & _ & Hj & Hxs & _ & _ & _ & _ & HG).
  split; [exact Hj|]. split; [exact Hxs|]. by injection HG.
Defined.

Lemma flagged_cells_keep_every_variable_witness :
  TenTusscherModel.wf Samples.tt43
  ∧ get (CardiacElectrophysiology.mi_region_ (TenTusscherModel.super Samples.tt43)) 1 1
    = Some true
  ∧ ∃ mN, run (H := @TenTusscherModel.model Samples.libm_sample) 3 Samples.tt43
            = Some mN
      ∧ get (TenTusscherModel.m_ mN) 1 1 = Some 0.0%float
      ∧ get (TenTusscherModel.Cai_ mN) 1 1 = Some 0.0002%float.
Proof.
  assert (Hwf : TenTusscherModel.wf Samples.tt43)
    by (apply TenTusscherFacts.tt_wfb_wf; vm_compute; reflexivity).
  split; [exact Hwf|]. split; [reflexivity|].
  destruct (proj2 (@flagged_cells_keep_every_variable Samples.libm_sample)
              Samples.tt43 3 1 1 Hwf ltac:(lia) ltac:(simpl; lia) ltac:(simpl; lia)
              eq_refl)
    as (mN & Hrun & _ & Hm & _ & HCai).
  exists mN. split; [exact Hrun|]. split; [exact Hm|exact HCai].
Defined.


(** X14. The constructors of both ionic models throw when the height is
    negative, or positive with a negative width. With a non-negative
    width and height they return an object without flagged cells whose
    conductances are those of the preset ["normal"] ([LuoRudyModel]) or
    ["epi"] ([TenTusscherModel]), and on which any number of steps
    completes: no step indexes a vector out of range, whatever the
    size. *)
Theorem ionic_models_step_safely `{Libm} (width height : Z) (dt : float) :
  (height < 0 ∨ (0 < height ∧ width < 0) →
   LuoRudyModel.new width height dt = None
   ∧ TenTusscherModel.new width height dt = None)
  ∧ (0 <= width → 0 <= height →
     (∃ m, LuoRudyModel.new width height dt = Some m
        ∧ LuoRudyModel.setCellType "normal" m = m
        ∧ (∀ y x, 0 <= y < height → 0 <= x < width →
             get (mi_region_ (LuoRudyModel.super m)) y x = Some false)
        ∧ ∀ N, ∃ mN, run N m = Some mN ∧ LuoRudyModel.wf mN)
     ∧ (∃ m, TenTusscherModel.new width height dt = Some m
          ∧ TenTusscherModel.setVariant "epi" m = m
          ∧ (∀ y x, 0 <= y < height → 0 <= x < width →
               get (mi_region_ (TenTusscherModel.super m)) y x = Some false)
          ∧ ∀ N, ∃ mN, run N m = Some mN ∧ TenTusscherModel.wf mN)).
Proof.
  split.
  - intros Hneg. unfold LuoRudyModel.new, TenTusscherModel.new,
      CardiacElectrophysiology.new.
    assert ((height <? 0) || (0 <? height) && (width <? 0) = true) as ->; [|done].
    destruct (Z.ltb_spec height 0); [done|].
    destruct (Z.ltb_spec 0 height), (Z.ltb_spec width 0); try done; lia.
  - intros Hw Hh.
    assert (Hok : (height <? 0) || (0 <? height) && (width <? 0) = false).
    { destruct (Z.ltb_spec height 0); [lia|].
      destruct (Z.ltb_spec width 0); [lia|]. by rewrite andb_false_r. }
    split.
    + destruct (LuoRudyModel.new width height dt) as [m|] eqn:Hnew; cycle 1.
      { revert Hnew. unfold LuoRudyModel.new, CardiacElectrophysiology.new.
        by rewrite Hok. }
      exists m. split; [done|].
      pose proof (LuoRudyFacts.lr_wf_new width height dt m Hw Hnew) as Hwf.
      revert Hnew. unfold LuoRudyModel.new, CardiacElectrophysiology.new.
      rewrite Hok. cbn [mbind option_bind]. intros [= <-]. split_and!.
      * reflexivity.
      * intros y x Hy Hx. cbn. by apply get_filled.
      * intros N. destruct (Z.le_gt_cases 0 N) as [HN|HN].
        -- destruct (LuoRudyFacts.lr_run_invariant N _ Hwf HN) as (mN & Hrun & HwfN & _).
           by exists mN.
        -- eexists. split; [|exact Hwf]. unfold run. by rewrite range_nil by lia.
    + destruct (TenTusscherModel.new width height dt) as [m|] eqn:Hnew; cycle 1.
      { revert Hnew. unfold TenTusscherModel.new, CardiacElectrophysiology.new.
        by rewrite Hok. }
      exists m. split; [done|].
      pose proof (TenTusscherFacts.tt_wf_new width height dt m Hw Hnew) as Hwf.
      revert Hnew. unfold TenTusscherModel.new, CardiacElectrophysiology.new.
      rewrite Hok. cbn [mbind option_bind]. intros [= <-]. split_and!.
      * reflexivity.
      * intros y x Hy Hx. cbn. by apply get_filled.
      * intros N. destruct (Z.le_gt_cases 0 N) as [HN|HN].
        -- destruct (TenTusscherFacts.tt_run_invariant N _ Hwf HN) as (mN & Hrun & HwfN & _).
           by exists mN.
        -- eexists. split; [|exact Hwf]. unfold run. by rewrite range_nil by lia.
Qed.

Lemma ionic_models_step_safely_witness :
  ∃ m, TenTusscherModel.new 2 1 0.01 = Some m
    ∧ ∃ mN, run (H := @TenTusscherModel.model Samples.libm_sample) 3 m = Some mN
            ∧ TenTusscherModel.wf mN.
Proof.
  destruct (proj2 (proj2 (@ionic_models_step_safely Samples.libm_sample 2 1 0.01%float)
                     ltac:(lia) ltac:(lia)))
    as (m & Hnew & _ & _ & Hrun).
  exists m. split; [exact Hnew|]. exact (Hrun 3).
Defined.

End IonicExtras.

(** ** Parameter presets *)

Section PresetExtras.

(** X15. [setCellType] compares the label with the three names exactly: any
    other label (another spelling or case included) leaves the object
    unchanged. A recognised label replaces all six conductances whatever
    they were before, and nothing else. Each of the six conductances is
    strictly smaller for ["ischemic"] than for ["normal"], and for
    ["infarcted"] than for ["ischemic"]. *)
Theorem setCellType_presets (m : LuoRudyModel.t) :
  (∀ label, label ∉ ["normal"; "ischemic"; "infarcted"]%string →
     LuoRudyModel.setCellType label m = m)
  ∧ (∀ label previous, label ∈ ["normal"; "ischemic"; "infarcted"]%string →
       LuoRudyModel.setCellType label (LuoRudyModel.setCellType previous m)
       = LuoRudyModel.setCellType label m)
  ∧ (∀ label,
       LuoRudyModel.super (LuoRudyModel.setCellType label m) = LuoRudyModel.super m
       ∧ LuoRudyModel.fields (LuoRudyModel.setCellType label m)
         = LuoRudyModel.fields m
       ∧ LuoRudyModel.CaSR_ (LuoRudyModel.setCellType label m)
         = LuoRudyModel.CaSR_ m)
  ∧ Forall (λ G : LuoRudyModel.t → float,
       (G (LuoRudyModel.setCellType "infarcted" m)
        <? G (LuoRudyModel.setCellType "ischemic" m))%float = true
       ∧ (G (LuoRudyModel.setCellType "ischemic" m)
          <? G (LuoRudyModel.setCellType "normal" m))%float = true)
      [LuoRudyModel.GNa_; LuoRudyModel.Gsi_; LuoRudyModel.GK_;
       LuoRudyModel.GK1_; LuoRudyModel.Gb_; LuoRudyModel.GCaL_].
Proof.
  split_and!.
  - intros label Hl. rewrite !not_elem_of_cons in Hl.
    destruct Hl as (H1 & H2 & H3 & _). unfold LuoRudyModel.setCellType.
    apply String.eqb_neq in H1, H2, H3. by rewrite H1, H2, H3.
  - intros label previous Hl. rewrite !elem_of_cons in Hl.
    destruct Hl as [->|[->|[->|Hl]]]; [| | |by apply elem_of_nil in Hl];
      unfold LuoRudyModel.setCellType at 1; cbn [String.eqb Ascii.eqb Bool.eqb];
      unfold LuoRudyModel.setCellType;
      destruct (String.eqb previous "normal"), (String.eqb previous "ischemic"),
        (String.eqb previous "infarcted"); reflexivity.
  - intros label. unfold LuoRudyModel.setCellType.
    destruct (String.eqb label "normal"), (String.eqb label "ischemic"),
      (String.eqb label "infarcted"); done.
  - repeat constructor.
Qed.

Lemma setCellType_presets_witness :
  LuoRudyModel.setCellType "Normal" Samples.lr43 = Samples.lr43
  ∧ LuoRudyModel.GNa_
      (LuoRudyModel.setCellType "normal"
         (LuoRudyModel.setCellType "infarcted" Samples.lr43)) = 23.0%float.
Proof.
  split.
  - apply (proj1 (setCellType_presets Samples.lr43)).
    rewrite !not_elem_of_cons. split_and!; try discriminate. apply not_elem_of_nil.
  - rewrite (proj1 (proj2 (setCellType_presets Samples.lr43)) "normal"%string
               "infarcted"%string) by (left; reflexivity).
    reflexivity.
Defined.

(** X16. [setVariant] compares the label with the three names exactly: any
    other label leaves the object unchanged. A recognised label replaces
    all eight conductances whatever they were before, and nothing else.
    The three variants differ in two conductances only: ["mid"] is
    ["epi"] with the [GKr_] of ["endo"], and ["endo"] with the [Gto_] of
    ["epi"]. *)
Theorem setVariant_presets (m : TenTusscherModel.t) :
  (∀ label, label ∉ ["epi"; "endo"; "mid"]%string →
     TenTusscherModel.setVariant label m = m)
  ∧ (∀ label previous, label ∈ ["epi"; "endo"; "mid"]%string →
       TenTusscherModel.setVariant label (TenTusscherModel.setVariant previous m)
       = TenTusscherModel.setVariant label m)
  ∧ (∀ label,
       TenTusscherModel.super (TenTusscherModel.setVariant label m)
       = TenTusscherModel.super m
       ∧ TenTusscherModel.fields (TenTusscherModel.setVariant label m)
         = TenTusscherModel.fields m
       ∧ (TenTusscherModel.w_ (TenTusscherModel.setVariant label m),
          TenTusscherModel.CaSR_ (TenTusscherModel.setVariant label m),
          TenTusscherModel.CaSS_ (TenTusscherModel.setVariant label m))
         = (TenTusscherModel.w_ m, TenTusscherModel.CaSR_ m,
            TenTusscherModel.CaSS_ m))
  ∧ (let epi := TenTusscherModel.setVariant "epi" m in
     let endo := TenTusscherModel.setVariant "endo" m in
     TenTusscherModel.setVariant "mid" m
     = TenTusscherModel.with_conductances
         (TenTusscherModel.GNa_ epi) (TenTusscherModel.GCaL_ epi)
         (TenTusscherModel.GKr_ endo) (TenTusscherModel.GKs_ epi)
         (TenTusscherModel.GK1_ epi) (TenTusscherModel.Gto_ epi)
         (TenTusscherModel.GNaCa_ epi) (TenTusscherModel.GNaK_ epi) epi
     ∧ TenTusscherModel.setVariant "mid" m
       = TenTusscherModel.with_conductances
           (TenTusscherModel.GNa_ endo) (TenTusscherModel.GCaL_ endo)
           (TenTusscherModel.GKr_ endo) (TenTusscherModel.GKs_ endo)
           (TenTusscherModel.GK1_ endo) (TenTusscherModel.Gto_ epi)
           (TenTusscherModel.GNaCa_ endo) (TenTusscherModel.GNaK_ endo) endo
     ∧ TenTusscherModel.GKr_ epi ≠ TenTusscherModel.GKr_ endo
     ∧ TenTusscherModel.Gto_ epi ≠ TenTusscherModel.Gto_ endo).
Proof.
  split_and!.
  - intros label Hl. rewrite !not_elem_of_cons in Hl.
    destruct Hl as (H1 & H2 & H3 & _). unfold TenTusscherModel.setVariant.
    apply String.eqb_neq in H1, H2, H3. by rewrite H1, H2, H3.
  - intros label previous Hl. rewrite !elem_of_cons in Hl.
    destruct Hl as [->|[->|[->|Hl]]]; [| | |by apply elem_of_nil in Hl];
      unfold TenTusscherModel.setVariant at 1; cbn [String.eqb Ascii.eqb Bool.eqb];
      unfold TenTusscherModel.setVariant;
      destruct (String.eqb previous "epi"), (String.eqb previous "endo"),
        (String.eqb previous "mid"); reflexivity.
  - intros label. unfold TenTusscherModel.setVariant.
    destruct (String.eqb label "epi"), (String.eqb label "endo"),
      (String.eqb label "mid"); done.
  - cbv zeta. split_and!; try reflexivity.
    + cbn. intros Heq. apply (f_equal Prim2SF) in Heq. vm_compute in Heq. discriminate.
    + cbn. intros Heq. apply (f_equal Prim2SF) in Heq. vm_compute in Heq. discriminate.
Qed.

Lemma setVariant_presets_witness :
  TenTusscherModel.setVariant "EPI" Samples.tt43 = Samples.tt43
  ∧ TenTusscherModel.Gto_
      (TenTusscherModel.setVariant "endo"
         (TenTusscherModel.setVariant "mid" Samples.tt43)) = 0.073%float.
Proof.
  split.
  - apply (proj1 (setVariant_presets Samples.tt43)).
    rewrite !not_elem_of_cons. split_and!; try discriminate. apply not_elem_of_nil.
  - rewrite (proj1 (proj2 (setVariant_presets Samples.tt43)) "endo"%string
               "mid"%string) by (right; left; reflexivity).
    reflexivity.
Defined.

End PresetExtras.

(** ** The current maps of [LuoRudyModel] *)

Section LuoRudyCurrents.
Context `{Libm}.
Import CardiacElectrophysiology CardiacFacts LuoRudyModel LuoRudyFacts.

Lemma calculateIonicCurrents_Some m y x :
  wf m → 0 <= y < height_ (super m) → 0 <= x < width_ (super m) →
  ∃ INa ICaL IK IK1 Ib ICaT,
    calculateIonicCurrents m x y
    = Some [("INa", INa); ("ICaL", ICaL); ("IK", IK); ("IK1", IK1);
            ("Ib", Ib); ("ICaT", ICaT)]%string.
Proof.
  intros (Hh & Hw & Hmask & Hf) Hy Hx.
  unfold fields in Hf. rewrite !Forall_cons in Hf.
  destruct Hf as (HV & Hm & Hhh & Hj & Hxr & Hxs & Hd & Hff & Hfca & HCai & _).
  destruct (HV y x Hy Hx) as [? E1]. destruct (Hm y x Hy Hx) as [? E2].
  destruct (Hhh y x Hy Hx) as [? E3]. destruct (Hj y x Hy Hx) as [? E4].
  destruct (Hxr y x Hy Hx) as [? E5]. destruct (Hxs y x Hy Hx) as [? E6].
  destruct (Hd y x Hy Hx) as [? E7]. destruct (Hff y x Hy Hx) as [? E8].
  destruct (Hfca y x Hy Hx) as [? E9]. destruct (HCai y x Hy Hx) as [? E10].
  unfold calculateIonicCurrents.
  rewrite E1, E2, E3, E4, E5, E6, E7, E8, E9, E10.
  cbn [mbind option_bind map_set String.eqb Ascii.eqb Bool.eqb].
  by eexists _, _, _, _, _, _.
Qed.


(** The six currents in the order a range-based [for] visits them. *)
Lemma in_key_order_currents (INa ICaL IK IK1 Ib ICaT : float) :
  in_key_order [("INa", INa); ("ICaL", ICaL); ("IK", IK); ("IK1", IK1);
                ("Ib", Ib); ("ICaT", ICaT)]%string
  = [("ICaL", ICaL); ("ICaT", ICaT); ("IK", IK); ("IK1", IK1); ("INa", INa);
     ("Ib", Ib)]%string.
Proof. reflexivity. Qed.

Lemma maps_keys_shape (maps : current_maps) :
  maps.*1 = current_names →
  ∃ g1 g2 g3 g4 g5 g6,
    maps = [("INa", g1); ("ICaL", g2); ("IK", g3); ("IK1", g4); ("Ib", g5);
            ("ICaT", g6)]%string.
Proof.
  unfold current_names. intros Hk.
  destruct maps as [|[k1 g1] [|[k2 g2] [|[k3 g3] [|[k4 g4] [|[k5 g5]
                     [|[k6 g6] [|]]]]]]]; try discriminate Hk.
  cbn in Hk. injection Hk as -> -> -> -> -> ->. by eexists _, _, _, _, _, _.
Qed.

(** The body of the cell loop of [getIonicCurrents] writes the six
    currents of the cell into the six maps and nothing else. *)
Lemma store_cell_local m y x (maps : current_maps) c :
  wf m → 0 <= y < height_ (super m) → 0 <= x < width_ (super m) →
  maps.*1 = current_names →
  mapM (λ name, get (maps_get name maps) y x) current_names = Some c →
  ∃ maps' currents,
    (currents ← calculateIonicCurrents m x y;
     store_currents y x (in_key_order currents) maps) = Some maps'
    ∧ maps'.*1 = current_names
    ∧ calculateIonicCurrents m x y = Some currents
    ∧ mapM (λ name, get (maps_get name maps') y x) current_names
      = Some ((λ name, map_get name currents) <$> current_names)
    ∧ ∀ y' x', (y', x') ≠ (y, x) →
        mapM (λ name, get (maps_get name maps') y' x') current_names
        = mapM (λ name, get (maps_get name maps) y' x') current_names.
Proof.
  intros Hwf Hy Hx Hkeys Hc.
  destruct (maps_keys_shape maps Hkeys) as (g1 & g2 & g3 & g4 & g5 & g6 & ->).
  destruct (calculateIonicCurrents_Some m y x Hwf Hy Hx)
    as (INa & ICaL & IK & IK1 & Ib & ICaT & Hcur).
  rewrite Hcur. cbn [mbind option_bind].
  unfold current_names in *.
  cbn [mapM mbind option_bind mret option_ret maps_get String.eqb Ascii.eqb Bool.eqb] in Hc.
  destruct (get g1 y x) as [v1|] eqn:E1; [|done]. cbn [mbind option_bind] in Hc.
  destruct (get g2 y x) as [v2|] eqn:E2; [|done]. cbn [mbind option_bind] in Hc.
  destruct (get g3 y x) as [v3|] eqn:E3; [|done]. cbn [mbind option_bind] in Hc.
  destruct (get g4 y x) as [v4|] eqn:E4; [|done]. cbn [mbind option_bind] in Hc.
  destruct (get g5 y x) as [v5|] eqn:E5; [|done]. cbn [mbind option_bind] in Hc.
  destruct (get g6 y x) as [v6|] eqn:E6; [|done]. clear Hc.
  destruct (set_is_Some g1 y x INa) as [g1' S1]; [by rewrite E1|].
  destruct (set_is_Some g2 y x ICaL) as [g2' S2]; [by rewrite E2|].
  destruct (set_is_Some g3 y x IK) as [g3' S3]; [by rewrite E3|].
  destruct (set_is_Some g4 y x IK1) as [g4' S4]; [by rewrite E4|].
  destruct (set_is_Some g5 y x Ib) as [g5' S5]; [by rewrite E5|].
  destruct (set_is_Some g6 y x ICaT) as [g6' S6]; [by rewrite E6|].
  exists [("INa", g1'); ("ICaL", g2'); ("IK", g3'); ("IK1", g4'); ("Ib", g5');
          ("ICaT", g6')]%string. eexists. split_and!.
  - rewrite in_key_order_currents. unfold store_currents.
    cbn [for_loop fst snd maps_get maps_set String.eqb Ascii.eqb Bool.eqb].
    rewrite S2. cbn [mbind option_bind maps_get maps_set String.eqb Ascii.eqb Bool.eqb].
    rewrite S6. cbn [mbind option_bind maps_get maps_set String.eqb Ascii.eqb Bool.eqb].
    rewrite S3. cbn [mbind option_bind maps_get maps_set String.eqb Ascii.eqb Bool.eqb].
    rewrite S4. cbn [mbind option_bind maps_get maps_set String.eqb Ascii.eqb Bool.eqb].
    rewrite S1. cbn [mbind option_bind maps_get maps_set String.eqb Ascii.eqb Bool.eqb].
    rewrite S5. cbn [mbind option_bind maps_get maps_set String.eqb Ascii.eqb Bool.eqb].
    done.
  - done.
  - done.
  - cbn [mapM mbind option_bind mret option_ret maps_get String.eqb Ascii.eqb Bool.eqb
         fmap list_fmap map_get].
    rewrite (get_set_eq _ _ _ _ _ S1), (get_set_eq _ _ _ _ _ S2),
      (get_set_eq _ _ _ _ _ S3), (get_set_eq _ _ _ _ _ S4),
      (get_set_eq _ _ _ _ _ S5), (get_set_eq _ _ _ _ _ S6). done.
  - intros y' x' Hne.
    cbn [mapM mbind option_bind mret option_ret maps_get String.eqb Ascii.eqb Bool.eqb].
    by rewrite (get_set_ne _ _ _ _ _ _ _ S1 Hne), (get_set_ne _ _ _ _ _ _ _ S2 Hne),
      (get_set_ne _ _ _ _ _ _ _ S3 Hne), (get_set_ne _ _ _ _ _ _ _ S4 Hne),
      (get_set_ne _ _ _ _ _ _ _ S5 Hne), (get_set_ne _ _ _ _ _ _ _ S6 Hne).
Qed.


Lemma getIonicCurrents_cells m :
  wf m →
  ∃ maps, getIonicCurrents m = Some maps ∧ maps.*1 = current_names
    ∧ ∀ y x, 0 <= y < height_ (super m) → 0 <= x < width_ (super m) →
        ∃ currents, calculateIonicCurrents m x y = Some currents
          ∧ mapM (λ name, get (maps_get name maps) y x) current_names
            = Some ((λ name, map_get name currents) <$> current_names).
Proof.
  intros Hwf. pose proof Hwf as (Hh & Hw & _).
  set (g0 := filled (height_ (super m)) (width_ (super m)) 0.0%float).
  assert (Hinit : for_loop current_names
            (λ name maps,
               g ← fresh (height_ (super m)) (width_ (super m)) 0.0%float;
               Some (maps_set name g maps)) []
            = Some [("INa", g0); ("ICaL", g0); ("IK", g0); ("IK1", g0);
                    ("Ib", g0); ("ICaT", g0)]%string).
  { unfold current_names. cbn [for_loop]. rewrite !fresh_Some by done.
    reflexivity. }
  unfold getIonicCurrents. rewrite Hinit. cbn [mbind option_bind].
  rewrite for_cells_flat.
  destruct (for_loop_local
              (λ (maps : current_maps) (p : Z * Z),
                 mapM (λ name, get (maps_get name maps) p.1 p.2) current_names)
              (λ (p : Z * Z) maps,
                 currents ← calculateIonicCurrents m p.2 p.1;
                 store_currents p.1 p.2 (in_key_order currents) maps)
              (λ (p : Z * Z) (_ c' : list float),
                 ∃ currents, calculateIonicCurrents m p.2 p.1 = Some currents
                   ∧ c' = (λ name, map_get name currents) <$> current_names)
              (λ maps : current_maps, maps.*1 = current_names)
              (cells 0 (height_ (super m)) 0 (width_ (super m))))
    with (s := [("INa", g0); ("ICaL", g0); ("IK", g0); ("IK1", g0);
                ("Ib", g0); ("ICaT", g0)]%string)
    as (maps & Hloop & Hkeys & Hin & _).
  - intros [y x] maps c [Hy Hx]%elem_of_cells Hinv Hc. cbn [fst snd] in *.
    destruct (store_cell_local m y x maps c Hwf Hy Hx Hinv Hc)
      as (maps' & cur & Hb & Hk' & Hcur & Hc' & Hother).
    exists maps', ((λ name, map_get name cur) <$> current_names).
    split_and!; try done.
    + by exists cur.
    + intros [y' x'] Hne. cbn [fst snd]. by apply Hother.
  - apply NoDup_cells.
  - reflexivity.
  - intros [y x] [Hy Hx]%elem_of_cells. unfold current_names. cbn [fst snd].
    cbn [mapM mbind option_bind mret option_ret maps_get String.eqb Ascii.eqb Bool.eqb].
    unfold g0. rewrite get_filled by done. done.
  - exists maps. split; [done|]. split; [done|].
    intros y x Hy Hx.
    destruct (Hin (y, x)) as (c & c' & _ & Hc' & cur & Hcur & ->);
      [by apply elem_of_cells|]. cbn [fst snd] in *. by exists cur.
Qed.

End LuoRudyCurrents.

Section CurrentMapExtras.
Import CardiacElectrophysiology.

(** X17. [getIonicCurrents] on a well-formed object completes and returns
    exactly six maps, named INa, ICaL, IK, IK1, Ib and ICaT. Every map
    holds, at every cell of the grid, the current of that name that
    [calculateIonicCurrents] computes for the cell from the stored state;
    the mask is not consulted, so flagged cells get their currents like
    any other cell. *)
Theorem getIonicCurrents_maps_every_cell `{Libm} (m : LuoRudyModel.t) :
  LuoRudyModel.wf m →
  ∃ maps, LuoRudyModel.getIonicCurrents m = Some maps
    ∧ (∀ name, name ∈ maps.*1
               ↔ name ∈ ["INa"; "ICaL"; "IK"; "IK1"; "Ib"; "ICaT"]%string)
    ∧ ∀ name y x,
        name ∈ ["INa"; "ICaL"; "IK"; "IK1"; "Ib"; "ICaT"]%string →
        0 <= y < height_ (LuoRudyModel.super m) →
        0 <= x < width_ (LuoRudyModel.super m) →
        ∃ currents,
          LuoRudyModel.calculateIonicCurrents m x y = Some currents
          ∧ get (maps_get name maps) y x = Some (map_get name currents).
Proof.
  intros Hwf. destruct (getIonicCurrents_cells m Hwf) as (maps & Hget & Hkeys & Hcells).
  exists maps. split; [done|]. split; [by rewrite Hkeys|].
  intros name y x Hname Hy Hx.
  destruct (Hcells y x Hy Hx) as (cur & Hcur & Hall).
  exists cur. split; [done|].
  unfold LuoRudyModel.current_names in Hall.
  cbn [mapM mbind option_bind mret option_ret fmap list_fmap] in Hall.
  repeat match type of Hall with
  | context [mbind _ (get ?g ?y ?x)] =>
      let E := fresh "E" in
      destruct (get g y x) eqn:E; cbn [mbind option_bind] in Hall;
      [|discriminate Hall]
  end.
  injection Hall as -> -> -> -> -> ->.
  rewrite !elem_of_cons in Hname.
  destruct Hname as [->|[->|[->|[->|[->|[->|Hn]]]]]];
    [done..|by apply elem_of_nil in Hn].
Qed.

(** On the 4 by 3 sample the flagged cell [(1, 1)] has a background
    current [Gb_ * (V + 59.87)] in the map like any other cell. *)
Lemma getIonicCurrents_maps_every_cell_witness :
  LuoRudyModel.wf Samples.lr43
  ∧ get (mi_region_ (LuoRudyModel.super Samples.lr43)) 1 1 = Some true
  ∧ ∃ maps,
      LuoRudyModel.getIonicCurrents (H := Samples.libm_sample) Samples.lr43
        = Some maps
      ∧ get (maps_get "Ib" maps) 1 1 = Some (0.03921 * (-84.0 + 59.87))%float.
Proof.
  assert (Hwf : LuoRudyModel.wf Samples.lr43)
    by (apply LuoRudyFacts.lr_wfb_wf; vm_compute; reflexivity).
  split; [exact Hwf|]. split; [reflexivity|].
  destruct (@getIonicCurrents_maps_every_cell Samples.libm_sample Samples.lr43 Hwf)
    as (maps & Hget & _ & Hcells).
  exists maps. split; [exact Hget|].
  destruct (Hcells "Ib"%string 1 1) as (cur & Hcur & Hcell);
    [do 4 right; left; reflexivity|simpl; lia|simpl; lia|].
  vm_compute in Hcur. injection Hcur as <-. exact Hcell.
Defined.

End CurrentMapExtras.

(** ** The terrain grid *)

Module DTMFacts.
Import IOStream IOStreamFacts DTM.

Lemma dtm_isValidCoordinate_true d x y :
  isValidCoordinate d x y = true ↔ 0 <= x < width_ d ∧ 0 <= y < height_ d.
Proof.
  unfold isValidCoordinate.
  rewrite !andb_true_iff, !Z.leb_le, !Z.ltb_lt. lia.
Qed.

Lemma dtm_wfb_wf d : wfb d = true → wf d.
Proof.
  unfold wfb, wf. rewrite !andb_true_iff, !Z.leb_le.
  intros [[??] ?]. split_and!; try done. by apply coversb_covers.
Qed.

Lemma no_neighbourhood_false d x y :
  no_neighbourhood d x y = false ↔
  0 < x < width_ d - 1 ∧ 0 < y < height_ d - 1.
Proof.
  unfold no_neighbourhood.
  rewrite !orb_false_iff, negb_false_iff, dtm_isValidCoordinate_true, !Z.eqb_neq.
  lia.
Qed.

(** [resize] of the rows and of every row gives a grid that covers the
    rectangle. *)
Lemma covers_resize (g : grid float) h w :
  0 <= h → 0 <= w →
  covers (resize (Z.to_nat w) 0.0%float <$> resize (Z.to_nat h) [] g) h w.
Proof.
  intros Hh Hw y x Hy Hx. unfold get.
  destruct (idx_is_Some (resize (Z.to_nat w) 0.0%float
                           <$> resize (Z.to_nat h) [] g) y) as [_ [row Hrow]].
  { rewrite length_fmap, length_resize. lia. }
  rewrite Hrow. cbn [mbind option_bind]. apply idx_is_Some.
  apply idx_Some in Hrow as [_ Hrow]. rewrite list_lookup_fmap in Hrow.
  destruct (resize (Z.to_nat h) [] g !! Z.to_nat y) as [row0|]; [|done].
  injection Hrow as <-. rewrite length_resize. lia.
Qed.

(** Resizing a grid that covers the rectangle to that very rectangle
    keeps every cell inside it. *)
Lemma get_resize (g : grid float) h w y x :
  0 <= y < h → 0 <= x < w → is_Some (get g y x) →
  get (resize (Z.to_nat w) 0.0%float <$> resize (Z.to_nat h) [] g) y x
  = get g y x.
Proof.
  intros Hy Hx [a Ha]. rewrite Ha.
  apply get_Some in Ha as (row & Hrow & Hcell).
  apply idx_Some in Hrow as [_ Hrow]. apply idx_Some in Hcell as [_ Hcell].
  apply get_Some. exists (resize (Z.to_nat w) 0.0%float row). split.
  - apply idx_Some. split; [lia|]. rewrite list_lookup_fmap.
    rewrite lookup_resize; [by rewrite Hrow|lia|by eapply lookup_lt_Some].
  - apply idx_Some. split; [lia|].
    rewrite lookup_resize; [done|lia|by eapply lookup_lt_Some].
Qed.

Lemma dtm_save_row_text d y out :
  covers (elevation_data_ d) (height_ d) (width_ d) → 0 <= y < height_ d →
  save_row d y out = Some (out ++ row_text d y).
Proof.
  intros Hg Hy. unfold save_row, row_text.
  rewrite (FitzHughNagumoFacts.for_loop_append _ _ (cell_text d y)).
  - cbn [mbind option_bind]. by rewrite app_assoc.
  - intros x o Hx%elem_of_seqZ. destruct (Hg y x) as [v Hv]; [lia..|].
    unfold cell_text. rewrite Hv. cbn [mbind option_bind default]. done.
Qed.

Lemma dtm_save_text_file_text d : wf d → save_text d = Some (file_text d).
Proof.
  intros (Hh & Hw & Hg). unfold save_text.
  rewrite (FitzHughNagumoFacts.for_loop_append _ _ (row_text d)).
  2:{ intros y o Hy%elem_of_seqZ. apply dtm_save_row_text; [done|lia]. }
  unfold file_text. f_equal. repeat rewrite <- app_assoc. cbn [app]. done.
Qed.

(** The read loop over the rows written for [d], started on a grid that
    covers the rectangle. *)
Lemma dtm_load_rows d (G : grid float) ws :
  0 <= height_ d → 0 <= width_ d →
  Forall (λ c, isspace c = true) ws →
  covers G (height_ d) (width_ d) →
  (∀ y x, 0 <= y < height_ d → 0 <= x < width_ d →
     is_Some (reread (default 0.0%float (get (elevation_data_ d) y x)))) →
  ∃ ws' G',
    for_cells 0 (height_ d) 0 (width_ d) load_cell
      (mk_istream (ws ++ concat (row_text d <$> range 0 (height_ d))) false,
       G, false)
    = Some (mk_istream ws' false, G', false)
    ∧ covers G' (height_ d) (width_ d)
    ∧ ∀ y x, 0 <= y < height_ d → 0 <= x < width_ d →
        get G' y x = reread (default 0.0%float (get (elevation_data_ d) y x)).
Proof.
  intros Hh Hw Hws HG Hread.
  set (mm := {| FitzHughNagumo.width_ := width_ d;
                FitzHughNagumo.height_ := height_ d;
                FitzHughNagumo.dt_ := 0.0; FitzHughNagumo.time_ := 0.0;
                FitzHughNagumo.a_ := 0.0; FitzHughNagumo.b_ := 0.0;
                FitzHughNagumo.c_ := 0.0; FitzHughNagumo.d_ := 0.0;
                FitzHughNagumo.du_ := 0.0; FitzHughNagumo.dv_ := 0.0;
                FitzHughNagumo.u_ := []; FitzHughNagumo.v_ := [];
                FitzHughNagumo.u_new_ := []; FitzHughNagumo.v_new_ := [];
                FitzHughNagumo.stimulus_ := [] |}).
  destruct (FitzHughNagumoFacts.load_rows mm (elevation_data_ d)
              (Z.to_nat (height_ d)) 0 ws [] G)
    as (ws' & G' & Hloop & _ & HG' & Hcells & _); try done.
  { cbn. lia. }
  exists (ws' ++ []), G'. split; [|done].
  unfold for_cells, range. rewrite Z.sub_0_r.
  rewrite Z2Nat.id in Hloop by done. rewrite app_nil_r in Hloop.
  exact Hloop.
Qed.

Lemma dtm_setElevation_valid d x y elevation :
  wf d → 0 <= x < width_ d → 0 <= y < height_ d →
  ∃ d', setElevation x y elevation d = Some d' ∧ wf d'
    ∧ getDimensions d' = getDimensions d
    ∧ getCellSize d' = getCellSize d
    ∧ getElevation d' x y = Some elevation
    ∧ ∀ x' y', (x', y') ≠ (x, y) →
        getElevation d' x' y' = getElevation d x' y'.
Proof.
  intros (Hh & Hw & Hg) Hx Hy.
  assert (Hv : isValidCoordinate d x y = true)
    by (by apply dtm_isValidCoordinate_true).
  unfold setElevation. rewrite Hv. cbn [negb].
  destruct (set_is_Some (elevation_data_ d) y x elevation (Hg y x Hy Hx))
    as [data Hset].
  rewrite Hset. cbn [mbind option_bind]. eexists. split; [done|].
  split_and!; try done.
  - unfold wf. cbn. split_and!; try done. by eapply covers_set.
  - unfold getElevation.
    change (isValidCoordinate (with_elevation data d) x y)
      with (isValidCoordinate d x y). rewrite Hv. cbn [negb].
    by eapply get_set_eq.
  - intros x' y' Hne. unfold getElevation.
    change (isValidCoordinate (with_elevation data d) x' y')
      with (isValidCoordinate d x' y').
    destruct (isValidCoordinate d x' y'); [|done]. cbn [negb with_elevation elevation_data_].
    eapply get_set_ne; [done|]. intros [= -> ->]. done.
Qed.

(** The read loop on a stream that has failed already: the first cell
    reaches [return false] and nothing is stored. *)
Lemma dtm_load_failed_stream (l : list (Z * Z)) s (G : grid float) :
  failbit s = true → (∀ p, p ∈ l → is_Some (get G p.1 p.2)) →
  for_loop l (λ p, load_cell p.1 p.2) (s, G, false)
  = Some (s, G, match l with [] => false | _ => true end).
Proof.
  intros Hfail Hget.
  assert (Hrest : ∀ l', for_loop l' (λ p, load_cell p.1 p.2) (s, G, true)
                        = Some (s, G, true)).
  { induction l' as [|[y' x'] l' IH]; [done|]. cbn [for_loop fst snd]. exact IH. }
  destruct l as [|[y x] l]; [done|]. cbn [for_loop fst snd].
  assert (load_cell y x (s, G, false) = Some (s, G, true)) as ->.
  { unfold load_cell. destruct (Hget (y, x)) as [v Hv]; [left|].
    cbn [fst snd] in Hv. rewrite Hv. cbn [mbind option_bind].
    unfold extract_double. rewrite Hfail. cbn [mbind option_bind].
    by rewrite Hfail. }
  cbn [mbind option_bind]. apply Hrest.
Qed.

End DTMFacts.

Section TerrainExtras.
Import IOStream IOStreamFacts DTM DTMFacts.

(** X18. [getElevation] at a coordinate outside the grid returns [0.0] and
    [setElevation] there returns the object unchanged. Inside the grid of
    a well-formed object [setElevation] completes, changes neither the
    dimensions nor the cell size, and a following [getElevation] returns
    the stored value at that coordinate and the previous value at every
    other coordinate. *)
Theorem setElevation_then_getElevation :
  (∀ (d : DTM.t) x y elevation,
     ¬ (0 <= x < width_ d ∧ 0 <= y < height_ d) →
     getElevation d x y = Some 0.0%float
     ∧ setElevation x y elevation d = Some d)
  ∧ (∀ (d : DTM.t) x y elevation,
       wf d → 0 <= x < width_ d → 0 <= y < height_ d →
       ∃ d', setElevation x y elevation d = Some d' ∧ wf d'
         ∧ getDimensions d' = getDimensions d
         ∧ getCellSize d' = getCellSize d
         ∧ getElevation d' x y = Some elevation
         ∧ ∀ x' y', (x', y') ≠ (x, y) →
             getElevation d' x' y' = getElevation d x' y').
Proof.
  split.
  - intros d x y elevation Hout. unfold getElevation, setElevation.
    destruct (isValidCoordinate d x y) eqn:Hv; [|done].
    apply dtm_isValidCoordinate_true in Hv. lia.
  - intros d x y elevation Hwf Hx Hy. by apply dtm_setElevation_valid.
Qed.

Lemma setElevation_then_getElevation_witness :
  DTM.wf Samples.dtm32
  ∧ ∃ d', setElevation 2 1 7.5 Samples.dtm32 = Some d'
      ∧ getElevation d' 2 1 = Some 7.5%float
      ∧ getElevation d' 1 1 = Some 0.125%float.
Proof.
  assert (Hwf : wf Samples.dtm32) by (apply dtm_wfb_wf; vm_compute; reflexivity).
  split; [exact Hwf|].
  destruct (proj2 setElevation_then_getElevation Samples.dtm32 2 1 7.5%float Hwf
              ltac:(simpl; lia) ltac:(simpl; lia))
    as (d' & Hs & _ & _ & _ & Hg & Hother).
  exists d'. split; [exact Hs|]. split; [exact Hg|].
  rewrite (Hother 1 1) by discriminate. reflexivity.
Defined.

(** X19. [calculateSlope] and [calculateAspect] return [0.0] at every
    coordinate that is outside the grid or on its outermost ring (so
    everywhere on a grid narrower or lower than 3). At any other cell of a
    well-formed grid they complete, and their results are computed from
    the four neighbours alone: storing another elevation in the cell
    itself changes neither. *)
Theorem slope_and_aspect_use_neighbours_only `{LibmAngle} :
  (∀ (d : DTM.t) x y,
     ¬ (0 < x < width_ d - 1 ∧ 0 < y < height_ d - 1) →
     calculateSlope d x y = Some 0.0%float
     ∧ calculateAspect d x y = Some 0.0%float)
  ∧ (∀ (d : DTM.t) x y elevation,
       wf d → 0 < x < width_ d - 1 → 0 < y < height_ d - 1 →
       ∃ d', setElevation x y elevation d = Some d'
         ∧ is_Some (calculateSlope d x y) ∧ is_Some (calculateAspect d x y)
         ∧ calculateSlope d' x y = calculateSlope d x y
         ∧ calculateAspect d' x y = calculateAspect d x y).
Proof.
  split.
  - intros d x y Hout. unfold calculateSlope, calculateAspect.
    destruct (no_neighbourhood d x y) eqn:Hn; [done|].
    apply no_neighbourhood_false in Hn. lia.
  - intros d x y elevation Hwf Hx Hy.
    destruct (dtm_setElevation_valid d x y elevation Hwf)
      as (d' & Hs & Hwf' & Hdims & _ & _ & Hother); [lia..|].
    exists d'. split; [done|].
    assert (Hn : no_neighbourhood d x y = false)
      by (by apply no_neighbourhood_false).
    assert (Hn' : no_neighbourhood d' x y = false).
    { apply no_neighbourhood_false. unfold getDimensions in Hdims.
      injection Hdims as -> ->. done. }
    pose proof Hwf as (_ & _ & Hg).
    assert (Hget : ∀ x' y', 0 <= x' < width_ d → 0 <= y' < height_ d →
              ∃ e, getElevation d x' y' = Some e).
    { intros x' y' Hx' Hy'. unfold getElevation.
      rewrite (proj2 (dtm_isValidCoordinate_true d x' y')) by done.
      cbn [negb]. by apply Hg. }
    destruct (Hget (x + 1) y) as [e He]; [lia..|].
    destruct (Hget (x - 1) y) as [w Hw]; [lia..|].
    destruct (Hget x (y + 1)) as [s Hs']; [lia..|].
    destruct (Hget x (y - 1)) as [n Hn0]; [lia..|].
    unfold calculateSlope, calculateAspect. rewrite Hn, Hn'.
    rewrite !Hother by (intros [=]; lia).
    rewrite He, Hw, Hs', Hn0. cbn [mbind option_bind].
    assert (Hcs : cell_size_ d' = cell_size_ d).
    { revert Hs. unfold setElevation. destruct (negb _); [by intros [= <-]|].
      destruct (set _ _ _ _); [|done]. by intros [= <-]. }
    rewrite Hcs. done.
Qed.


(** At the interior cell [(1, 1)] of the 3 by 3 sample the slope is
    computed from the neighbours 26, 20, 35 and 11. *)
Lemma slope_and_aspect_use_neighbours_only_witness :
  DTM.wf Samples.dtm33
  ∧ ∃ d', setElevation 1 1 99.0 Samples.dtm33 = Some d'
      ∧ calculateSlope (H := Samples.libm_angle_sample) d' 1 1
        = calculateSlope (H := Samples.libm_angle_sample) Samples.dtm33 1 1
      ∧ calculateAspect (H := Samples.libm_angle_sample) d' 1 1
        = calculateAspect (H := Samples.libm_angle_sample) Samples.dtm33 1 1.
Proof.
  assert (Hwf : wf Samples.dtm33) by (apply dtm_wfb_wf; vm_compute; reflexivity).
  split; [exact Hwf|].
  destruct (proj2 (@slope_and_aspect_use_neighbours_only Samples.libm_angle_sample)
              Samples.dtm33 1 1 99.0%float Hwf ltac:(simpl; lia) ltac:(simpl; lia))
    as (d' & Hs & _ & _ & Hslope & Haspect).
  exists d'. split; [exact Hs|]. split; [exact Hslope|exact Haspect].
Defined.

End TerrainExtras.

Section TerrainFileExtras.
Import IOStream IOStreamFacts DTM DTMFacts.

(** X20. For a well-formed terrain whose sizes are [int] values and whose
    written numbers are all ones extraction reads back, [saveToFile]
    followed by [loadFromFile] into any terrain object, whatever its size
    and content, returns true: the object takes the width and height of
    the file and is well-formed, and its cell size and every elevation
    are the saved values as read back from the six significant digits
    written for them. *)
Theorem terrain_save_load_round_trip (d d0 : DTM.t) :
  wf d → width_ d <= INT_MAX → height_ d <= INT_MAX → readable d →
  ∃ text d',
    saveToFile true d = Some (true, text)
    ∧ loadFromFile (Some text) d0 = Some (true, d')
    ∧ wf d'
    ∧ getDimensions d' = getDimensions d
    ∧ Some (getCellSize d') = reread (getCellSize d)
    ∧ ∀ x y, 0 <= x < width_ d → 0 <= y < height_ d →
        ∃ e, getElevation d x y = Some e
          ∧ getElevation d' x y = reread e
          ∧ (reread e = Some e → getElevation d' x y = Some e).
Proof.
  intros Hwf Hwmax Hhmax [[cs' Hcs] Hcells].
  pose proof Hwf as (Hh & Hw & Hg).
  exists (file_text d). unfold saveToFile. cbn [negb].
  rewrite dtm_save_text_file_text by done. cbn [mbind option_bind].
  assert (Hsp : Forall (λ c, isspace c = true) [" "%char]) by (repeat constructor).
  assert (Hnl : Forall (λ c, isspace c = true) [newline]) by (repeat constructor).
  destruct (dtm_load_rows d
              (resize (Z.to_nat (width_ d)) 0.0%float
                 <$> resize (Z.to_nat (height_ d)) [] (elevation_data_ d0))
              [newline])
    as (ws' & G' & Hloop & HG' & HGcells); try done.
  { by apply covers_resize. }
  eexists. split; [reflexivity|].
  unfold loadFromFile, file_text.
  pose proof (extract_int_token (width_ d) []) as E. cbn [app] in E.
  rewrite E by (done || lia). clear E.
  pose proof (extract_int_token (height_ d) [" "%char]) as E. cbn [app] in E.
  rewrite E by (done || lia). clear E.
  pose proof (extract_double_token (cell_size_ d) cs' [" "%char]) as E.
  cbn [app] in E. rewrite E by done. clear E.
  cbn [default width_ height_ cell_size_ elevation_data_]. unfold id.
  rewrite (proj2 (Z.ltb_ge (height_ d) 0) Hh), (proj2 (Z.ltb_ge (width_ d) 0) Hw),
    andb_false_r.
  cbn [app] in Hloop. unfold grid in *. rewrite Hloop. cbn [mbind option_bind negb].
  split; [done|]. split_and!.
  - unfold wf. cbn. done.
  - done.
  - unfold getCellSize. cbn [with_elevation cell_size_]. by rewrite Hcs.
  - intros x y Hx Hy. destruct (Hg y x Hy Hx) as [e He].
    exists e. unfold getElevation.
    rewrite (proj2 (dtm_isValidCoordinate_true d x y)) by done.
    match goal with |- context [isValidCoordinate ?d' x y] =>
      change (isValidCoordinate d' x y) with (isValidCoordinate d x y) end.
    rewrite (proj2 (dtm_isValidCoordinate_true d x y)) by done.
    cbn [negb with_elevation elevation_data_].
    rewrite HGcells, He by done. cbn [default]. split_and!; try done.
Qed.

Lemma terrain_save_load_round_trip_witness :
  DTM.wf Samples.dtm32 ∧ DTM.readable Samples.dtm32
  ∧ ∃ text d',
      saveToFile true Samples.dtm32 = Some (true, text)
      ∧ loadFromFile (Some text) Samples.dtm10 = Some (true, d')
      ∧ getDimensions d' = (3, 2)
      ∧ getElevation d' 1 1 = Some 0.125%float.
Proof.
  assert (Hwf : wf Samples.dtm32) by (apply dtm_wfb_wf; vm_compute; reflexivity).
  assert (Hr : readable Samples.dtm32).
  { split; [vm_compute; eauto|]. intros y x Hy Hx. cbn in Hy, Hx.
    assert (y = 0 ∨ y = 1) as [-> | ->] by lia;
      (assert (x = 0 ∨ x = 1 ∨ x = 2) as [-> | [-> | ->]] by lia);
      vm_compute; eauto. }
  split; [exact Hwf|]. split; [exact Hr|].
  destruct (terrain_save_load_round_trip Samples.dtm32 Samples.dtm10 Hwf
              ltac:(vm_compute; discriminate) ltac:(vm_compute; discriminate) Hr)
    as (text & d' & Hs & Hl & _ & Hdims & _ & Hcells).
  exists text, d'. split; [exact Hs|]. split; [exact Hl|]. split; [exact Hdims|].
  destruct (Hcells 1 1 ltac:(simpl; lia) ltac:(simpl; lia)) as (e & He & _ & Hsame).
  vm_compute in He. injection He as <-. apply Hsame. vm_compute. reflexivity.
Defined.


(** X21. When the first character of the file after leading white space is
    neither a digit nor a sign, [loadFromFile] on an object of
    non-negative height returns true: the failed extraction stores 0 in
    [width_], the failed stream leaves [height_] and [cell_size_] alone,
    every row is resized to no cells and no read is attempted. From then
    on every coordinate is outside the grid. *)
Theorem loadFromFile_accepts_non_numeric_header (d : DTM.t) (content : text)
  (c : ascii) (rest : text) :
  0 <= height_ d → skipws content = c :: rest →
  isdigit c = false → is_char c "-" = false → is_char c "+" = false →
  ∃ d', loadFromFile (Some content) d = Some (true, d')
    ∧ width_ d' = 0 ∧ height_ d' = height_ d ∧ cell_size_ d' = cell_size_ d
    ∧ Forall (λ row, row = []) (elevation_data_ d')
    ∧ ∀ x y, getElevation d' x y = Some 0.0%float.
Proof.
  intros Hh Hsk Hdig Hminus Hplus.
  assert (Hw : extract_int (mk_istream content false)
               = (mk_istream (c :: rest) true, Some 0)).
  { unfold extract_int. cbn [failbit buf]. rewrite Hsk, Hminus, Hplus.
    cbn [span_digits]. by rewrite Hdig. }
  unfold loadFromFile. rewrite Hw.
  unfold extract_int, extract_double. cbn [failbit].
  cbn [default width_ height_ cell_size_ elevation_data_]. unfold id.
  rewrite (proj2 (Z.ltb_ge (height_ d) 0) Hh). cbn [Z.ltb Z.compare].
  rewrite andb_false_r, for_cells_flat, cells_empty by lia.
  cbn [for_loop mbind option_bind negb]. eexists. split; [done|].
  cbn [with_elevation width_ height_ cell_size_ elevation_data_].
  split_and!; try done.
  - apply Forall_fmap, Forall_forall. intros row _. by destruct row.
  - intros x y. unfold getElevation, isValidCoordinate.
    cbn [with_elevation width_ height_].
    assert ((0 <=? x) && (x <? 0) = false) as ->; [|done].
    destruct (Z.leb_spec 0 x), (Z.ltb_spec x 0); try done; lia.
Qed.

Lemma loadFromFile_accepts_non_numeric_header_witness :
  ∃ d', loadFromFile (Some (list_ascii_of_string "not a terrain file"))
          Samples.dtm32 = Some (true, d')
    ∧ width_ d' = 0 ∧ height_ d' = 2
    ∧ getElevation Samples.dtm32 1 1 = Some 0.125%float
    ∧ getElevation d' 1 1 = Some 0.0%float.
Proof.
  destruct (loadFromFile_accepts_non_numeric_header Samples.dtm32
              (list_ascii_of_string "not a terrain file") "n"
              (list_ascii_of_string "ot a terrain file")
              ltac:(simpl; lia) eq_refl eq_refl eq_refl eq_refl)
    as (d' & Hl & Hw & Hh & _ & _ & Hget).
  exists d'. split; [exact Hl|]. split; [exact Hw|]. split; [exact Hh|].
  split; [reflexivity|apply Hget].
Defined.

(** X22. When the first two extractions from the file store a width and a
    negative height, [loadFromFile] returns false (the [resize] throws
    and the exception is caught) after [width_], [height_] and
    [cell_size_] have been overwritten; the stored elevations are as
    before, but every coordinate is now outside the grid. *)
Theorem loadFromFile_negative_height_overwrites_size (d : DTM.t)
  (content : text) (s1 s2 : istream) (w h : Z) :
  extract_int (mk_istream content false) = (s1, Some w) →
  extract_int s1 = (s2, Some h) → h < 0 →
  ∃ d', loadFromFile (Some content) d = Some (false, d')
    ∧ getDimensions d' = (w, h)
    ∧ elevation_data_ d' = elevation_data_ d
    ∧ ∀ x y, getElevation d' x y = Some 0.0%float.
Proof.
  intros Hw Hh Hneg. unfold loadFromFile. rewrite Hw, Hh.
  destruct (extract_double s2) as [s3 cs].
  cbn [default width_ height_ cell_size_ elevation_data_]. unfold id.
  rewrite (proj2 (Z.ltb_lt h 0) Hneg). eexists. split; [done|].
  split_and!; try done.
  intros x y. unfold getElevation, isValidCoordinate.
  cbn [with_elevation width_ height_].
  assert ((0 <=? y) && (y <? h) = false) as Hy.
  { destruct (Z.leb_spec 0 y), (Z.ltb_spec y h); try done; lia. }
  by rewrite <- andb_assoc, Hy, andb_false_r.
Qed.

Lemma loadFromFile_negative_height_overwrites_size_witness :
  ∃ d', loadFromFile (Some (list_ascii_of_string "4 -2 1.5")) Samples.dtm32
        = Some (false, d')
    ∧ getDimensions d' = (4, -2)
    ∧ elevation_data_ d' = elevation_data_ Samples.dtm32
    ∧ getElevation Samples.dtm32 1 1 = Some 0.125%float
    ∧ getElevation d' 1 1 = Some 0.0%float.
Proof.
  destruct (loadFromFile_negative_height_overwrites_size Samples.dtm32
              (list_ascii_of_string "4 -2 1.5")
              (mk_istream (list_ascii_of_string " -2 1.5") false)
              (mk_istream (list_ascii_of_string " 1.5") false) 4 (-2)
              ltac:(vm_compute; reflexivity) ltac:(vm_compute; reflexivity)
              ltac:(lia))
    as (d' & Hl & Hdims & Hdata & Hget).
  exists d'. split; [exact Hl|]. split; [exact Hdims|]. split; [exact Hdata|].
  split; [reflexivity|apply Hget].
Defined.


(** X23. On a file that holds nothing but white space (an empty file
    included) [loadFromFile] stores nothing: the dimensions, the cell
    size and every elevation of a well-formed object are as before. The
    call returns false when the grid has at least one cell, and true when
    it has none. *)
Theorem loadFromFile_blank_file (d : DTM.t) (blank : text) :
  wf d → Forall (λ c, isspace c = true) blank →
  ∃ d', loadFromFile (Some blank) d
        = Some (bool_decide (height_ d = 0 ∨ width_ d = 0), d')
    ∧ getDimensions d' = getDimensions d
    ∧ getCellSize d' = getCellSize d
    ∧ ∀ x y, getElevation d' x y = getElevation d x y.
Proof.
  intros (Hh & Hw & Hg) Hws.
  assert (Hei : extract_int (mk_istream blank false) = (mk_istream [] true, None)).
  { unfold extract_int. cbn [failbit buf].
    pose proof (skipws_spaces blank [] Hws) as Hsk. rewrite app_nil_r in Hsk.
    by rewrite Hsk. }
  unfold loadFromFile. rewrite Hei. unfold extract_int, extract_double.
  cbn [failbit default width_ height_ cell_size_ elevation_data_].
  rewrite (proj2 (Z.ltb_ge (height_ d) 0) Hh), (proj2 (Z.ltb_ge (width_ d) 0) Hw),
    andb_false_r, for_cells_flat.
  rewrite dtm_load_failed_stream; [|done|].
  2:{ intros [y x] [Hy Hx]%elem_of_cells. cbn [fst snd].
      by apply covers_resize. }
  cbn [mbind option_bind]. eexists. split.
  - do 2 f_equal. destruct (cells 0 (height_ d) 0 (width_ d)) as [|p l] eqn:Hc.
    + cbn [negb]. symmetry. apply bool_decide_eq_true.
      destruct (decide (height_ d = 0)) as [|Hh0]; [by left|].
      destruct (decide (width_ d = 0)) as [|Hw0]; [by right|].
      assert (Hin : (0, 0) ∈ cells 0 (height_ d) 0 (width_ d))
        by (apply elem_of_cells; lia).
      rewrite Hc in Hin. by apply elem_of_nil in Hin.
    + cbn [negb]. symmetry. apply bool_decide_eq_false. intros Hz.
      rewrite cells_empty in Hc by lia. done.
  - split_and!; try done. intros x y. unfold getElevation.
    change (isValidCoordinate (with_elevation _ _) x y)
      with (isValidCoordinate d x y).
    destruct (isValidCoordinate d x y) eqn:Hv; [|done].
    apply dtm_isValidCoordinate_true in Hv as [Hx Hy].
    cbn [negb with_elevation elevation_data_]. apply get_resize; try done.
    by apply Hg.
Qed.

Lemma loadFromFile_blank_file_witness :
  DTM.wf Samples.dtm32
  ∧ ∃ d', loadFromFile (Some [newline]) Samples.dtm32 = Some (false, d')
      ∧ getElevation d' 1 1 = Some 0.125%float.
Proof.
  assert (Hwf : wf Samples.dtm32) by (apply dtm_wfb_wf; vm_compute; reflexivity).
  split; [exact Hwf|].
  destruct (loadFromFile_blank_file Samples.dtm32 [newline] Hwf
              ltac:(repeat constructor)) as (d' & Hl & _ & _ & Hget).
  exists d'. split; [exact Hl|]. rewrite Hget. reflexivity.
Defined.

End TerrainFileExtras.

(** ** The update of a cell that is not flagged *)

Section LuoRudyUpdate.
Context `{Libm}.
Import CardiacElectrophysiology CardiacFacts LuoRudyModel LuoRudyFacts.

(** The currents of a cell depend on the values stored for that cell
    only. *)
Lemma lr_currents_ext (m1 m2 : LuoRudyModel.t) y x :
  (GNa_ m1, GK_ m1, GK1_ m1, Gb_ m1, GCaL_ m1)
  = (GNa_ m2, GK_ m2, GK1_ m2, Gb_ m2, GCaL_ m2) →
  Forall2 (λ g1 g2 : grid float, get g1 y x = get g2 y x) (fields m1) (fields m2) →
  calculateIonicCurrents m1 x y = calculateIonicCurrents m2 x y.
Proof.
  intros HG Hf. injection HG as HG1 HG2 HG3 HG4 HG5.
  unfold fields in Hf.
  repeat match goal with
  | Hf : Forall2 _ (_ :: _) (_ :: _) |- _ =>
      apply Forall2_cons in Hf as [? Hf]
  end.
  unfold calculateIonicCurrents.
  by repeat match goal with
  | Heq : get _ y x = get _ y x |- _ => rewrite Heq; clear Heq
  | Heq : _ m1 = _ m2 |- _ => rewrite Heq; clear Heq
  end.
Qed.

Lemma lr_step_cell_exact m0 dV y x st c :
  wf m0 → covers dV (height_ (super m0)) (width_ (super m0)) →
  frame m0 st.1 →
  0 <= y < height_ (super m0) → 0 <= x < width_ (super m0) →
  loop_cell st (y, x) = Some c →
  ∃ st' c', step_cell dV y x st = Some st' ∧ frame m0 st'.1
    ∧ loop_cell st' (y, x) = Some c' ∧ exact_rel m0 dV (y, x) c c'
    ∧ ∀ q, q ≠ (y, x) → loop_cell st' q = loop_cell st q.
Proof.
  intros (Hh & Hw & Hmask & Hf) HdV Hfr Hy Hx Hc.
  destruct st as [m Vn]. simpl in *.
  unfold fields in Hf. rewrite !Forall_cons in Hf.
  destruct Hf as (HV & _ & _ & Hj & _ & Hxs & Hd & Hff & Hfca & _ & _).
  pose proof Hfr as (Hsup & HfV & Hfj & Hfxs & Hfd & Hf_f & Hffca & HfCaSR & Hcond).
  unfold loop_cell in Hc. simpl in Hc.
  destruct (get Vn y x) as [vn|] eqn:Hvn; [|done].
  destruct (get (m_ m) y x) as [mv|] eqn:Hmv; [|done].
  destruct (get (h_ m) y x) as [hv|] eqn:Hhv; [|done].
  destruct (get (xr_ m) y x) as [xr|] eqn:Hxr; [|done].
  destruct (get (Cai_ m) y x) as [ca|] eqn:Hca; [|done].
  simpl in Hc. injection Hc as <-.
  destruct (Hmask y x Hy Hx) as [scar Hscar].
  destruct (HV y x Hy Hx) as [v HvV]. destruct (Hj y x Hy Hx) as [jv Hjv].
  destruct (Hxs y x Hy Hx) as [xsv Hxsv]. destruct (Hd y x Hy Hx) as [dv Hdv].
  destruct (Hff y x Hy Hx) as [fv Hfv]. destruct (Hfca y x Hy Hx) as [fcav Hfcav].
  destruct (HdV y x Hy Hx) as [dvdt Hdvdt].
  unfold step_cell. rewrite Hsup, Hscar. simpl. destruct scar.
  - rewrite HfV, HvV. simpl.
    destruct (set_is_Some Vn y x v) as [Vn' HVn']; [eauto|]. rewrite HVn'. simpl.
    eexists. eexists. split; [done|]. simpl. split; [done|].
    split.
    { unfold loop_cell. simpl.
      rewrite (get_set_eq _ _ _ _ _ HVn'), Hmv, Hhv, Hxr, Hca. done. }
    split. { intros Hno. cbn [fst snd] in Hno. congruence. }
    intros [y' x'] Hne. unfold loop_cell. simpl.
    by rewrite (get_set_ne _ _ _ _ _ _ _ HVn' Hne).
  - destruct (calculateIonicCurrents m x y) as [cur|] eqn:Hcur; cycle 1.
    { exfalso. revert Hcur. unfold calculateIonicCurrents.
      rewrite HfV, Hfj, Hfxs, Hfd, Hf_f, Hffca.
      rewrite HvV, Hca, Hmv, Hhv, Hjv, Hdv, Hfv, Hfcav, Hxr, Hxsv. done. }
    cbn [mbind option_bind]. rewrite HfV.
    repeat first [read_cell | write_cell].
    eexists. eexists. split; [done|]. cbn [fst snd]. split.
    { unfold frame. cbn. done. }
    split.
    { unfold loop_cell. cbn [fst snd with_gates m_ h_ xr_ Cai_].
      repeat read_cell. done. }
    split.
    { intros _ mm Hfrmm Hm' Hh' Hxr' Hca'. cbn [fst snd] in *.
      destruct Hfrmm as (Msup & MV & Mj & Mxs & Md & Mf & Mfca & MCaSR & MG).
      exists cur, dvdt, v. split_and!; try done.
      rewrite <- Hcur. apply lr_currents_ext.
      - destruct_and!. f_equal; congruence.
      - unfold fields. rewrite MV, HfV, Mj, Hfj, Mxs, Hfxs, Md, Hfd, Mf, Hf_f,
          Mfca, Hffca.
        repeat constructor; congruence. }
    intros [y' x'] Hne. unfold loop_cell. cbn [fst snd with_gates m_ h_ xr_ Cai_].
    repeat match goal with
    | Hs : set _ y x _ = Some ?g |- context [get ?g y' x'] =>
        rewrite (get_set_ne _ _ _ _ _ _ _ Hs Hne)
    end. done.
Qed.

End LuoRudyUpdate.

Section TenTusscherUpdate.
Context `{Libm}.
Import CardiacElectrophysiology CardiacFacts TenTusscherModel TenTusscherFacts.

Lemma tt_currents_ext (m1 m2 : TenTusscherModel.t) y x :
  (GNa_ m1, GCaL_ m1, GKr_ m1, GKs_ m1, GK1_ m1, Gto_ m1, GNaCa_ m1, GNaK_ m1)
  = (GNa_ m2, GCaL_ m2, GKr_ m2, GKs_ m2, GK1_ m2, Gto_ m2, GNaCa_ m2, GNaK_ m2) →
  Forall2 (λ g1 g2 : grid float, get g1 y x = get g2 y x) (fields m1) (fields m2) →
  calculateIonicCurrents m1 x y = calculateIonicCurrents m2 x y.
Proof.
  intros HG Hf. injection HG as HG1 HG2 HG3 HG4 HG5 HG6 HG7 HG8.
  unfold fields in Hf.
  repeat match goal with
  | Hf : Forall2 _ (_ :: _) (_ :: _) |- _ =>
      apply Forall2_cons in Hf as [? Hf]
  end.
  unfold calculateIonicCurrents.
  by repeat match goal with
  | Heq : get _ y x = get _ y x |- _ => rewrite Heq; clear Heq
  | Heq : _ m1 = _ m2 |- _ => rewrite Heq; clear Heq
  end.
Qed.

Lemma tt_step_cell_exact m0 dV y x st c :
  wf m0 → covers dV (height_ (super m0)) (width_ (super m0)) →
  frame m0 st.1 →
  0 <= y < height_ (super m0) → 0 <= x < width_ (super m0) →
  loop_cell st (y, x) = Some c →
  ∃ st' c', step_cell dV y x st = Some st' ∧ frame m0 st'.1
    ∧ loop_cell st' (y, x) = Some c' ∧ exact_rel m0 dV (y, x) c c'
    ∧ ∀ q, q ≠ (y, x) → loop_cell st' q = loop_cell st q.
Proof.
  intros (Hh & Hw & Hmask & Hf) HdV Hfr Hy Hx Hc.
  destruct st as [m Vn]. simpl in *.
  unfold fields in Hf. rewrite !Forall_cons in Hf.
  destruct Hf as (HV & _ & Hhh & Hj & Hoa & Hoi & Hd & Hff & Hfca & _ & Hvv
                  & _ & HNai & HKi & _).
  pose proof Hfr as (Hsup & HfV & Hfh & Hfj & Hfoa & Hfoi & Hfd & Hf_f & Hffca
                   & Hfv & Hfw & HfCaSR & HfCaSS & HfNai & HfKi & Hcond).
  unfold loop_cell in Hc. simpl in Hc.
  destruct (get Vn y x) as [vn|] eqn:Hvn; [|done].
  destruct (get (m_ m) y x) as [mv|] eqn:Hmv; [|done].
  destruct (get (u_ m) y x) as [uv|] eqn:Huv; [|done].
  destruct (get (Cai_ m) y x) as [ca|] eqn:Hca; [|done].
  simpl in Hc. injection Hc as <-.
  destruct (Hmask y x Hy Hx) as [scar Hscar].
  destruct (HV y x Hy Hx) as [v HvV]. destruct (Hhh y x Hy Hx) as [hv Hhv].
  destruct (Hj y x Hy Hx) as [jv Hjv]. destruct (Hoa y x Hy Hx) as [oav Hoav].
  destruct (Hoi y x Hy Hx) as [oiv Hoiv]. destruct (Hd y x Hy Hx) as [dv Hdv].
  destruct (Hff y x Hy Hx) as [fv Hfv']. destruct (Hfca y x Hy Hx) as [fcav Hfcav].
  destruct (Hvv y x Hy Hx) as [vv Hvv']. destruct (HNai y x Hy Hx) as [nai Hnai].
  destruct (HKi y x Hy Hx) as [ki Hki].
  destruct (HdV y x Hy Hx) as [dvdt Hdvdt].
  unfold step_cell. rewrite Hsup, Hscar. simpl. destruct scar.
  - rewrite HfV, HvV. simpl.
    destruct (set_is_Some Vn y x v) as [Vn' HVn']; [eauto|]. rewrite HVn'. simpl.
    eexists. eexists. split; [done|]. simpl. split; [done|].
    split.
    { unfold loop_cell. simpl.
      rewrite (get_set_eq _ _ _ _ _ HVn'), Hmv, Huv, Hca. done. }
    split. { intros Hno. cbn [fst snd] in Hno. congruence. }
    intros [y' x'] Hne. unfold loop_cell. simpl.
    by rewrite (get_set_ne _ _ _ _ _ _ _ HVn' Hne).
  - destruct (calculateIonicCurrents m x y) as [cur|] eqn:Hcur; cycle 1.
    { exfalso. revert Hcur. unfold calculateIonicCurrents.
      rewrite HfV, Hfh, Hfj, Hfoa, Hfoi, Hfd, Hf_f, Hffca, Hfv, HfNai, HfKi.
      rewrite HvV, Hca, Hnai, Hki, Hmv, Hhv, Hjv, Hdv, Hfv', Hfcav, Huv, Hvv',
        Hoav, Hoiv. done. }
    cbn [mbind option_bind]. rewrite HfV.
    repeat first [read_cell | write_cell].
    eexists. eexists. split; [done|]. cbn [fst snd]. split.
    { unfold frame. cbn. done. }
    split.
    { unfold loop_cell. cbn [fst snd with_gates m_ u_ Cai_].
      repeat read_cell. done. }
    split.
    { intros _ mm Hfrmm Hm' Hu' Hca'. cbn [fst snd] in *.
      destruct Hfrmm as (Msup & MV & Mh & Mj & Moa & Moi & Md & Mf & Mfca
                         & Mv & Mw & MCaSR & MCaSS & MNai & MKi & MG).
      exists cur, dvdt, v. split_and!; try done.
      rewrite <- Hcur. apply tt_currents_ext.
      - destruct_and!. f_equal; congruence.
      - unfold fields. rewrite MV, HfV, Mh, Hfh, Mj, Hfj, Moa, Hfoa, Moi, Hfoi,
          Md, Hfd, Mf, Hf_f, Mfca, Hffca, Mv, Hfv, MNai, HfNai, MKi, HfKi.
        repeat constructor; congruence. }
    intros [y' x'] Hne. unfold loop_cell. cbn [fst snd with_gates m_ u_ Cai_].
    repeat match goal with
    | Hs : set _ y x _ = Some ?g |- context [get ?g y' x'] =>
        rewrite (get_set_ne _ _ _ _ _ _ _ Hs Hne)
    end. done.
Qed.

End TenTusscherUpdate.

Section LuoRudyUpdateExtras.
Import CardiacElectrophysiology CardiacFacts LuoRudyModel LuoRudyFacts.

(** X24. One [LuoRudyModel::step] on an object whose grids cover the
    rectangle updates every cell that is not flagged from the state before
    the step alone, whatever cells the loop has already rewritten: the new
    potential is [V + -(I_total + D) * dt_], with [I_total] the sum of the
    six currents of the cell before the step and [D] the cell's entry of
    the diffusion buffer inside the negated sum; [m_], [h_] and [xr_]
    advance by one explicit step from the old potential; [Cai_] advances
    from the old [ICaL] and is then clamped. *)
Theorem luo_rudy_step_cell_update `{Libm} (m m' : LuoRudyModel.t) :
  wf m → step m = Some m' →
  ∃ dV,
    applyDiffusion (super m) (V_ m)
      (filled (height_ (super m)) (width_ (super m)) 0.0%float) = Some dV
    ∧ ∀ y x, 0 <= y < height_ (super m) → 0 <= x < width_ (super m) →
        get (mi_region_ (super m)) y x = Some false →
        ∃ cur D V mv hv xr ca,
          calculateIonicCurrents m x y = Some cur ∧ get dV y x = Some D
          ∧ get (V_ m) y x = Some V ∧ get (m_ m) y x = Some mv
          ∧ get (h_ m) y x = Some hv ∧ get (xr_ m) y x = Some xr
          ∧ get (Cai_ m) y x = Some ca
          ∧ get (V_ m') y x
            = Some (V + - (total_current cur + D) * dt_ (super m))%float
          ∧ get (m_ m') y x = Some (next_m (dt_ (super m)) V mv)
          ∧ get (h_ m') y x = Some (next_h (dt_ (super m)) V hv)
          ∧ get (xr_ m') y x = Some (next_xr (dt_ (super m)) V xr)
          ∧ get (Cai_ m') y x
            = Some (next_Cai (dt_ (super m)) (map_get "ICaL" cur) ca).
Proof.
  intros Hwf Hstep. pose proof Hwf as (Hh & Hw & Hmask & Hf).
  unfold fields in Hf. rewrite !Forall_cons in Hf.
  destruct Hf as (HV & Hm & Hhh & Hj & Hxr & Hxs & Hd & Hff & Hfca & HCai & _).
  destruct (cardiac_applyDiffusion_cells (super m) (V_ m) _ Hmask HV
              (covers_filled (height_ (super m)) (width_ (super m)) 0.0%float))
    as (dV & HdV & HcdV & _).
  exists dV. split; [done|].
  revert Hstep. unfold step. rewrite !fresh_Some by done.
  cbn [mbind option_bind]. rewrite HdV. cbn [mbind option_bind].
  rewrite for_cells_flat.
  destruct (for_loop_local loop_cell (λ p, step_cell dV p.1 p.2) (exact_rel m dV)
              (λ st, frame m st.1)
              (cells 0 (height_ (super m)) 0 (width_ (super m))))
    with (s := (m, filled (height_ (super m)) (width_ (super m)) 0.0%float))
    as ([m1 Vn1] & Hloop & Hfr & Hin & _).
  - intros [y x] st c [Hy Hx]%elem_of_cells Hinv Hc. cbn [fst snd].
    by apply lr_step_cell_exact.
  - apply NoDup_cells.
  - unfold frame. done.
  - intros [y x] [Hy Hx]%elem_of_cells.
    destruct (Hm y x Hy Hx) as [? ?]. destruct (Hhh y x Hy Hx) as [? ?].
    destruct (Hxr y x Hy Hx) as [? ?]. destruct (HCai y x Hy Hx) as [? ?].
    eexists (_, _, _, _, _). apply lr_loop_cell_Some. cbn [fst snd].
    rewrite get_filled by done. done.
  - rewrite Hloop. cbn [mbind option_bind]. intros [= <-].
    intros y x Hy Hx Hscar.
    destruct (Hin (y, x)) as (c & c' & Hc%lr_loop_cell_Some & Hc'%lr_loop_cell_Some & Hrel);
      [by apply elem_of_cells|].
    cbn [fst snd] in Hc, Hc'.
    destruct Hc as (_ & Hmv & Hhv & Hxrv & Hca).
    destruct Hc' as (Hvn' & Hmv' & Hhv' & Hxrv' & Hca').
    unfold exact_rel in Hrel. cbn [fst snd] in Hrel.
    destruct (Hrel Hscar m) as (cur & D & V & Hcur & HD & HVv & Hc');
      [by unfold frame|done..|].
    cbn [fst snd] in *.
    exists cur, D, V, c.1.1.1.2, c.1.1.2, c.1.2, c.2.
    cbn [commit V_ m_ h_ xr_ Cai_].
    rewrite Hc' in Hvn', Hmv', Hhv', Hxrv', Hca'. cbn [fst snd] in *.
    split_and!; done.
Qed.

Lemma luo_rudy_step_cell_update_witness :
  ∃ m', LuoRudyModel.step (H := Samples.libm_sample) Samples.lr43 = Some m'
    ∧ get (m_ m') 1 2
      = Some (next_m (H := Samples.libm_sample) 0.01 (-84.0) 0.0)%float.
Proof.
  assert (Hwf : wf Samples.lr43)
    by (apply LuoRudyFacts.lr_wfb_wf; vm_compute; reflexivity).
  destruct (@LuoRudyFacts.lr_step_cells Samples.libm_sample Samples.lr43 Hwf)
    as (dV0 & m' & _ & Hstep & _).
  exists m'. split; [exact Hstep|].
  destruct (@luo_rudy_step_cell_update Samples.libm_sample Samples.lr43 m' Hwf Hstep)
    as (dV & _ & Hcell).
  destruct (Hcell 1 2 ltac:(simpl; lia) ltac:(simpl; lia) eq_refl)
    as (cur & D & V & mv & hv & xr & ca & _ & _ & HV & Hm & _ & _ & _ & _ & Hm' & _).
  injection HV as <-. injection Hm as <-. exact Hm'.
Defined.

End LuoRudyUpdateExtras.

Section TenTusscherUpdateExtras.
Import CardiacElectrophysiology CardiacFacts TenTusscherModel TenTusscherFacts.

(** X25. One [TenTusscherModel::step] on an object whose grids cover the
    rectangle updates every cell that is not flagged from the state before
    the step alone: the new potential is [V + -(I_total + D) * dt_], with
    [I_total] the sum of the eight currents of the cell before the step and
    [D] the cell's entry of the diffusion buffer inside the negated sum;
    [m_] and [u_] advance by one explicit step from the old potential;
    [Cai_] advances from the old [ICaL] and is then clamped. *)
Theorem ten_tusscher_step_cell_update `{Libm} (m m' : TenTusscherModel.t) :
  wf m → step m = Some m' →
  ∃ dV,
    applyDiffusion (super m) (V_ m)
      (filled (height_ (super m)) (width_ (super m)) 0.0%float) = Some dV
    ∧ ∀ y x, 0 <= y < height_ (super m) → 0 <= x < width_ (super m) →
        get (mi_region_ (super m)) y x = Some false →
        ∃ cur D V mv uv ca,
          calculateIonicCurrents m x y = Some cur ∧ get dV y x = Some D
          ∧ get (V_ m) y x = Some V ∧ get (m_ m) y x = Some mv
          ∧ get (u_ m) y x = Some uv ∧ get (Cai_ m) y x = Some ca
          ∧ get (V_ m') y x
            = Some (V + - (total_current cur + D) * dt_ (super m))%float
          ∧ get (m_ m') y x = Some (next_m (dt_ (super m)) V mv)
          ∧ get (u_ m') y x = Some (next_u (dt_ (super m)) V uv)
          ∧ get (Cai_ m') y x
            = Some (next_Cai (dt_ (super m)) (map_get "ICaL" cur) ca).
Proof.
  intros Hwf Hstep. pose proof Hwf as (Hh & Hw & Hmask & Hf).
  unfold fields in Hf. rewrite !Forall_cons in Hf.
  destruct Hf as (HV & Hm & _ & _ & _ & _ & _ & _ & _ & Hu & _ & HCai & _).
  destruct (cardiac_applyDiffusion_cells (super m) (V_ m) _ Hmask HV
              (covers_filled (height_ (super m)) (width_ (super m)) 0.0%float))
    as (dV & HdV & HcdV & _).
  exists dV. split; [done|].
  revert Hstep. unfold step. rewrite !fresh_Some by done.
  cbn [mbind option_bind]. rewrite HdV. cbn [mbind option_bind].
  rewrite for_cells_flat.
  destruct (for_loop_local loop_cell (λ p, step_cell dV p.1 p.2) (exact_rel m dV)
              (λ st, frame m st.1)
              (cells 0 (height_ (super m)) 0 (width_ (super m))))
    with (s := (m, filled (height_ (super m)) (width_ (super m)) 0.0%float))
    as ([m1 Vn1] & Hloop & Hfr & Hin & _).
  - intros [y x] st c [Hy Hx]%elem_of_cells Hinv Hc. cbn [fst snd].
    by apply tt_step_cell_exact.
  - apply NoDup_cells.
  - unfold frame. done.
  - intros [y x] [Hy Hx]%elem_of_cells.
    destruct (Hm y x Hy Hx) as [? ?]. destruct (Hu y x Hy Hx) as [? ?].
    destruct (HCai y x Hy Hx) as [? ?].
    eexists (_, _, _, _). apply tt_loop_cell_Some. cbn [fst snd].
    rewrite get_filled by done. done.
  - rewrite Hloop. cbn [mbind option_bind]. intros [= <-].
    intros y x Hy Hx Hscar.
    destruct (Hin (y, x)) as (c & c' & Hc%tt_loop_cell_Some & Hc'%tt_loop_cell_Some & Hrel);
      [by apply elem_of_cells|].
    cbn [fst snd] in Hc, Hc'.
    destruct Hc as (_ & Hmv & Huv & Hca).
    destruct Hc' as (Hvn' & Hmv' & Huv' & Hca').
    unfold exact_rel in Hrel. cbn [fst snd] in Hrel.
    destruct (Hrel Hscar m) as (cur & D & V & Hcur & HD & HVv & Hc');
      [by unfold frame|done..|].
    cbn [fst snd] in *.
    exists cur, D, V, c.1.1.2, c.1.2, c.2.
    cbn [commit V_ m_ u_ Cai_].
    rewrite Hc' in Hvn', Hmv', Huv', Hca'. cbn [fst snd] in *.
    split_and!; done.
Qed.

Lemma ten_tusscher_step_cell_update_witness :
  ∃ m', TenTusscherModel.step (H := Samples.libm_sample) Samples.tt43 = Some m'
    ∧ get (u_ m') 1 2
      = Some (next_u (H := Samples.libm_sample) 0.01 (-86.2) 0.0)%float.
Proof.
  assert (Hwf : wf Samples.tt43)
    by (apply TenTusscherFacts.tt_wfb_wf; vm_compute; reflexivity).
  destruct (@TenTusscherFacts.tt_step_cells Samples.libm_sample Samples.tt43 Hwf)
    as (dV0 & m' & _ & Hstep & _).
  exists m'. split; [exact Hstep|].
  destruct (@ten_tusscher_step_cell_update Samples.libm_sample Samples.tt43 m' Hwf Hstep)
    as (dV & _ & Hcell).
  destruct (Hcell 1 2 ltac:(simpl; lia) ltac:(simpl; lia) eq_refl)
    as (cur & D & V & mv & uv & ca & _ & _ & HV & Hm & Hu & _ & _ & _ & Hu' & _).
  injection HV as <-. injection Hu as <-. exact Hu'.
Defined.

End TenTusscherUpdateExtras.
